(** * PasteKitLab: content classification and reversible transform engine

    A shallow embedding of the engine of the PasteKitLab browser extension:
    - [EncodingUtils], [AESCipher] (cipher utilities, [cipherutils]),
    - [analyzePrintableCharacters] ([textutils.js]),
    - [decodeHex] (encode tool),
    - [isLikelyRSACipher] and [detectContentType] (popup).

    JavaScript strings are sequences of UTF-16 code units, numbers are [Z].
    Case conversion is that of the Unicode Standard ([Unicode]).
    Exceptions are values of the [result] type.  The third-party primitives
    the engine calls (CryptoJS encoders, the block cipher itself, the
    configuration store) are modelled in [CryptoJS] or taken as arguments. *)

From Stdlib Require Import ZArith QArith String Ascii Bool Lia List.
Import ListNotations.
Open Scope Z_scope.

Set Implicit Arguments.

(* ===================================================================== *)
(** ** Unicode case conversion *)
(* ===================================================================== *)

Module Unicode.

(** [String.prototype.toUpperCase] and [toLowerCase] convert a string code
    point by code point with the default case conversion of the Unicode
    Standard: the full case mappings of the Unicode Character Database
    ([UnicodeData.txt] and the entries of [SpecialCasing.txt] that depend
    on no language), and for the capital sigma its one rule of context.
    The tables are those of version 14.0 of the database.

    A row [(first, last, step, delta)] maps every [step]-th code point from
    [first] to [last] to itself plus [delta]; a code point in no row is its
    own image. *)
Definition upperRows : list (Z * Z * Z * Z) := [
  (0x61, 0x7A, 1, -32); (0xB5, 0xB5, 1, 743); (0xE0, 0xF6, 1, -32);
  (0xF8, 0xFE, 1, -32); (0xFF, 0xFF, 1, 121); (0x101, 0x12F, 2, -1);
  (0x131, 0x131, 1, -232); (0x133, 0x137, 2, -1); (0x13A, 0x148, 2, -1);
  (0x14B, 0x177, 2, -1); (0x17A, 0x17E, 2, -1); (0x17F, 0x17F, 1, -300);
  (0x180, 0x180, 1, 195); (0x183, 0x185, 2, -1); (0x188, 0x188, 1, -1);
  (0x18C, 0x18C, 1, -1); (0x192, 0x192, 1, -1); (0x195, 0x195, 1, 97);
  (0x199, 0x199, 1, -1); (0x19A, 0x19A, 1, 163); (0x19E, 0x19E, 1, 130);
  (0x1A1, 0x1A5, 2, -1); (0x1A8, 0x1A8, 1, -1); (0x1AD, 0x1AD, 1, -1);
  (0x1B0, 0x1B0, 1, -1); (0x1B4, 0x1B6, 2, -1); (0x1B9, 0x1B9, 1, -1);
  (0x1BD, 0x1BD, 1, -1); (0x1BF, 0x1BF, 1, 56); (0x1C5, 0x1C5, 1, -1);
  (0x1C6, 0x1C6, 1, -2); (0x1C8, 0x1C8, 1, -1); (0x1C9, 0x1C9, 1, -2);
  (0x1CB, 0x1CB, 1, -1); (0x1CC, 0x1CC, 1, -2); (0x1CE, 0x1DC, 2, -1);
  (0x1DD, 0x1DD, 1, -79); (0x1DF, 0x1EF, 2, -1); (0x1F2, 0x1F2, 1, -1);
  (0x1F3, 0x1F3, 1, -2); (0x1F5, 0x1F5, 1, -1); (0x1F9, 0x21F, 2, -1);
  (0x223, 0x233, 2, -1); (0x23C, 0x23C, 1, -1); (0x23F, 0x240, 1, 10815);
  (0x242, 0x242, 1, -1); (0x247, 0x24F, 2, -1); (0x250, 0x250, 1, 10783);
  (0x251, 0x251, 1, 10780); (0x252, 0x252, 1, 10782); (0x253, 0x253, 1, -210);
  (0x254, 0x254, 1, -206); (0x256, 0x257, 1, -205); (0x259, 0x259, 1, -202);
  (0x25B, 0x25B, 1, -203); (0x25C, 0x25C, 1, 42319); (0x260, 0x260, 1, -205);
  (0x261, 0x261, 1, 42315); (0x263, 0x263, 1, -207); (0x265, 0x265, 1, 42280);
  (0x266, 0x266, 1, 42308); (0x268, 0x268, 1, -209); (0x269, 0x269, 1, -211);
  (0x26A, 0x26A, 1, 42308); (0x26B, 0x26B, 1, 10743);
  (0x26C, 0x26C, 1, 42305); (0x26F, 0x26F, 1, -211); (0x271, 0x271, 1, 10749);
  (0x272, 0x272, 1, -213); (0x275, 0x275, 1, -214); (0x27D, 0x27D, 1, 10727);
  (0x280, 0x280, 1, -218); (0x282, 0x282, 1, 42307); (0x283, 0x283, 1, -218);
  (0x287, 0x287, 1, 42282); (0x288, 0x288, 1, -218); (0x289, 0x289, 1, -69);
  (0x28A, 0x28B, 1, -217); (0x28C, 0x28C, 1, -71); (0x292, 0x292, 1, -219);
  (0x29D, 0x29D, 1, 42261); (0x29E, 0x29E, 1, 42258); (0x345, 0x345, 1, 84);
  (0x371, 0x373, 2, -1); (0x377, 0x377, 1, -1); (0x37B, 0x37D, 1, 130);
  (0x3AC, 0x3AC, 1, -38); (0x3AD, 0x3AF, 1, -37); (0x3B1, 0x3C1, 1, -32);
  (0x3C2, 0x3C2, 1, -31); (0x3C3, 0x3CB, 1, -32); (0x3CC, 0x3CC, 1, -64);
  (0x3CD, 0x3CE, 1, -63); (0x3D0, 0x3D0, 1, -62); (0x3D1, 0x3D1, 1, -57);
  (0x3D5, 0x3D5, 1, -47); (0x3D6, 0x3D6, 1, -54); (0x3D7, 0x3D7, 1, -8);
  (0x3D9, 0x3EF, 2, -1); (0x3F0, 0x3F0, 1, -86); (0x3F1, 0x3F1, 1, -80);
  (0x3F2, 0x3F2, 1, 7); (0x3F3, 0x3F3, 1, -116); (0x3F5, 0x3F5, 1, -96);
  (0x3F8, 0x3F8, 1, -1); (0x3FB, 0x3FB, 1, -1); (0x430, 0x44F, 1, -32);
  (0x450, 0x45F, 1, -80); (0x461, 0x481, 2, -1); (0x48B, 0x4BF, 2, -1);
  (0x4C2, 0x4CE, 2, -1); (0x4CF, 0x4CF, 1, -15); (0x4D1, 0x52F, 2, -1);
  (0x561, 0x586, 1, -48); (0x10D0, 0x10FA, 1, 3008);
  (0x10FD, 0x10FF, 1, 3008); (0x13F8, 0x13FD, 1, -8);
  (0x1C80, 0x1C80, 1, -6254); (0x1C81, 0x1C81, 1, -6253);
  (0x1C82, 0x1C82, 1, -6244); (0x1C83, 0x1C84, 1, -6242);
  (0x1C85, 0x1C85, 1, -6243); (0x1C86, 0x1C86, 1, -6236);
  (0x1C87, 0x1C87, 1, -6181); (0x1C88, 0x1C88, 1, 35266);
  (0x1D79, 0x1D79, 1, 35332); (0x1D7D, 0x1D7D, 1, 3814);
  (0x1D8E, 0x1D8E, 1, 35384); (0x1E01, 0x1E95, 2, -1);
  (0x1E9B, 0x1E9B, 1, -59); (0x1EA1, 0x1EFF, 2, -1); (0x1F00, 0x1F07, 1, 8);
  (0x1F10, 0x1F15, 1, 8); (0x1F20, 0x1F27, 1, 8); (0x1F30, 0x1F37, 1, 8);
  (0x1F40, 0x1F45, 1, 8); (0x1F51, 0x1F57, 2, 8); (0x1F60, 0x1F67, 1, 8);
  (0x1F70, 0x1F71, 1, 74); (0x1F72, 0x1F75, 1, 86); (0x1F76, 0x1F77, 1, 100);
  (0x1F78, 0x1F79, 1, 128); (0x1F7A, 0x1F7B, 1, 112);
  (0x1F7C, 0x1F7D, 1, 126); (0x1FB0, 0x1FB1, 1, 8);
  (0x1FBE, 0x1FBE, 1, -7205); (0x1FD0, 0x1FD1, 1, 8); (0x1FE0, 0x1FE1, 1, 8);
  (0x1FE5, 0x1FE5, 1, 7); (0x214E, 0x214E, 1, -28); (0x2170, 0x217F, 1, -16);
  (0x2184, 0x2184, 1, -1); (0x24D0, 0x24E9, 1, -26); (0x2C30, 0x2C5F, 1, -48);
  (0x2C61, 0x2C61, 1, -1); (0x2C65, 0x2C65, 1, -10795);
  (0x2C66, 0x2C66, 1, -10792); (0x2C68, 0x2C6C, 2, -1);
  (0x2C73, 0x2C73, 1, -1); (0x2C76, 0x2C76, 1, -1); (0x2C81, 0x2CE3, 2, -1);
  (0x2CEC, 0x2CEE, 2, -1); (0x2CF3, 0x2CF3, 1, -1);
  (0x2D00, 0x2D25, 1, -7264); (0x2D27, 0x2D27, 1, -7264);
  (0x2D2D, 0x2D2D, 1, -7264); (0xA641, 0xA66D, 2, -1);
  (0xA681, 0xA69B, 2, -1); (0xA723, 0xA72F, 2, -1); (0xA733, 0xA76F, 2, -1);
  (0xA77A, 0xA77C, 2, -1); (0xA77F, 0xA787, 2, -1); (0xA78C, 0xA78C, 1, -1);
  (0xA791, 0xA793, 2, -1); (0xA794, 0xA794, 1, 48); (0xA797, 0xA7A9, 2, -1);
  (0xA7B5, 0xA7C3, 2, -1); (0xA7C8, 0xA7CA, 2, -1); (0xA7D1, 0xA7D1, 1, -1);
  (0xA7D7, 0xA7D9, 2, -1); (0xA7F6, 0xA7F6, 1, -1); (0xAB53, 0xAB53, 1, -928);
  (0xAB70, 0xABBF, 1, -38864); (0xFF41, 0xFF5A, 1, -32);
  (0x10428, 0x1044F, 1, -40); (0x104D8, 0x104FB, 1, -40);
  (0x10597, 0x105BB, 2, -39); (0x10598, 0x105A1, 1, -39);
  (0x105A4, 0x105B1, 1, -39); (0x105B4, 0x105B9, 1, -39);
  (0x105BC, 0x105BC, 1, -39); (0x10CC0, 0x10CF2, 1, -64);
  (0x118C0, 0x118DF, 1, -32); (0x16E60, 0x16E7F, 1, -32);
  (0x1E922, 0x1E943, 1, -34) ].

(** The code points whose upper case is more than one code point. *)
Definition upperSpecial : list (Z * list Z) := [
  (0xDF, [0x53; 0x53]); (0x149, [0x2BC; 0x4E]); (0x1F0, [0x4A; 0x30C]);
  (0x390, [0x399; 0x308; 0x301]); (0x3B0, [0x3A5; 0x308; 0x301]);
  (0x587, [0x535; 0x552]); (0x1E96, [0x48; 0x331]); (0x1E97, [0x54; 0x308]);
  (0x1E98, [0x57; 0x30A]); (0x1E99, [0x59; 0x30A]); (0x1E9A, [0x41; 0x2BE]);
  (0x1F50, [0x3A5; 0x313]); (0x1F52, [0x3A5; 0x313; 0x300]);
  (0x1F54, [0x3A5; 0x313; 0x301]); (0x1F56, [0x3A5; 0x313; 0x342]);
  (0x1F80, [0x1F08; 0x399]); (0x1F81, [0x1F09; 0x399]);
  (0x1F82, [0x1F0A; 0x399]); (0x1F83, [0x1F0B; 0x399]);
  (0x1F84, [0x1F0C; 0x399]); (0x1F85, [0x1F0D; 0x399]);
  (0x1F86, [0x1F0E; 0x399]); (0x1F87, [0x1F0F; 0x399]);
  (0x1F88, [0x1F08; 0x399]); (0x1F89, [0x1F09; 0x399]);
  (0x1F8A, [0x1F0A; 0x399]); (0x1F8B, [0x1F0B; 0x399]);
  (0x1F8C, [0x1F0C; 0x399]); (0x1F8D, [0x1F0D; 0x399]);
  (0x1F8E, [0x1F0E; 0x399]); (0x1F8F, [0x1F0F; 0x399]);
  (0x1F90, [0x1F28; 0x399]); (0x1F91, [0x1F29; 0x399]);
  (0x1F92, [0x1F2A; 0x399]); (0x1F93, [0x1F2B; 0x399]);
  (0x1F94, [0x1F2C; 0x399]); (0x1F95, [0x1F2D; 0x399]);
  (0x1F96, [0x1F2E; 0x399]); (0x1F97, [0x1F2F; 0x399]);
  (0x1F98, [0x1F28; 0x399]); (0x1F99, [0x1F29; 0x399]);
  (0x1F9A, [0x1F2A; 0x399]); (0x1F9B, [0x1F2B; 0x399]);
  (0x1F9C, [0x1F2C; 0x399]); (0x1F9D, [0x1F2D; 0x399]);
  (0x1F9E, [0x1F2E; 0x399]); (0x1F9F, [0x1F2F; 0x399]);
  (0x1FA0, [0x1F68; 0x399]); (0x1FA1, [0x1F69; 0x399]);
  (0x1FA2, [0x1F6A; 0x399]); (0x1FA3, [0x1F6B; 0x399]);
  (0x1FA4, [0x1F6C; 0x399]); (0x1FA5, [0x1F6D; 0x399]);
  (0x1FA6, [0x1F6E; 0x399]); (0x1FA7, [0x1F6F; 0x399]);
  (0x1FA8, [0x1F68; 0x399]); (0x1FA9, [0x1F69; 0x399]);
  (0x1FAA, [0x1F6A; 0x399]); (0x1FAB, [0x1F6B; 0x399]);
  (0x1FAC, [0x1F6C; 0x399]); (0x1FAD, [0x1F6D; 0x399]);
  (0x1FAE, [0x1F6E; 0x399]); (0x1FAF, [0x1F6F; 0x399]);
  (0x1FB2, [0x1FBA; 0x399]); (0x1FB3, [0x391; 0x399]);
  (0x1FB4, [0x386; 0x399]); (0x1FB6, [0x391; 0x342]);
  (0x1FB7, [0x391; 0x342; 0x399]); (0x1FBC, [0x391; 0x399]);
  (0x1FC2, [0x1FCA; 0x399]); (0x1FC3, [0x397; 0x399]);
  (0x1FC4, [0x389; 0x399]); (0x1FC6, [0x397; 0x342]);
  (0x1FC7, [0x397; 0x342; 0x399]); (0x1FCC, [0x397; 0x399]);
  (0x1FD2, [0x399; 0x308; 0x300]); (0x1FD3, [0x399; 0x308; 0x301]);
  (0x1FD6, [0x399; 0x342]); (0x1FD7, [0x399; 0x308; 0x342]);
  (0x1FE2, [0x3A5; 0x308; 0x300]); (0x1FE3, [0x3A5; 0x308; 0x301]);
  (0x1FE4, [0x3A1; 0x313]); (0x1FE6, [0x3A5; 0x342]);
  (0x1FE7, [0x3A5; 0x308; 0x342]); (0x1FF2, [0x1FFA; 0x399]);
  (0x1FF3, [0x3A9; 0x399]); (0x1FF4, [0x38F; 0x399]);
  (0x1FF6, [0x3A9; 0x342]); (0x1FF7, [0x3A9; 0x342; 0x399]);
  (0x1FFC, [0x3A9; 0x399]); (0xFB00, [0x46; 0x46]); (0xFB01, [0x46; 0x49]);
  (0xFB02, [0x46; 0x4C]); (0xFB03, [0x46; 0x46; 0x49]);
  (0xFB04, [0x46; 0x46; 0x4C]); (0xFB05, [0x53; 0x54]);
  (0xFB06, [0x53; 0x54]); (0xFB13, [0x544; 0x546]); (0xFB14, [0x544; 0x535]);
  (0xFB15, [0x544; 0x53B]); (0xFB16, [0x54E; 0x546]); (0xFB17, [0x544; 0x53D]) ].

Definition lowerRows : list (Z * Z * Z * Z) := [
  (0x41, 0x5A, 1, 32); (0xC0, 0xD6, 1, 32); (0xD8, 0xDE, 1, 32);
  (0x100, 0x12E, 2, 1); (0x132, 0x136, 2, 1); (0x139, 0x147, 2, 1);
  (0x14A, 0x176, 2, 1); (0x178, 0x178, 1, -121); (0x179, 0x17D, 2, 1);
  (0x181, 0x181, 1, 210); (0x182, 0x184, 2, 1); (0x186, 0x186, 1, 206);
  (0x187, 0x187, 1, 1); (0x189, 0x18A, 1, 205); (0x18B, 0x18B, 1, 1);
  (0x18E, 0x18E, 1, 79); (0x18F, 0x18F, 1, 202); (0x190, 0x190, 1, 203);
  (0x191, 0x191, 1, 1); (0x193, 0x193, 1, 205); (0x194, 0x194, 1, 207);
  (0x196, 0x196, 1, 211); (0x197, 0x197, 1, 209); (0x198, 0x198, 1, 1);
  (0x19C, 0x19C, 1, 211); (0x19D, 0x19D, 1, 213); (0x19F, 0x19F, 1, 214);
  (0x1A0, 0x1A4, 2, 1); (0x1A6, 0x1A6, 1, 218); (0x1A7, 0x1A7, 1, 1);
  (0x1A9, 0x1A9, 1, 218); (0x1AC, 0x1AC, 1, 1); (0x1AE, 0x1AE, 1, 218);
  (0x1AF, 0x1AF, 1, 1); (0x1B1, 0x1B2, 1, 217); (0x1B3, 0x1B5, 2, 1);
  (0x1B7, 0x1B7, 1, 219); (0x1B8, 0x1B8, 1, 1); (0x1BC, 0x1BC, 1, 1);
  (0x1C4, 0x1C4, 1, 2); (0x1C5, 0x1C5, 1, 1); (0x1C7, 0x1C7, 1, 2);
  (0x1C8, 0x1C8, 1, 1); (0x1CA, 0x1CA, 1, 2); (0x1CB, 0x1DB, 2, 1);
  (0x1DE, 0x1EE, 2, 1); (0x1F1, 0x1F1, 1, 2); (0x1F2, 0x1F4, 2, 1);
  (0x1F6, 0x1F6, 1, -97); (0x1F7, 0x1F7, 1, -56); (0x1F8, 0x21E, 2, 1);
  (0x220, 0x220, 1, -130); (0x222, 0x232, 2, 1); (0x23A, 0x23A, 1, 10795);
  (0x23B, 0x23B, 1, 1); (0x23D, 0x23D, 1, -163); (0x23E, 0x23E, 1, 10792);
  (0x241, 0x241, 1, 1); (0x243, 0x243, 1, -195); (0x244, 0x244, 1, 69);
  (0x245, 0x245, 1, 71); (0x246, 0x24E, 2, 1); (0x370, 0x372, 2, 1);
  (0x376, 0x376, 1, 1); (0x37F, 0x37F, 1, 116); (0x386, 0x386, 1, 38);
  (0x388, 0x38A, 1, 37); (0x38C, 0x38C, 1, 64); (0x38E, 0x38F, 1, 63);
  (0x391, 0x3A1, 1, 32); (0x3A3, 0x3AB, 1, 32); (0x3CF, 0x3CF, 1, 8);
  (0x3D8, 0x3EE, 2, 1); (0x3F4, 0x3F4, 1, -60); (0x3F7, 0x3F7, 1, 1);
  (0x3F9, 0x3F9, 1, -7); (0x3FA, 0x3FA, 1, 1); (0x3FD, 0x3FF, 1, -130);
  (0x400, 0x40F, 1, 80); (0x410, 0x42F, 1, 32); (0x460, 0x480, 2, 1);
  (0x48A, 0x4BE, 2, 1); (0x4C0, 0x4C0, 1, 15); (0x4C1, 0x4CD, 2, 1);
  (0x4D0, 0x52E, 2, 1); (0x531, 0x556, 1, 48); (0x10A0, 0x10C5, 1, 7264);
  (0x10C7, 0x10C7, 1, 7264); (0x10CD, 0x10CD, 1, 7264);
  (0x13A0, 0x13EF, 1, 38864); (0x13F0, 0x13F5, 1, 8);
  (0x1C90, 0x1CBA, 1, -3008); (0x1CBD, 0x1CBF, 1, -3008);
  (0x1E00, 0x1E94, 2, 1); (0x1E9E, 0x1E9E, 1, -7615); (0x1EA0, 0x1EFE, 2, 1);
  (0x1F08, 0x1F0F, 1, -8); (0x1F18, 0x1F1D, 1, -8); (0x1F28, 0x1F2F, 1, -8);
  (0x1F38, 0x1F3F, 1, -8); (0x1F48, 0x1F4D, 1, -8); (0x1F59, 0x1F5F, 2, -8);
  (0x1F68, 0x1F6F, 1, -8); (0x1F88, 0x1F8F, 1, -8); (0x1F98, 0x1F9F, 1, -8);
  (0x1FA8, 0x1FAF, 1, -8); (0x1FB8, 0x1FB9, 1, -8); (0x1FBA, 0x1FBB, 1, -74);
  (0x1FBC, 0x1FBC, 1, -9); (0x1FC8, 0x1FCB, 1, -86); (0x1FCC, 0x1FCC, 1, -9);
  (0x1FD8, 0x1FD9, 1, -8); (0x1FDA, 0x1FDB, 1, -100); (0x1FE8, 0x1FE9, 1, -8);
  (0x1FEA, 0x1FEB, 1, -112); (0x1FEC, 0x1FEC, 1, -7);
  (0x1FF8, 0x1FF9, 1, -128); (0x1FFA, 0x1FFB, 1, -126);
  (0x1FFC, 0x1FFC, 1, -9); (0x2126, 0x2126, 1, -7517);
  (0x212A, 0x212A, 1, -8383); (0x212B, 0x212B, 1, -8262);
  (0x2132, 0x2132, 1, 28); (0x2160, 0x216F, 1, 16); (0x2183, 0x2183, 1, 1);
  (0x24B6, 0x24CF, 1, 26); (0x2C00, 0x2C2F, 1, 48); (0x2C60, 0x2C60, 1, 1);
  (0x2C62, 0x2C62, 1, -10743); (0x2C63, 0x2C63, 1, -3814);
  (0x2C64, 0x2C64, 1, -10727); (0x2C67, 0x2C6B, 2, 1);
  (0x2C6D, 0x2C6D, 1, -10780); (0x2C6E, 0x2C6E, 1, -10749);
  (0x2C6F, 0x2C6F, 1, -10783); (0x2C70, 0x2C70, 1, -10782);
  (0x2C72, 0x2C72, 1, 1); (0x2C75, 0x2C75, 1, 1); (0x2C7E, 0x2C7F, 1, -10815);
  (0x2C80, 0x2CE2, 2, 1); (0x2CEB, 0x2CED, 2, 1); (0x2CF2, 0x2CF2, 1, 1);
  (0xA640, 0xA66C, 2, 1); (0xA680, 0xA69A, 2, 1); (0xA722, 0xA72E, 2, 1);
  (0xA732, 0xA76E, 2, 1); (0xA779, 0xA77B, 2, 1); (0xA77D, 0xA77D, 1, -35332);
  (0xA77E, 0xA786, 2, 1); (0xA78B, 0xA78B, 1, 1); (0xA78D, 0xA78D, 1, -42280);
  (0xA790, 0xA792, 2, 1); (0xA796, 0xA7A8, 2, 1); (0xA7AA, 0xA7AA, 1, -42308);
  (0xA7AB, 0xA7AB, 1, -42319); (0xA7AC, 0xA7AC, 1, -42315);
  (0xA7AD, 0xA7AD, 1, -42305); (0xA7AE, 0xA7AE, 1, -42308);
  (0xA7B0, 0xA7B0, 1, -42258); (0xA7B1, 0xA7B1, 1, -42282);
  (0xA7B2, 0xA7B2, 1, -42261); (0xA7B3, 0xA7B3, 1, 928);
  (0xA7B4, 0xA7C2, 2, 1); (0xA7C4, 0xA7C4, 1, -48);
  (0xA7C5, 0xA7C5, 1, -42307); (0xA7C6, 0xA7C6, 1, -35384);
  (0xA7C7, 0xA7C9, 2, 1); (0xA7D0, 0xA7D0, 1, 1); (0xA7D6, 0xA7D8, 2, 1);
  (0xA7F5, 0xA7F5, 1, 1); (0xFF21, 0xFF3A, 1, 32); (0x10400, 0x10427, 1, 40);
  (0x104B0, 0x104D3, 1, 40); (0x10570, 0x10594, 2, 39);
  (0x10571, 0x1057A, 1, 39); (0x1057D, 0x1058A, 1, 39);
  (0x1058D, 0x10592, 1, 39); (0x10595, 0x10595, 1, 39);
  (0x10C80, 0x10CB2, 1, 64); (0x118A0, 0x118BF, 1, 32);
  (0x16E40, 0x16E5F, 1, 32); (0x1E900, 0x1E921, 1, 34) ].

(** The one code point whose lower case is more than one code point. *)
Definition lowerSpecial : list (Z * list Z) := [
  (0x130, [0x69; 0x307]) ].

(** The properties [Cased] and [Case_Ignorable], as ranges of code points. *)
Definition cased : list (Z * Z) := [
  (0x41, 0x5A); (0x61, 0x7A); (0xAA, 0xAA); (0xB5, 0xB5); (0xBA, 0xBA);
  (0xC0, 0xD6); (0xD8, 0xF6); (0xF8, 0x1BA); (0x1BC, 0x1BF); (0x1C4, 0x293);
  (0x295, 0x2B8); (0x2C0, 0x2C1); (0x2E0, 0x2E4); (0x345, 0x345);
  (0x370, 0x373); (0x376, 0x377); (0x37A, 0x37D); (0x37F, 0x37F);
  (0x386, 0x386); (0x388, 0x38A); (0x38C, 0x38C); (0x38E, 0x3A1);
  (0x3A3, 0x3F5); (0x3F7, 0x481); (0x48A, 0x52F); (0x531, 0x556);
  (0x560, 0x588); (0x10A0, 0x10C5); (0x10C7, 0x10C7); (0x10CD, 0x10CD);
  (0x10D0, 0x10FA); (0x10FD, 0x10FF); (0x13A0, 0x13F5); (0x13F8, 0x13FD);
  (0x1C80, 0x1C88); (0x1C90, 0x1CBA); (0x1CBD, 0x1CBF); (0x1D00, 0x1DBF);
  (0x1E00, 0x1F15); (0x1F18, 0x1F1D); (0x1F20, 0x1F45); (0x1F48, 0x1F4D);
  (0x1F50, 0x1F57); (0x1F59, 0x1F59); (0x1F5B, 0x1F5B); (0x1F5D, 0x1F5D);
  (0x1F5F, 0x1F7D); (0x1F80, 0x1FB4); (0x1FB6, 0x1FBC); (0x1FBE, 0x1FBE);
  (0x1FC2, 0x1FC4); (0x1FC6, 0x1FCC); (0x1FD0, 0x1FD3); (0x1FD6, 0x1FDB);
  (0x1FE0, 0x1FEC); (0x1FF2, 0x1FF4); (0x1FF6, 0x1FFC); (0x2071, 0x2071);
  (0x207F, 0x207F); (0x2090, 0x209C); (0x2102, 0x2102); (0x2107, 0x2107);
  (0x210A, 0x2113); (0x2115, 0x2115); (0x2119, 0x211D); (0x2124, 0x2124);
  (0x2126, 0x2126); (0x2128, 0x2128); (0x212A, 0x212D); (0x212F, 0x2134);
  (0x2139, 0x2139); (0x213C, 0x213F); (0x2145, 0x2149); (0x214E, 0x214E);
  (0x2160, 0x217F); (0x2183, 0x2184); (0x24B6, 0x24E9); (0x2C00, 0x2CE4);
  (0x2CEB, 0x2CEE); (0x2CF2, 0x2CF3); (0x2D00, 0x2D25); (0x2D27, 0x2D27);
  (0x2D2D, 0x2D2D); (0xA640, 0xA66D); (0xA680, 0xA69D); (0xA722, 0xA787);
  (0xA78B, 0xA78E); (0xA790, 0xA7CA); (0xA7D0, 0xA7D1); (0xA7D3, 0xA7D3);
  (0xA7D5, 0xA7D9); (0xA7F5, 0xA7F6); (0xA7F8, 0xA7FA); (0xAB30, 0xAB5A);
  (0xAB5C, 0xAB68); (0xAB70, 0xABBF); (0xFB00, 0xFB06); (0xFB13, 0xFB17);
  (0xFF21, 0xFF3A); (0xFF41, 0xFF5A); (0x10400, 0x1044F); (0x104B0, 0x104D3);
  (0x104D8, 0x104FB); (0x10570, 0x1057A); (0x1057C, 0x1058A);
  (0x1058C, 0x10592); (0x10594, 0x10595); (0x10597, 0x105A1);
  (0x105A3, 0x105B1); (0x105B3, 0x105B9); (0x105BB, 0x105BC);
  (0x10780, 0x10780); (0x10783, 0x10785); (0x10787, 0x107B0);
  (0x107B2, 0x107BA); (0x10C80, 0x10CB2); (0x10CC0, 0x10CF2);
  (0x118A0, 0x118DF); (0x16E40, 0x16E7F); (0x1D400, 0x1D454);
  (0x1D456, 0x1D49C); (0x1D49E, 0x1D49F); (0x1D4A2, 0x1D4A2);
  (0x1D4A5, 0x1D4A6); (0x1D4A9, 0x1D4AC); (0x1D4AE, 0x1D4B9);
  (0x1D4BB, 0x1D4BB); (0x1D4BD, 0x1D4C3); (0x1D4C5, 0x1D505);
  (0x1D507, 0x1D50A); (0x1D50D, 0x1D514); (0x1D516, 0x1D51C);
  (0x1D51E, 0x1D539); (0x1D53B, 0x1D53E); (0x1D540, 0x1D544);
  (0x1D546, 0x1D546); (0x1D54A, 0x1D550); (0x1D552, 0x1D6A5);
  (0x1D6A8, 0x1D6C0); (0x1D6C2, 0x1D6DA); (0x1D6DC, 0x1D6FA);
  (0x1D6FC, 0x1D714); (0x1D716, 0x1D734); (0x1D736, 0x1D74E);
  (0x1D750, 0x1D76E); (0x1D770, 0x1D788); (0x1D78A, 0x1D7A8);
  (0x1D7AA, 0x1D7C2); (0x1D7C4, 0x1D7CB); (0x1DF00, 0x1DF09);
  (0x1DF0B, 0x1DF1E); (0x1E900, 0x1E943); (0x1F130, 0x1F149);
  (0x1F150, 0x1F169); (0x1F170, 0x1F189) ].

Definition caseIgnorable : list (Z * Z) := [
  (0x27, 0x27); (0x2E, 0x2E); (0x3A, 0x3A); (0x5E, 0x5E); (0x60, 0x60);
  (0xA8, 0xA8); (0xAD, 0xAD); (0xAF, 0xAF); (0xB4, 0xB4); (0xB7, 0xB8);
  (0x2B0, 0x36F); (0x374, 0x375); (0x37A, 0x37A); (0x384, 0x385);
  (0x387, 0x387); (0x483, 0x489); (0x559, 0x559); (0x55F, 0x55F);
  (0x591, 0x5BD); (0x5BF, 0x5BF); (0x5C1, 0x5C2); (0x5C4, 0x5C5);
  (0x5C7, 0x5C7); (0x5F4, 0x5F4); (0x600, 0x605); (0x610, 0x61A);
  (0x61C, 0x61C); (0x640, 0x640); (0x64B, 0x65F); (0x670, 0x670);
  (0x6D6, 0x6DD); (0x6DF, 0x6E8); (0x6EA, 0x6ED); (0x70F, 0x70F);
  (0x711, 0x711); (0x730, 0x74A); (0x7A6, 0x7B0); (0x7EB, 0x7F5);
  (0x7FA, 0x7FA); (0x7FD, 0x7FD); (0x816, 0x82D); (0x859, 0x85B);
  (0x888, 0x888); (0x890, 0x891); (0x898, 0x89F); (0x8C9, 0x902);
  (0x93A, 0x93A); (0x93C, 0x93C); (0x941, 0x948); (0x94D, 0x94D);
  (0x951, 0x957); (0x962, 0x963); (0x971, 0x971); (0x981, 0x981);
  (0x9BC, 0x9BC); (0x9C1, 0x9C4); (0x9CD, 0x9CD); (0x9E2, 0x9E3);
  (0x9FE, 0x9FE); (0xA01, 0xA02); (0xA3C, 0xA3C); (0xA41, 0xA42);
  (0xA47, 0xA48); (0xA4B, 0xA4D); (0xA51, 0xA51); (0xA70, 0xA71);
  (0xA75, 0xA75); (0xA81, 0xA82); (0xABC, 0xABC); (0xAC1, 0xAC5);
  (0xAC7, 0xAC8); (0xACD, 0xACD); (0xAE2, 0xAE3); (0xAFA, 0xAFF);
  (0xB01, 0xB01); (0xB3C, 0xB3C); (0xB3F, 0xB3F); (0xB41, 0xB44);
  (0xB4D, 0xB4D); (0xB55, 0xB56); (0xB62, 0xB63); (0xB82, 0xB82);
  (0xBC0, 0xBC0); (0xBCD, 0xBCD); (0xC00, 0xC00); (0xC04, 0xC04);
  (0xC3C, 0xC3C); (0xC3E, 0xC40); (0xC46, 0xC48); (0xC4A, 0xC4D);
  (0xC55, 0xC56); (0xC62, 0xC63); (0xC81, 0xC81); (0xCBC, 0xCBC);
  (0xCBF, 0xCBF); (0xCC6, 0xCC6); (0xCCC, 0xCCD); (0xCE2, 0xCE3);
  (0xD00, 0xD01); (0xD3B, 0xD3C); (0xD41, 0xD44); (0xD4D, 0xD4D);
  (0xD62, 0xD63); (0xD81, 0xD81); (0xDCA, 0xDCA); (0xDD2, 0xDD4);
  (0xDD6, 0xDD6); (0xE31, 0xE31); (0xE34, 0xE3A); (0xE46, 0xE4E);
  (0xEB1, 0xEB1); (0xEB4, 0xEBC); (0xEC6, 0xEC6); (0xEC8, 0xECD);
  (0xF18, 0xF19); (0xF35, 0xF35); (0xF37, 0xF37); (0xF39, 0xF39);
  (0xF71, 0xF7E); (0xF80, 0xF84); (0xF86, 0xF87); (0xF8D, 0xF97);
  (0xF99, 0xFBC); (0xFC6, 0xFC6); (0x102D, 0x1030); (0x1032, 0x1037);
  (0x1039, 0x103A); (0x103D, 0x103E); (0x1058, 0x1059); (0x105E, 0x1060);
  (0x1071, 0x1074); (0x1082, 0x1082); (0x1085, 0x1086); (0x108D, 0x108D);
  (0x109D, 0x109D); (0x10FC, 0x10FC); (0x135D, 0x135F); (0x1712, 0x1714);
  (0x1732, 0x1733); (0x1752, 0x1753); (0x1772, 0x1773); (0x17B4, 0x17B5);
  (0x17B7, 0x17BD); (0x17C6, 0x17C6); (0x17C9, 0x17D3); (0x17D7, 0x17D7);
  (0x17DD, 0x17DD); (0x180B, 0x180F); (0x1843, 0x1843); (0x1885, 0x1886);
  (0x18A9, 0x18A9); (0x1920, 0x1922); (0x1927, 0x1928); (0x1932, 0x1932);
  (0x1939, 0x193B); (0x1A17, 0x1A18); (0x1A1B, 0x1A1B); (0x1A56, 0x1A56);
  (0x1A58, 0x1A5E); (0x1A60, 0x1A60); (0x1A62, 0x1A62); (0x1A65, 0x1A6C);
  (0x1A73, 0x1A7C); (0x1A7F, 0x1A7F); (0x1AA7, 0x1AA7); (0x1AB0, 0x1ACE);
  (0x1B00, 0x1B03); (0x1B34, 0x1B34); (0x1B36, 0x1B3A); (0x1B3C, 0x1B3C);
  (0x1B42, 0x1B42); (0x1B6B, 0x1B73); (0x1B80, 0x1B81); (0x1BA2, 0x1BA5);
  (0x1BA8, 0x1BA9); (0x1BAB, 0x1BAD); (0x1BE6, 0x1BE6); (0x1BE8, 0x1BE9);
  (0x1BED, 0x1BED); (0x1BEF, 0x1BF1); (0x1C2C, 0x1C33); (0x1C36, 0x1C37);
  (0x1C78, 0x1C7D); (0x1CD0, 0x1CD2); (0x1CD4, 0x1CE0); (0x1CE2, 0x1CE8);
  (0x1CED, 0x1CED); (0x1CF4, 0x1CF4); (0x1CF8, 0x1CF9); (0x1D2C, 0x1D6A);
  (0x1D78, 0x1D78); (0x1D9B, 0x1DFF); (0x1FBD, 0x1FBD); (0x1FBF, 0x1FC1);
  (0x1FCD, 0x1FCF); (0x1FDD, 0x1FDF); (0x1FED, 0x1FEF); (0x1FFD, 0x1FFE);
  (0x200B, 0x200F); (0x2018, 0x2019); (0x2024, 0x2024); (0x2027, 0x2027);
  (0x202A, 0x202E); (0x2060, 0x2064); (0x2066, 0x206F); (0x2071, 0x2071);
  (0x207F, 0x207F); (0x2090, 0x209C); (0x20D0, 0x20F0); (0x2C7C, 0x2C7D);
  (0x2CEF, 0x2CF1); (0x2D6F, 0x2D6F); (0x2D7F, 0x2D7F); (0x2DE0, 0x2DFF);
  (0x2E2F, 0x2E2F); (0x3005, 0x3005); (0x302A, 0x302D); (0x3031, 0x3035);
  (0x303B, 0x303B); (0x3099, 0x309E); (0x30FC, 0x30FE); (0xA015, 0xA015);
  (0xA4F8, 0xA4FD); (0xA60C, 0xA60C); (0xA66F, 0xA672); (0xA674, 0xA67D);
  (0xA67F, 0xA67F); (0xA69C, 0xA69F); (0xA6F0, 0xA6F1); (0xA700, 0xA721);
  (0xA770, 0xA770); (0xA788, 0xA78A); (0xA7F2, 0xA7F4); (0xA7F8, 0xA7F9);
  (0xA802, 0xA802); (0xA806, 0xA806); (0xA80B, 0xA80B); (0xA825, 0xA826);
  (0xA82C, 0xA82C); (0xA8C4, 0xA8C5); (0xA8E0, 0xA8F1); (0xA8FF, 0xA8FF);
  (0xA926, 0xA92D); (0xA947, 0xA951); (0xA980, 0xA982); (0xA9B3, 0xA9B3);
  (0xA9B6, 0xA9B9); (0xA9BC, 0xA9BD); (0xA9CF, 0xA9CF); (0xA9E5, 0xA9E6);
  (0xAA29, 0xAA2E); (0xAA31, 0xAA32); (0xAA35, 0xAA36); (0xAA43, 0xAA43);
  (0xAA4C, 0xAA4C); (0xAA70, 0xAA70); (0xAA7C, 0xAA7C); (0xAAB0, 0xAAB0);
  (0xAAB2, 0xAAB4); (0xAAB7, 0xAAB8); (0xAABE, 0xAABF); (0xAAC1, 0xAAC1);
  (0xAADD, 0xAADD); (0xAAEC, 0xAAED); (0xAAF3, 0xAAF4); (0xAAF6, 0xAAF6);
  (0xAB5B, 0xAB5F); (0xAB69, 0xAB6B); (0xABE5, 0xABE5); (0xABE8, 0xABE8);
  (0xABED, 0xABED); (0xFB1E, 0xFB1E); (0xFBB2, 0xFBC2); (0xFE00, 0xFE0F);
  (0xFE13, 0xFE13); (0xFE20, 0xFE2F); (0xFE52, 0xFE52); (0xFE55, 0xFE55);
  (0xFEFF, 0xFEFF); (0xFF07, 0xFF07); (0xFF0E, 0xFF0E); (0xFF1A, 0xFF1A);
  (0xFF3E, 0xFF3E); (0xFF40, 0xFF40); (0xFF70, 0xFF70); (0xFF9E, 0xFF9F);
  (0xFFE3, 0xFFE3); (0xFFF9, 0xFFFB); (0x101FD, 0x101FD); (0x102E0, 0x102E0);
  (0x10376, 0x1037A); (0x10780, 0x10785); (0x10787, 0x107B0);
  (0x107B2, 0x107BA); (0x10A01, 0x10A03); (0x10A05, 0x10A06);
  (0x10A0C, 0x10A0F); (0x10A38, 0x10A3A); (0x10A3F, 0x10A3F);
  (0x10AE5, 0x10AE6); (0x10D24, 0x10D27); (0x10EAB, 0x10EAC);
  (0x10F46, 0x10F50); (0x10F82, 0x10F85); (0x11001, 0x11001);
  (0x11038, 0x11046); (0x11070, 0x11070); (0x11073, 0x11074);
  (0x1107F, 0x11081); (0x110B3, 0x110B6); (0x110B9, 0x110BA);
  (0x110BD, 0x110BD); (0x110C2, 0x110C2); (0x110CD, 0x110CD);
  (0x11100, 0x11102); (0x11127, 0x1112B); (0x1112D, 0x11134);
  (0x11173, 0x11173); (0x11180, 0x11181); (0x111B6, 0x111BE);
  (0x111C9, 0x111CC); (0x111CF, 0x111CF); (0x1122F, 0x11231);
  (0x11234, 0x11234); (0x11236, 0x11237); (0x1123E, 0x1123E);
  (0x112DF, 0x112DF); (0x112E3, 0x112EA); (0x11300, 0x11301);
  (0x1133B, 0x1133C); (0x11340, 0x11340); (0x11366, 0x1136C);
  (0x11370, 0x11374); (0x11438, 0x1143F); (0x11442, 0x11444);
  (0x11446, 0x11446); (0x1145E, 0x1145E); (0x114B3, 0x114B8);
  (0x114BA, 0x114BA); (0x114BF, 0x114C0); (0x114C2, 0x114C3);
  (0x115B2, 0x115B5); (0x115BC, 0x115BD); (0x115BF, 0x115C0);
  (0x115DC, 0x115DD); (0x11633, 0x1163A); (0x1163D, 0x1163D);
  (0x1163F, 0x11640); (0x116AB, 0x116AB); (0x116AD, 0x116AD);
  (0x116B0, 0x116B5); (0x116B7, 0x116B7); (0x1171D, 0x1171F);
  (0x11722, 0x11725); (0x11727, 0x1172B); (0x1182F, 0x11837);
  (0x11839, 0x1183A); (0x1193B, 0x1193C); (0x1193E, 0x1193E);
  (0x11943, 0x11943); (0x119D4, 0x119D7); (0x119DA, 0x119DB);
  (0x119E0, 0x119E0); (0x11A01, 0x11A0A); (0x11A33, 0x11A38);
  (0x11A3B, 0x11A3E); (0x11A47, 0x11A47); (0x11A51, 0x11A56);
  (0x11A59, 0x11A5B); (0x11A8A, 0x11A96); (0x11A98, 0x11A99);
  (0x11C30, 0x11C36); (0x11C38, 0x11C3D); (0x11C3F, 0x11C3F);
  (0x11C92, 0x11CA7); (0x11CAA, 0x11CB0); (0x11CB2, 0x11CB3);
  (0x11CB5, 0x11CB6); (0x11D31, 0x11D36); (0x11D3A, 0x11D3A);
  (0x11D3C, 0x11D3D); (0x11D3F, 0x11D45); (0x11D47, 0x11D47);
  (0x11D90, 0x11D91); (0x11D95, 0x11D95); (0x11D97, 0x11D97);
  (0x11EF3, 0x11EF4); (0x13430, 0x13438); (0x16AF0, 0x16AF4);
  (0x16B30, 0x16B36); (0x16B40, 0x16B43); (0x16F4F, 0x16F4F);
  (0x16F8F, 0x16F9F); (0x16FE0, 0x16FE1); (0x16FE3, 0x16FE4);
  (0x1AFF0, 0x1AFF3); (0x1AFF5, 0x1AFFB); (0x1AFFD, 0x1AFFE);
  (0x1BC9D, 0x1BC9E); (0x1BCA0, 0x1BCA3); (0x1CF00, 0x1CF2D);
  (0x1CF30, 0x1CF46); (0x1D167, 0x1D169); (0x1D173, 0x1D182);
  (0x1D185, 0x1D18B); (0x1D1AA, 0x1D1AD); (0x1D242, 0x1D244);
  (0x1DA00, 0x1DA36); (0x1DA3B, 0x1DA6C); (0x1DA75, 0x1DA75);
  (0x1DA84, 0x1DA84); (0x1DA9B, 0x1DA9F); (0x1DAA1, 0x1DAAF);
  (0x1E000, 0x1E006); (0x1E008, 0x1E018); (0x1E01B, 0x1E021);
  (0x1E023, 0x1E024); (0x1E026, 0x1E02A); (0x1E130, 0x1E13D);
  (0x1E2AE, 0x1E2AE); (0x1E2EC, 0x1E2EF); (0x1E8D0, 0x1E8D6);
  (0x1E944, 0x1E94B); (0x1F3FB, 0x1F3FF); (0xE0001, 0xE0001);
  (0xE0020, 0xE007F); (0xE0100, 0xE01EF) ].

Definition within (c : Z) (ranges : list (Z * Z)) : bool :=
  existsb (fun ab => (fst ab <=? c) && (c <=? snd ab)) ranges.

Definition inRow (c : Z) (row : Z * Z * Z * Z) : bool :=
  let '(first, last, step, _) := row in
  (first <=? c) && (c <=? last) && ((c - first) mod step =? 0).

(** The simple mapping of a code point. *)
Definition simple (rows : list (Z * Z * Z * Z)) (c : Z) : Z :=
  match find (inRow c) rows with
  | Some (_, _, _, delta) => c + delta
  | None => c
  end.

(** The full mapping: the special one where there is one. *)
Definition full (special : list (Z * list Z)) (rows : list (Z * Z * Z * Z))
           (c : Z) : list Z :=
  match find (fun e => fst e =? c) special with
  | Some e => snd e
  | None => [simple rows c]
  end.

Definition toUpper (c : Z) : list Z := full upperSpecial upperRows c.

(** Going away from a capital sigma and skipping what is case-ignorable,
    the first code point met is cased. *)
Fixpoint casedNext (cps : list Z) : bool :=
  match cps with
  | [] => false
  | c :: r => if within c caseIgnorable then casedNext r else within c cased
  end.

(** The lower case of [c] between [before] (nearest first) and [after]: a
    capital sigma becomes a final sigma when a cased letter precedes it and
    none follows it. *)
Definition toLower (before : list Z) (c : Z) (after : list Z) : list Z :=
  if c =? 0x3A3 then
    [if casedNext before && negb (casedNext after) then 0x3C2 else 0x3C3]
  else full lowerSpecial lowerRows c.

Fixpoint lowerAll (before after : list Z) : list Z :=
  match after with
  | [] => []
  | c :: rest => toLower before c rest ++ lowerAll (c :: before) rest
  end.

(** The code points of a sequence of UTF-16 code units; a surrogate that
    is not part of a pair is a code point of its own. *)
Fixpoint codePointsOf (s : list Z) : list Z :=
  match s with
  | [] => []
  | c :: s' =>
      match s' with
      | d :: s'' =>
          if (0xD800 <=? c) && (c <=? 0xDBFF) && (0xDC00 <=? d) && (d <=? 0xDFFF)
          then (0x10000 + (c - 0xD800) * 1024 + (d - 0xDC00)) :: codePointsOf s''
          else c :: codePointsOf s'
      | [] => [c]
      end
  end.

Definition codeUnitsOf (cp : Z) : list Z :=
  if cp <? 0x10000 then [cp]
  else [0xD800 + (cp - 0x10000) / 1024; 0xDC00 + (cp - 0x10000) mod 1024].

End Unicode.

(* ===================================================================== *)
(** ** JavaScript values: strings, exceptions *)
(* ===================================================================== *)

Module JS.

(** A string is the list of its UTF-16 code units. *)
Definition jsstring := list Z.

(** Code units of an ASCII literal. *)
Definition js (s : string) : jsstring :=
  map (fun a => Z.of_N (N_of_ascii a)) (list_ascii_of_string s).

Fixpoint eqb (a b : jsstring) : bool :=
  match a, b with
  | [], [] => true
  | x :: a', y :: b' => Z.eqb x y && eqb a' b'
  | _, _ => false
  end.

Definition len (s : jsstring) : Z := Z.of_nat (length s).

(** [s.startsWith(p)] *)
Fixpoint startsWith (s p : jsstring) : bool :=
  match p, s with
  | [], _ => true
  | y :: p', x :: s' => Z.eqb x y && startsWith s' p'
  | _ :: _, [] => false
  end.

(** [s.includes(p)] *)
Fixpoint includes (s p : jsstring) : bool :=
  startsWith s p ||
  match s with
  | [] => false
  | _ :: s' => includes s' p
  end.

(** [s.indexOf(c)] for a single code unit; [None] stands for -1. *)
Fixpoint indexOf (s : jsstring) (c : Z) : option nat :=
  match s with
  | [] => None
  | x :: s' => if Z.eqb x c then Some O
               else option_map S (indexOf s' c)
  end.

(** [s.replace(/a/g, b)] for single code units [a] and [b]. *)
Definition replaceAll (a b : Z) (s : jsstring) : jsstring :=
  map (fun x => if Z.eqb x a then b else x) s.

(** [s.replace(/a/g, '')] *)
Definition removeAll (a : Z) (s : jsstring) : jsstring :=
  filter (fun x => negb (Z.eqb x a)) s.

(** [s.replace(p, '')] with a string pattern: first occurrence only. *)
Fixpoint removeFirst (p s : jsstring) : jsstring :=
  if startsWith s p then skipn (length p) s
  else match s with
       | [] => []
       | x :: s' => x :: removeFirst p s'
       end.

(** [s.toUpperCase()] and [s.toLowerCase()]: the string is read as code
    points, every code point is converted ([Unicode.toUpper],
    [Unicode.toLower]), and the result is written back as code units. *)
Definition toUpperCase (s : jsstring) : jsstring :=
  flat_map Unicode.codeUnitsOf
           (flat_map Unicode.toUpper (Unicode.codePointsOf s)).
Definition toLowerCase (s : jsstring) : jsstring :=
  flat_map Unicode.codeUnitsOf
           (Unicode.lowerAll [] (Unicode.codePointsOf s)).

(** ECMAScript WhiteSpace and LineTerminator code units: what [trim]
    strips, what [\s] matches and what [parseInt] skips. *)
Definition isLineTerminator (c : Z) : bool :=
  (c =? 10) || (c =? 13) || (c =? 8232) || (c =? 8233).
Definition isWhiteSpace (c : Z) : bool :=
  (c =? 9) || (c =? 11) || (c =? 12) || (c =? 32) || (c =? 160) ||
  (c =? 5760) || ((8192 <=? c) && (c <=? 8202)) || (c =? 8239) ||
  (c =? 8287) || (c =? 12288) || (c =? 65279).
Definition isSpace (c : Z) : bool := isWhiteSpace c || isLineTerminator c.

Fixpoint trimStart (s : jsstring) : jsstring :=
  match s with
  | [] => []
  | c :: s' => if isSpace c then trimStart s' else s
  end.
Definition trimEnd (s : jsstring) : jsstring := rev (trimStart (rev s)).
Definition trim (s : jsstring) : jsstring := trimEnd (trimStart s).

(** Exceptions that the modelled code can throw. *)
Inductive exn :=
| URIError                                  (* encodeURIComponent / decodeURIComponent *)
| TypeError                                 (* property access on undefined / null *)
| RangeError
| MalformedUtf8                             (* CryptoJS: 'Malformed UTF-8 data' *)
| UnsupportedEncoding (name : jsstring)     (* EncodingUtils default branch *)
| HexDecodingFailed                         (* 'Hex decoding failed: ...' *)
| CipherFailure (what : string).            (* thrown by a cipher primitive or wrapper *)

Inductive result (A : Type) :=
| Ok (a : A)
| Throw (e : exn).
Arguments Ok {A} a.
Arguments Throw {A} e.

Definition bind {A B} (m : result A) (k : A -> result B) : result B :=
  match m with
  | Ok a => k a
  | Throw e => Throw e
  end.

(** [try { m } catch (e) { h e }] *)
Definition try_catch {A} (m : result A) (h : exn -> result A) : result A :=
  match m with
  | Ok a => Ok a
  | Throw e => h e
  end.

Definition isOk {A} (m : result A) : bool :=
  match m with Ok _ => true | Throw _ => false end.

(** [s.split(sep)] for a separator of one code unit: the pieces between
    the separators, one piece at least. *)
Fixpoint split (sep : Z) (s : jsstring) : list jsstring :=
  match s with
  | [] => [[]]
  | c :: r =>
      if Z.eqb c sep then [] :: split sep r
      else match split sep r with
           | piece :: pieces => (c :: piece) :: pieces
           | [] => [[c]]
           end
  end.

(** [xs.join(sep)] *)
Fixpoint joinWith (sep : jsstring) (xs : list jsstring) : jsstring :=
  match xs with
  | [] => []
  | [x] => x
  | x :: r => x ++ sep ++ joinWith sep r
  end.

End JS.

Import JS.

Declare Scope js_scope.
Delimit Scope js_scope with js.
Notation "x <- m ;; k" := (JS.bind m (fun x => k))
  (at level 61, m at next level, right associativity) : js_scope.
Open Scope js_scope.

(* ===================================================================== *)
(** ** CryptoJS encoders *)
(* ===================================================================== *)

Module CryptoJS.

(** A [WordArray] is a list of 32-bit words and a count [sigBytes] of
    significant bytes.  Every encoder reads it through
    [(words[i >>> 2] >>> (24 - (i % 4) * 8)) & 0xff] for [i < sigBytes], so
    it is represented by the bytes those loops read.  [Hex.parse] sets
    [sigBytes = length / 2], which is fractional on an odd-length string:
    [half] records that the last byte of [bytes] is only half significant
    ([sigBytes = length bytes - 1/2]). *)
Record WordArray := mkWordArray {
  bytes : list Z;
  half : bool
}.

Definition ofBytes (bs : list Z) : WordArray := mkWordArray bs false.

(** Twice [sigBytes]. *)
Definition sigBytes2 (w : WordArray) : Z :=
  2 * Z.of_nat (length (bytes w)) - (if half w then 1 else 0).

(** *** Hex *)

Definition hexDigit (d : Z) : Z :=          (* (d).toString(16), d < 16 *)
  if d <? 10 then 48 + d else 87 + d.

(** [Hex.stringify]: two lowercase digits per byte read. *)
Definition Hex_stringify (w : WordArray) : jsstring :=
  flat_map (fun b => [hexDigit (Z.shiftr b 4); hexDigit (Z.land b 15)])
           (bytes w).

Definition hexVal (c : Z) : option Z :=
  if (48 <=? c) && (c <=? 57) then Some (c - 48)
  else if (97 <=? c) && (c <=? 102) then Some (c - 87)
  else if (65 <=? c) && (c <=? 70) then Some (c - 55)
  else None.

Fixpoint hexDigits (s : jsstring) (acc : option Z) : option Z :=
  match s with
  | [] => acc
  | c :: s' =>
      match hexVal c with
      | Some d => hexDigits s' (Some (16 * match acc with Some a => a | None => 0 end + d))
      | None => acc
      end
  end.

(** [parseInt(s, 16)]: leading white space, an optional sign, an optional
    [0x] prefix, then the longest run of hexadecimal digits.  [None] is
    NaN. *)
Definition parseInt16 (s : jsstring) : option Z :=
  let s1 := trimStart s in
  let '(sign, s2) :=
    match s1 with
    | 45 :: r => (-1, r)
    | 43 :: r => (1, r)
    | _ => (1, s1)
    end in
  let s3 :=
    match s2 with
    | 48 :: 120 :: r => r
    | 48 :: 88 :: r => r
    | _ => s2
    end in
  option_map (Z.mul sign) (hexDigits s3 None).

(** One iteration of the loop of [Hex.parse]:
    [words[i >>> 3] |= parseInt(hexStr.substr(i, 2), 16) << (24 - (i % 8) * 4)].
    [acc] holds the bytes written so far.  NaN shifts to 0.  A negative
    value (a sign followed by one digit) shifts to a word whose higher bits
    are all set: it sets every earlier byte of the same word to 255. *)
Definition hexStore (acc : list Z) (v : option Z) : list Z :=
  match v with
  | None => acc ++ [0]
  | Some n =>
      if n <? 0 then
        let k := (length acc mod 4)%nat in
        firstn (length acc - k) acc ++ repeat 255 k ++ [n mod 256]
      else acc ++ [n mod 256]
  end.

Fixpoint hexLoop (s : jsstring) (acc : list Z) : list Z :=
  match s with
  | [] => acc
  | [c] => hexStore acc (parseInt16 [c])
  | c1 :: c2 :: s' => hexLoop s' (hexStore acc (parseInt16 [c1; c2]))
  end.

Definition Hex_parse (s : jsstring) : WordArray :=
  mkWordArray (hexLoop s []) (Nat.odd (length s)).

(** *** Base64 *)

Definition b64map : jsstring :=
  js "ABCDEFGHIJKLMNOPQRSTUVWXYZabcdefghijklmnopqrstuvwxyz0123456789+/".
Definition b64pad : Z := 61.                (* '=' *)

Definition b64char (v : Z) : Z := nth (Z.to_nat v) b64map 0.

(** [wordArray.clamp()] clears what lies beyond [sigBytes]: on a
    half-significant last byte, its low nibble. *)
Definition clamp (w : WordArray) : list Z :=
  if half w then
    match rev (bytes w) with
    | [] => []
    | l :: r => rev (Z.land l 240 :: r)
    end
  else bytes w.

(** The inner loop [for (j = 0; j < 4 && i + j * 0.75 < sigBytes; j++)];
    [rem2] is twice [sigBytes - i]. *)
Definition b64group (b1 b2 b3 rem2 : Z) : jsstring :=
  let triplet := Z.lor (Z.lor (Z.shiftl b1 16) (Z.shiftl b2 8)) b3 in
  map (fun j => b64char (Z.land (Z.shiftr triplet (6 * (3 - j))) 63))
      (filter (fun j => 3 * j <? 2 * rem2) [0; 1; 2; 3]).

Fixpoint b64groups (bs : list Z) (rem2 : Z) : jsstring :=
  match bs with
  | [] => []
  | [b1] => b64group b1 0 0 rem2
  | [b1; b2] => b64group b1 b2 0 rem2
  | b1 :: b2 :: b3 :: rest => b64group b1 b2 b3 rem2 ++ b64groups rest (rem2 - 6)
  end.

(** [while (base64Chars.length % 4) base64Chars.push('=')] *)
Definition padTo4 (s : jsstring) : jsstring :=
  s ++ repeat b64pad ((4 - length s mod 4) mod 4)%nat.

Definition Base64_stringify (w : WordArray) : jsstring :=
  padTo4 (b64groups (clamp w) (sigBytes2 w)).

(** The reverse map: the index of a code unit in the alphabet; a code unit
    outside it reads as [undefined], which the shifts turn into 0. *)
Fixpoint indexIn (c : Z) (m : jsstring) (i : Z) : Z :=
  match m with
  | [] => 0
  | x :: m' => if Z.eqb x c then i else indexIn c m' (i + 1)
  end.
Definition b64rev (c : Z) : Z := indexIn c b64map 0.

(** [parseLoop]: every index [i] with [i % 4 <> 0] yields one byte from the
    code units at [i - 1] and [i].  The bits that [bits1] shifts beyond
    its byte repeat bits already in the previous byte, so the bytewise
    reading is exact. *)
Definition parseByte (s : jsstring) (i : nat) : list Z :=
  let k := Z.of_nat (i mod 4) in
  if k =? 0 then []
  else
    let bits1 := Z.shiftl (b64rev (nth (i - 1) s 0)) (k * 2) in
    let bits2 := Z.shiftr (b64rev (nth i s 0)) (6 - k * 2) in
    [Z.land (Z.lor bits1 bits2) 255].

Definition parseLoop (s : jsstring) (n : nat) : list Z :=
  flat_map (parseByte s) (seq 0 n).

(** [Base64.parse]: the string is cut at the first ['='] if any. *)
Definition Base64_parse (s : jsstring) : WordArray :=
  let n := match indexOf s b64pad with
           | Some i => i
           | None => length s
           end in
  ofBytes (parseLoop s n).

(** *** UTF-8 *)

Definition isHighSurrogate (c : Z) : bool := (55296 <=? c) && (c <=? 56319).
Definition isLowSurrogate (c : Z) : bool := (56320 <=? c) && (c <=? 57343).

(** UTF-8 bytes of one code point. *)
Definition utf8Bytes (cp : Z) : list Z :=
  if cp <? 128 then [cp]
  else if cp <? 2048 then [192 + cp / 64; 128 + cp mod 64]
  else if cp <? 65536 then
    [224 + cp / 4096; 128 + (cp / 64) mod 64; 128 + cp mod 64]
  else [240 + cp / 262144; 128 + (cp / 4096) mod 64;
        128 + (cp / 64) mod 64; 128 + cp mod 64].

(** [unescape(encodeURIComponent(s))]: the UTF-8 bytes of [s];
    [encodeURIComponent] throws [URIError] on a lone surrogate. *)
Fixpoint utf8Encode (s : jsstring) : result (list Z) :=
  match s with
  | [] => Ok []
  | c :: s' =>
      if isHighSurrogate c then
        match s' with
        | d :: s'' =>
            if isLowSurrogate d then
              r <- utf8Encode s'' ;;
              Ok (utf8Bytes (65536 + (c - 55296) * 1024 + (d - 56320)) ++ r)
            else Throw URIError
        | [] => Throw URIError
        end
      else if isLowSurrogate c then Throw URIError
      else r <- utf8Encode s' ;; Ok (utf8Bytes c ++ r)
  end.

(** [Utf8.parse] *)
Definition Utf8_parse (s : jsstring) : result WordArray :=
  bs <- utf8Encode s ;; Ok (ofBytes bs).

Definition isCont (b : Z) : bool := (128 <=? b) && (b <=? 191).

(** Code units of one code point. *)
Definition utf16Units (cp : Z) : jsstring :=
  if cp <? 65536 then [cp]
  else [55296 + (cp - 65536) / 1024; 56320 + (cp - 65536) mod 1024].

(** [decodeURIComponent(escape(latin1))]: strict UTF-8 decoding; overlong
    forms, surrogates and values above U+10FFFF are rejected. *)
Fixpoint utf8Decode (bs : list Z) : option jsstring :=
  match bs with
  | [] => Some []
  | b0 :: r0 =>
      if b0 <? 128 then option_map (cons b0) (utf8Decode r0)
      else if (194 <=? b0) && (b0 <=? 223) then
        match r0 with
        | b1 :: r1 =>
            if isCont b1 then
              option_map (cons ((b0 - 192) * 64 + (b1 - 128))) (utf8Decode r1)
            else None
        | _ => None
        end
      else if (224 <=? b0) && (b0 <=? 239) then
        match r0 with
        | b1 :: b2 :: r2 =>
            let cp := (b0 - 224) * 4096 + (b1 - 128) * 64 + (b2 - 128) in
            if isCont b1 && isCont b2 && (2048 <=? cp) &&
               negb ((55296 <=? cp) && (cp <=? 57343)) then
              option_map (cons cp) (utf8Decode r2)
            else None
        | _ => None
        end
      else if (240 <=? b0) && (b0 <=? 244) then
        match r0 with
        | b1 :: b2 :: b3 :: r3 =>
            let cp := (b0 - 240) * 262144 + (b1 - 128) * 4096 +
                      (b2 - 128) * 64 + (b3 - 128) in
            if isCont b1 && isCont b2 && isCont b3 &&
               (65536 <=? cp) && (cp <=? 1114111) then
              option_map (app (utf16Units cp)) (utf8Decode r3)
            else None
        | _ => None
        end
      else None
  end.

(** [Utf8.stringify]: throws ['Malformed UTF-8 data'] when the bytes are
    not UTF-8. *)
Definition Utf8_stringify (w : WordArray) : result jsstring :=
  match utf8Decode (bytes w) with
  | Some s => Ok s
  | None => Throw MalformedUtf8
  end.

(** *** The tables [CryptoJS.mode] and [CryptoJS.pad] *)

Inductive Mode := CBC | CFB | CTR | CTRGladman | OFB | ECB.
Inductive Padding := Pkcs7 | AnsiX923 | Iso10126 | Iso97971 | ZeroPadding | NoPadding.

Definition lookup {A} (tbl : list (string * A)) (k : jsstring) : option A :=
  option_map snd (find (fun e => JS.eqb (js (fst e)) k) tbl).

(** Property lookup [CryptoJS.mode[k]]; keys are case sensitive. *)
Definition mode (k : jsstring) : option Mode :=
  lookup [("CBC", CBC); ("CFB", CFB); ("CTR", CTR);
          ("CTRGladman", CTRGladman); ("OFB", OFB); ("ECB", ECB)]%string k.

(** Property lookup [CryptoJS.pad[k]]. *)
Definition pad (k : jsstring) : option Padding :=
  lookup [("Pkcs7", Pkcs7); ("AnsiX923", AnsiX923); ("Iso10126", Iso10126);
          ("Iso97971", Iso97971); ("ZeroPadding", ZeroPadding);
          ("NoPadding", NoPadding)]%string k.

(** The [cfg] object handed to [CryptoJS.AES.encrypt] / [decrypt]. *)
Record CipherOptions := mkOptions {
  opt_iv : option WordArray;
  opt_mode : Mode;
  opt_padding : Padding
}.

End CryptoJS.

Import CryptoJS.

(* ===================================================================== *)
(** ** Platform primitives: [TextDecoder], [Uint8Array] *)
(* ===================================================================== *)

Module Platform.

(** Storing a number in a [Uint8Array]: NaN becomes 0, anything else is
    taken modulo 256. *)
Definition toUint8 (v : option Z) : Z :=
  match v with
  | None => 0
  | Some n => n mod 256
  end.

(** The state of the UTF-8 decoder of the Encoding Standard between two
    code points ([None]) or inside one: the bits read so far, the number
    of continuation bytes still needed and the bounds of the next byte. *)
Definition pending := option (Z * Z * Z * Z).

(** A byte read when no code point is open. *)
Definition decodeLead (b : Z) : list Z * pending :=
  if b <? 128 then ([b], None)
  else if (194 <=? b) && (b <=? 223) then ([], Some (Z.land b 31, 1, 128, 191))
  else if (224 <=? b) && (b <=? 239) then
    ([], Some (Z.land b 15, 2, if b =? 224 then 160 else 128,
                                if b =? 237 then 159 else 191))
  else if (240 <=? b) && (b <=? 244) then
    ([], Some (Z.land b 7, 3, if b =? 240 then 144 else 128,
                               if b =? 244 then 143 else 191))
  else ([65533], None).

(** The decoder: a byte outside the bounds ends the open code point with
    U+FFFD and is read again as a lead byte; so does the end of input. *)
Fixpoint decodeCodePoints (bs : list Z) (st : pending) : list Z :=
  match bs with
  | [] => match st with
          | None => []
          | Some _ => [65533]
          end
  | b :: r =>
      match st with
      | None => let '(out, st') := decodeLead b in out ++ decodeCodePoints r st'
      | Some (cp, needed, lower, upper) =>
          if (lower <=? b) && (b <=? upper) then
            let cp' := Z.lor (Z.shiftl cp 6) (Z.land b 63) in
            if needed =? 1 then cp' :: decodeCodePoints r None
            else decodeCodePoints r (Some (cp', needed - 1, 128, 191))
          else
            let '(out, st') := decodeLead b in
            65533 :: out ++ decodeCodePoints r st'
      end
  end.

(** [new TextDecoder().decode(bytes)]: never throws; a leading byte order
    mark is dropped. *)
Definition TextDecoder_decode (bs : list Z) : jsstring :=
  let cps := decodeCodePoints bs None in
  let cps' := match cps with
              | 65279 :: r => r
              | _ => cps
              end in
  flat_map utf16Units cps'.

(** [decodeURIComponent]: first the escapes [%XX] are read, then every
    run of bytes is decoded as UTF-8.  [None] is the [URIError] it throws
    on a malformed escape or on bytes that are not UTF-8. *)
Inductive token :=
| Lit (c : Z)
| Byte (b : Z).

Fixpoint tokens (s : jsstring) : option (list token) :=
  match s with
  | [] => Some []
  | c :: r =>
      if c =? 37 then
        match r with
        | h1 :: h2 :: r2 =>
            match hexVal h1, hexVal h2 with
            | Some a, Some b => option_map (cons (Byte (16 * a + b))) (tokens r2)
            | _, _ => None
            end
        | _ => None
        end
      else option_map (cons (Lit c)) (tokens r)
  end.

Definition decoded (bs : list Z) (rest : option jsstring) : option jsstring :=
  match utf8Decode bs, rest with
  | Some u, Some r => Some (u ++ r)
  | _, _ => None
  end.

Fixpoint untoken (ts : list token) : option jsstring :=
  match ts with
  | [] => Some []
  | Lit c :: r => option_map (cons c) (untoken r)
  | Byte b :: r =>
      if b <? 128 then option_map (cons b) (untoken r)
      else if b <? 224 then
        match r with
        | Byte b1 :: r1 => decoded [b; b1] (untoken r1)
        | _ => None
        end
      else if b <? 240 then
        match r with
        | Byte b1 :: Byte b2 :: r2 => decoded [b; b1; b2] (untoken r2)
        | _ => None
        end
      else
        match r with
        | Byte b1 :: Byte b2 :: Byte b3 :: r3 => decoded [b; b1; b2; b3] (untoken r3)
        | _ => None
        end
  end.

Definition decodeURIComponent (s : jsstring) : JS.result jsstring :=
  match tokens s with
  | Some ts => match untoken ts with
               | Some r => Ok r
               | None => Throw URIError
               end
  | None => Throw URIError
  end.

(** [new TextEncoder().encode(s)]: the UTF-8 bytes of [s]; a surrogate
    without its partner is encoded as U+FFFD.  Never throws. *)
Fixpoint TextEncoder_encode (s : jsstring) : list Z :=
  match s with
  | [] => []
  | c :: s' =>
      if isHighSurrogate c then
        match s' with
        | d :: s'' =>
            if isLowSurrogate d then
              utf8Bytes (65536 + (c - 55296) * 1024 + (d - 56320))
              ++ TextEncoder_encode s''
            else [239; 191; 189] ++ TextEncoder_encode s'
        | [] => [239; 191; 189]
        end
      else if isLowSurrogate c then [239; 191; 189] ++ TextEncoder_encode s'
      else utf8Bytes c ++ TextEncoder_encode s'
  end.

(** [Array.from(s)]: the string cut at its code points; a surrogate pair
    is one element of two code units. *)
Fixpoint Array_from (s : jsstring) : list jsstring :=
  match s with
  | [] => []
  | c :: s' =>
      if isHighSurrogate c then
        match s' with
        | d :: s'' =>
            if isLowSurrogate d then [c; d] :: Array_from s''
            else [c] :: Array_from s'
        | [] => [[c]]
        end
      else [c] :: Array_from s'
  end.

(** [char.charCodeAt(0)] of a non-empty string. *)
Definition charCodeAt0 (char : jsstring) : Z := hd 0 char.

(** Numbers are exact integers; on the values below [2^53] they are the
    doubles of the program.  [n.toString(radix)] for [n >= 0]: *)
Definition digitChar (d : Z) : Z :=
  if d <? 10 then 48 + d else 87 + d.

Fixpoint digitsOf (fuel : nat) (radix n : Z) (acc : jsstring) : jsstring :=
  match fuel with
  | O => acc
  | S fuel' =>
      let acc' := digitChar (n mod radix) :: acc in
      if n / radix =? 0 then acc' else digitsOf fuel' radix (n / radix) acc'
  end.

Definition toString (radix n : Z) : jsstring := digitsOf 64 radix n [].

(** [s.padStart(n, fill)] with a filler of one code unit. *)
Definition padStart (n : nat) (fill : Z) (s : jsstring) : jsstring :=
  repeat fill (n - length s) ++ s.

Fixpoint decDigits (s : jsstring) (acc : option Z) : option Z :=
  match s with
  | [] => acc
  | c :: s' =>
      if (48 <=? c) && (c <=? 57) then
        decDigits s' (Some (10 * match acc with Some a => a | None => 0 end + (c - 48)))
      else acc
  end.

(** [parseInt(s, 10)]: leading white space, an optional sign, then the
    longest run of decimal digits.  [None] is NaN. *)
Definition parseInt10 (s : jsstring) : option Z :=
  let s1 := trimStart s in
  let '(sign, s2) :=
    match s1 with
    | 45 :: r => (-1, r)
    | 43 :: r => (1, r)
    | _ => (1, s1)
    end in
  option_map (Z.mul sign) (decDigits s2 None).

(** [String.fromCharCode(v)]: the code unit [ToUint16(v)]. *)
Definition fromCharCode (v : option Z) : Z :=
  match v with
  | None => 0
  | Some n => n mod 65536
  end.

(** The characters that [encodeURIComponent] leaves as they are:
    letters, digits and [- _ . ! ~ * ' ( )]. *)
Definition uriUnreserved (c : Z) : bool :=
  ((65 <=? c) && (c <=? 90)) || ((97 <=? c) && (c <=? 122)) ||
  ((48 <=? c) && (c <=? 57)) ||
  existsb (Z.eqb c) [45; 95; 46; 33; 126; 42; 39; 40; 41].

(** [%XX] with uppercase digits. *)
Definition percent (b : Z) : jsstring :=
  [37; (let d := b / 16 in if d <? 10 then 48 + d else 55 + d);
       (let d := b mod 16 in if d <? 10 then 48 + d else 55 + d)].

(** [encodeURIComponent(s)]: [URIError] on a surrogate without its
    partner. *)
Fixpoint encodeURIComponent (s : jsstring) : JS.result jsstring :=
  match s with
  | [] => Ok []
  | c :: s' =>
      if uriUnreserved c then r <- encodeURIComponent s' ;; Ok (c :: r)
      else if isHighSurrogate c then
        match s' with
        | d :: s'' =>
            if isLowSurrogate d then
              r <- encodeURIComponent s'' ;;
              Ok (flat_map percent
                    (utf8Bytes (65536 + (c - 55296) * 1024 + (d - 56320))) ++ r)
            else Throw URIError
        | [] => Throw URIError
        end
      else if isLowSurrogate c then Throw URIError
      else r <- encodeURIComponent s' ;; Ok (flat_map percent (utf8Bytes c) ++ r)
  end.

(** [btoa(s)] on a string of bytes: its Base64 form ([None]: a code unit
    above 255, [InvalidCharacterError]). *)
Definition btoa (s : jsstring) : option jsstring :=
  if forallb (fun c => (0 <=? c) && (c <=? 255)) s
  then Some (Base64_stringify (ofBytes s))
  else None.

Definition isAsciiWhitespace (c : Z) : bool :=
  (c =? 9) || (c =? 10) || (c =? 12) || (c =? 13) || (c =? 32).

(** One or two ['='] at the end are removed. *)
Definition stripPadding (s : jsstring) : jsstring :=
  match rev s with
  | 61 :: 61 :: r => rev r
  | 61 :: r => rev r
  | _ => s
  end.

(** [atob(data)], the forgiving Base64 decoding of the HTML Standard:
    white space is dropped, then the padding of a text whose length is a
    multiple of 4; what is left must be characters of the alphabet, and
    not one more than a multiple of 4.  [None] is the
    [InvalidCharacterError]. *)
Definition atob (data : jsstring) : option (list Z) :=
  let s := filter (fun c => negb (isAsciiWhitespace c)) data in
  let s := if (length s mod 4 =? 0)%nat then stripPadding s else s in
  if (length s mod 4 =? 1)%nat ||
     negb (forallb (fun c => existsb (Z.eqb c) b64map) s)
  then None
  else Some (parseLoop s (length s)).

End Platform.

(* ===================================================================== *)
(** ** [EncodingUtils] *)
(* ===================================================================== *)

Module EncodingUtils.

(** The variable [result] of [encode] and [decode] holds a string or a
    [WordArray]; the code tells them apart with [typeof]. *)
Inductive value :=
| VStr (s : jsstring)
| VWords (w : WordArray).

Definition UTF8 := js "UTF8".
Definition HEX := js "HEX".
Definition BASE64 := js "BASE64".
Definition BASE64_URLSAFE := js "BASE64_URLSAFE".

(** [base64Str.replace(/\+/g, '-').replace(/\//g, '_').replace(/=/g, '')] *)
Definition toUrlSafe (base64Str : jsstring) : jsstring :=
  removeAll 61 (replaceAll 47 95 (replaceAll 43 45 base64Str)).

(** [result.replace(/-/g, '+').replace(/_/g, '/')], then ['='] appended
    while the length is not a multiple of 4. *)
Definition fromUrlSafe (s : jsstring) : jsstring :=
  padTo4 (replaceAll 95 47 (replaceAll 45 43 s)).

(** The loop of [encode], over the encodings from the last to the first.
    [inl] is the early [return] of the [BASE64_URLSAFE] case. *)
Fixpoint encodeLoop (reversed : list jsstring) (result : WordArray)
  : JS.result (jsstring + WordArray) :=
  match reversed with
  | [] => Ok (inr result)
  | e :: rest =>
      let encoding := toUpperCase e in
      if JS.eqb encoding UTF8 then encodeLoop rest result
      else if JS.eqb encoding HEX then
        encodeLoop rest (Hex_parse (Hex_stringify result))
      else if JS.eqb encoding BASE64 then
        encodeLoop rest (Base64_parse (Base64_stringify result))
      else if JS.eqb encoding BASE64_URLSAFE then
        Ok (inl (toUrlSafe (Base64_stringify result)))
      else Throw (UnsupportedEncoding encoding)
  end.

(** [EncodingUtils.encode(data, encodings)] *)
Definition encode (data : value) (encodings : list jsstring) : JS.result jsstring :=
  result <- match data with
            | VStr s => Utf8_parse s
            | VWords w => Ok w
            end ;;
  r <- encodeLoop (rev encodings) result ;;
  match r with
  | inl s => Ok s
  | inr w => Ok (Base64_stringify w)
  end.

(** The loop of [decode], over the encodings in order. *)
Fixpoint decodeLoop (encodings : list jsstring) (result : value) : JS.result value :=
  match encodings with
  | [] => Ok result
  | e :: rest =>
      let upperEncoding := toUpperCase e in
      if JS.eqb upperEncoding UTF8 then
        match result with
        | VStr _ => decodeLoop rest result
        | VWords w => s <- Utf8_stringify w ;; decodeLoop rest (VStr s)
        end
      else if JS.eqb upperEncoding HEX then
        match result with
        | VStr s => decodeLoop rest (VWords (Hex_parse s))
        | VWords _ => decodeLoop rest result
        end
      else if JS.eqb upperEncoding BASE64 then
        match result with
        | VStr s => decodeLoop rest (VWords (Base64_parse s))
        | VWords _ => decodeLoop rest result
        end
      else if JS.eqb upperEncoding BASE64_URLSAFE then
        match result with
        | VStr s => decodeLoop rest (VWords (Base64_parse (fromUrlSafe s)))
        | VWords _ => decodeLoop rest result
        end
      else Throw (UnsupportedEncoding e)
  end.

(** The last statement of [decode]: a [WordArray] becomes text, or its
    Base64 form when it is not UTF-8. *)
Definition finalText (result : value) : jsstring :=
  match result with
  | VStr s => s
  | VWords w =>
      match Utf8_stringify w with
      | Ok s => s
      | Throw _ => Base64_stringify w
      end
  end.

(** [EncodingUtils.decode(data, encodings)] *)
Definition decode (data : value) (encodings : list jsstring) : JS.result jsstring :=
  result <- decodeLoop encodings data ;;
  Ok (finalText result).

(** [plainEncoding && plainEncoding.length > 0 && !plainEncoding.includes('UTF8')] *)
Definition notUtf8 (plainEncoding : list jsstring) : bool :=
  negb (Nat.eqb (length plainEncoding) 0) &&
  negb (existsb (JS.eqb UTF8) plainEncoding).

(** [processPlaintextEncoding(plaintext, plainEncoding)] *)
Definition processPlaintextEncoding (plaintext : jsstring)
           (plainEncoding : list jsstring) : JS.result jsstring :=
  if notUtf8 plainEncoding then decode (VStr plaintext) plainEncoding
  else Ok plaintext.

(** [processPlaintextDecoding(plaintext, plainEncoding)] *)
Definition processPlaintextDecoding (plaintext : jsstring)
           (plainEncoding : list jsstring) : JS.result jsstring :=
  if notUtf8 plainEncoding then encode (VStr plaintext) plainEncoding
  else Ok plaintext.

(** [parseCompoundEncoding(encodingString)]; [None] is [undefined]. *)
Definition parseCompoundEncoding (encodingString : option jsstring)
  : list jsstring :=
  match encodingString with
  | None | Some [] => [UTF8]
  | Some s =>
      filter (fun enc => negb (JS.eqb enc [])) (map trim (split 43 s))
  end.

(** [formatEncoding(encodings)] *)
Definition formatEncoding (encodings : list jsstring) : jsstring :=
  joinWith [43] encodings.

End EncodingUtils.

(* ===================================================================== *)
(** ** Cipher configurations and the cipher classes *)
(* ===================================================================== *)

Module KeyConfig.

(** [{ value, encoding }] *)
Record KeyMaterial := mkKey {
  value : jsstring;
  encoding : option (list jsstring)
}.

(** A stored key configuration (see [DEFAULT_CONFIG_TEMPLATE]); [None] is
    an absent ([undefined]) property. *)
Record t := mk {
  name : jsstring;
  algorithm : option jsstring;
  algorithmType : option jsstring;
  mode : option jsstring;
  padding : option jsstring;
  key : option KeyMaterial;
  iv : option KeyMaterial;
  publicKey : option KeyMaterial;
  privateKey : option KeyMaterial;
  plainEncoding : option (list jsstring);
  cipherEncoding : option (list jsstring)
}.

End KeyConfig.

Module Primitives.

(** The cipher libraries behind the engine.
    - [AES_encrypt p k cfg] is [CryptoJS.AES.encrypt(p, k, cfg).toString()];
    - [AES_decrypt c k cfg] is [CryptoJS.AES.decrypt(c, k, cfg)];
    - [SM4_decrypt c keyHex mode ivHex] is [sm4.decrypt(c, keyHex, options)];
    - [RSA_decrypt privateKey c] is [JSEncrypt.decrypt(c)] after
      [setPrivateKey]; [None] is the [false] / [null] it returns on
      failure. *)
Record t := mk {
  AES_encrypt : jsstring -> WordArray -> CipherOptions -> JS.result jsstring;
  AES_decrypt : jsstring -> WordArray -> CipherOptions -> JS.result WordArray;
  SM4_decrypt : jsstring -> jsstring -> jsstring -> option jsstring -> JS.result jsstring;
  RSA_decrypt : jsstring -> jsstring -> JS.result (option jsstring)
}.

(** The libraries behind the encryption wrappers of SM4 and RSA.
    - [SM4_encrypt p keyHex mode ivHex] is [sm4.encrypt(p, keyHex, options)];
    - [RSA_encrypt publicKey p] is [JSEncrypt.encrypt(p)] after
      [setPublicKey]; [None] is the [false] it returns on failure. *)
Record enc := mkEnc {
  SM4_encrypt : jsstring -> jsstring -> jsstring -> option jsstring -> JS.result jsstring;
  RSA_encrypt : jsstring -> jsstring -> JS.result (option jsstring)
}.

End Primitives.

Module AESCipher.

Import KeyConfig.

Definition orElse {A} (o : option A) (d : A) : A :=
  match o with Some a => a | None => d end.

(** [let parsed = m.value; if (m.encoding && m.encoding.length > 0)
    parsed = EncodingUtils.decode(m.value, m.encoding)] *)
Definition resolve (m : KeyMaterial) : JS.result jsstring :=
  match encoding m with
  | Some (e :: es) => EncodingUtils.decode (EncodingUtils.VStr (value m)) (e :: es)
  | _ => Ok (value m)
  end.

(** Key and IV as the cipher receives them.  [key.value] throws when the
    configuration has no [key]; [iv?.value || ''] does not. *)
Definition keyAndIv (config : KeyConfig.t) : JS.result (WordArray * WordArray) :=
  match key config with
  | None => Throw TypeError
  | Some k =>
      parsedKey <- resolve k ;;
      parsedIv <- match iv config with
                  | None => Ok []
                  | Some v => resolve v
                  end ;;
      keyWordArray <- Utf8_parse parsedKey ;;
      ivWordArray <- Utf8_parse parsedIv ;;
      Ok (keyWordArray, ivWordArray)
  end.

Definition isIn (x : jsstring) (l : list string) : bool :=
  existsb (fun k => JS.eqb (js k) x) l.

(** The options that [encrypt] hands to [CryptoJS.AES.encrypt]. *)
Definition encryptOptions (mode padding : jsstring) (ivWordArray : WordArray)
  : CipherOptions :=
  let cryptoMode := orElse (CryptoJS.mode (toUpperCase mode)) CBC in
  let cryptoPadding := orElse (CryptoJS.pad (toUpperCase padding)) Pkcs7 in
  if isIn (toUpperCase mode) ["ECB"%string] then
    mkOptions None cryptoMode cryptoPadding
  else if isIn (toUpperCase mode) ["CBC"; "CFB"; "OFB"; "CTR"]%string then
    mkOptions (Some ivWordArray) cryptoMode cryptoPadding
  else
    mkOptions (Some ivWordArray) CBC Pkcs7.

(** [AESCipher.encrypt(plaintext, config)] *)
Definition encrypt (P : Primitives.t) (plaintext : jsstring) (config : KeyConfig.t)
  : JS.result jsstring :=
  let mode := orElse (mode config) (js "CBC") in
  let padding := orElse (padding config) (js "Pkcs7") in
  kv <- keyAndIv config ;;
  Primitives.AES_encrypt P plaintext (fst kv)
                         (encryptOptions mode padding (snd kv)).

(** The options that [decrypt] hands to [CryptoJS.AES.decrypt]. *)
Definition decryptOptions (mode padding : jsstring) (ivWordArray : WordArray)
  : CipherOptions :=
  let modeUpper := toUpperCase mode in
  let paddingUpper := removeFirst (js "PADDING") (toUpperCase padding) in
  let cryptoMode := orElse (CryptoJS.mode modeUpper) CBC in
  let cryptoPadding := orElse (CryptoJS.pad paddingUpper) Pkcs7 in
  let usePadding := isIn modeUpper ["ECB"; "CBC"]%string in
  mkOptions
    (if isIn modeUpper ["CBC"; "CFB"; "OFB"; "CTR"]%string
     then Some ivWordArray else None)
    cryptoMode
    (if usePadding then cryptoPadding else NoPadding).

(** The loop that looks for trailing zero bytes: [i] is one more than the
    loop variable of the source. *)
Fixpoint zeroScan (bytes : list Z) (i : nat) (actualLength : nat) : nat :=
  match i with
  | O => actualLength
  | S i' => if nth i' bytes 0 =? 0 then zeroScan bytes i' i' else actualLength
  end.

(** The bytes that the CTR branch turns into text. *)
Definition validBytes (decrypted : WordArray) : list Z :=
  let bytes := CryptoJS.bytes decrypted in
  let sigBytes := length bytes in
  firstn (zeroScan bytes sigBytes sigBytes) bytes.

(** What [decrypt] does with the [WordArray] that the cipher returns. *)
Definition decryptedText (mode : jsstring) (decrypted : WordArray)
  : JS.result jsstring :=
  if JS.eqb (toUpperCase mode) (js "CTR") then
    Ok (Platform.TextDecoder_decode (validBytes decrypted))
  else Utf8_stringify decrypted.

(** [AESCipher.decrypt(ciphertext, config)] *)
Definition decrypt (P : Primitives.t) (ciphertext : jsstring) (config : KeyConfig.t)
  : JS.result jsstring :=
  let mode := orElse (mode config) (js "CBC") in
  let padding := orElse (padding config) (js "Pkcs7") in
  kv <- keyAndIv config ;;
  decrypted <- Primitives.AES_decrypt P ciphertext (fst kv)
                 (decryptOptions mode padding (snd kv)) ;;
  decryptedText mode decrypted.

End AESCipher.

Module SM4Cipher.

Import KeyConfig.

(** [s.padEnd(32, '0').substring(0, 32)] *)
Definition pad32 (s : jsstring) : jsstring :=
  firstn 32 (s ++ repeat 48 (32 - length s)).

Definition hexOfText (s : jsstring) : JS.result jsstring :=
  w <- Utf8_parse s ;; Ok (pad32 (Hex_stringify w)).

(** [SM4Cipher.decrypt(ciphertext, config)] *)
Definition decrypt (P : Primitives.t) (ciphertext : jsstring) (config : KeyConfig.t)
  : JS.result jsstring :=
  let mode := AESCipher.orElse (mode config) (js "CBC") in
  match key config with
  | None => Throw TypeError
  | Some k =>
      parsedKey <- AESCipher.resolve k ;;
      parsedIv <- match iv config with
                  | None => Ok []
                  | Some v => AESCipher.resolve v
                  end ;;
      keyHex <- hexOfText parsedKey ;;
      ivHex <- match parsedIv with
               | [] => Ok None
               | _ => h <- hexOfText parsedIv ;; Ok (Some h)
               end ;;
      let sm4Mode := if JS.eqb (toUpperCase mode) (js "ECB") then js "ecb"
                     else js "cbc" in
      Primitives.SM4_decrypt P ciphertext keyHex sm4Mode ivHex
  end.

(** [SM4Cipher.encrypt(plaintext, config)] *)
Definition encrypt (E : Primitives.enc) (plaintext : jsstring) (config : KeyConfig.t)
  : JS.result jsstring :=
  let mode := AESCipher.orElse (mode config) (js "CBC") in
  match key config with
  | None => Throw TypeError
  | Some k =>
      parsedKey <- AESCipher.resolve k ;;
      parsedIv <- match iv config with
                  | None => Ok []
                  | Some v => AESCipher.resolve v
                  end ;;
      keyHex <- hexOfText parsedKey ;;
      ivHex <- match parsedIv with
               | [] => Ok None
               | _ => h <- hexOfText parsedIv ;; Ok (Some h)
               end ;;
      let sm4Mode := if JS.eqb (toUpperCase mode) (js "ECB") then js "ecb"
                     else js "cbc" in
      Primitives.SM4_encrypt E plaintext keyHex sm4Mode ivHex
  end.

End SM4Cipher.

Module RSACipher.

Import KeyConfig.

(** [RSACipher.decrypt(ciphertext, config)] *)
Definition decrypt (P : Primitives.t) (ciphertext : jsstring) (config : KeyConfig.t)
  : JS.result jsstring :=
  let plainEncoding := AESCipher.orElse (plainEncoding config) [EncodingUtils.UTF8] in
  let cipherEncoding := AESCipher.orElse (cipherEncoding config) [EncodingUtils.BASE64] in
  match privateKey config with
  | None => Throw (CipherFailure "RSA private key missing")
  | Some k =>
      match value k with
      | [] => Throw (CipherFailure "RSA private key missing")
      | _ =>
          let processedCiphertext :=
            if existsb (JS.eqb EncodingUtils.HEX) cipherEncoding then
              Base64_stringify (Hex_parse ciphertext)
            else if existsb (JS.eqb EncodingUtils.BASE64_URLSAFE) cipherEncoding then
              EncodingUtils.fromUrlSafe ciphertext
            else ciphertext in
          d <- Primitives.RSA_decrypt P (value k) processedCiphertext ;;
          match d with
          | None => Throw (CipherFailure "RSA decryption failed")
          | Some decrypted =>
              EncodingUtils.processPlaintextDecoding decrypted plainEncoding
          end
      end
  end.

(** [RSACipher.encrypt(plaintext, config)] *)
Definition encrypt (E : Primitives.enc) (plaintext : jsstring) (config : KeyConfig.t)
  : JS.result jsstring :=
  let plainEncoding := AESCipher.orElse (plainEncoding config) [EncodingUtils.UTF8] in
  let cipherEncoding := AESCipher.orElse (cipherEncoding config) [EncodingUtils.BASE64] in
  match publicKey config with
  | None => Throw (CipherFailure "RSA public key missing")
  | Some k =>
      match value k with
      | [] => Throw (CipherFailure "RSA public key missing")
      | _ =>
          processedPlaintext <-
            (if EncodingUtils.notUtf8 plainEncoding
             then EncodingUtils.decode (EncodingUtils.VStr plaintext) plainEncoding
             else Ok plaintext) ;;
          e <- Primitives.RSA_encrypt E (value k) processedPlaintext ;;
          match e with
          | None | Some [] => Throw (CipherFailure "RSA encryption failed")
          | Some encrypted =>
              if existsb (JS.eqb EncodingUtils.HEX) cipherEncoding then
                Ok (Hex_stringify (Base64_parse encrypted))
              else if existsb (JS.eqb EncodingUtils.BASE64_URLSAFE) cipherEncoding then
                Ok (EncodingUtils.toUrlSafe encrypted)
              else Ok encrypted
          end
      end
  end.

End RSACipher.

Module CipherUtils.

Import KeyConfig.

(** [algorithm.split('/')[0]] *)
Fixpoint firstPart (s : jsstring) : jsstring :=
  match s with
  | [] => []
  | c :: s' => if c =? 47 then [] else c :: firstPart s'
  end.

(** The loop over [cipherEncoding] from the last entry to the first. *)
Fixpoint unwrap (reversed : list jsstring) (processedCiphertext : jsstring)
  : JS.result jsstring :=
  match reversed with
  | [] => Ok processedCiphertext
  | encoding :: rest =>
      let up := toUpperCase encoding in
      if JS.eqb up EncodingUtils.BASE64 then unwrap rest processedCiphertext
      else if JS.eqb up EncodingUtils.HEX then
        unwrap rest (Base64_stringify (Hex_parse processedCiphertext))
      else if JS.eqb up EncodingUtils.BASE64_URLSAFE then
        unwrap rest (EncodingUtils.fromUrlSafe processedCiphertext)
      else
        r <- EncodingUtils.decode (EncodingUtils.VStr processedCiphertext) [encoding] ;;
        unwrap rest r
  end.

(** [CipherUtils.decrypt(ciphertext, config)] *)
Definition decrypt (P : Primitives.t) (ciphertext : jsstring) (config : KeyConfig.t)
  : JS.result jsstring :=
  let plainEncoding := AESCipher.orElse (plainEncoding config) [EncodingUtils.UTF8] in
  let cipherEncoding := AESCipher.orElse (cipherEncoding config) [EncodingUtils.BASE64] in
  match algorithm config with
  | None => Throw TypeError
  | Some algorithm =>
      let mainAlgorithm := toUpperCase (firstPart algorithm) in
      processedCiphertext <-
        (if (1 <? length cipherEncoding)%nat
         then unwrap (rev cipherEncoding) ciphertext
         else Ok ciphertext) ;;
      plaintext <-
        (if JS.eqb mainAlgorithm (js "AES") then
           AESCipher.decrypt P processedCiphertext config
         else if JS.eqb mainAlgorithm (js "SM4") then
           let hexCiphertext :=
             if existsb (JS.eqb EncodingUtils.HEX) cipherEncoding
             then processedCiphertext
             else Hex_stringify (Base64_parse processedCiphertext) in
           SM4Cipher.decrypt P hexCiphertext config
         else if JS.eqb mainAlgorithm (js "RSA") then
           RSACipher.decrypt P processedCiphertext config
         else Throw (CipherFailure "unsupported algorithm")) ;;
      EncodingUtils.processPlaintextDecoding plaintext plainEncoding
  end.

(** [algParts[i] ? algParts[i].toUpperCase() : d] *)
Definition partOr (algParts : list jsstring) (i : nat) (d : string) : jsstring :=
  match nth_error algParts i with
  | Some (c :: p) => toUpperCase (c :: p)
  | _ => js d
  end.

(** [{ ...config, mode: mode, padding: padding }] *)
Definition algorithmConfig (config : KeyConfig.t) (mode padding : jsstring)
  : KeyConfig.t :=
  KeyConfig.mk (name config) (algorithm config) (algorithmType config)
               (Some mode) (Some padding) (key config) (iv config)
               (publicKey config) (privateKey config)
               (KeyConfig.plainEncoding config) (KeyConfig.cipherEncoding config).

(** The loop of [encrypt] over [cipherEncoding] from the first entry to
    the last: [ciphertext] is the text to return, [wordArray] the bytes
    the next entry encodes. *)
Fixpoint wrap (encodings : list jsstring) (ciphertext : jsstring)
         (wordArray : WordArray) : JS.result jsstring :=
  match encodings with
  | [] => Ok ciphertext
  | encoding :: rest =>
      let up := toUpperCase encoding in
      if JS.eqb up EncodingUtils.BASE64 then wrap rest ciphertext wordArray
      else if JS.eqb up EncodingUtils.HEX then
        let ciphertext := Hex_stringify wordArray in
        wrap rest ciphertext (Hex_parse ciphertext)
      else if JS.eqb up EncodingUtils.BASE64_URLSAFE then
        Ok (EncodingUtils.toUrlSafe (Base64_stringify wordArray))
      else
        ciphertext <- EncodingUtils.encode (EncodingUtils.VWords wordArray) [encoding] ;;
        wrap rest ciphertext (Base64_parse ciphertext)
  end.

(** [CipherUtils.encrypt(plaintext, config)] *)
Definition encrypt (P : Primitives.t) (E : Primitives.enc) (plaintext : jsstring)
           (config : KeyConfig.t) : JS.result jsstring :=
  let plainEncoding := AESCipher.orElse (plainEncoding config) [EncodingUtils.UTF8] in
  let cipherEncoding := AESCipher.orElse (cipherEncoding config) [EncodingUtils.BASE64] in
  processedPlaintext <-
    EncodingUtils.processPlaintextEncoding plaintext plainEncoding ;;
  match algorithm config with
  | None => Throw TypeError
  | Some algorithm =>
      let algParts := split 47 algorithm in
      let mainAlgorithm := toUpperCase (hd [] algParts) in
      let mode := partOr algParts 1 "CBC" in
      let padding := partOr algParts 2 "PKCS5PADDING" in
      let algorithmConfig := algorithmConfig config mode padding in
      ciphertext <-
        (if JS.eqb mainAlgorithm (js "AES") then
           AESCipher.encrypt P processedPlaintext algorithmConfig
         else if JS.eqb mainAlgorithm (js "SM4") then
           ciphertext <- SM4Cipher.encrypt E processedPlaintext algorithmConfig ;;
           if existsb (JS.eqb EncodingUtils.BASE64) cipherEncoding
           then Ok (Base64_stringify (Hex_parse ciphertext))
           else Ok ciphertext
         else if JS.eqb mainAlgorithm (js "RSA") then
           RSACipher.encrypt E processedPlaintext config
         else Throw (CipherFailure "unsupported algorithm")) ;;
      if (0 <? length cipherEncoding)%nat
      then wrap cipherEncoding ciphertext (Base64_parse ciphertext)
      else Ok ciphertext
  end.

End CipherUtils.

(* ===================================================================== *)
(** ** Regular expressions *)
(* ===================================================================== *)

Module Regex.

(** The fragment of the regular expressions that the program uses:
    classes of code units, concatenation, alternation, repetition. *)
Inductive t :=
| Empty                                  (* matches nothing *)
| Eps                                    (* matches the empty string *)
| Any                                    (* any code unit *)
| Class (ranges : list (Z * Z))          (* [a-bc-d...] *)
| Cat (r s : t)
| Alt (r s : t)
| Star (r : t).

Definition inRanges (c : Z) (ranges : list (Z * Z)) : bool :=
  existsb (fun ab => (fst ab <=? c) && (c <=? snd ab)) ranges.

Fixpoint nullable (r : t) : bool :=
  match r with
  | Empty | Any | Class _ => false
  | Eps | Star _ => true
  | Cat r s => nullable r && nullable s
  | Alt r s => nullable r || nullable s
  end.

Definition mkCat (r s : t) : t :=
  match r, s with
  | Empty, _ => Empty
  | _, Empty => Empty
  | Eps, _ => s
  | _, Eps => r
  | _, _ => Cat r s
  end.

Definition mkAlt (r s : t) : t :=
  match r, s with
  | Empty, _ => s
  | _, Empty => r
  | _, _ => Alt r s
  end.

(** Brzozowski derivative: what is left to match after the code unit [c]. *)
Fixpoint deriv (c : Z) (r : t) : t :=
  match r with
  | Empty | Eps => Empty
  | Any => Eps
  | Class ranges => if inRanges c ranges then Eps else Empty
  | Cat r s =>
      mkAlt (mkCat (deriv c r) s) (if nullable r then deriv c s else Empty)
  | Alt r s => mkAlt (deriv c r) (deriv c s)
  | Star r => mkCat (deriv c r) (Star r)
  end.

(** [/^r$/.test(s)] *)
Definition matches (r : t) (s : jsstring) : bool :=
  nullable (fold_left (fun r c => deriv c r) s r).

(** [/r/.test(s)]: a match anywhere in [s]. *)
Definition search (r : t) (s : jsstring) : bool :=
  matches (Cat (Star Any) (Cat r (Star Any))) s.

(** Notation of the patterns. *)
Definition ch (s : string) : Z := hd 0 (js s).
Definition range (a b : string) : Z * Z := (ch a, ch b).
Definition one (a : string) : Z * Z := (ch a, ch a).
Definition lit (s : string) : t :=
  fold_right (fun c r => Cat (Class [(c, c)]) r) Eps (js s).
Definition opt (r : t) : t := Alt Eps r.
Definition plus (r : t) : t := Cat r (Star r).
Fixpoint rep (n : nat) (r : t) : t :=            (* r{n} *)
  match n with
  | O => Eps
  | S n' => Cat r (rep n' r)
  end.
Fixpoint upTo (n : nat) (r : t) : t :=           (* r{0,n} *)
  match n with
  | O => Eps
  | S n' => opt (Cat r (upTo n' r))
  end.
Definition between (m n : nat) (r : t) : t :=    (* r{m,n} *)
  Cat (rep m r) (upTo (n - m) r).
Definition atLeast (m : nat) (r : t) : t :=      (* r{m,} *)
  Cat (rep m r) (Star r).
Fixpoint alts (l : list t) : t :=
  match l with
  | [] => Empty
  | [r] => r
  | r :: l' => Alt r (alts l')
  end.
Fixpoint cats (l : list t) : t :=
  match l with
  | [] => Eps
  | [r] => r
  | r :: l' => Cat r (cats l')
  end.

Definition digit : t := Class [range "0" "9"].                   (* \d *)
Definition space : t :=                                           (* \s *)
  Class [(9, 13); (32, 32); (160, 160); (5760, 5760); (8192, 8202);
         (8232, 8233); (8239, 8239); (8287, 8287); (12288, 12288);
         (65279, 65279)].

(** The strings that a pattern denotes. *)
Inductive lang : Regex.t -> jsstring -> Prop :=
| lang_eps : lang Eps []
| lang_any c : lang Any [c]
| lang_class c ranges : inRanges c ranges = true -> lang (Class ranges) [c]
| lang_cat r s u v : lang r u -> lang s v -> lang (Cat r s) (u ++ v)
| lang_alt_l r s u : lang r u -> lang (Alt r s) u
| lang_alt_r r s u : lang s u -> lang (Alt r s) u
| lang_star_nil r : lang (Star r) []
| lang_star_more r u v : lang r u -> lang (Star r) v -> lang (Star r) (u ++ v).

End Regex.

(* ===================================================================== *)
(** ** [textutils.js] *)
(* ===================================================================== *)

Module TextUtils.

(** [EXTENDED_PRINTABLE_REGEX] *)
Definition EXTENDED_PRINTABLE_REGEX : list (Z * Z) :=
  [ (0x20, 0x7E); (0x00A0, 0x00FF); (0x2000, 0x206F); (0x20A0, 0x20CF);
    (0x2100, 0x214F); (0x2200, 0x22FF); (0x2300, 0x23FF); (0x2400, 0x243F);
    (0x2500, 0x257F); (0x2580, 0x259F); (0x25A0, 0x25FF); (0x2600, 0x26FF);
    (0x2700, 0x27BF); (0x2800, 0x28FF); (0x2900, 0x297F); (0x2980, 0x29FF);
    (0x2A00, 0x2AFF); (0x2B00, 0x2BFF); (0x2C00, 0x2C5F); (0x2C60, 0x2C7F);
    (0x2C80, 0x2CFF); (0x2D00, 0x2D2F); (0x2D30, 0x2D7F); (0x2D80, 0x2DDF);
    (0x2E00, 0x2E7F); (0x2E80, 0x2EFF); (0x2F00, 0x2FDF); (0x2FF0, 0x2FFF);
    (0x3000, 0x303F); (0x3040, 0x309f); (0x30a0, 0x30ff); (0x3100, 0x312F);
    (0x3130, 0x318F); (0x3190, 0x319F); (0x31A0, 0x31BF); (0x31C0, 0x31EF);
    (0x31F0, 0x31FF); (0x3200, 0x32FF); (0x3300, 0x33FF); (0x3400, 0x4DBF);
    (0x4DC0, 0x4DFF); (0x4E00, 0x9FFF); (0xA000, 0xA48F); (0xA490, 0xA4CF);
    (0xAC00, 0xD7AF); (0xF900, 0xFAFF); (0xFE10, 0xFE1F); (0xFE30, 0xFE4F);
    (0xFE50, 0xFE6F); (0xFF00, 0xFFEF) ].

(** [part / total], and 0 when [total] is 0.  The ratios of the program are
    quotients of two string lengths; in double precision their comparison
    with [0.5] and with [0.7] agrees with the exact comparison for every
    length below [10^15], so they are kept as exact rationals. *)
Definition ratio (part total : Z) : Q :=
  if 0 <? total then Qmake part (Z.to_pos total) else 0%Q.

Record PrintableAnalysis := mkAnalysis {
  totalChars : Z;
  printableChars : Z;
  printableRatio : Q;
  isReadable : bool
}.

(** [text.match(EXTENDED_PRINTABLE_REGEX)]: with the [g] flag, every code
    unit of the class is one match. *)
Definition printableMatches (text : jsstring) : list Z :=
  filter (fun c => Regex.inRanges c EXTENDED_PRINTABLE_REGEX) text.

(** [analyzePrintableCharacters(text)] *)
Definition analyzePrintableCharacters (text : jsstring) : PrintableAnalysis :=
  match text with
  | [] => mkAnalysis 0 0 0%Q false
  | _ =>
      let totalChars := JS.len text in
      let printableChars := JS.len (printableMatches text) in
      let printableRatio := ratio printableChars totalChars in
      mkAnalysis totalChars printableChars printableRatio
                 (Qle_bool (1 # 2) printableRatio)
  end.

(** [isTextReadable(text, threshold)] *)
Definition isTextReadable (text : jsstring) (threshold : Q) : bool :=
  let analysis := analyzePrintableCharacters text in
  Qle_bool threshold (printableRatio analysis).

(** [(text.match(/[...]/g) || []).length] *)
Definition countIn (ranges : list (Z * Z)) (text : jsstring) : Z :=
  JS.len (filter (fun c => Regex.inRanges c ranges) text).

Record CharacterTypes := mkTypes {
  ascii : Z;
  latinExtended : Z;
  cjk : Z;
  symbols : Z
}.

Record Report := mkReport {
  analysis : PrintableAnalysis;
  nonPrintableChars : Z;
  nonPrintableRatio : Q;
  characterTypes : CharacterTypes
}.

(** [getTextAnalysisReport(text)] *)
Definition getTextAnalysisReport (text : jsstring) : Report :=
  let analysis := analyzePrintableCharacters text in
  mkReport analysis
           (totalChars analysis - printableChars analysis)
           (1 - printableRatio analysis)%Q
           (mkTypes
              (countIn [(0x20, 0x7E)] text)
              (countIn [(0x00A0, 0x00FF)] text)
              (countIn [(0x4E00, 0x9FFF); (0x3400, 0x4DBF); (0xF900, 0xFAFF)] text)
              (countIn [(0x2000, 0x2BFF); (0x2E00, 0x2EFF)] text)).

(** The negated class of [filterNonPrintableCharacters]: the complement
    of the ranges of [EXTENDED_PRINTABLE_REGEX]. *)
Definition nonPrintable (c : Z) : bool :=
  negb (Regex.inRanges c EXTENDED_PRINTABLE_REGEX).

(** [filterNonPrintableCharacters(text)]: every match of the class is
    replaced by the empty string. *)
Definition filterNonPrintableCharacters (text : jsstring) : jsstring :=
  match text with
  | [] => []
  | _ => filter (fun c => negb (nonPrintable c)) text
  end.

End TextUtils.

(* ===================================================================== *)
(** ** The encode tool: [decodeHex] *)
(* ===================================================================== *)

Module EncodeTool.

Record Decoded := mkDecoded {
  value : jsstring;
  isByteArray : bool;
  byteCount : option Z
}.

(** [hex.match(/.{1,2}/g)]: successive greedy matches of one or two code
    units that are not line terminators.  The empty list is [null]. *)
Fixpoint pairs (hex : jsstring) : list jsstring :=
  match hex with
  | [] => []
  | c1 :: r1 =>
      if isLineTerminator c1 then pairs r1
      else match r1 with
           | [] => [[c1]]
           | c2 :: r2 =>
               if isLineTerminator c2 then [c1] :: pairs r2
               else [c1; c2] :: pairs r2
           end
  end.

(** Decimal digits of a byte. *)
Definition decimal (b : Z) : jsstring :=
  if b <? 10 then [48 + b]
  else if b <? 100 then [48 + b / 10; 48 + b mod 10]
  else [48 + b / 100; 48 + (b / 10) mod 10; 48 + b mod 10].

(** [xs.join(' ')] *)
Fixpoint join (xs : list jsstring) : jsstring :=
  match xs with
  | [] => []
  | [x] => x
  | x :: r => x ++ 32 :: join r
  end.

(** [bytes.map(byte => '0x' + ...).join(' ')]: [bytes] is a [Uint8Array],
    and so is the result of its [map]: each string ['0x..'] is stored as
    the number it denotes, and [join] prints that number in decimal. *)
Definition byteArrayText (bytes : list Z) : jsstring :=
  join (map decimal bytes).

(** [decodedText.match(/[\x20-\x7E\u4e00-\u9fff]/g)] *)
Definition printableChars (decodedText : jsstring) : list Z :=
  filter (fun c => Regex.inRanges c [(0x20, 0x7E); (0x4e00, 0x9fff)]) decodedText.

(** [decodeHex(hex)] *)
Definition decodeHex (hex : jsstring) : JS.result Decoded :=
  try_catch
    (let hex := if (length hex mod 2 =? 0)%nat then hex else 48 :: hex in
     match pairs hex with
     | [] => Throw TypeError
     | ps =>
         let bytes := map (fun byte => Platform.toUint8 (parseInt16 byte)) ps in
         let decodedText := Platform.TextDecoder_decode bytes in
         let printableRatio :=
           TextUtils.ratio (JS.len (printableChars decodedText)) (JS.len decodedText) in
         if negb (Qle_bool (7 # 10) printableRatio)
         then Ok (mkDecoded (byteArrayText bytes) true (Some (JS.len bytes)))
         else Ok (mkDecoded decodedText false None)
     end)
    (fun _ => Throw HexDecodingFailed).

(** The functions below wrap their body in [try] and throw an [Error] of
    their own (['Base64 encoding failed: ...'] and the like) when it
    throws: [None] is that error.  Those whose body cannot throw on a
    string return their text. *)

(** [encodeBase64(str)] *)
Definition encodeBase64 (str : jsstring) : option jsstring :=
  match utf8Encode str with
  | Ok latin1 => Platform.btoa latin1
  | Throw _ => None
  end.

(** [decodeBase64(str)] *)
Definition decodeBase64 (str : jsstring) : option jsstring :=
  match Platform.atob str with
  | Some latin1 => utf8Decode latin1
  | None => None
  end.

(** [encodeHex(str)] *)
Definition encodeHex (str : jsstring) : jsstring :=
  flat_map (fun byte => Platform.padStart 2 48 (Platform.toString 16 byte))
           (Platform.TextEncoder_encode str).

(** [encodeUrl(str)] *)
Definition encodeUrl (str : jsstring) : option jsstring :=
  match Platform.encodeURIComponent str with
  | Ok r => Some r
  | Throw _ => None
  end.

(** [decodeUrl(str)] *)
Definition decodeUrl (str : jsstring) : option jsstring :=
  match Platform.decodeURIComponent str with
  | Ok r => Some r
  | Throw _ => None
  end.

(** [encodeUnicode(str)] *)
Definition encodeUnicode (str : jsstring) : jsstring :=
  flat_map (fun char =>
              92 :: 117 ::
              Platform.padStart 4 48 (Platform.toString 16 (Platform.charCodeAt0 char)))
           (Platform.Array_from str).

Definition isHexDigit (c : Z) : bool :=
  match hexVal c with Some _ => true | None => false end.

(** [decodeUnicode(str)]: every match of [/\\u([0-9a-fA-F]{4})/g], from
    left to right, is replaced by the code unit that its digits denote. *)
Fixpoint decodeUnicode (str : jsstring) : jsstring :=
  match str with
  | [] => []
  | c :: r =>
      match r with
      | u :: h1 :: h2 :: h3 :: h4 :: r' =>
          if (c =? 92) && (u =? 117) &&
             isHexDigit h1 && isHexDigit h2 && isHexDigit h3 && isHexDigit h4
          then Platform.fromCharCode (parseInt16 [h1; h2; h3; h4]) :: decodeUnicode r'
          else c :: decodeUnicode r
      | _ => c :: decodeUnicode r
      end
  end.

(** [encodeAscii(str)] *)
Definition encodeAscii (str : jsstring) : jsstring :=
  joinWith [44]
    (map (fun char => Platform.toString 10 (Platform.charCodeAt0 char))
         (Platform.Array_from str)).

(** [decodeAscii(asciiStr)] *)
Definition decodeAscii (asciiStr : jsstring) : jsstring :=
  map (fun code => Platform.fromCharCode (Platform.parseInt10 code))
      (split 44 asciiStr).

(** [encodeUtf8Bytes(str)] *)
Definition encodeUtf8Bytes (str : jsstring) : jsstring :=
  joinWith [44] (map (Platform.toString 10) (Platform.TextEncoder_encode str)).

(** [decodeUtf8Bytes(byteStr)] *)
Definition decodeUtf8Bytes (byteStr : jsstring) : jsstring :=
  Platform.TextDecoder_decode
    (map (fun b => Platform.toUint8 (Platform.parseInt10 b)) (split 44 byteStr)).

(** *** [detectFormat] *)

Definition hexClass : Regex.t :=
  Regex.Class [Regex.range "0" "9"; Regex.range "a" "f"; Regex.range "A" "F"].

(** [/%[0-9A-Fa-f]{2}/] *)
Definition urlPattern : Regex.t :=
  Regex.cats [Regex.lit "%";
              Regex.rep 2 (Regex.Class [Regex.range "0" "9"; Regex.range "A" "F";
                                        Regex.range "a" "f"])].

(** [/\\u[0-9a-fA-F]{4}/] *)
Definition unicodePattern : Regex.t :=
  Regex.cats [Regex.Class [(92, 92)]; Regex.lit "u"; Regex.rep 4 hexClass].

(** [/^(\d+,)*\d+$/] *)
Definition numberList : Regex.t :=
  Regex.cats [Regex.Star (Regex.cats [Regex.plus Regex.digit; Regex.lit ","]);
              Regex.plus Regex.digit].

(** [/^[0-9a-fA-F]+$/] *)
Definition hexPattern : Regex.t := Regex.plus hexClass.

(** [/^[A-Za-z0-9+/]*={0,2}$/] *)
Definition base64Pattern : Regex.t :=
  Regex.cats [ Regex.Star (Regex.Class [Regex.range "A" "Z"; Regex.range "a" "z";
                                        Regex.range "0" "9"; Regex.one "+";
                                        Regex.one "/"]);
               Regex.between 0 2 (Regex.lit "=") ].

(** A negated class of one character, [[^c]], and the dot. *)
Definition notChar (c : Z) : Regex.t := Regex.Class [(0, c - 1); (c + 1, 65535)].
Definition dot : Regex.t :=
  Regex.Class [(0, 9); (11, 12); (14, 8231); (8234, 65535)].

(** [jsonLikePattern]: one of the braces, the brackets, the colon, the
    comma, the double and the single quote. *)
Definition jsonLikePattern : Regex.t :=
  Regex.Class [(123, 123); (125, 125); (91, 91); (93, 93); (58, 58); (44, 44);
               (34, 34); (39, 39)].

(** [/<[a-zA-Z][^>]*>/] *)
Definition xmlLikePattern : Regex.t :=
  Regex.cats [Regex.lit "<"; Regex.Class [Regex.range "a" "z"; Regex.range "A" "Z"];
              Regex.Star (notChar 62); Regex.lit ">"].

(** [/<[^>]+>/] *)
Definition htmlLikePattern : Regex.t :=
  Regex.cats [Regex.lit "<"; Regex.plus (notChar 62); Regex.lit ">"].

Definition nonBase64Patterns : list Regex.t :=
  [ Regex.cats [Regex.lit "{"; Regex.Star (notChar 125); Regex.lit "}"];
    Regex.cats [Regex.lit "["; Regex.Star (notChar 93); Regex.lit "]"];
    Regex.cats [Regex.Class [(34, 34)]; Regex.Star dot; Regex.lit ":"];
    Regex.cats [Regex.lit "<"; Regex.plus (notChar 62); Regex.lit ">"];
    unicodePattern;
    urlPattern ].

(** [bytes.every(b => b >= 0 && b <= 255)] *)
Definition allBytes (bytes : list (option Z)) : bool :=
  forallb (fun b => match b with
                    | Some n => (0 <=? n) && (n <=? 255)
                    | None => false
                    end) bytes.

(** [detectFormat(content)]; the content [None] is a value that is not a
    string, the result [None] is [null]. *)
Definition detectFormat (content : option jsstring) : option jsstring :=
  match content with
  | None | Some [] => None
  | Some content =>
      let trimmed := trim content in
      if Regex.search urlPattern trimmed &&
         isOk (Platform.decodeURIComponent trimmed) then Some (js "url")
      else if Regex.search unicodePattern trimmed then Some (js "unicode")
      else if Regex.matches numberList trimmed then
        let bytes := map Platform.parseInt10 (split 44 trimmed) in
        if allBytes bytes then Some (js "utf8-bytes") else Some (js "ascii")
      else if Regex.matches hexPattern trimmed && (length trimmed mod 2 =? 0)%nat
           then Some (js "hex")
      else if Regex.matches base64Pattern trimmed && (length trimmed mod 4 =? 0)%nat
      then
        let hasNonBase64Pattern :=
          existsb (fun pattern => Regex.search pattern trimmed) nonBase64Patterns in
        if Regex.search jsonLikePattern trimmed || Regex.search xmlLikePattern trimmed ||
           Regex.search htmlLikePattern trimmed || hasNonBase64Pattern
        then Some (js "plain")
        else match Platform.atob trimmed with
             | Some _ => Some (js "base64")
             | None => Some (js "plain")
             end
      else Some (js "plain")
  end.

End EncodeTool.

(* ===================================================================== *)
(** ** The popup: [isLikelyRSACipher] and [detectContentType] *)
(* ===================================================================== *)

Module Popup.

Import Regex.

(** What a run of the classifier reads from outside: the configuration
    store and the cipher utilities.
    - [getItem] is [StorageUtils.getItem('keyConfigs')] projected on
      [keyConfigs]: it may fail, and the property may be absent;
    - [decrypt] is [CipherUtils.decrypt]. *)
Record Env := mkEnv {
  getItem : JS.result (option (list KeyConfig.t));
  decrypt : jsstring -> KeyConfig.t -> JS.result jsstring
}.

(** Computations of the classifier: they may throw, and they record every
    call of [decrypt] (text and configuration) in a log. *)
Definition Attempt := (jsstring * KeyConfig.t)%type.
Definition M (A : Type) := list Attempt -> JS.result A * list Attempt.

Definition ret {A} (a : A) : M A := fun log => (Ok a, log).
Definition lift {A} (r : JS.result A) : M A := fun log => (r, log).
Definition bindM {A B} (m : M A) (k : A -> M B) : M B :=
  fun log =>
    match m log with
    | (Ok a, log') => k a log'
    | (Throw e, log') => (Throw e, log')
    end.
Definition catchM {A} (m : M A) (h : exn -> M A) : M A :=
  fun log =>
    match m log with
    | (Ok a, log') => (Ok a, log')
    | (Throw e, log') => h e log'
    end.
Definition callDecrypt (env : Env) (text : jsstring) (config : KeyConfig.t)
  : M jsstring :=
  fun log => (decrypt env text config, log ++ [(text, config)]).

Notation "x <~ m ;; k" := (bindM m (fun x => k))
  (at level 61, m at next level, right associativity).

(** *** The patterns *)

Definition hex : Regex.t := Class [range "0" "9"; range "a" "f"; range "A" "F"].
Definition h4 : Regex.t := between 1 4 hex.             (* [0-9a-fA-F]{1,4} *)
Definition h4c : Regex.t := Cat h4 (lit ":").           (* [0-9a-fA-F]{1,4}: *)
Definition ch4 : Regex.t := Cat (lit ":") h4.           (* :[0-9a-fA-F]{1,4} *)

(** [(25[0-5]|2[0-4][0-9]|[01]?[0-9][0-9]?)] *)
Definition octet : Regex.t :=
  alts [ cats [lit "25"; Class [range "0" "5"]];
         cats [lit "2"; Class [range "0" "4"]; Class [range "0" "9"]];
         cats [opt (Class [range "0" "1"]); Class [range "0" "9"];
               opt (Class [range "0" "9"])] ].

Definition ipv4Pattern : Regex.t :=
  cats [rep 3 (Cat octet (lit ".")); octet].

(** [/^[\d\.]+$/] *)
Definition digitsAndDots : Regex.t := plus (Class [range "0" "9"; one "."]).

Definition ipv6FullRegex : Regex.t := cats [rep 7 h4c; h4].

Definition ipv6CompressedRegex : Regex.t :=
  alts [ cats [between 1 7 h4c; lit ":"];
         cats [lit ":"; alts [between 1 7 h4c; lit ":"]];
         cats [between 1 6 h4c; lit ":"; h4];
         cats [between 1 5 h4c; between 1 2 ch4];
         cats [between 1 4 h4c; between 1 3 ch4];
         cats [between 1 3 h4c; between 1 4 ch4];
         cats [between 1 2 h4c; between 1 5 ch4];
         cats [h4; lit ":"; between 1 6 ch4];
         cats [lit ":"; alts [between 1 7 ch4; lit ":"]] ].

Definition cidrPattern : Regex.t :=
  cats [ rep 3 (Cat octet (lit ".")); octet; lit "/";
         alts [ Class [range "1" "9"];
                cats [Class [range "1" "2"]; Class [range "0" "9"]];
                cats [lit "3"; Class [range "0" "2"]] ] ].

Definition ipv6CidrPattern : Regex.t :=
  cats [ alts [cats [h4; between 0 7 ch4]; lit ":"; lit "::"];
         lit "/";
         alts [ cats [lit "1"; Class [range "0" "2"]; Class [range "0" "8"]];
                cats [Class [range "1" "9"]; Class [range "0" "9"]];
                Class [range "0" "9"] ] ].

(** [[\d\*\/,\-\?]+] *)
Definition cronField : Regex.t :=
  plus (Class [range "0" "9"; one "*"; one "/"; one ","; one "-"; one "?"]).

Definition cronPatterns : list Regex.t :=
  [ cats [rep 4 (Cat cronField (plus space)); cronField];
    cats [rep 5 (Cat cronField (plus space)); cronField];
    cats [rep 6 (Cat cronField (plus space)); cronField] ].

(** [/^\d{10}$|^\d{13}$/] *)
Definition timestampPattern : Regex.t := Alt (rep 10 digit) (rep 13 digit).

(** [/^\d{4}-\d{2}-\d{2}(\s+\d{2}:\d{2}:\d{2})?$/] *)
Definition dateTimePattern : Regex.t :=
  cats [ rep 4 digit; lit "-"; rep 2 digit; lit "-"; rep 2 digit;
         opt (cats [plus space; rep 2 digit; lit ":"; rep 2 digit; lit ":";
                    rep 2 digit]) ].

(** [/^[A-Za-z0-9+/]*={0,2}$/] *)
Definition base64Pattern : Regex.t :=
  cats [ Star (Class [range "A" "Z"; range "a" "z"; range "0" "9";
                      one "+"; one "/"]);
         between 0 2 (lit "=") ].

(** [/%[0-9A-Fa-f]{2}/], not anchored. *)
Definition urlEncodedPattern : Regex.t :=
  cats [ lit "%";
         rep 2 (Class [range "0" "9"; range "A" "F"; range "a" "f"]) ].

Definition alnum : Regex.t := Class [range "a" "z"; range "A" "Z"; range "0" "9"].
Definition alnumDash : Regex.t :=
  Class [range "a" "z"; range "A" "Z"; range "0" "9"; one "-"].
(** [[a-zA-Z0-9]([a-zA-Z0-9\-]{0,61}[a-zA-Z0-9])?] *)
Definition label : Regex.t :=
  cats [alnum; opt (cats [between 0 61 alnumDash; alnum])].

Definition domainPattern : Regex.t :=
  cats [ label; Star (cats [lit "."; label]); lit ".";
         atLeast 2 (Class [range "a" "z"; range "A" "Z"]) ].

(** *** [isLikelyRSACipher] *)

(** [config.algorithm?.toUpperCase().includes(x)] *)
Definition algorithmIncludes (config : KeyConfig.t) (x : string) : bool :=
  match KeyConfig.algorithm config with
  | Some a => includes (toUpperCase a) (js x)
  | None => false
  end.

(** [f?.toUpperCase() === x] *)
Definition upperIs (f : option jsstring) (x : string) : bool :=
  match f with
  | Some m => JS.eqb (toUpperCase m) (js x)
  | None => false
  end.

Definition hasRSAConfig (configs : list KeyConfig.t) : bool :=
  existsb (fun config =>
             algorithmIncludes config "RSA" ||
             upperIs (KeyConfig.algorithmType config) "RSA") configs.

(** [result.keyConfigs || []] *)
Definition keyConfigs (env : Env) : JS.result (list KeyConfig.t) :=
  r <- getItem env ;;
  Ok (match r with Some l => l | None => [] end).

Definition typicalRSALengths : list Z := [344; 172; 256; 128].

Definition isLikelyRSACipher (env : Env) (content : jsstring) : M bool :=
  let trimmedContent := trim content in
  if negb (matches base64Pattern trimmedContent) then ret false
  else if JS.len trimmedContent <? 50 then ret false
  else
    let isTypicalLength :=
      existsb (Z.eqb (JS.len trimmedContent)) typicalRSALengths in
    catchM
      (configs <~ lift (keyConfigs env) ;;
       if hasRSAConfig configs &&
          (isTypicalLength || (100 <? JS.len trimmedContent))
       then ret true else ret false)
      (fun _ => ret false).

(** *** The speculative decryption sweep *)

Definition isCFBMode (config : KeyConfig.t) : bool :=
  algorithmIncludes config "CFB" || upperIs (KeyConfig.mode config) "CFB" ||
  algorithmIncludes config "CTR" || upperIs (KeyConfig.mode config) "CTR".

(** The body of the loop inside its [try]: [true] is the
    [return 'encrypted'], [false] falls through to the next
    configuration. *)
Definition tryConfig (env : Env) (trimmedContent : jsstring)
           (config : KeyConfig.t) : M bool :=
  decrypted <~ callDecrypt env trimmedContent config ;;
  if negb (JS.eqb decrypted []) && negb (JS.eqb decrypted trimmedContent) then
    if isCFBMode config then
      let analysis := TextUtils.analyzePrintableCharacters decrypted in
      if TextUtils.isReadable analysis then ret true else ret false
    else ret true
  else ret false.

(** [for (const config of configs) { try { ... } catch (err) { continue } }] *)
Fixpoint sweep (env : Env) (trimmedContent : jsstring)
         (configs : list KeyConfig.t) : M bool :=
  match configs with
  | [] => ret false
  | config :: rest =>
      found <~ catchM (tryConfig env trimmedContent config)
                      (fun _ => ret false) ;;
      if found then ret true else sweep env trimmedContent rest
  end.

(** The block guarded by [trimmedContent.length > 10]. *)
Definition encryptedContent (env : Env) (trimmedContent : jsstring) : M bool :=
  if 10 <? JS.len trimmedContent then
    catchM
      (configs <~ lift (keyConfigs env) ;;
       if (0 <? length configs)%nat then sweep env trimmedContent configs
       else ret false)
      (fun _ => ret false)
  else ret false.

(** *** [detectContentType] *)

Definition http : jsstring := js "http".

(** The [try] around [decodeURIComponent]. *)
Definition decodesToHttp (trimmedContent : jsstring) : bool :=
  match Platform.decodeURIComponent trimmedContent with
  | Ok decoded => startsWith (toLowerCase decoded) http
  | Throw _ => false
  end.

Definition detectContentType (env : Env) (content : option jsstring) : M jsstring :=
  let trimmedContent := match content with
                        | Some c => trim c
                        | None => []
                        end in
  if matches ipv4Pattern trimmedContent then ret (js "ip")
  else if includes trimmedContent (js ":") &&
          negb (matches digitsAndDots trimmedContent) &&
          (matches ipv6FullRegex trimmedContent ||
           matches ipv6CompressedRegex trimmedContent) then ret (js "ipv6")
  else if includes trimmedContent (js "/") &&
          matches cidrPattern trimmedContent then ret (js "cidr")
  else if includes trimmedContent (js ":") && includes trimmedContent (js "/") &&
          matches ipv6CidrPattern trimmedContent then ret (js "ipv6cidr")
  else if existsb (fun pattern => matches pattern trimmedContent) cronPatterns
       then ret (js "cron")
  else if matches timestampPattern trimmedContent then ret (js "timestamp")
  else if matches dateTimePattern trimmedContent then ret (js "datetime")
  else
    rsa <~ isLikelyRSACipher env trimmedContent ;;
    if rsa then ret (js "encrypted")
    else
      found <~ encryptedContent env trimmedContent ;;
      if found then ret (js "encrypted")
      else if startsWith (toLowerCase trimmedContent) http then ret (js "url")
      else if search urlEncodedPattern trimmedContent &&
              decodesToHttp trimmedContent then ret (js "url")
      else if matches domainPattern trimmedContent then ret (js "domain")
      else if matches base64Pattern trimmedContent &&
              (JS.len trimmedContent mod 4 =? 0) &&
              (10 <? JS.len trimmedContent) then ret (js "encode")
      else ret (js "encode").

(** The effect [detectType] of the component [PopUp]: the state
    [contentType] after a change of [content]. *)
Definition detectType (env : Env) (content : jsstring) : M jsstring :=
  if JS.eqb content [] || JS.eqb (trim content) [] then ret (js "encode")
  else detectContentType env (Some content).

(** The tags that the classifier can return. *)
Definition tags : list jsstring :=
  map js ["ip"; "ipv6"; "cidr"; "ipv6cidr"; "cron"; "timestamp"; "datetime";
          "url"; "domain"; "encrypted"; "encode"]%string.

End Popup.

(* ===================================================================== *)
(** ** The URL tool: format tests *)
(* ===================================================================== *)

Module UrlTool.

(** [isUrlEncoded(str)] *)
Definition isUrlEncoded (str : jsstring) : bool :=
  Regex.search EncodeTool.urlPattern str.

(** [isBase64Encoded(str)]: the text matches the pattern, [atob] reads
    it, and [btoa] of what was read is the text again. *)
Definition isBase64Encoded (str : jsstring) : bool :=
  if negb (Regex.matches EncodeTool.base64Pattern str) then false
  else match Platform.atob str with
       | Some decoded =>
           match Platform.btoa decoded with
           | Some again => JS.eqb again str
           | None => false
           end
       | None => false
       end.

(** [isHexEncoded(str)] *)
Definition isHexEncoded (str : jsstring) : bool :=
  Regex.matches EncodeTool.hexPattern str && (length str mod 2 =? 0)%nat.

End UrlTool.

(* ===================================================================== *)
(** ** Key configuration utilities ([keyconfigutils]) *)
(* ===================================================================== *)

Module KeyConfigUtils.

Import KeyConfig.

(** The entries of [ERROR_MESSAGES] that the functions below return;
    [NoMessage] is the empty string. *)
Inductive Message :=
| NoMessage
| EMPTY_CONFIG_NAME
| DUPLICATE_CONFIG_NAME
| MINIMUM_ONE_CONFIG
| EMPTY_KEY_VALUE
| EMPTY_RSA_KEYS.

(** [{ isValid, message }] *)
Record Validation := mkValidation {
  isValid : bool;
  message : Message
}.

(** [config.algorithm?.startsWith('RSA')] *)
Definition algorithmIsRSA (config : KeyConfig.t) : bool :=
  match algorithm config with
  | Some a => startsWith a (js "RSA")
  | None => false
  end.

(** [m?.value] is a non-empty string. *)
Definition hasValue (m : option KeyMaterial) : bool :=
  match m with
  | Some k => negb (JS.eqb (value k) [])
  | None => false
  end.

(** [m?.value?.trim()] is a non-empty string. *)
Definition hasText (m : option KeyMaterial) : bool :=
  match m with
  | Some k => negb (JS.eqb (trim (value k)) [])
  | None => false
  end.

(** [ConfigValidator.isValidConfig(config)]: whether what it returns is
    truthy. *)
Definition isValidConfig (config : option KeyConfig.t) : bool :=
  match config with
  | None => false
  | Some config =>
      if JS.eqb (name config) [] then false
      else if algorithmIsRSA config
           then hasValue (publicKey config) && hasValue (privateKey config)
           else hasValue (key config)
  end.

(** [ConfigValidator.validateConfigName(name, existingConfigs)] *)
Definition validateConfigName (name : option jsstring)
           (existingConfigs : list KeyConfig.t) : Validation :=
  match option_map trim name with
  | None | Some [] => mkValidation false EMPTY_CONFIG_NAME
  | Some trimmedName =>
      if existsb (fun c => JS.eqb (KeyConfig.name c) trimmedName) existingConfigs
      then mkValidation false DUPLICATE_CONFIG_NAME
      else mkValidation true NoMessage
  end.

(** [ConfigValidator.validateRequiredFields(config)] *)
Definition validateRequiredFields (config : KeyConfig.t) : Validation :=
  if JS.eqb (trim (name config)) [] then mkValidation false EMPTY_CONFIG_NAME
  else if algorithmIsRSA config then
    if negb (hasText (publicKey config)) || negb (hasText (privateKey config))
    then mkValidation false EMPTY_RSA_KEYS
    else mkValidation true NoMessage
  else
    if negb (hasText (key config)) then mkValidation false EMPTY_KEY_VALUE
    else mkValidation true NoMessage.

(** [ConfigProcessor.updateCompoundEncoding(currentEncodings, newEncoding,
    action)]; [None] is a value that is not an array. *)
Definition updateCompoundEncoding (currentEncodings : option (list jsstring))
           (newEncoding action : jsstring) : list jsstring :=
  let encodings := match currentEncodings with
                   | Some l => l
                   | None => []
                   end in
  if JS.eqb action (js "add") then
    if negb (existsb (JS.eqb newEncoding) encodings)
    then encodings ++ [newEncoding]
    else encodings
  else if JS.eqb action (js "remove") then
    filter (fun enc => negb (JS.eqb enc newEncoding)) encodings
  else encodings.

(** [Math.ceil(a / b)] on integers, [b > 0]. *)
Definition ceilDiv (a b : Z) : Z := - ((- a) / b).

Record Pagination := mkPagination {
  totalPages : Z;
  startIndex : Z;
  endIndex : Z;
  hasNext : bool;
  hasPrev : bool
}.

(** [PaginationHelper.calculatePagination(totalItems, currentPage,
    itemsPerPage)] *)
Definition calculatePagination (totalItems currentPage itemsPerPage : Z)
  : Pagination :=
  let totalPages := ceilDiv totalItems itemsPerPage in
  let startIndex := (currentPage - 1) * itemsPerPage in
  let endIndex := startIndex + itemsPerPage in
  mkPagination totalPages startIndex endIndex
               (currentPage <? totalPages) (1 <? currentPage).

(** [for (let i = a; i <= b; i++) pageNumbers.push(i)] *)
Definition fromTo (a b : Z) : list Z :=
  map (fun i => a + Z.of_nat i) (seq 0 (Z.to_nat (b - a + 1))).

(** [PaginationHelper.generatePageNumbers(currentPage, totalPages)] *)
Definition generatePageNumbers (currentPage totalPages : Z) : list Z :=
  if totalPages <=? 5 then fromTo 1 totalPages
  else if currentPage <=? 3 then fromTo 1 5
  else if totalPages - 2 <=? currentPage then fromTo (totalPages - 4) totalPages
  else fromTo (currentPage - 2) (currentPage + 2).

(** [{ canDelete, message }] *)
Record Deletion := mkDeletion {
  canDelete : bool;
  deletionMessage : Message
}.

(** [ConfigManager.canDeleteConfig(configs, configName)] *)
Definition canDeleteConfig (configs : list KeyConfig.t) (configName : jsstring)
  : Deletion :=
  if (length configs <=? 1)%nat then mkDeletion false MINIMUM_ONE_CONFIG
  else mkDeletion true NoMessage.

(** [ConfigManager.getCurrentConfig(configs, selectedConfigName)];
    [None] is [null]. *)
Definition getCurrentConfig (configs : list KeyConfig.t)
           (selectedConfigName : jsstring) : option KeyConfig.t :=
  find (fun c => JS.eqb (name c) selectedConfigName) configs.

(** [ConfigManager.updateConfigInList(configs, updatedConfig)] *)
Definition updateConfigInList (configs : list KeyConfig.t)
           (updatedConfig : KeyConfig.t) : list KeyConfig.t :=
  map (fun config => if JS.eqb (name config) (name updatedConfig)
                     then updatedConfig else config) configs.

(** [ConfigManager.removeConfigFromList(configs, configName)] *)
Definition removeConfigFromList (configs : list KeyConfig.t)
           (configName : jsstring) : list KeyConfig.t :=
  filter (fun c => negb (JS.eqb (name c) configName)) configs.

End KeyConfigUtils.

(* ===================================================================== *)
(** ** [encodinghandlers.js] and [configdisplayutils.js] *)
(* ===================================================================== *)

Module EncodingHandler.

Import KeyConfig.

(** [{ ...prev, plainEncoding: e }] and [{ ...prev, cipherEncoding: e }] *)
Definition withPlainEncoding (prev : KeyConfig.t) (e : list jsstring) : KeyConfig.t :=
  KeyConfig.mk (name prev) (algorithm prev) (algorithmType prev) (mode prev)
               (padding prev) (key prev) (iv prev) (publicKey prev)
               (privateKey prev) (Some e) (cipherEncoding prev).

Definition withCipherEncoding (prev : KeyConfig.t) (e : list jsstring) : KeyConfig.t :=
  KeyConfig.mk (name prev) (algorithm prev) (algorithmType prev) (mode prev)
               (padding prev) (key prev) (iv prev) (publicKey prev)
               (privateKey prev) (plainEncoding prev) (Some e).

(** [encoding.split('+').map(enc => enc.trim()).filter(enc => enc)] *)
Definition splitEncodings (encoding : jsstring) : list jsstring :=
  filter (fun enc => negb (JS.eqb enc [])) (map trim (split 43 encoding)).

(** The functions below call [setState] with an updater; each definition
    is that updater, from the previous state to the next. *)

(** [updatePlainEncoding(setState, encoding)] *)
Definition updatePlainEncoding (encoding : jsstring) (prev : KeyConfig.t) : KeyConfig.t :=
  withPlainEncoding prev (splitEncodings encoding).

(** [addPlainEncoding(setState, encoding)] *)
Definition addPlainEncoding (encoding : jsstring) (prev : KeyConfig.t) : KeyConfig.t :=
  let currentEncodings := AESCipher.orElse (plainEncoding prev) [] in
  withPlainEncoding prev (currentEncodings ++ [encoding]).

(** [removePlainEncoding(setState, encoding)] *)
Definition removePlainEncoding (encoding : jsstring) (prev : KeyConfig.t) : KeyConfig.t :=
  let currentEncodings := AESCipher.orElse (plainEncoding prev) [] in
  withPlainEncoding prev
    (filter (fun enc => negb (JS.eqb enc encoding)) currentEncodings).

(** [updateCipherEncoding(setState, encoding)] *)
Definition updateCipherEncoding (encoding : jsstring) (prev : KeyConfig.t) : KeyConfig.t :=
  withCipherEncoding prev (splitEncodings encoding).

(** [addCipherEncoding(setState, encoding)] *)
Definition addCipherEncoding (encoding : jsstring) (prev : KeyConfig.t) : KeyConfig.t :=
  let currentEncodings := AESCipher.orElse (cipherEncoding prev) [] in
  if negb (existsb (JS.eqb encoding) currentEncodings)
  then withCipherEncoding prev (currentEncodings ++ [encoding])
  else prev.

(** [removeCipherEncoding(setState, encoding)] *)
Definition removeCipherEncoding (encoding : jsstring) (prev : KeyConfig.t) : KeyConfig.t :=
  let currentEncodings := AESCipher.orElse (cipherEncoding prev) [] in
  withCipherEncoding prev
    (filter (fun enc => negb (JS.eqb enc encoding)) currentEncodings).

(** [[...new Set(encodings)]]: the first occurrence of every entry. *)
Fixpoint uniqueFrom (seen encodings : list jsstring) : list jsstring :=
  match encodings with
  | [] => []
  | e :: r =>
      if existsb (JS.eqb e) seen then uniqueFrom seen r
      else e :: uniqueFrom (e :: seen) r
  end.

(** The two messages of [validateEncodingCombination]. *)
Inductive Message := NoMessage | SelectAtLeastOne | NoRepetition.

Record Validation := mkValidation {
  isValid : bool;
  message : Message
}.

(** [validateEncodingCombination(encodings)] *)
Definition validateEncodingCombination (encodings : option (list jsstring))
  : Validation :=
  match encodings with
  | None | Some [] => mkValidation false SelectAtLeastOne
  | Some encodings =>
      let uniqueEncodings := uniqueFrom [] encodings in
      if negb (length uniqueEncodings =? length encodings)%nat
      then mkValidation false NoRepetition
      else mkValidation true NoMessage
  end.

End EncodingHandler.

Module ConfigDisplayHandler.

Import KeyConfig.

(** [NEED_PADDING_MODES] of [keyconfigconstants.js] *)
Definition NEED_PADDING_MODES : list jsstring := [js "CBC"; js "ECB"].

(** [a || b] on strings that may be absent: the first that is neither
    absent nor empty. *)
Definition orText (a : option jsstring) (b : option jsstring) : option jsstring :=
  match a with
  | Some (c :: r) => Some (c :: r)
  | _ => b
  end.

(** [config.algorithm?.split('/')[i]] *)
Definition algorithmPart (config : KeyConfig.t) (i : nat) : option jsstring :=
  match algorithm config with
  | Some a => nth_error (split 47 a) i
  | None => None
  end.

Record BasicInfo := mkBasicInfo {
  info_algorithmType : jsstring;
  info_mode : jsstring;
  info_padding : jsstring;
  info_plainEncoding : jsstring;
  info_cipherEncoding : jsstring;
  needsPadding : bool
}.

(** [xs?.[0] || d] *)
Definition firstOr (xs : option (list jsstring)) (d : jsstring) : jsstring :=
  match xs with
  | Some ((c :: r) :: _) => c :: r
  | _ => d
  end.

(** [getConfigBasicInfo(config)] of a configuration that is there. *)
Definition getConfigBasicInfo (config : KeyConfig.t) : BasicInfo :=
  let algorithmType :=
    AESCipher.orElse (orText (algorithmType config) (orText (algorithmPart config 0) None))
                     (js "AES") in
  let mode :=
    AESCipher.orElse (orText (mode config) (orText (algorithmPart config 1) None)) [] in
  let padding :=
    AESCipher.orElse (orText (padding config) (orText (algorithmPart config 2) None)) [] in
  mkBasicInfo algorithmType mode padding
              (firstOr (plainEncoding config) (js "UTF8"))
              (firstOr (cipherEncoding config) (js "BASE64"))
              (existsb (JS.eqb mode) NEED_PADDING_MODES).

(** The messages of [getConfigStatusInfo]. *)
Inductive StatusMessage :=
| ConfigMissing
| RSAKeysMissing
| SymmetricKeyMissing
| ConfigValid.

Record Status := mkStatus {
  status_isValid : bool;
  status_message : StatusMessage
}.

(** [getConfigStatusInfo(config)] *)
Definition getConfigStatusInfo (config : option KeyConfig.t) : Status :=
  match config with
  | None => mkStatus false ConfigMissing
  | Some config =>
      if KeyConfigUtils.algorithmIsRSA config then
        if negb (KeyConfigUtils.hasText (publicKey config)) ||
           negb (KeyConfigUtils.hasText (privateKey config))
        then mkStatus false RSAKeysMissing
        else mkStatus true ConfigValid
      else
        if negb (KeyConfigUtils.hasText (key config))
        then mkStatus false SymmetricKeyMissing
        else mkStatus true ConfigValid
  end.

End ConfigDisplayHandler.

(* ===================================================================== *)
(** ** The pagination component: [generatePageNumbers] *)
(* ===================================================================== *)

Module AutoPagination.

(** An entry of the list: a page number or the string ['...']. *)
Inductive item :=
| Page (n : Z)
| Dots.

(** [generatePageNumbers(current, total)] *)
Definition generatePageNumbers (current total : Z) : list item :=
  if total <=? 7 then map Page (KeyConfigUtils.fromTo 1 total)
  else
    let delta := 2 in
    let range := KeyConfigUtils.fromTo (Z.max 2 (current - delta))
                                       (Z.min (total - 1) (current + delta)) in
    (if 2 <? current - delta then [Page 1; Dots] else [Page 1])
    ++ map Page range
    ++ (if current + delta <? total - 1 then [Dots; Page total] else [Page total]).

End AutoPagination.

(* ===================================================================== *)
(** ** Reference definitions that the theorems compare the code with *)
(* ===================================================================== *)

Module Reference.

(** The numbers below [n], to check a decidable property on each. *)
Definition below (n : nat) : list Z := map Z.of_nat (seq 0 n).

Definition isByte (b : Z) : Prop := 0 <= b < 256.

Fixpoint dropZeros (l : list Z) : list Z :=
  match l with
  | [] => []
  | b :: r => if b =? 0 then dropZeros r else l
  end.

(** A byte sequence without its maximal run of trailing zero bytes. *)
Definition trimTrailingZeros (l : list Z) : list Z := rev (dropZeros (rev l)).

Import Popup.

(** A configuration succeeds on a text: [decrypt] returns, what it returns
    is neither empty nor the text itself and, when the configuration names
    CFB or CTR, the result is readable. *)
Definition succeeds (env : Env) (text : jsstring) (config : KeyConfig.t) : bool :=
  match decrypt env text config with
  | Ok decrypted =>
      negb (JS.eqb decrypted []) && negb (JS.eqb decrypted text) &&
      (if isCFBMode config
       then TextUtils.isReadable (TextUtils.analyzePrintableCharacters decrypted)
       else true)
  | Throw _ => false
  end.

(** The configurations up to the first one that succeeds, included. *)
Fixpoint attempted (env : Env) (text : jsstring) (configs : list KeyConfig.t)
  : list KeyConfig.t :=
  match configs with
  | [] => []
  | config :: rest =>
      if succeeds env text config then [config]
      else config :: attempted env text rest
  end.

(** The configurations that the sweep goes through. *)
Definition sweepConfigs (env : Env) (text : jsstring) : list KeyConfig.t :=
  if 10 <? JS.len text then
    match keyConfigs env with
    | Ok configs => configs
    | Throw _ => []
    end
  else [].

Import EncodingUtils.

(** The sextet number [j] of the three bytes [a], [b], [c]. *)
Definition sextetOf (a b c j : Z) : Z :=
  ((a * 65536 + b * 256 + c) / 2 ^ (6 * (3 - j))) mod 64.

(** A character of the Base64 alphabet. *)
Definition isB64 (c : Z) : Prop := exists v, 0 <= v < 64 /\ c = b64char v.

(** A Base64 text: characters of the alphabet, then at most two ['=']. *)
Definition base64Text (s : jsstring) : Prop :=
  exists body k, s = body ++ repeat 61 k /\ (k <= 2)%nat /\ Forall isB64 body.

(** The byte that [parseLoop] makes of two characters at offset [k]. *)
Definition parsed (k v w : Z) : Z :=
  Z.land (Z.lor (Z.shiftl (b64rev v) (k * 2)) (Z.shiftr (b64rev w) (6 - k * 2))) 255.

(** A UTF-16 code unit. *)
Definition isUnit (c : Z) : Prop := 0 <= c < 65536.

(** A lowercase letter of ASCII. *)
Definition isLower (c : Z) : bool := (97 <=? c) && (c <=? 122).

(** [encoding.toUpperCase() === x] *)
Definition named (x e : jsstring) : bool := JS.eqb (toUpperCase e) x.

(** An entry that [decode] skips once the text has become bytes. *)
Definition bytesStep (e : jsstring) : bool :=
  named HEX e || named BASE64 e || named BASE64_URLSAFE e.

(** The rest of a chain after the entry that parses the text: entries that
    leave the bytes alone, then [UTF8] entries only. *)
Fixpoint tailOk (E : list jsstring) : bool :=
  match E with
  | [] => true
  | e :: r => if named UTF8 e then forallb (named UTF8) r
              else bytesStep e && tailOk r
  end.

(** The chains on which [decode] undoes [encode]: after leading [UTF8]
    entries, [BASE64_URLSAFE], or [BASE64] in a chain without
    [BASE64_URLSAFE]; then a rest as above. *)
Fixpoint roundTripChain (E : list jsstring) : bool :=
  match E with
  | [] => false
  | e :: r =>
      if named UTF8 e then roundTripChain r
      else if named BASE64_URLSAFE e then tailOk r
      else if named BASE64 e
           then tailOk r && negb (existsb (named BASE64_URLSAFE) r)
           else false
  end.

(** A text whose code units are in range and whose surrogates are paired. *)
Fixpoint wellFormed (s : jsstring) : bool :=
  match s with
  | [] => true
  | c :: s' =>
      (0 <=? c) && (c <? 65536) &&
      if isHighSurrogate c then
        match s' with
        | d :: s'' => isLowSurrogate d && wellFormed s''
        | [] => false
        end
      else negb (isLowSurrogate c) && wellFormed s'
  end.

(** An entry that [encode] and [decode] know. *)
Definition known (e : jsstring) : bool := named UTF8 e || bytesStep e.

(** Nothing but white space, or no string at all. *)
Definition blank (content : option jsstring) : bool :=
  match content with
  | Some c => forallb isSpace c
  | None => true
  end.

(** The rule of [isLikelyRSACipher] on a trimmed text. *)
Definition rsaRule (env : Env) (text : jsstring) : bool :=
  Regex.matches base64Pattern text && (100 <? JS.len text) &&
  match keyConfigs env with
  | Ok configs => hasRSAConfig configs
  | Throw _ => false
  end.

(** The cascade of [detectContentType] as a function: the tag, and the
    configurations that [decrypt] is called with. *)
Definition outcome (env : Env) (content : option jsstring)
  : jsstring * list KeyConfig.t :=
  let t := match content with
           | Some c => trim c
           | None => []
           end in
  if Regex.matches ipv4Pattern t then (js "ip", [])
  else if includes t (js ":") && negb (Regex.matches digitsAndDots t) &&
          (Regex.matches ipv6FullRegex t || Regex.matches ipv6CompressedRegex t)
       then (js "ipv6", [])
  else if includes t (js "/") && Regex.matches cidrPattern t then (js "cidr", [])
  else if includes t (js ":") && includes t (js "/") &&
          Regex.matches ipv6CidrPattern t then (js "ipv6cidr", [])
  else if existsb (fun pattern => Regex.matches pattern t) cronPatterns
       then (js "cron", [])
  else if Regex.matches timestampPattern t then (js "timestamp", [])
  else if Regex.matches dateTimePattern t then (js "datetime", [])
  else if rsaRule env (trim t) then (js "encrypted", [])
  else
    let tried := attempted env t (sweepConfigs env t) in
    if existsb (succeeds env t) (sweepConfigs env t) then (js "encrypted", tried)
    else if startsWith (toLowerCase t) http then (js "url", tried)
    else if Regex.search urlEncodedPattern t && decodesToHttp t
         then (js "url", tried)
    else if Regex.matches domainPattern t then (js "domain", tried)
    else (js "encode", tried).

(** A text that [trimStart] leaves alone. *)
Definition startsOk (u : jsstring) : Prop :=
  match u with
  | [] => True
  | c :: _ => isSpace c = false
  end.

(** The modes that [AESCipher] knows by name. *)
Definition fiveModes : list string := ["ECB"; "CBC"; "CFB"; "OFB"; "CTR"]%string.

(** A configuration whose algorithm is one of the three that
    [CipherUtils] dispatches on. *)
Definition supported (config : KeyConfig.t) : bool :=
  match KeyConfig.algorithm config with
  | Some algorithm =>
      let mainAlgorithm := toUpperCase (CipherUtils.firstPart algorithm) in
      JS.eqb mainAlgorithm (js "AES") || JS.eqb mainAlgorithm (js "SM4") ||
      JS.eqb mainAlgorithm (js "RSA")
  | None => false
  end.

(** An entry that names [BASE64], [UTF8] or [BASE64_URLSAFE]. *)
Definition urlStep (e : jsstring) : bool :=
  named BASE64 e || named UTF8 e || named BASE64_URLSAFE e.

(** One [HEX] entry with [BASE64] and [UTF8] entries before it and [BASE64]
    entries after it. *)
Fixpoint hexChain (E : list jsstring) : bool :=
  match E with
  | [] => false
  | e :: r =>
      if named BASE64 e || named UTF8 e then hexChain r
      else named HEX e && forallb (named BASE64) r
  end.

(** Chains of [cipherEncoding] on which [unwrap] undoes [wrap]. *)
Definition wrapChain (E : list jsstring) : bool :=
  forallb urlStep E || hexChain E.

(** A lowercase hexadecimal digit. *)
Definition lowerHex (c : Z) : bool :=
  ((48 <=? c) && (c <=? 57)) || ((97 <=? c) && (c <=? 102)).

(** The sixteen lowercase hexadecimal digits. *)
Definition hexChars : list Z := js "0123456789abcdef".

(** A text in which no high surrogate is followed by a low one: every
    code point is one code unit. *)
Fixpoint noPairs (s : jsstring) : bool :=
  match s with
  | [] => true
  | c :: s' =>
      negb (isHighSurrogate c &&
            match s' with
            | d :: _ => isLowSurrogate d
            | [] => false
            end) && noPairs s'
  end.

(** A text without the byte order mark that may start it. *)
Definition withoutBOM (s : jsstring) : jsstring :=
  match s with
  | 65279 :: r => r
  | _ => s
  end.

(** The code points of a text whose surrogates are paired. *)
Fixpoint codePoints (s : jsstring) : list Z :=
  match s with
  | [] => []
  | c :: s' =>
      if isHighSurrogate c then
        match s' with
        | d :: s'' => (65536 + (c - 55296) * 1024 + (d - 56320)) :: codePoints s''
        | [] => [c]
        end
      else c :: codePoints s'
  end.

(** A Unicode scalar value. *)
Definition isScalar (cp : Z) : Prop :=
  0 <= cp < 55296 \/ 57344 <= cp < 1114112.

(** A pattern that starts with a class, and that class. *)
Fixpoint mustStart (r : Regex.t) : bool :=
  match r with
  | Regex.Class _ => true
  | Regex.Cat r1 _ => mustStart r1
  | _ => false
  end.

Fixpoint leading (r : Regex.t) : list (Z * Z) :=
  match r with
  | Regex.Class ranges => ranges
  | Regex.Cat r1 _ => leading r1
  | _ => []
  end.




(** The value of a hexadecimal digit, and 0 for any other code unit. *)
Definition digitOrZero (c : Z) : Z :=
  match hexVal c with
  | Some d => d
  | None => 0
  end.

End Reference.

(* ===================================================================== *)
(** ** Sample configurations and environments *)
(* ===================================================================== *)

Module Samples.

Definition material (v : string) : option KeyConfig.KeyMaterial :=
  Some (KeyConfig.mkKey (js v) (Some [EncodingUtils.UTF8])).

(** A configuration as the option page stores it. *)
Definition config (name algorithm algorithmType mode padding : string)
  : KeyConfig.t :=
  KeyConfig.mk (js name) (Some (js algorithm)) (Some (js algorithmType))
               (Some (js mode)) (Some (js padding))
               (material "0123456789abcdef") (material "fedcba9876543210")
               (material "") (material "")
               (Some [EncodingUtils.UTF8]) (Some [EncodingUtils.BASE64]).

Definition ofbConfig : KeyConfig.t :=
  config "ofb" "AES/OFB/NoPadding" "AES" "OFB" "NoPadding".
Definition cbcConfig : KeyConfig.t :=
  config "cbc" "AES/CBC/PKCS5Padding" "AES" "CBC" "PKCS5Padding".
Definition cfbConfig : KeyConfig.t :=
  config "cfb" "AES/CFB/NoPadding" "AES" "CFB" "NoPadding".
Definition ctrConfig : KeyConfig.t :=
  config "ctr" "AES/CTR/NoPadding" "AES" "ctr" "NoPadding".
Definition rsaConfig : KeyConfig.t :=
  config "rsa" "RSA" "RSA" "" "".

(** Cipher libraries whose AES decryption yields the bytes [out] whatever
    the ciphertext: under a stream mode every byte sequence is the
    decryption of some ciphertext of the same length. *)
Definition yielding (out : list Z) : Primitives.t :=
  Primitives.mk (fun _ _ _ => Throw (CipherFailure "not used"))
                (fun _ _ _ => Ok (ofBytes out))
                (fun _ _ _ _ => Throw (CipherFailure "not used"))
                (fun _ _ => Ok None).

(** Sixteen control characters: valid UTF-8, nothing printable. *)
Definition noise : list Z := [1; 2; 3; 4; 5; 6; 7; 8; 1; 2; 3; 4; 5; 6; 7; 8].

Definition storeOf (configs : list KeyConfig.t) (P : Primitives.t) : Popup.Env :=
  Popup.mkEnv (Ok (Some configs)) (CipherUtils.decrypt P).

(** A store without [keyConfigs]. *)
Definition noStore : Popup.Env :=
  Popup.mkEnv (Ok None) (fun _ _ => Throw (CipherFailure "no cipher")).

(** The Base64 text of [ABCDEFGHIJKLMNOP]. *)
Definition ciphertext : jsstring := js "QUJDREVGR0hJSktMTU5PUA==".


(** A configuration whose mode [AESCipher] does not know. *)
Definition gcmConfig : KeyConfig.t :=
  config "gcm" "AES/GCM/NoPadding" "AES" "GCM" "NoPadding".

(** An RSA configuration with both keys and a [HEX] ciphertext. *)
Definition rsaHexConfig : KeyConfig.t :=
  KeyConfig.mk (js "rsa") (Some (js "RSA")) (Some (js "RSA")) None None
               None None (material "PUBLIC") (material "PRIVATE")
               (Some [EncodingUtils.UTF8]) (Some [EncodingUtils.HEX]).

(** A stand-in for the RSA library: the ciphertext of a text is the Base64
    form of its UTF-8 bytes. *)
Definition plainRSA : Primitives.enc :=
  Primitives.mkEnc
    (fun _ _ _ _ => Throw (CipherFailure "not used"))
    (fun _ p => w <- Utf8_parse p ;; Ok (Some (Base64_stringify w))).

Definition plainRSADecrypt : Primitives.t :=
  Primitives.mk (fun _ _ _ => Throw (CipherFailure "not used"))
                (fun _ _ _ => Throw (CipherFailure "not used"))
                (fun _ _ _ _ => Throw (CipherFailure "not used"))
                (fun _ c => match Utf8_stringify (Base64_parse c) with
                            | Ok p => Ok (Some p)
                            | Throw _ => Ok None
                            end).

(** An algorithm that [CipherUtils] does not know. *)
Definition des : KeyConfig.t :=
  config "des" "DES/CBC/PKCS5Padding" "DES" "CBC" "PKCS5Padding".

(** [config] with another [cipherEncoding]. *)
Definition encodedAs (cipherEncoding : list jsstring) (c : KeyConfig.t) : KeyConfig.t :=
  KeyConfig.mk (KeyConfig.name c) (KeyConfig.algorithm c) (KeyConfig.algorithmType c)
               (KeyConfig.mode c) (KeyConfig.padding c) (KeyConfig.key c)
               (KeyConfig.iv c) (KeyConfig.publicKey c) (KeyConfig.privateKey c)
               (KeyConfig.plainEncoding c) (Some cipherEncoding).

Definition sm4Config : KeyConfig.t :=
  config "sm4" "SM4/CBC/PKCS5Padding" "SM4" "CBC" "PKCS5Padding".

(** Cipher libraries whose AES encryption yields the text [c]. *)
Definition sealing (c : jsstring) : Primitives.t :=
  Primitives.mk (fun _ _ _ => Ok c)
                (fun _ _ _ => Throw (CipherFailure "not used"))
                (fun _ _ _ _ => Throw (CipherFailure "not used"))
                (fun _ _ => Ok None).

(** Libraries whose SM4 encryption yields the text [h]. *)
Definition sm4Yielding (h : jsstring) : Primitives.enc :=
  Primitives.mkEnc (fun _ _ _ _ => Ok h) (fun _ _ => Ok None).

(** Names written with the long s (U+017F), whose upper case is [S]. *)
Definition base64LongS : jsstring := js "ba" ++ [0x17F] ++ js "e64".

Definition aesLongS : KeyConfig.t :=
  KeyConfig.mk (js "aes") (Some (js "ae" ++ [0x17F] ++ js "/CBC/PKCS5Padding"))
               None (Some (js "CBC")) (Some (js "PKCS5Padding"))
               (material "0123456789abcdef") (material "fedcba9876543210")
               None None
               (Some [EncodingUtils.UTF8]) (Some [EncodingUtils.BASE64]).

Definition rsaLongS : KeyConfig.t :=
  KeyConfig.mk (js "rsa") (Some (js "r" ++ [0x17F] ++ js "a")) None None None
               None None (material "PUBLIC") (material "PRIVATE")
               (Some [EncodingUtils.UTF8]) (Some [EncodingUtils.BASE64]).

(** A Base64 text of 104 letters. *)
Definition hundredFour : jsstring := repeat 65 104.

End Samples.

(* ===================================================================== *)
(** ** Sanity checks of the encoders *)
(* ===================================================================== *)

Unset Implicit Arguments.


Example b64_A : Base64_stringify (ofBytes [65]) = js "QQ==".
Proof. reflexivity. Qed.

Example b64_gt : Base64_stringify (ofBytes [62; 62; 62]) = js "Pj4+".
Proof. reflexivity. Qed.

Example b64_parse_A : Base64_parse (js "QQ==") = ofBytes [65].
Proof. reflexivity. Qed.

Example b64_parse_1234 : Base64_parse (js "MTIzNA==") = ofBytes (js "1234").
Proof. reflexivity. Qed.

Example hex_parse_odd : Hex_parse (js "abc") = mkWordArray [171; 12] true.
Proof. reflexivity. Qed.

Example b64_of_odd_hex : Base64_stringify (Hex_parse (js "ff1")) = js "/w==".
Proof. reflexivity. Qed.

Example hex_parse_negative :
  Hex_parse (js "0102-1") = mkWordArray [255; 255; 255] false.
Proof. reflexivity. Qed.

Example utf8_euro : Utf8_parse [8364] = Ok (ofBytes [226; 130; 172]).
Proof. reflexivity. Qed.

Example utf8_back : Utf8_stringify (ofBytes [226; 130; 172; 240; 159; 152; 128])
                    = Ok [8364; 55357; 56832].
Proof. reflexivity. Qed.

Import EncodingUtils.

Example encode_utf8_A : encode (VStr (js "A")) [UTF8] = Ok (js "QQ==").
Proof. reflexivity. Qed.

Example decode_utf8_A : decode (VStr (js "QQ==")) [UTF8] = Ok (js "QQ==").
Proof. reflexivity. Qed.

Example encode_hex_A : encode (VStr (js "A")) [HEX] = Ok (js "QQ==").
Proof. reflexivity. Qed.

Example roundtrip_b64 :
  decode (VStr (js "aGVsbG8gd29ybGQ=")) [BASE64] = Ok (js "hello world").
Proof. reflexivity. Qed.

Example roundtrip_urlsafe :
  encode (VStr (js ">>>?")) [BASE64_URLSAFE] = Ok (js "Pj4-Pw") /\
  decode (VStr (js "Pj4-Pw")) [BASE64_URLSAFE] = Ok (js ">>>?").
Proof. split; reflexivity. Qed.

Example decode_fallback : decode (VStr (js "/w==")) [BASE64] = Ok (js "/w==").
Proof. reflexivity. Qed.

Example textdecoder_replacement :
  Platform.TextDecoder_decode [10; 188] = [10; 65533].
Proof. reflexivity. Qed.

Example textdecoder_bom :
  Platform.TextDecoder_decode [239; 187; 191; 226; 130; 172] = [8364].
Proof. reflexivity. Qed.

Example decodeHex_text :
  EncodeTool.decodeHex (js "68656c6c6f") = Ok (EncodeTool.mkDecoded (js "hello") false None).
Proof. reflexivity. Qed.

Example decodeHex_odd :
  EncodeTool.decodeHex (js "abc") = Ok (EncodeTool.mkDecoded (js "10 188") true (Some 2)).
Proof. reflexivity. Qed.

Example decodeHex_empty : EncodeTool.decodeHex [] = Throw HexDecodingFailed.
Proof. reflexivity. Qed.

Import Popup.
Import Samples.
Import Reference.


Example classify_cidr :
  fst (detectContentType noStore (Some (js "192.168.1.0/24")) []) = Ok (js "cidr").
Proof. vm_compute. reflexivity. Qed.

Example classify_ip :
  fst (detectContentType noStore (Some (js " 8.8.8.8 ")) []) = Ok (js "ip").
Proof. vm_compute. reflexivity. Qed.

Example classify_ipv6 :
  fst (detectContentType noStore (Some (js "2001:db8::1")) []) = Ok (js "ipv6").
Proof. vm_compute. reflexivity. Qed.

Example classify_ipv6cidr :
  fst (detectContentType noStore (Some (js "2001:db8:0:0:0:0:0:1/64")) []) = Ok (js "ipv6cidr").
Proof. vm_compute. reflexivity. Qed.

Example classify_cron :
  fst (detectContentType noStore (Some (js "0 0 * * *")) []) = Ok (js "cron").
Proof. vm_compute. reflexivity. Qed.

Example classify_timestamp :
  fst (detectContentType noStore (Some (js "1111111111")) []) = Ok (js "timestamp").
Proof. vm_compute. reflexivity. Qed.

Example classify_datetime :
  fst (detectContentType noStore (Some (js "2024-01-02 03:04:05")) []) = Ok (js "datetime").
Proof. vm_compute. reflexivity. Qed.

Example classify_url :
  fst (detectContentType noStore (Some (js "HTTPS://example.com/a?b=c")) []) = Ok (js "url").
Proof. vm_compute. reflexivity. Qed.

Example classify_url_encoded :
  fst (detectContentType noStore (Some (js "%68ttp%3A%2F%2Fexample.com")) []) = Ok (js "url").
Proof. vm_compute. reflexivity. Qed.

Example classify_malformed_escape :
  fst (detectContentType noStore (Some (js "%C0%80http")) []) = Ok (js "encode") /\
  Platform.decodeURIComponent (js "%C0%80http") = Throw URIError.
Proof. split; vm_compute; reflexivity. Qed.

Example classify_ipv6_loopback :
  fst (detectContentType noStore (Some (js "::1")) []) = Ok (js "ipv6").
Proof. vm_compute. reflexivity. Qed.

Example classify_cron_quartz :
  fst (detectContentType noStore (Some (js "0 0 0 * * ? 2024")) []) = Ok (js "cron").
Proof. vm_compute. reflexivity. Qed.

Example classify_not_cidr :
  fst (detectContentType noStore (Some (js "1.2.3.4/33")) []) = Ok (js "encode").
Proof. vm_compute. reflexivity. Qed.

Example classify_eleven_digits :
  fst (detectContentType noStore (Some (js "12345678901")) []) = Ok (js "encode").
Proof. vm_compute. reflexivity. Qed.

Example classify_domain :
  fst (detectContentType noStore (Some (js "www.example-site.com")) []) = Ok (js "domain").
Proof. vm_compute. reflexivity. Qed.

Example classify_base64 :
  fst (detectContentType noStore (Some (js "MTIzNA==")) []) = Ok (js "encode").
Proof. vm_compute. reflexivity. Qed.

(* ===================================================================== *)
(** ** Strings *)
(* ===================================================================== *)

Lemma eqb_eq (a b : jsstring) : JS.eqb a b = true <-> a = b.
Proof.
  revert b; induction a as [|x a IH]; intros [|y b]; simpl; split;
    try congruence; try reflexivity.
  - intros H. apply andb_true_iff in H as [H1 H2].
    apply Z.eqb_eq in H1. apply IH in H2. congruence.
  - intros H. injection H as -> ->.
    rewrite Z.eqb_refl. simpl. apply IH. reflexivity.
Qed.

Lemma eqb_refl (a : jsstring) : JS.eqb a a = true.
Proof. apply eqb_eq. reflexivity. Qed.

Lemma eqb_neq (a b : jsstring) : JS.eqb a b = false <-> a <> b.
Proof.
  split.
  - intros H E. apply eqb_eq in E. congruence.
  - intros H. destruct (JS.eqb a b) eqn:E; [|reflexivity].
    apply eqb_eq in E. contradiction.
Qed.

(** The upper case of a code point holds no lowercase letter of ASCII. *)
Lemma toUpper_no_lower (c : Z) :
  Forall (fun x => isLower x = false) (Unicode.toUpper c).
Proof.
  unfold Unicode.toUpper, Unicode.full.
  destruct (find (fun e => fst e =? c) Unicode.upperSpecial) as [e|] eqn:F.
  - apply find_some in F as [I _].
    assert (C : forallb (fun e => forallb (fun x => negb (isLower x)) (snd e))
                        Unicode.upperSpecial = true) by (vm_compute; reflexivity).
    rewrite forallb_forall in C. specialize (C e I).
    rewrite forallb_forall in C. apply Forall_forall. intros x X.
    apply negb_true_iff. apply C. exact X.
  - constructor; [|constructor]. unfold Unicode.simple.
    destruct (find (Unicode.inRow c) Unicode.upperRows) as [[[[first last] step] delta]|] eqn:R.
    + apply find_some in R as [I R].
      assert (C : forallb (fun row => let '(first, last, _, delta) := row in
                                      (last + delta <? 97) || (122 <? first + delta))
                          Unicode.upperRows = true) by (vm_compute; reflexivity).
      rewrite forallb_forall in C. specialize (C _ I). cbv beta iota zeta in C.
      unfold Unicode.inRow in R. apply andb_true_iff in R as [R _].
      apply andb_true_iff in R as [R1 R2].
      apply Z.leb_le in R1. apply Z.leb_le in R2.
      unfold isLower. apply andb_false_iff.
      apply orb_true_iff in C as [C|C]; apply Z.ltb_lt in C;
        [left | right]; apply Z.leb_gt; lia.
    + pose proof (find_none _ _ R (97, 122, 1, -32)) as N.
      unfold isLower. destruct ((97 <=? c) && (c <=? 122)) eqn:L; [|reflexivity].
      rewrite <- N; [|left; reflexivity].
      unfold Unicode.inRow. rewrite L, Z.mod_1_r. reflexivity.
Qed.

Lemma codeUnitsOf_no_lower (cp : Z) :
  isLower cp = false -> Forall (fun x => isLower x = false) (Unicode.codeUnitsOf cp).
Proof.
  intros H. unfold Unicode.codeUnitsOf.
  destruct (cp <? 65536) eqn:E.
  - constructor; [exact H | constructor].
  - apply Z.ltb_ge in E.
    assert (0 <= (cp - 65536) / 1024) by (apply Z.div_pos; lia).
    assert (0 <= (cp - 65536) mod 1024) by (apply Z.mod_pos_bound; lia).
    repeat constructor; unfold isLower; apply andb_false_iff; right;
      apply Z.leb_gt; lia.
Qed.

(** [toUpperCase] returns no lowercase letter of ASCII. *)
Lemma toUpperCase_no_lower (s : jsstring) :
  Forall (fun x => isLower x = false) (toUpperCase s).
Proof.
  unfold toUpperCase. apply Forall_flat_map. apply Forall_flat_map.
  apply Forall_forall. intros c _.
  eapply Forall_impl; [|apply toUpper_no_lower].
  intros x. apply codeUnitsOf_no_lower.
Qed.

(** A key with a lowercase letter is never the upper-case form of a string. *)
Lemma upper_never' (k : string) (t : jsstring) :
  existsb isLower (js k) = true ->
  Forall (fun x => isLower x = false) t ->
  JS.eqb (js k) t = false.
Proof.
  intros H T. apply eqb_neq. intros E. rewrite <- E in T.
  apply existsb_exists in H as [x [I L]].
  rewrite Forall_forall in T. rewrite (T x I) in L. discriminate L.
Qed.

Lemma upper_never (k : string) (s : jsstring) :
  existsb isLower (js k) = true ->
  JS.eqb (js k) (toUpperCase s) = false.
Proof. intros H. apply upper_never'; [exact H | apply toUpperCase_no_lower]. Qed.

(** Every key of [CryptoJS.pad] has a lowercase letter: a name without
    lowercase letters finds nothing in that table. *)
Lemma pad_fixed_none (t : jsstring) :
  Forall (fun x => isLower x = false) t -> CryptoJS.pad t = None.
Proof.
  intros E. unfold CryptoJS.pad, CryptoJS.lookup. cbn [find fst].
  repeat (rewrite upper_never' by (reflexivity || exact E)). reflexivity.
Qed.

(** Case conversion beyond ASCII: letters whose upper case is written with
    ASCII letters, a letter outside the Basic Multilingual Plane, the
    Kelvin sign, and the capital sigma at the end of a word and inside. *)
Example case_conversion :
  toUpperCase [0x17F; 0x131; 0xDF; 0xFB01] = js "SISSFI" /\
  toUpperCase [0xE9; 0xD801; 0xDC28] = [0xC9; 0xD801; 0xDC00] /\
  toLowerCase [0x212A; 0x130] = [107; 105; 0x307] /\
  toLowerCase [0x391; 0x3A3] = [0x3B1; 0x3C2] /\
  toLowerCase [0x3A3; 0x391] = [0x3C3; 0x3B1].
Proof. repeat split; vm_compute; reflexivity. Qed.

Lemma Forall_skipn {A} (P : A -> Prop) (n : nat) (l : list A) :
  Forall P l -> Forall P (skipn n l).
Proof.
  revert l; induction n as [|n IH]; intros l H; simpl; [exact H|].
  destruct l as [|x l]; [constructor|]. inversion H; subst. apply IH. assumption.
Qed.

Lemma Forall_removeFirst (P : Z -> Prop) (p s : jsstring) :
  Forall P s -> Forall P (removeFirst p s).
Proof.
  induction s as [|x s IH]; intros H.
  - cbn [removeFirst]. destruct (startsWith [] p); [apply Forall_skipn; exact H | constructor].
  - cbn [removeFirst]. destruct (startsWith (x :: s) p).
    + apply Forall_skipn. exact H.
    + inversion H; subst. constructor; [assumption | apply IH; assumption].
Qed.

(* ===================================================================== *)
(** ** Checking finite ranges *)
(* ===================================================================== *)

Lemma below_In (n : nat) (x : Z) : 0 <= x < Z.of_nat n -> In x (below n).
Proof.
  intros H. unfold below. apply in_map_iff.
  exists (Z.to_nat x). split; [lia|]. apply in_seq. lia.
Qed.

Lemma checked_below (P : Z -> bool) (n : nat) :
  forallb P (below n) = true -> forall x, 0 <= x < Z.of_nat n -> P x = true.
Proof.
  intros H x Hx. rewrite forallb_forall in H. apply H. apply below_In. exact Hx.
Qed.

(* ===================================================================== *)
(** ** The matcher and the language of a pattern *)
(* ===================================================================== *)

Import Regex.

Lemma nullable_lang (r : Regex.t) : nullable r = true <-> lang r [].
Proof.
  induction r as [| | |ranges|r IHr s IHs|r IHr s IHs|r IH]; cbn [nullable].
  - split; [discriminate | intros H; inversion H].
  - split; [intros _; constructor | reflexivity].
  - split; [discriminate | intros H; inversion H].
  - split; [discriminate | intros H; inversion H].
  - rewrite andb_true_iff, IHr, IHs. split.
    + intros [H1 H2]. change (@nil Z) with (@nil Z ++ []). constructor; assumption.
    + intros H. inversion H as [| | |? ? u v Hu Hv| | | |]; subst.
      match goal with
      | E : _ ++ _ = [] |- _ => apply app_eq_nil in E as [-> ->]
      end.
      split; assumption.
  - rewrite orb_true_iff, IHr, IHs. split.
    + intros [H|H]; [apply lang_alt_l | apply lang_alt_r]; exact H.
    + intros H. inversion H; subst; tauto.
  - split; [intros _; constructor | reflexivity].
Qed.

Lemma mkCat_lang (r s : Regex.t) (u : jsstring) :
  lang (mkCat r s) u <-> lang (Cat r s) u.
Proof.
  assert (E : forall x, lang Empty x -> False) by (intros x H; inversion H).
  assert (N : forall x, lang Eps x -> x = []) by (intros x H; inversion H; reflexivity).
  split.
  - intros H.
    destruct r; destruct s; cbn [mkCat] in H;
      try (exfalso; exact (E _ H)); try exact H;
      try (rewrite <- (app_nil_l u); constructor; [constructor | exact H]);
      try (rewrite <- (app_nil_r u); constructor; [exact H | constructor]).
  - intros H. inversion H as [| | |? ? x y Hx Hy| | | |]; subst.
    destruct r; destruct s; cbn [mkCat];
      try (exfalso; exact (E _ Hx)); try (exfalso; exact (E _ Hy));
      try (rewrite (N _ Hx); exact Hy);
      try (rewrite (N _ Hy), app_nil_r; exact Hx);
      try (constructor; assumption).
Qed.

Lemma mkAlt_lang (r s : Regex.t) (u : jsstring) :
  lang (mkAlt r s) u <-> lang (Alt r s) u.
Proof.
  assert (E : forall x, lang Empty x -> False) by (intros x H; inversion H).
  split.
  - intros H.
    destruct r; destruct s; cbn [mkAlt] in H; try exact H;
      try (apply lang_alt_r; exact H); try (apply lang_alt_l; exact H).
  - intros H. inversion H as [| | | |? ? ? Hx|? ? ? Hx| |]; subst;
    destruct r; destruct s; cbn [mkAlt];
      try (exfalso; exact (E _ Hx)); try exact Hx;
      try (apply lang_alt_l; exact Hx); try (apply lang_alt_r; exact Hx).
Qed.

Lemma star_cons (r : Regex.t) (c : Z) (s : jsstring) :
  lang (Star r) (c :: s) ->
  exists u v, s = u ++ v /\ lang r (c :: u) /\ lang (Star r) v.
Proof.
  intros H. remember (Star r) as R eqn:ER. remember (c :: s) as w eqn:Ew.
  induction H as [| | | | | | |r' u v Hu _ Hv IHv]; try discriminate.
  injection ER as ->.
  destruct u as [|x u].
  - cbn [app] in Ew. apply IHv; [reflexivity | exact Ew].
  - cbn [app] in Ew. injection Ew as -> <-.
    exists u, v. repeat split; assumption.
Qed.

Lemma deriv_lang (r : Regex.t) (c : Z) (s : jsstring) :
  lang (deriv c r) s <-> lang r (c :: s).
Proof.
  revert s.
  induction r as [| | |ranges|r IHr t IHt|r IHr t IHt|r IH]; intros s; cbn [deriv].
  - split; intros H; inversion H.
  - split; intros H; inversion H.
  - split; intros H; inversion H; subst; constructor.
  - destruct (inRanges c ranges) eqn:E.
    + split; intros H; inversion H; subst; [constructor; exact E | constructor].
    + split; intros H; inversion H; subst. congruence.
  - rewrite mkAlt_lang. split.
    + intros H. inversion H as [| | | |? ? ? H1|? ? ? H1| |]; subst.
      * apply mkCat_lang in H1.
        inversion H1 as [| | |? ? u v Hu Hv| | | |]; subst.
        apply IHr in Hu. change (c :: u ++ v) with ((c :: u) ++ v).
        constructor; assumption.
      * destruct (nullable r) eqn:N; [|inversion H1].
        apply nullable_lang in N. apply IHt in H1.
        change (c :: s) with ([] ++ c :: s). constructor; assumption.
    + intros H. inversion H as [| | |? ? u v Hu Hv| | | |]; subst.
      destruct u as [|x u].
      * match goal with
        | E : [] ++ _ = _ |- _ => cbn [app] in E; subst v
        end.
        apply lang_alt_r.
        apply nullable_lang in Hu. rewrite Hu. apply IHt. exact Hv.
      * match goal with
        | E : (_ :: _) ++ _ = _ |- _ => cbn [app] in E; injection E as -> <-
        end.
        apply lang_alt_l.
        apply mkCat_lang. constructor; [apply IHr; exact Hu | exact Hv].
  - rewrite mkAlt_lang. split.
    + intros H. inversion H; subst;
        [apply lang_alt_l; apply IHr | apply lang_alt_r; apply IHt]; assumption.
    + intros H. inversion H; subst;
        [apply lang_alt_l; apply IHr | apply lang_alt_r; apply IHt]; assumption.
  - rewrite mkCat_lang. split.
    + intros H. inversion H as [| | |? ? u v Hu Hv| | | |]; subst.
      apply IH in Hu. change (c :: u ++ v) with ((c :: u) ++ v).
      constructor; assumption.
    + intros H. apply star_cons in H as [u [v [-> [Hu Hv]]]].
      constructor; [apply IH; exact Hu | exact Hv].
Qed.

(** The matcher decides the language of the pattern. *)
Theorem matches_lang (r : Regex.t) (s : jsstring) :
  matches r s = true <-> lang r s.
Proof.
  unfold matches. revert r. induction s as [|c s IH]; intros r; cbn [fold_left].
  - apply nullable_lang.
  - rewrite IH. apply deriv_lang.
Qed.

Lemma lang_star_class (ranges : list (Z * Z)) (u : jsstring) :
  lang (Star (Class ranges)) u <-> Forall (fun c => inRanges c ranges = true) u.
Proof.
  split.
  - intros H. remember (Star (Class ranges)) as R eqn:E.
    induction H as [| | | | | | |r x v Hx _ Hv IHv]; try discriminate.
    + constructor.
    + injection E as ->. inversion Hx; subst.
      constructor; [assumption | apply IHv; reflexivity].
  - induction 1 as [|c u Hc _ IH]; [constructor|].
    change (c :: u) with ([c] ++ u). constructor; [constructor; exact Hc | exact IH].
Qed.

Lemma lang_pad (v : jsstring) : lang (lit "=") v <-> v = [61].
Proof.
  change (lit "=") with (Cat (Class [(61, 61)]) Eps). split.
  - intros H. inversion H as [| | |? ? x y Hx Hy| | | |]; subst.
    inversion Hx as [| |c ? Hc| | | | |]; subst. inversion Hy; subst.
    unfold inRanges in Hc. cbn [existsb fst snd] in Hc.
    rewrite orb_false_r in Hc. apply andb_true_iff in Hc as [H1 H2].
    apply Z.leb_le in H1. apply Z.leb_le in H2.
    replace c with 61 by lia. reflexivity.
  - intros ->. change [61] with ([61] ++ []).
    constructor; [constructor; reflexivity | constructor].
Qed.

Lemma lang_pads (v : jsstring) :
  lang (between 0 2 (lit "=")) v <-> exists k, v = repeat 61 k /\ (k <= 2)%nat.
Proof.
  change (between 0 2 (lit "="))
    with (Cat Eps (Alt Eps (Cat (lit "=") (Alt Eps (Cat (lit "=") Eps))))).
  split.
  - intros H. inversion H as [| | |? ? x y Hx Hy| | | |]; subst.
    inversion Hx; subst. cbn [app].
    inversion Hy as [| | | |? ? ? H1|? ? ? H1| |]; subst.
    + inversion H1; subst. exists 0%nat. split; [reflexivity | lia].
    + inversion H1 as [| | |? ? a b Ha Hb| | | |]; subst.
      apply lang_pad in Ha. subst a.
      inversion Hb as [| | | |? ? ? H2|? ? ? H2| |]; subst.
      * inversion H2; subst. exists 1%nat. split; [reflexivity | lia].
      * inversion H2 as [| | |? ? a' b' Ha' Hb'| | | |]; subst.
        apply lang_pad in Ha'. subst a'. inversion Hb'; subst.
        exists 2%nat. split; [reflexivity | lia].
  - intros [k [-> Hk]]. change (repeat 61 k) with ([] ++ repeat 61 k).
    constructor; [constructor|].
    destruct k as [|[|[|k]]]; [| | |lia].
    + apply lang_alt_l. constructor.
    + apply lang_alt_r. change (repeat 61 1) with ([61] ++ []).
      constructor; [apply lang_pad; reflexivity | apply lang_alt_l; constructor].
    + apply lang_alt_r. change (repeat 61 2) with ([61] ++ [61] ++ []).
      constructor; [apply lang_pad; reflexivity|]. apply lang_alt_r.
      constructor; [apply lang_pad; reflexivity | constructor].
Qed.

Lemma alphabet_isB64 (c : Z) :
  inRanges c [range "A" "Z"; range "a" "z"; range "0" "9"; one "+"; one "/"] = true
  <-> isB64 c.
Proof.
  split.
  - intros H.
    assert (R : 0 <= c < Z.of_nat 128).
    { change [range "A" "Z"; range "a" "z"; range "0" "9"; one "+"; one "/"]
        with [(65, 90); (97, 122); (48, 57); (43, 43); (47, 47)] in H.
      unfold inRanges in H. cbn [existsb fst snd] in H.
      repeat (apply orb_true_iff in H as [H|H];
              [apply andb_true_iff in H as [H1 H2];
               apply Z.leb_le in H1; apply Z.leb_le in H2; lia|]).
      discriminate. }
    assert (C : forallb (fun c =>
                 negb (inRanges c [range "A" "Z"; range "a" "z"; range "0" "9";
                                   one "+"; one "/"]) ||
                 ((b64char (b64rev c) =? c) && (0 <=? b64rev c) && (b64rev c <? 64)))
                (below 128) = true) by (vm_compute; reflexivity).
    pose proof (checked_below _ 128 C c R) as E. cbv beta in E.
    rewrite H in E. cbn [negb orb] in E.
    apply andb_true_iff in E as [E E3]. apply andb_true_iff in E as [E1 E2].
    apply Z.eqb_eq in E1. apply Z.leb_le in E2. apply Z.ltb_lt in E3.
    exists (b64rev c). split; [lia | symmetry; exact E1].
  - intros [v [Hv ->]].
    assert (C : forallb (fun v =>
                 inRanges (b64char v) [range "A" "Z"; range "a" "z"; range "0" "9";
                                       one "+"; one "/"]) (below 64) = true)
      by (vm_compute; reflexivity).
    exact (checked_below _ 64 C v Hv).
Qed.

(** What [base64Pattern] matches. *)
Lemma base64Pattern_spec (s : jsstring) :
  matches base64Pattern s = true <-> base64Text s.
Proof.
  rewrite matches_lang. unfold base64Text.
  change base64Pattern
    with (Cat (Star (Class [range "A" "Z"; range "a" "z"; range "0" "9";
                            one "+"; one "/"]))
              (between 0 2 (lit "="))).
  split.
  - intros H. inversion H as [| | |? ? body pads Hb Hp| | | |]; subst.
    apply lang_star_class in Hb. apply lang_pads in Hp as [k [-> Hk]].
    exists body, k. repeat split; [exact Hk|].
    eapply Forall_impl; [|exact Hb]. intros c. apply alphabet_isB64.
  - intros [body [k [-> [Hk Hb]]]]. constructor.
    + apply lang_star_class. eapply Forall_impl; [|exact Hb].
      intros c. apply alphabet_isB64.
    + apply lang_pads. exists k. split; [reflexivity | exact Hk].
Qed.

(* ===================================================================== *)
(** ** Padding handed to the block cipher (C3) *)
(* ===================================================================== *)

(** C3.  What [AESCipher.encrypt] and [AESCipher.decrypt] pass as [padding]
    to the block cipher, for every mode, declared padding and IV:
    [encrypt] always passes Pkcs7, also for CFB, OFB and CTR, where the
    specification requires "no padding"; [decrypt] passes NoPadding for
    every mode other than ECB and CBC, and Pkcs7 for these two, whatever
    padding the configuration declares. *)
Theorem C3_padding_handed_to_cipher :
  forall mode padding iv,
    opt_padding (AESCipher.encryptOptions mode padding iv) = Pkcs7 /\
    opt_padding (AESCipher.decryptOptions mode padding iv) =
      (if AESCipher.isIn (toUpperCase mode) ["ECB"; "CBC"]%string
       then Pkcs7 else NoPadding).
Proof.
  intros mode padding iv. split.
  - unfold AESCipher.encryptOptions.
    rewrite (pad_fixed_none _ (toUpperCase_no_lower padding)).
    destruct (AESCipher.isIn (toUpperCase mode) ["ECB"%string]);
      [reflexivity|].
    destruct (AESCipher.isIn (toUpperCase mode) ["CBC"; "CFB"; "OFB"; "CTR"]%string);
      reflexivity.
  - unfold AESCipher.decryptOptions.
    rewrite pad_fixed_none.
    + destruct (AESCipher.isIn (toUpperCase mode) ["ECB"; "CBC"]%string);
        reflexivity.
    + apply Forall_removeFirst. apply toUpperCase_no_lower.
Qed.

(** The call at the failing input: CTR with declared padding [NoPadding]. *)
Example C3_encrypt_ctr :
  forall iv,
    AESCipher.encryptOptions (js "CTR") (js "NOPADDING") iv
    = mkOptions (Some iv) CTR Pkcs7 /\
    AESCipher.decryptOptions (js "CTR") (js "NoPadding") iv
    = mkOptions (Some iv) CTR NoPadding.
Proof. intros iv. split; reflexivity. Qed.

(* ===================================================================== *)
(** ** Trailing zero bytes under CTR (C5) *)
(* ===================================================================== *)

Lemma zeroScan_le (l : list Z) (i a : nat) :
  (i <= a)%nat -> (AESCipher.zeroScan l i a <= a)%nat.
Proof.
  revert a; induction i as [|i IH]; intros a H; simpl; [lia|].
  destruct (nth i l 0 =? 0); [|lia].
  specialize (IH i (le_n i)). lia.
Qed.

Lemma zeroScan_app (l r : list Z) (i a : nat) :
  (i <= length l)%nat ->
  AESCipher.zeroScan (l ++ r) i a = AESCipher.zeroScan l i a.
Proof.
  revert a; induction i as [|i IH]; intros a H; simpl; [reflexivity|].
  rewrite app_nth1 by lia.
  destruct (nth i l 0 =? 0); [apply IH; lia | reflexivity].
Qed.

Lemma scan_is_trim (l : list Z) :
  firstn (AESCipher.zeroScan l (length l) (length l)) l
  = Reference.trimTrailingZeros l.
Proof.
  unfold Reference.trimTrailingZeros.
  induction l as [|x l IH] using rev_ind; [reflexivity|].
  rewrite rev_app_distr. simpl rev. simpl app.
  rewrite length_app. simpl length. rewrite Nat.add_1_r.
  cbn [AESCipher.zeroScan Reference.dropZeros].
  rewrite app_nth2 by lia. rewrite Nat.sub_diag. simpl nth.
  destruct (x =? 0) eqn:E.
  - rewrite zeroScan_app by lia.
    rewrite firstn_app.
    pose proof (zeroScan_le l _ _ (le_n (length l))) as Hle.
    replace (AESCipher.zeroScan l (length l) (length l) - length l)%nat
      with O by lia.
    simpl firstn. rewrite app_nil_r. exact IH.
  - replace (S (length l)) with (length (l ++ [x]))
      by (rewrite length_app; simpl; lia).
    rewrite firstn_all. simpl. rewrite rev_involutive. reflexivity.
Qed.

Lemma trim_is_prefix (l : list Z) :
  exists zeros, l = Reference.trimTrailingZeros l ++ zeros /\
                Forall (fun b => b = 0) zeros.
Proof.
  unfold Reference.trimTrailingZeros.
  assert (H : forall r, exists zs, r = zs ++ Reference.dropZeros r /\
                                   Forall (fun b => b = 0) zs).
  { induction r as [|b r IH]; simpl.
    - exists []. split; [reflexivity | constructor].
    - destruct (b =? 0) eqn:E.
      + destruct IH as [zs [E1 E2]]. exists (b :: zs). split.
        * simpl. f_equal. exact E1.
        * constructor; [apply Z.eqb_eq; exact E | exact E2].
      + exists []. split; [reflexivity | constructor]. }
  destruct (H (rev l)) as [zs [E1 E2]].
  exists (rev zs). split.
  - rewrite <- rev_app_distr. rewrite <- E1. symmetry. apply rev_involutive.
  - apply Forall_rev. exact E2.
Qed.

Lemma trim_ends_nonzero (l : list Z) :
  last (Reference.trimTrailingZeros l) 1 <> 0.
Proof.
  unfold Reference.trimTrailingZeros.
  assert (H : forall r, hd 1 (Reference.dropZeros r) <> 0).
  { induction r as [|b r IH]; simpl; [lia|].
    destruct (b =? 0) eqn:E; [exact IH|].
    simpl. apply Z.eqb_neq. exact E. }
  specialize (H (rev l)).
  destruct (Reference.dropZeros (rev l)) as [|b r]; [simpl; lia|].
  simpl rev. rewrite last_last. exact H.
Qed.

(** C5.  [AESCipher.decrypt] removes the maximal run of trailing zero bytes
    from what the block cipher returns exactly when the mode of the
    configuration is CTR: the text is then decoded from the trimmed bytes;
    for every other mode it is decoded from all the bytes.  The trimmed
    bytes are a prefix of the decrypted ones, what is cut are zero bytes
    only, and what is kept does not end in a zero byte. *)
Theorem C5_zero_bytes_trimmed_under_CTR_only :
  forall P ciphertext config,
    (forall kv decrypted,
        AESCipher.keyAndIv config = Ok kv ->
        Primitives.AES_decrypt P ciphertext (fst kv)
          (AESCipher.decryptOptions
             (AESCipher.orElse (KeyConfig.mode config) (js "CBC"))
             (AESCipher.orElse (KeyConfig.padding config) (js "Pkcs7")) (snd kv))
        = Ok decrypted ->
        AESCipher.decrypt P ciphertext config =
          (if JS.eqb (toUpperCase (AESCipher.orElse (KeyConfig.mode config) (js "CBC")))
                     (js "CTR")
           then Ok (Platform.TextDecoder_decode
                      (Reference.trimTrailingZeros (bytes decrypted)))
           else Utf8_stringify decrypted)) /\
    (forall decrypted : list Z,
        (exists zeros,
            decrypted = Reference.trimTrailingZeros decrypted ++ zeros /\
            Forall (fun b => b = 0) zeros) /\
        last (Reference.trimTrailingZeros decrypted) 1 <> 0).
Proof.
  intros P ciphertext config. split.
  - intros kv decrypted K D. unfold AESCipher.decrypt.
    rewrite K. cbn [JS.bind]. rewrite D. cbn [JS.bind].
    unfold AESCipher.decryptedText, AESCipher.validBytes.
    rewrite scan_is_trim. reflexivity.
  - intros decrypted. split; [apply trim_is_prefix | apply trim_ends_nonzero].
Qed.

(** A plaintext that ends in null bytes comes back truncated under CTR. *)
Lemma C5_witness :
  AESCipher.decrypt (Samples.yielding [97; 98; 0; 99; 0; 0])
                    Samples.ciphertext Samples.ctrConfig
  = Ok [97; 98; 0; 99].
Proof.
  apply (proj1 (C5_zero_bytes_trimmed_under_CTR_only
                  (Samples.yielding [97; 98; 0; 99; 0; 0])
                  Samples.ciphertext Samples.ctrConfig)
           (ofBytes (js "0123456789abcdef"), ofBytes (js "fedcba9876543210"))
           (ofBytes [97; 98; 0; 99; 0; 0]));
    reflexivity.
Defined.

(** The same bytes come back whole under CFB. *)
Example C5_null_bytes_kept_under_CFB :
  AESCipher.decrypt (Samples.yielding [97; 98; 0; 99; 0; 0])
                    Samples.ciphertext Samples.cfbConfig
  = Ok [97; 98; 0; 99; 0; 0].
Proof. reflexivity. Qed.

(* ===================================================================== *)
(** ** The classifier as a function *)
(* ===================================================================== *)


Lemma tryConfig_caught env t config log :
  catchM (tryConfig env t config) (fun _ => ret false) log
  = (Ok (succeeds env t config), log ++ [(t, config)]).
Proof.
  unfold catchM, tryConfig, bindM, callDecrypt, succeeds, ret.
  destruct (decrypt env t config) as [decrypted|e]; [|reflexivity].
  destruct (negb (JS.eqb decrypted []) && negb (JS.eqb decrypted t));
    [|reflexivity].
  destruct (isCFBMode config); [|reflexivity].
  destruct (TextUtils.isReadable (TextUtils.analyzePrintableCharacters decrypted));
    reflexivity.
Qed.

Lemma sweep_spec env t configs log :
  sweep env t configs log
  = (Ok (existsb (succeeds env t) configs),
     log ++ map (pair t) (attempted env t configs)).
Proof.
  revert log; induction configs as [|config rest IH]; intros log.
  - simpl. unfold ret. rewrite app_nil_r. reflexivity.
  - cbn [sweep]. unfold bindM at 1. rewrite tryConfig_caught.
    cbn [existsb attempted].
    destruct (succeeds env t config).
    + reflexivity.
    + rewrite IH. cbn [orb map]. rewrite <- app_assoc. reflexivity.
Qed.

Lemma encryptedContent_spec env t log :
  encryptedContent env t log
  = (Ok (existsb (succeeds env t) (sweepConfigs env t)),
     log ++ map (pair t) (attempted env t (sweepConfigs env t))).
Proof.
  unfold encryptedContent, sweepConfigs.
  destruct (10 <? JS.len t).
  - unfold catchM, bindM, lift.
    destruct (keyConfigs env) as [configs|e].
    + destruct configs as [|c cs].
      * simpl. unfold ret. rewrite app_nil_r. reflexivity.
      * cbn [length Nat.ltb Nat.leb]. rewrite sweep_spec. reflexivity.
    + unfold ret. simpl. rewrite app_nil_r. reflexivity.
  - unfold ret. simpl. rewrite app_nil_r. reflexivity.
Qed.

Lemma typical_lengths_exceed_100 (n : Z) :
  existsb (Z.eqb n) typicalRSALengths = true -> (100 <? n) = true.
Proof.
  unfold typicalRSALengths. simpl. intros H.
  repeat (apply orb_true_iff in H as [H|H]; [apply Z.eqb_eq in H; subst; reflexivity|]).
  discriminate.
Qed.

Lemma isLikelyRSACipher_spec env content log :
  isLikelyRSACipher env content log = (Ok (rsaRule env (trim content)), log).
Proof.
  unfold isLikelyRSACipher, rsaRule.
  destruct (Regex.matches base64Pattern (trim content)); [|reflexivity].
  cbn [negb andb].
  destruct (JS.len (trim content) <? 50) eqn:E50.
  - apply Z.ltb_lt in E50. unfold ret.
    replace (100 <? JS.len (trim content)) with false
      by (symmetry; apply Z.ltb_ge; lia).
    reflexivity.
  - unfold catchM, bindM, lift, ret.
    destruct (keyConfigs env) as [configs|e].
    + destruct (hasRSAConfig configs).
      * destruct (100 <? JS.len (trim content)) eqn:E100.
        -- rewrite orb_true_r. reflexivity.
        -- rewrite orb_false_r.
           destruct (existsb (Z.eqb (JS.len (trim content))) typicalRSALengths) eqn:T.
           ++ apply typical_lengths_exceed_100 in T. congruence.
           ++ reflexivity.
      * rewrite andb_false_r. reflexivity.
    + rewrite andb_false_r. reflexivity.
Qed.

Theorem detectContentType_spec env content log :
  detectContentType env content log
  = (Ok (fst (outcome env content)),
     log ++ map (pair (match content with Some c => trim c | None => [] end))
                (snd (outcome env content))).
Proof.
  unfold detectContentType, outcome.
  set (t := match content with Some c => trim c | None => [] end).
  destruct (Regex.matches ipv4Pattern t);
    [unfold ret; simpl; rewrite app_nil_r; reflexivity|].
  destruct (includes t (js ":") && negb (Regex.matches digitsAndDots t) &&
            (Regex.matches ipv6FullRegex t || Regex.matches ipv6CompressedRegex t));
    [unfold ret; simpl; rewrite app_nil_r; reflexivity|].
  destruct (includes t (js "/") && Regex.matches cidrPattern t);
    [unfold ret; simpl; rewrite app_nil_r; reflexivity|].
  destruct (includes t (js ":") && includes t (js "/") &&
            Regex.matches ipv6CidrPattern t);
    [unfold ret; simpl; rewrite app_nil_r; reflexivity|].
  destruct (existsb (fun pattern => Regex.matches pattern t) cronPatterns);
    [unfold ret; simpl; rewrite app_nil_r; reflexivity|].
  destruct (Regex.matches timestampPattern t);
    [unfold ret; simpl; rewrite app_nil_r; reflexivity|].
  destruct (Regex.matches dateTimePattern t);
    [unfold ret; simpl; rewrite app_nil_r; reflexivity|].
  unfold bindM at 1. rewrite isLikelyRSACipher_spec.
  destruct (rsaRule env (trim t));
    [unfold ret; simpl; rewrite app_nil_r; reflexivity|].
  unfold bindM. rewrite encryptedContent_spec.
  destruct (existsb (succeeds env t) (sweepConfigs env t)); [reflexivity|].
  destruct (startsWith (toLowerCase t) http); [reflexivity|].
  destruct (Regex.search urlEncodedPattern t && decodesToHttp t); [reflexivity|].
  destruct (Regex.matches domainPattern t); [reflexivity|].
  destruct (Regex.matches base64Pattern t && (JS.len t mod 4 =? 0) &&
            (10 <? JS.len t)); reflexivity.
Qed.

Lemma outcome_tag_closed env content : In (fst (outcome env content)) tags.
Proof.
  unfold outcome.
  repeat match goal with
         | |- context [if ?b then _ else _] => destruct b
         end;
    cbv zeta; cbn [fst]; unfold tags; cbn [map In];
    repeat (first [left; reflexivity | right]).
Qed.

Lemma outcome_tried env content :
  snd (outcome env content) = [] \/
  exists t, snd (outcome env content) = attempted env t (sweepConfigs env t) /\
            t = match content with Some c => trim c | None => [] end.
Proof.
  unfold outcome.
  repeat match goal with
         | |- context [if ?b then _ else _] => destruct b
         end;
    cbv zeta; cbn [snd];
    solve [left; reflexivity | right; eexists; split; reflexivity].
Qed.

Lemma trimStart_spaces (s : jsstring) : forallb isSpace s = true -> trimStart s = [].
Proof.
  induction s as [|c s IH]; simpl; [reflexivity|].
  intros H. apply andb_true_iff in H as [H1 H2].
  rewrite H1. apply IH. exact H2.
Qed.

Lemma trim_spaces (s : jsstring) : forallb isSpace s = true -> trim s = [].
Proof.
  intros H. unfold trim, trimEnd. rewrite (trimStart_spaces s H). reflexivity.
Qed.

Lemma blank_trimmed content :
  blank content = true ->
  match content with Some c => trim c | None => [] end = [].
Proof. destruct content as [c|]; simpl; [apply trim_spaces | reflexivity]. Qed.

Lemma outcome_blank env content :
  blank content = true -> outcome env content = (js "encode", []).
Proof.
  intros H. unfold outcome. rewrite (blank_trimmed content H).
  reflexivity.
Qed.

Lemma isReadable_iff (d : jsstring) :
  TextUtils.isReadable (TextUtils.analyzePrintableCharacters d) = true <->
  d <> [] /\ JS.len d <= 2 * JS.len (TextUtils.printableMatches d).
Proof.
  unfold TextUtils.analyzePrintableCharacters.
  destruct d as [|c d].
  - simpl. split; [discriminate | intros [H _]; congruence].
  - cbn [TextUtils.isReadable]. unfold TextUtils.ratio.
    assert (P : 0 < JS.len (c :: d)) by (unfold JS.len; simpl length; lia).
    replace (0 <? JS.len (c :: d)) with true by (symmetry; apply Z.ltb_lt; exact P).
    unfold Qle_bool. cbn [Qnum Qden]. rewrite Z.leb_le, Z2Pos.id by exact P.
    split.
    + intros H. split; [discriminate | lia].
    + intros [_ H]. lia.
Qed.

Lemma succeeds_iff env text config :
  succeeds env text config = true <->
  exists decrypted,
    decrypt env text config = Ok decrypted /\
    decrypted <> [] /\ decrypted <> text /\
    (isCFBMode config = true ->
     JS.len decrypted <= 2 * JS.len (TextUtils.printableMatches decrypted)).
Proof.
  unfold succeeds. destruct (decrypt env text config) as [d|e].
  - rewrite !andb_true_iff, !negb_true_iff, !eqb_neq. split.
    + intros [[H1 H2] H3]. exists d. repeat split; try assumption.
      intros C. rewrite C in H3. apply isReadable_iff in H3. tauto.
    + intros [d' [E [H1 [H2 H3]]]]. injection E as <-.
      repeat split; try assumption.
      destruct (isCFBMode config); [|reflexivity].
      apply isReadable_iff. split; [assumption | apply H3; reflexivity].
  - split; [discriminate | intros [d [E _]]; discriminate].
Qed.

(* ===================================================================== *)
(** ** The speculative decryption sweep (C2) *)
(* ===================================================================== *)

(** C2 (as the code has it).  The sweep never throws, and it classifies the
    text as ciphertext exactly when some configuration of the list succeeds:
    its decryption returns without error, what it returns is not empty and
    is not the text itself and, when the configuration names CFB or CTR (in
    its algorithm string or in its mode), at least half of the code units of
    the result are printable.  For every other configuration the non-empty,
    different result is enough. *)
Theorem C2_sweep_success :
  forall env text configs log,
    (exists found, fst (sweep env text configs log) = Ok found) /\
    (fst (sweep env text configs log) = Ok true <->
     exists config decrypted,
       In config configs /\
       decrypt env text config = Ok decrypted /\
       decrypted <> [] /\ decrypted <> text /\
       (isCFBMode config = true ->
        JS.len decrypted <= 2 * JS.len (TextUtils.printableMatches decrypted))).
Proof.
  intros env text configs log. rewrite sweep_spec. cbn [fst]. split.
  - eexists. reflexivity.
  - split.
    + intros H. injection H as H. apply existsb_exists in H as [config [I S]].
      apply succeeds_iff in S as [d S]. exists config, d. tauto.
    + intros [config [d [I S]]]. f_equal. apply existsb_exists.
      exists config. split; [exact I|]. apply succeeds_iff. exists d. exact S.
Qed.

Lemma C2_witness :
  fst (sweep (Samples.storeOf [Samples.cfbConfig] (Samples.yielding (js "hello world")))
             Samples.ciphertext [Samples.cfbConfig] []) = Ok true.
Proof.
  apply (proj2 (C2_sweep_success
                  (Samples.storeOf [Samples.cfbConfig] (Samples.yielding (js "hello world")))
                  Samples.ciphertext [Samples.cfbConfig] [])).
  exists Samples.cfbConfig, (js "hello world").
  split; [left; reflexivity|].
  split; [vm_compute; reflexivity|].
  split; [discriminate|].
  split; [apply eqb_neq; vm_compute; reflexivity|].
  intros _. vm_compute. discriminate.
Defined.

(** C2, as stated, fails: a configuration in OFB mode, a stream-like mode,
    whose decryption is sixteen control characters (nothing readable) makes
    the classifier answer [encrypted]. *)
Lemma C2_counterexample :
  upperIs (KeyConfig.mode Samples.ofbConfig) "OFB" = true /\
  decrypt (Samples.storeOf [Samples.ofbConfig] (Samples.yielding Samples.noise))
          Samples.ciphertext Samples.ofbConfig = Ok Samples.noise /\
  TextUtils.isReadable (TextUtils.analyzePrintableCharacters Samples.noise) = false /\
  fst (detectContentType
         (Samples.storeOf [Samples.ofbConfig] (Samples.yielding Samples.noise))
         (Some Samples.ciphertext) []) = Ok (js "encrypted").
Proof. repeat split; vm_compute; reflexivity. Qed.

(** The same noise under CFB is rejected: the input is not tagged
    [encrypted]. *)
Example sweep_rejects_noise_under_CFB :
  fst (detectContentType
         (Samples.storeOf [Samples.cfbConfig] (Samples.yielding Samples.noise))
         (Some Samples.ciphertext) []) = Ok (js "encode").
Proof. vm_compute. reflexivity. Qed.

(** A hard-failing mode whose decryption returns the empty text does not
    succeed either. *)
Example sweep_rejects_empty_result :
  decrypt (Samples.storeOf [Samples.cbcConfig] (Samples.yielding []))
          Samples.ciphertext Samples.cbcConfig = Ok [] /\
  fst (detectContentType
         (Samples.storeOf [Samples.cbcConfig] (Samples.yielding []))
         (Some Samples.ciphertext) []) = Ok (js "encode").
Proof. split; vm_compute; reflexivity. Qed.

(* ===================================================================== *)
(** ** Totality of the classifier (C4) *)
(* ===================================================================== *)

(** C4.  For every store, cipher behaviour, input and history the classifier
    returns, without throwing, one of the eleven tags; the tag is [encode]
    whenever it is none of the other ten; and a configuration whose
    decryption throws is skipped: the sweep goes on with the next one. *)
Theorem C4_classifier_total :
  forall env content log,
    (exists tag, fst (detectContentType env content log) = Ok tag /\ In tag tags) /\
    (forall tag, fst (detectContentType env content log) = Ok tag ->
                 ~ In tag (removelast tags) -> tag = js "encode") /\
    (forall text config rest e,
        decrypt env text config = Throw e ->
        sweep env text (config :: rest) log
        = sweep env text rest (log ++ [(text, config)])).
Proof.
  intros env content log. rewrite detectContentType_spec. cbn [fst].
  split; [|split].
  - eexists. split; [reflexivity | apply outcome_tag_closed].
  - intros tag E N. injection E as <-.
    pose proof (outcome_tag_closed env content) as I.
    unfold tags in *. cbn [map removelast In] in *.
    repeat (destruct I as [I|I]; [try (exfalso; apply N; rewrite <- I; tauto)|]);
      try contradiction.
    symmetry. exact I.
  - intros text config rest e E. rewrite !sweep_spec.
    cbn [existsb attempted]. unfold succeeds at 1 3. rewrite E.
    cbn [orb map]. rewrite <- app_assoc. reflexivity.
Qed.

(** A configuration for RSA without a private key throws; the sweep goes on
    with the configuration that follows it. *)
Lemma C4_witness :
  sweep (Samples.storeOf [Samples.rsaConfig; Samples.cbcConfig]
                         (Samples.yielding (js "hello world")))
        Samples.ciphertext [Samples.rsaConfig; Samples.cbcConfig] []
  = sweep (Samples.storeOf [Samples.rsaConfig; Samples.cbcConfig]
                           (Samples.yielding (js "hello world")))
          Samples.ciphertext [Samples.cbcConfig]
          ([] ++ [(Samples.ciphertext, Samples.rsaConfig)]).
Proof.
  apply (proj2 (proj2 (C4_classifier_total
                         (Samples.storeOf [Samples.rsaConfig; Samples.cbcConfig]
                                          (Samples.yielding (js "hello world")))
                         None []))
           Samples.ciphertext Samples.rsaConfig [Samples.cbcConfig]
           (CipherFailure "RSA private key missing")).
  vm_compute. reflexivity.
Defined.

(* ===================================================================== *)
(** ** Blank input and empty configuration list (C6) *)
(* ===================================================================== *)

(** C6.  When the input is empty or all white space, or when the store holds
    no configuration, the classifier makes no call of [decrypt]; on the
    blank input the tag is [encode], from [detectContentType] and from the
    effect [detectType] of the popup alike. *)
Theorem C6_no_sweep :
  forall env content log,
    forallb isSpace content = true \/ keyConfigs env = Ok [] ->
    snd (detectContentType env (Some content) log) = log /\
    snd (detectType env content log) = log /\
    (forallb isSpace content = true ->
     fst (detectContentType env (Some content) log) = Ok (js "encode") /\
     fst (detectType env content log) = Ok (js "encode")).
Proof.
  intros env content log H.
  assert (D : snd (detectContentType env (Some content) log) = log).
  { rewrite detectContentType_spec. cbn [snd].
    destruct H as [H|H].
    - rewrite (outcome_blank env (Some content) H). simpl. apply app_nil_r.
    - destruct (outcome_tried env (Some content)) as [E|[t [E _]]];
        rewrite E; [simpl; apply app_nil_r|].
      unfold sweepConfigs. rewrite H.
      destruct (10 <? JS.len t); simpl; apply app_nil_r. }
  split; [exact D|]. split.
  - unfold detectType.
    destruct (JS.eqb content [] || JS.eqb (trim content) []); [reflexivity | exact D].
  - intros B. split.
    + rewrite detectContentType_spec. cbn [fst].
      rewrite (outcome_blank env (Some content) B). reflexivity.
    + unfold detectType. rewrite (trim_spaces content B).
      rewrite orb_true_r. reflexivity.
Qed.

Lemma C6_witness :
  snd (detectContentType
         (Samples.storeOf [Samples.ofbConfig] (Samples.yielding Samples.noise))
         (Some (js "   ")) []) = [] /\
  snd (detectContentType noStore (Some Samples.ciphertext) []) = [].
Proof.
  split.
  - apply (C6_no_sweep
             (Samples.storeOf [Samples.ofbConfig] (Samples.yielding Samples.noise))
             (js "   ") []).
    left. reflexivity.
  - apply (C6_no_sweep noStore Samples.ciphertext []).
    right. reflexivity.
Defined.

(* ===================================================================== *)
(** ** Determinism and tie-break (C7) *)
(* ===================================================================== *)

(** C7.  The tag does not depend on what was classified before: two runs on
    the same text with the same store and ciphers return the same tag, also
    when the second follows the first.  In the sweep the list order decides:
    when no configuration before [config] succeeds and [config] does, the
    sweep answers at [config] and never calls [decrypt] for what follows. *)
Theorem C7_deterministic :
  forall env content log1 log2,
    fst (detectContentType env content log1)
    = fst (detectContentType env content log2) /\
    fst (detectContentType env content (snd (detectContentType env content log1)))
    = fst (detectContentType env content log1) /\
    (forall text before config after,
        existsb (succeeds env text) before = false ->
        succeeds env text config = true ->
        sweep env text (before ++ config :: after) log1
        = (Ok true, log1 ++ map (pair text) (before ++ [config]))).
Proof.
  intros env content log1 log2. rewrite !detectContentType_spec. cbn [fst].
  split; [reflexivity|]. split; [reflexivity|].
  intros text before config after B S. rewrite sweep_spec.
  rewrite existsb_app. cbn [existsb]. rewrite B, S. cbn [orb].
  f_equal. f_equal. f_equal.
  induction before as [|b before IH]; cbn [app attempted].
  - rewrite S. reflexivity.
  - cbn [existsb] in B. apply orb_false_iff in B as [B1 B2].
    rewrite B1. f_equal. apply IH. exact B2.
Qed.

(** Two configurations would succeed on the same text; the first in the
    list answers, after the failing one before it, and the last is never
    tried. *)
Lemma C7_witness :
  sweep (Samples.storeOf [Samples.rsaConfig; Samples.cbcConfig; Samples.ofbConfig]
                         (Samples.yielding (js "hello world")))
        Samples.ciphertext
        ([Samples.rsaConfig] ++ Samples.cbcConfig :: [Samples.ofbConfig]) []
  = (Ok true,
     [] ++ map (pair Samples.ciphertext) ([Samples.rsaConfig] ++ [Samples.cbcConfig])).
Proof.
  apply (proj2 (proj2 (C7_deterministic
                         (Samples.storeOf
                            [Samples.rsaConfig; Samples.cbcConfig; Samples.ofbConfig]
                            (Samples.yielding (js "hello world")))
                         None [] []))
           Samples.ciphertext [Samples.rsaConfig] Samples.cbcConfig [Samples.ofbConfig]);
    vm_compute; reflexivity.
Defined.

(* ===================================================================== *)
(** ** The RSA rule (C8) *)
(* ===================================================================== *)

(** [trim] is idempotent. *)

Lemma trimStart_startsOk (s : jsstring) : startsOk (trimStart s).
Proof.
  induction s as [|c s IH]; [exact I|].
  cbn [trimStart]. destruct (isSpace c) eqn:Ec; [exact IH | exact Ec].
Qed.

Lemma startsOk_fixed (u : jsstring) : startsOk u -> trimStart u = u.
Proof.
  destruct u as [|c u]; [reflexivity|]. cbn [startsOk trimStart].
  intros ->. reflexivity.
Qed.

Lemma trimStart_snoc (l : jsstring) (c : Z) :
  isSpace c = false -> exists l', trimStart (l ++ [c]) = l' ++ [c].
Proof.
  intros Hc. induction l as [|x l [l' IH]].
  - exists []. cbn [app trimStart]. rewrite Hc. reflexivity.
  - cbn [app trimStart]. destruct (isSpace x).
    + exists l'. exact IH.
    + exists (x :: l). reflexivity.
Qed.

Lemma trimEnd_startsOk (u : jsstring) : startsOk u -> startsOk (trimEnd u).
Proof.
  destruct u as [|c u]; intros H.
  - exact I.
  - cbn [startsOk] in H. unfold trimEnd. cbn [rev].
    destruct (trimStart_snoc (rev u) c H) as [l' ->].
    rewrite rev_app_distr. cbn [rev app startsOk]. exact H.
Qed.

Lemma trim_idem (s : jsstring) : trim (trim s) = trim s.
Proof.
  unfold trim.
  rewrite (startsOk_fixed (trimEnd (trimStart s)))
    by (apply trimEnd_startsOk, trimStart_startsOk).
  unfold trimEnd. rewrite rev_involutive.
  rewrite (startsOk_fixed (trimStart (rev (trimStart s))))
    by apply trimStart_startsOk.
  reflexivity.
Qed.




Lemma base64Text_chars (t : jsstring) :
  base64Text t -> Forall (fun c => In c (b64map ++ [61])) t.
Proof.
  intros [body [k [-> [_ B]]]]. apply Forall_app. split.
  - eapply Forall_impl; [|exact B]. intros c [v [R ->]].
    apply in_or_app. left. unfold b64char. apply nth_In.
    change (length b64map) with 64%nat. lia.
  - apply Forall_forall. intros c Hc. apply repeat_spec in Hc. subst c.
    apply in_or_app. right. left. reflexivity.
Qed.






(** A configuration names RSA after [toUpperCase]: written with the long s
    it is a configuration for RSA, and a Base64 text of 104 letters is
    tagged [encrypted]. *)
Example rsa_rule_with_long_s :
  hasRSAConfig [Samples.rsaLongS] = true /\
  fst (detectContentType (Samples.storeOf [Samples.rsaLongS] (Samples.yielding []))
                         (Some Samples.hundredFour) []) = Ok (js "encrypted").
Proof. split; vm_compute; reflexivity. Qed.

(* ===================================================================== *)
(** ** Hex decoding of malformed input (C9) *)
(* ===================================================================== *)

Lemma pairs_nil (s : jsstring) :
  EncodeTool.pairs s = [] <-> forallb isLineTerminator s = true.
Proof.
  induction s as [|c s IH]; [simpl; tauto|].
  cbn [EncodeTool.pairs forallb].
  destruct (isLineTerminator c).
  - rewrite IH. simpl. tauto.
  - simpl. split; [|discriminate].
    destruct s as [|c2 s]; [discriminate|].
    destruct (isLineTerminator c2); discriminate.
Qed.

Lemma decodeHex_body (hex : jsstring) :
  let hex' := if (length hex mod 2 =? 0)%nat then hex else 48 :: hex in
  (EncodeTool.pairs hex' = [] /\ EncodeTool.decodeHex hex = Throw HexDecodingFailed) \/
  (EncodeTool.pairs hex' <> [] /\ exists d, EncodeTool.decodeHex hex = Ok d).
Proof.
  intros hex'. unfold EncodeTool.decodeHex. fold hex'.
  destruct (EncodeTool.pairs hex') as [|p ps] eqn:E.
  - left. split; reflexivity.
  - right. split; [discriminate|].
    cbv zeta.
    match goal with
    | |- context [if ?b then _ else _] => destruct b
    end; eexists; reflexivity.
Qed.

Lemma odd_mod2 (n : nat) : Nat.odd n = true -> (n mod 2 =? 0)%nat = false.
Proof.
  intros H. apply Nat.eqb_neq. intros E.
  apply Nat.Div0.mod_divides in E as [k E]. subst n.
  rewrite Nat.odd_mul in H. discriminate.
Qed.

Lemma even_mod2 (n : nat) : Nat.even n = true -> (n mod 2 =? 0)%nat = true.
Proof.
  intros H. apply Nat.eqb_eq. apply Nat.even_spec in H as [k ->].
  rewrite Nat.mul_comm. apply Nat.Div0.mod_mul.
Qed.

(** A chunk of one code unit: its digit value, or NaN. *)
Lemma parseInt16_one (c : Z) : parseInt16 [c] = hexVal c.
Proof.
  unfold parseInt16. cbn [trimStart].
  destruct (isSpace c) eqn:S.
  - cbn [hexDigits option_map].
    unfold hexVal.
    assert (Q : forallb (fun c => negb (isSpace c))
                  (js "0123456789abcdefABCDEF") = true) by (vm_compute; reflexivity).
    destruct ((48 <=? c) && (c <=? 57)) eqn:A.
    { exfalso. apply andb_true_iff in A as [A1 A2]. apply Z.leb_le in A1, A2.
      unfold isSpace, isWhiteSpace, isLineTerminator in S.
      repeat (apply orb_true_iff in S; destruct S as [S|S]);
        try (apply Z.eqb_eq in S; lia);
        apply andb_true_iff in S as [S1 S2]; apply Z.leb_le in S1, S2; lia. }
    destruct ((97 <=? c) && (c <=? 102)) eqn:B.
    { exfalso. apply andb_true_iff in B as [A1 A2]. apply Z.leb_le in A1, A2.
      unfold isSpace, isWhiteSpace, isLineTerminator in S.
      repeat (apply orb_true_iff in S; destruct S as [S|S]);
        try (apply Z.eqb_eq in S; lia);
        apply andb_true_iff in S as [S1 S2]; apply Z.leb_le in S1, S2; lia. }
    destruct ((65 <=? c) && (c <=? 70)) eqn:C; [|reflexivity].
    exfalso. apply andb_true_iff in C as [A1 A2]. apply Z.leb_le in A1, A2.
    unfold isSpace, isWhiteSpace, isLineTerminator in S.
    repeat (apply orb_true_iff in S; destruct S as [S|S]);
      try (apply Z.eqb_eq in S; lia);
      apply andb_true_iff in S as [S1 S2]; apply Z.leb_le in S1, S2; lia.
  - destruct (Z.eq_dec c 45) as [->|N1]; [reflexivity|].
    destruct (Z.eq_dec c 43) as [->|N2]; [reflexivity|].
    assert (E : (let '(sign, s2) :=
                   match [c] with
                   | 45 :: r => (-1, r)
                   | 43 :: r => (1, r)
                   | _ => (1, [c])
                   end in
                 option_map (Z.mul sign)
                   (hexDigits match s2 with
                              | 48 :: 120 :: r => r
                              | 48 :: 88 :: r => r
                              | _ => s2
                              end None))
                = option_map (Z.mul 1) (hexDigits [c] None)).
    { destruct c as [|p|p]; try reflexivity.
      do 7 (destruct p as [p|p|]; try reflexivity); congruence. }
    etransitivity; [exact E|].
    cbn [hexDigits]. destruct (hexVal c) as [d|]; cbn [option_map]; [|reflexivity].
    f_equal. destruct d; reflexivity.
Qed.

(** On a string of odd length the loop of [Hex.parse] reads the last code
    unit as a chunk of its own. *)
Lemma hexLoop_snoc (n : nat) :
  forall body acc c,
    length body = (2 * n)%nat ->
    hexLoop (body ++ [c]) acc = hexStore (hexLoop body acc) (parseInt16 [c]).
Proof.
  induction n as [|n IH]; intros body acc c L.
  - destruct body; [reflexivity | discriminate L].
  - destruct body as [|c1 [|c2 body]]; try (cbn [length] in L; lia).
    cbn [app hexLoop]. destruct (body ++ [c]) eqn:E.
    + destruct body; discriminate E.
    + rewrite <- E. apply IH. cbn [length] in L. lia.
Qed.

Lemma odd_removelast (hex : jsstring) :
  Nat.odd (length hex) = true ->
  hex = removelast hex ++ [last hex 0] /\
  exists n, length (removelast hex) = (2 * n)%nat.
Proof.
  intros O.
  assert (N : hex <> []) by (intros ->; discriminate O).
  split; [apply app_removelast_last; exact N|].
  pose proof (app_removelast_last 0 N) as E.
  apply (f_equal (@length Z)) in E. rewrite length_app in E. cbn [length] in E.
  apply Nat.odd_spec in O. destruct O as [n O]. exists n. lia.
Qed.

(** C9 (as the code has it).  An input of odd length does not make hex
    decoding fail.  [decodeHex] prepends ['0'] and answers what it answers
    on the repaired string; the [HEX] step of [EncodingUtils.decode] reads
    the last code unit as one more byte: its digit value, or 0 when it is
    no hexadecimal digit.  Neither rejects an input for its alphabet or
    its length: [decode] under [HEX] returns a string on every input, and
    [decodeHex] fails on no other ground than an input, of even length,
    that holds nothing but line terminators. *)
Theorem C9_odd_length_hex_is_repaired :
  forall hex,
    Nat.odd (length hex) = true ->
    (exists d, EncodeTool.decodeHex hex = Ok d /\
               EncodeTool.decodeHex (48 :: hex) = Ok d) /\
    (bytes (Hex_parse hex)
     = bytes (Hex_parse (removelast hex)) ++ [digitOrZero (last hex 0)] /\
     decode (VStr hex) [HEX] = Ok (finalText (VWords (Hex_parse hex)))) /\
    (forall any, exists text, decode (VStr any) [HEX] = Ok text) /\
    (forall any, EncodeTool.decodeHex any = Throw HexDecodingFailed <->
                 Nat.even (length any) = true /\
                 forallb isLineTerminator any = true).
Proof.
  intros hex O. split; [|split; [|split]].
  - assert (E : EncodeTool.decodeHex hex = EncodeTool.decodeHex (48 :: hex)).
    { unfold EncodeTool.decodeHex. rewrite (odd_mod2 _ O).
      rewrite even_mod2; [reflexivity|].
      cbn [length]. rewrite Nat.even_succ. exact O. }
    destruct (decodeHex_body hex) as [[P _]|[_ [d D]]].
    + rewrite (odd_mod2 _ O) in P. apply pairs_nil in P. discriminate.
    + exists d. split; [exact D | rewrite <- E; exact D].
  - split; [|reflexivity].
    destruct (odd_removelast hex O) as [E [n L]].
    unfold Hex_parse. cbn [bytes]. rewrite E at 1.
    rewrite (hexLoop_snoc n _ _ _ L), parseInt16_one.
    unfold hexStore, digitOrZero, hexVal.
    destruct ((48 <=? last hex 0) && (last hex 0 <=? 57)) eqn:A.
    { apply andb_true_iff in A as [A1 A2]. apply Z.leb_le in A1, A2.
      destruct (last hex 0 - 48 <? 0) eqn:Q; [apply Z.ltb_lt in Q; lia|].
      rewrite Z.mod_small by lia. reflexivity. }
    destruct ((97 <=? last hex 0) && (last hex 0 <=? 102)) eqn:B.
    { apply andb_true_iff in B as [A1 A2]. apply Z.leb_le in A1, A2.
      destruct (last hex 0 - 87 <? 0) eqn:Q; [apply Z.ltb_lt in Q; lia|].
      rewrite Z.mod_small by lia. reflexivity. }
    destruct ((65 <=? last hex 0) && (last hex 0 <=? 70)) eqn:C; [|reflexivity].
    apply andb_true_iff in C as [A1 A2]. apply Z.leb_le in A1, A2.
    destruct (last hex 0 - 55 <? 0) eqn:Q; [apply Z.ltb_lt in Q; lia|].
    rewrite Z.mod_small by lia. reflexivity.
  - intros any. eexists. reflexivity.
  - intros any. destruct (decodeHex_body any) as [[P D]|[P [d D]]]; rewrite D.
    + split; [intros _ | reflexivity].
      destruct (Nat.even (length any)) eqn:Ev.
      * rewrite (even_mod2 _ Ev) in P. apply pairs_nil in P. tauto.
      * rewrite <- Nat.negb_odd in Ev. apply negb_false_iff in Ev.
        rewrite (odd_mod2 _ Ev) in P. apply pairs_nil in P. discriminate.
    + split; [discriminate|]. intros [Ev L]. exfalso. apply P.
      rewrite (even_mod2 _ Ev). apply pairs_nil. exact L.
Qed.

Lemma C9_witness :
  (exists d, EncodeTool.decodeHex (js "abc") = Ok d /\
             EncodeTool.decodeHex (48 :: js "abc") = Ok d) /\
  bytes (Hex_parse (js "abc")) = [171; 12] /\
  decode (VStr (js "abc")) [HEX] = Ok (js "qw==").
Proof.
  pose proof (C9_odd_length_hex_is_repaired (js "abc") eq_refl) as [H1 [[H2 H3] _]].
  split; [exact H1 | split; [exact H2 | exact H3]].
Defined.

(** C9, as stated, fails: on the odd-length input [abc] neither [decodeHex]
    nor the [HEX] step of [EncodingUtils.decode] fails; nor do they on [zz],
    which is outside the alphabet. *)
Lemma C9_counterexample :
  Nat.odd (length (js "abc")) = true /\
  EncodeTool.decodeHex (js "abc")
  = Ok (EncodeTool.mkDecoded (js "10 188") true (Some 2)) /\
  decode (VStr (js "abc")) [HEX] = Ok (js "qw==") /\
  EncodeTool.decodeHex (js "zz") = Ok (EncodeTool.mkDecoded (js "0") true (Some 1)) /\
  decode (VStr (js "zz")) [HEX] = Ok [0].
Proof. repeat split; reflexivity. Qed.

(** What the two decoders read in chunks that are not two hexadecimal
    digits: a sign, a digit followed by a letter, two letters. *)
Example hex_chunks_outside_the_alphabet :
  EncodeTool.decodeHex (js "-1") = Ok (EncodeTool.mkDecoded (js "255") true (Some 1)) /\
  EncodeTool.decodeHex (js "1z") = Ok (EncodeTool.mkDecoded (js "1") true (Some 1)) /\
  EncodeTool.decodeHex (js "zz") = Ok (EncodeTool.mkDecoded (js "0") true (Some 1)) /\
  bytes (Hex_parse (js "-1")) = [255] /\
  bytes (Hex_parse (js "1z")) = [1] /\
  bytes (Hex_parse (js "zz")) = [0].
Proof. repeat split; reflexivity. Qed.

(* ===================================================================== *)
(** ** The last step of [decode] (C10) *)
(* ===================================================================== *)








(** The caller cannot tell the fallback from a text: the byte 255, which is
    not UTF-8, and the four bytes of the text [/w==] decode to the same
    string. *)
Example C10_fallback_looks_like_text :
  decode (VStr (js "/w==")) [BASE64] = Ok (js "/w==") /\
  decode (VStr (js "L3c9PQ==")) [BASE64] = Ok (js "/w==") /\
  Utf8_stringify (Base64_parse (js "/w==")) = Throw MalformedUtf8.
Proof. repeat split; reflexivity. Qed.

(* ===================================================================== *)
(** ** Round trips of the encoders *)
(* ===================================================================== *)

(** *** Hex *)

Lemma hex_pair (b : Z) :
  isByte b ->
  parseInt16 [hexDigit (Z.shiftr b 4); hexDigit (Z.land b 15)] = Some b.
Proof.
  intros H.
  assert (C : forallb (fun b =>
                match parseInt16 [hexDigit (Z.shiftr b 4); hexDigit (Z.land b 15)] with
                | Some v => v =? b
                | None => false
                end) (below 256) = true) by (vm_compute; reflexivity).
  pose proof (checked_below _ 256 C b H) as E. cbv beta in E.
  destruct (parseInt16 _) as [v|]; [|discriminate].
  apply Z.eqb_eq in E. congruence.
Qed.

Lemma hexLoop_stringify (bs acc : list Z) :
  Forall isByte bs ->
  hexLoop (flat_map (fun b => [hexDigit (Z.shiftr b 4); hexDigit (Z.land b 15)]) bs) acc
  = acc ++ bs.
Proof.
  intros H. revert acc. induction H as [|b bs Hb Hbs IH]; intros acc.
  - simpl. symmetry. apply app_nil_r.
  - cbn [flat_map app hexLoop]. rewrite (hex_pair b Hb).
    unfold hexStore. unfold isByte in Hb.
    replace (b <? 0) with false by (symmetry; apply Z.ltb_ge; lia).
    rewrite IH. rewrite Z.mod_small by lia. rewrite <- app_assoc. reflexivity.
Qed.

Lemma hex_length_even (bs : list Z) :
  Nat.odd (length (flat_map (fun b => [hexDigit (Z.shiftr b 4); hexDigit (Z.land b 15)]) bs))
  = false.
Proof.
  induction bs as [|b bs IH]; [reflexivity|].
  cbn [flat_map app length]. rewrite Nat.odd_succ, Nat.even_succ. exact IH.
Qed.

Lemma Hex_roundtrip (bs : list Z) :
  Forall isByte bs -> Hex_parse (Hex_stringify (ofBytes bs)) = ofBytes bs.
Proof.
  intros H. unfold Hex_parse, Hex_stringify, ofBytes. cbn [bytes].
  rewrite (hexLoop_stringify bs [] H). rewrite hex_length_even. reflexivity.
Qed.

(** *** Base64 *)

Lemma lor_add (hi lo k : Z) :
  0 <= k -> 0 <= lo < 2 ^ k -> Z.lor (Z.shiftl hi k) lo = hi * 2 ^ k + lo.
Proof.
  intros Hk Hlo. rewrite Z.shiftl_mul_pow2 by exact Hk.
  rewrite <- Z.lxor_lor, <- Z.add_nocarry_lxor; try reflexivity.
  all: apply Z.bits_inj'; intros n Hn; rewrite Z.land_spec, Z.bits_0;
    destruct (Z.lt_ge_cases n k) as [L|G];
    [rewrite Z.mul_pow2_bits_low by exact L; reflexivity|];
    rewrite <- (Z.mod_small lo (2 ^ k)) by exact Hlo;
    rewrite Z.mod_pow2_bits_high by lia; apply andb_false_r.
Qed.

Lemma triplet_value (a b c : Z) :
  isByte a -> isByte b -> isByte c ->
  Z.lor (Z.lor (Z.shiftl a 16) (Z.shiftl b 8)) c = a * 65536 + b * 256 + c.
Proof.
  unfold isByte. intros Ha Hb Hc.
  rewrite (Z.shiftl_mul_pow2 b 8) by lia.
  rewrite (lor_add a (b * 2 ^ 8) 16) by lia.
  replace (a * 2 ^ 16 + b * 2 ^ 8) with ((a * 256 + b) * 2 ^ 8) by lia.
  rewrite <- Z.shiftl_mul_pow2 by lia.
  rewrite (lor_add (a * 256 + b) c 8) by lia. lia.
Qed.

Lemma sextet (t j : Z) :
  0 <= j <= 3 ->
  Z.land (Z.shiftr t (6 * (3 - j))) 63 = (t / 2 ^ (6 * (3 - j))) mod 64.
Proof.
  intros Hj. rewrite Z.shiftr_div_pow2 by lia.
  change 63 with (Z.ones 6). rewrite Z.land_ones by lia. reflexivity.
Qed.

Lemma rev_char (v : Z) : 0 <= v < 64 -> b64rev (b64char v) = v.
Proof.
  intros H.
  assert (C : forallb (fun v => b64rev (b64char v) =? v) (below 64) = true)
    by (vm_compute; reflexivity).
  apply Z.eqb_eq. exact (checked_below _ 64 C v H).
Qed.

Lemma char_not_pad (v : Z) : 0 <= v < 64 -> b64char v <> b64pad.
Proof.
  intros H.
  assert (C : forallb (fun v => negb (b64char v =? b64pad)) (below 64) = true)
    by (vm_compute; reflexivity).
  pose proof (checked_below _ 64 C v H) as E. cbv beta in E.
  apply negb_true_iff, Z.eqb_neq in E. exact E.
Qed.

(** The byte that [parseLoop] reads from two sextets at offset [k]. *)
Lemma parse_bits (k v w : Z) :
  1 <= k <= 3 -> 0 <= v < 64 -> 0 <= w < 64 ->
  Z.land (Z.lor (Z.shiftl v (k * 2)) (Z.shiftr w (6 - k * 2))) 255
  = (v * 2 ^ (2 * k)) mod 256 + w / 2 ^ (6 - 2 * k).
Proof.
  intros Hk Hv Hw.
  assert (C : forallb (fun k => forallb (fun v => forallb (fun w =>
                 (k =? 0) ||
                 (Z.land (Z.lor (Z.shiftl v (k * 2)) (Z.shiftr w (6 - k * 2))) 255
                  =? (v * 2 ^ (2 * k)) mod 256 + w / 2 ^ (6 - 2 * k)))
                 (below 64)) (below 64)) (below 4) = true)
    by (vm_compute; reflexivity).
  assert (Hk' : 0 <= k < Z.of_nat 4) by lia.
  pose proof (checked_below _ 4 C k Hk') as C1. cbv beta in C1.
  pose proof (checked_below _ 64 C1 v Hv) as C2. cbv beta in C2.
  pose proof (checked_below _ 64 C2 w Hw) as C3. cbv beta in C3.
  apply orb_true_iff in C3 as [C3|C3].
  - apply Z.eqb_eq in C3. lia.
  - apply Z.eqb_eq in C3. exact C3.
Qed.

Lemma list_ind3 {A} (P : list A -> Prop) :
  P [] -> (forall a, P [a]) -> (forall a b, P [a; b]) ->
  (forall a b c l, P l -> P (a :: b :: c :: l)) ->
  forall l, P l.
Proof.
  intros H0 H1 H2 H3. fix IH 1.
  intros [|a [|b [|c l]]];
    [exact H0 | apply H1 | apply H2 | apply H3; apply IH].
Qed.

Lemma sextet_range (t j : Z) : 0 <= (t / 2 ^ (6 * (3 - j))) mod 64 < 64.
Proof. apply Z.mod_pos_bound. lia. Qed.

(** The four characters of a whole group, and the three bytes read back. *)
Lemma group_decodes (a b c : Z) :
  isByte a -> isByte b -> isByte c ->
  let t := a * 65536 + b * 256 + c in
  let s j := (t / 2 ^ (6 * (3 - j))) mod 64 in
  (s 0 * 2 ^ (2 * 1)) mod 256 + s 1 / 2 ^ (6 - 2 * 1) = a /\
  (s 1 * 2 ^ (2 * 2)) mod 256 + s 2 / 2 ^ (6 - 2 * 2) = b /\
  (s 2 * 2 ^ (2 * 3)) mod 256 + s 3 / 2 ^ (6 - 2 * 3) = c.
Proof.
  unfold isByte. intros Ha Hb Hc. cbv zeta beta.
  change (2 ^ (6 * (3 - 0))) with 262144.
  change (2 ^ (6 * (3 - 1))) with 4096.
  change (2 ^ (6 * (3 - 2))) with 64.
  change (2 ^ (6 * (3 - 3))) with 1.
  change (2 ^ (2 * 1)) with 4. change (2 ^ (2 * 2)) with 16.
  change (2 ^ (2 * 3)) with 64.
  change (2 ^ (6 - 2 * 1)) with 16. change (2 ^ (6 - 2 * 2)) with 4.
  change (2 ^ (6 - 2 * 3)) with 1.
  repeat split; Z.div_mod_to_equations; lia.
Qed.

Lemma sextetOf_range (a b c j : Z) : 0 <= sextetOf a b c j < 64.
Proof. unfold sextetOf. apply Z.mod_pos_bound. lia. Qed.

Lemma sextetOf_isB64 (a b c j : Z) : isB64 (b64char (sextetOf a b c j)).
Proof. exists (sextetOf a b c j). split; [apply sextetOf_range | reflexivity]. Qed.

Lemma group_chars (a b c rem2 : Z) :
  isByte a -> isByte b -> isByte c ->
  b64group a b c rem2
  = map (fun j => b64char (sextetOf a b c j))
        (filter (fun j => 3 * j <? 2 * rem2) [0; 1; 2; 3]).
Proof.
  intros Ha Hb Hc. unfold b64group. rewrite (triplet_value a b c Ha Hb Hc).
  apply map_ext_in. intros j Hj. apply filter_In in Hj as [Hj _].
  unfold sextetOf. rewrite sextet; [reflexivity|].
  simpl in Hj. lia.
Qed.

Lemma group_whole (a b c rem2 : Z) :
  isByte a -> isByte b -> isByte c -> 5 <= rem2 ->
  b64group a b c rem2
  = [b64char (sextetOf a b c 0); b64char (sextetOf a b c 1);
     b64char (sextetOf a b c 2); b64char (sextetOf a b c 3)].
Proof.
  intros Ha Hb Hc H. rewrite (group_chars a b c rem2 Ha Hb Hc).
  cbn [filter].
  repeat match goal with
         | |- context [?x <? ?y] =>
             replace (x <? y) with true by (symmetry; apply Z.ltb_lt; lia)
         end.
  reflexivity.
Qed.

Lemma zero_isByte : isByte 0.
Proof. unfold isByte. lia. Qed.

Lemma parseByte_shift (c0 c1 c2 c3 : Z) (rest : jsstring) (i : nat) :
  parseByte (c0 :: c1 :: c2 :: c3 :: rest) (4 + i) = parseByte rest i.
Proof.
  unfold parseByte.
  replace ((4 + i) mod 4)%nat with (i mod 4)%nat
    by (rewrite Nat.add_comm; replace 4%nat with (1 * 4)%nat at 2 by reflexivity;
        symmetry; apply Nat.Div0.mod_add).
  destruct (Z.of_nat (i mod 4) =? 0) eqn:E; [reflexivity|].
  assert (Hi : (1 <= i)%nat).
  { destruct i; [discriminate E | lia]. }
  replace (4 + i - 1)%nat with (4 + (i - 1))%nat by lia.
  reflexivity.
Qed.

Lemma flat_map_shift {A} (f g : nat -> list A) (k n : nat) :
  (forall i, f (k + i)%nat = g i) ->
  flat_map f (seq k n) = flat_map g (seq 0 n).
Proof.
  intros H. rewrite <- (Nat.add_0_r k) at 1. generalize 0%nat as s.
  induction n as [|n IH]; intros s; [reflexivity|].
  cbn [seq flat_map]. rewrite H. f_equal.
  replace (S (k + s)) with (k + S s)%nat by lia. apply IH.
Qed.

Lemma parseLoop_chunk (c0 c1 c2 c3 : Z) (rest : jsstring) (n : nat) :
  parseLoop (c0 :: c1 :: c2 :: c3 :: rest) (4 + n)
  = [parsed 1 c0 c1; parsed 2 c1 c2; parsed 3 c2 c3] ++ parseLoop rest n.
Proof.
  unfold parseLoop. cbn [Nat.add seq flat_map].
  rewrite (flat_map_shift (parseByte (c0 :: c1 :: c2 :: c3 :: rest))
                          (parseByte rest) 4 n (parseByte_shift c0 c1 c2 c3 rest)).
  reflexivity.
Qed.

Lemma parsed_chars (k v w : Z) :
  1 <= k <= 3 -> 0 <= v < 64 -> 0 <= w < 64 ->
  parsed k (b64char v) (b64char w)
  = (v * 2 ^ (2 * k)) mod 256 + w / 2 ^ (6 - 2 * k).
Proof.
  intros Hk Hv Hw. unfold parsed.
  rewrite (rev_char v Hv), (rev_char w Hw). apply parse_bits; assumption.
Qed.

Lemma parsed_group (a b c : Z) :
  isByte a -> isByte b -> isByte c ->
  parsed 1 (b64char (sextetOf a b c 0)) (b64char (sextetOf a b c 1)) = a /\
  parsed 2 (b64char (sextetOf a b c 1)) (b64char (sextetOf a b c 2)) = b /\
  parsed 3 (b64char (sextetOf a b c 2)) (b64char (sextetOf a b c 3)) = c.
Proof.
  intros Ha Hb Hc.
  rewrite !parsed_chars by (try apply sextetOf_range; lia).
  apply (group_decodes a b c Ha Hb Hc).
Qed.

Lemma parseLoop_2 (c0 c1 : Z) : parseLoop [c0; c1] 2 = [parsed 1 c0 c1].
Proof. reflexivity. Qed.

Lemma parseLoop_3 (c0 c1 c2 : Z) :
  parseLoop [c0; c1; c2] 3 = [parsed 1 c0 c1; parsed 2 c1 c2].
Proof. reflexivity. Qed.

Lemma group_1 (a : Z) :
  isByte a ->
  b64group a 0 0 2 = [b64char (sextetOf a 0 0 0); b64char (sextetOf a 0 0 1)].
Proof.
  intros Ha. rewrite (group_chars a 0 0 2 Ha zero_isByte zero_isByte). reflexivity.
Qed.

Lemma group_2 (a b : Z) :
  isByte a -> isByte b ->
  b64group a b 0 4 = [b64char (sextetOf a b 0 0); b64char (sextetOf a b 0 1);
                      b64char (sextetOf a b 0 2)].
Proof.
  intros Ha Hb. rewrite (group_chars a b 0 4 Ha Hb zero_isByte). reflexivity.
Qed.

(** What [parseLoop] reads from the characters of [Base64.stringify]. *)
Lemma body_decodes (bs : list Z) :
  Forall isByte bs ->
  parseLoop (b64groups bs (2 * Z.of_nat (length bs)))
            (length (b64groups bs (2 * Z.of_nat (length bs)))) = bs /\
  Forall isB64 (b64groups bs (2 * Z.of_nat (length bs))).
Proof.
  induction bs as [| a | a b | a b c l IH] using list_ind3; intros H.
  - split; [reflexivity | constructor].
  - inversion H as [|? ? Ha _]; subst.
    change (b64groups [a] (2 * Z.of_nat (length [a]))) with (b64group a 0 0 2).
    rewrite (group_1 a Ha).
    destruct (parsed_group a 0 0 Ha zero_isByte zero_isByte) as [E1 _].
    split.
    + cbn [length]. rewrite parseLoop_2, E1. reflexivity.
    + repeat constructor; apply sextetOf_isB64.
  - inversion H as [|? ? Ha H']; subst. inversion H' as [|? ? Hb _]; subst.
    change (b64groups [a; b] (2 * Z.of_nat (length [a; b]))) with (b64group a b 0 4).
    rewrite (group_2 a b Ha Hb).
    destruct (parsed_group a b 0 Ha Hb zero_isByte) as [E1 [E2 _]].
    split.
    + cbn [length]. rewrite parseLoop_3, E1, E2. reflexivity.
    + repeat constructor; apply sextetOf_isB64.
  - inversion H as [|? ? Ha H1]; subst. inversion H1 as [|? ? Hb H2]; subst.
    inversion H2 as [|? ? Hc H3]; subst.
    destruct (IH H3) as [IH1 IH2].
    cbn [b64groups].
    replace (2 * Z.of_nat (length (a :: b :: c :: l)) - 6)
      with (2 * Z.of_nat (length l)) by (cbn [length]; lia).
    rewrite (group_whole a b c _ Ha Hb Hc) by (cbn [length]; lia).
    destruct (parsed_group a b c Ha Hb Hc) as [E1 [E2 E3]].
    split.
    + cbn [app length].
      change (S (S (S (S ?n)))) with (4 + n)%nat.
      rewrite parseLoop_chunk. rewrite E1, E2, E3, IH1. reflexivity.
    + cbn [app]. repeat (constructor; [apply sextetOf_isB64|]). exact IH2.
Qed.

Lemma isB64_not_pad (c : Z) : isB64 c -> c <> b64pad.
Proof. intros [v [Hv ->]]. apply char_not_pad. exact Hv. Qed.

Lemma indexOf_none (s : jsstring) (p : Z) :
  Forall (fun c => c <> p) s -> indexOf s p = None.
Proof.
  induction 1 as [|c s Hc _ IH]; [reflexivity|].
  cbn [indexOf]. apply Z.eqb_neq in Hc. rewrite Hc, IH. reflexivity.
Qed.

Lemma indexOf_first (s r : jsstring) (p : Z) :
  Forall (fun c => c <> p) s -> indexOf (s ++ p :: r) p = Some (length s).
Proof.
  induction 1 as [|c s Hc _ IH]; cbn [app indexOf length].
  - rewrite Z.eqb_refl. reflexivity.
  - apply Z.eqb_neq in Hc. rewrite Hc, IH. reflexivity.
Qed.

Lemma flat_map_ext_seq {A} (f g : nat -> list A) (k n : nat) :
  (forall i, (k <= i < k + n)%nat -> f i = g i) ->
  flat_map f (seq k n) = flat_map g (seq k n).
Proof.
  revert k; induction n as [|n IH]; intros k H; [reflexivity|].
  cbn [seq flat_map]. rewrite H by lia. f_equal. apply IH.
  intros i Hi. apply H. lia.
Qed.

Lemma parseLoop_app (s r : jsstring) (n : nat) :
  (n <= length s)%nat -> parseLoop (s ++ r) n = parseLoop s n.
Proof.
  intros H. unfold parseLoop. apply flat_map_ext_seq. intros i Hi.
  unfold parseByte. rewrite !app_nth1 by lia. reflexivity.
Qed.

(** [Base64.parse] ignores what follows the characters of the body. *)
Lemma parse_padded (body : jsstring) (k : nat) :
  Forall isB64 body ->
  Base64_parse (body ++ repeat b64pad k) = ofBytes (parseLoop body (length body)).
Proof.
  intros H. unfold Base64_parse.
  assert (N : Forall (fun c => c <> b64pad) body).
  { eapply Forall_impl; [|exact H]. apply isB64_not_pad. }
  destruct k as [|k].
  - cbn [repeat]. rewrite app_nil_r. rewrite (indexOf_none _ _ N). reflexivity.
  - cbn [repeat]. rewrite (indexOf_first _ _ _ N).
    rewrite parseLoop_app by lia. reflexivity.
Qed.

Lemma Base64_roundtrip (bs : list Z) :
  Forall isByte bs -> Base64_parse (Base64_stringify (ofBytes bs)) = ofBytes bs.
Proof.
  intros H. destruct (body_decodes bs H) as [E I].
  unfold Base64_stringify, padTo4, ofBytes, clamp, sigBytes2. cbn [bytes half].
  rewrite Z.sub_0_r. rewrite (parse_padded _ _ I). rewrite E. reflexivity.
Qed.

(** *** URL-safe Base64 *)

Lemma urlsafe_char (c : Z) :
  isB64 c ->
  (if (if c =? 43 then 45 else c) =? 47 then 95 else (if c =? 43 then 45 else c)) <> 61 /\
  (let d := if (if c =? 43 then 45 else c) =? 47 then 95
            else (if c =? 43 then 45 else c) in
   (if (if d =? 45 then 43 else d) =? 95 then 47 else (if d =? 45 then 43 else d)) = c).
Proof.
  intros [v [Hv ->]].
  assert (C : forallb (fun v =>
     let c := b64char v in
     let d := if (if c =? 43 then 45 else c) =? 47 then 95
              else (if c =? 43 then 45 else c) in
     negb (d =? 61) &&
     ((if (if d =? 45 then 43 else d) =? 95 then 47 else (if d =? 45 then 43 else d)) =? c))
     (below 64) = true) by (vm_compute; reflexivity).
  pose proof (checked_below _ 64 C v Hv) as E. cbv beta zeta in E.
  apply andb_true_iff in E as [E1 E2].
  apply negb_true_iff, Z.eqb_neq in E1. apply Z.eqb_eq in E2.
  split; [exact E1 | exact E2].
Qed.

Lemma urlsafe_roundtrip (body : jsstring) (k : nat) :
  Forall isB64 body ->
  replaceAll 95 47 (replaceAll 45 43 (toUrlSafe (body ++ repeat b64pad k))) = body.
Proof.
  intros H. unfold toUrlSafe, replaceAll, removeAll.
  rewrite !map_app, filter_app.
  assert (P : filter (fun x => negb (x =? 61))
                (map (fun x => if x =? 47 then 95 else x)
                   (map (fun x => if x =? 43 then 45 else x) (repeat b64pad k))) = []).
  { induction k as [|k IH]; [reflexivity | exact IH]. }
  rewrite P, app_nil_r. clear P.
  induction H as [|c body Hc _ IH]; [reflexivity|].
  destruct (urlsafe_char c Hc) as [N R]. cbv zeta in R.
  cbn [map filter]. apply Z.eqb_neq in N. rewrite N. cbn [negb map].
  rewrite R. f_equal. exact IH.
Qed.

Lemma UrlSafe_roundtrip (bs : list Z) :
  Forall isByte bs ->
  Base64_parse (fromUrlSafe (toUrlSafe (Base64_stringify (ofBytes bs)))) = ofBytes bs.
Proof.
  intros H. destruct (body_decodes bs H) as [E I].
  unfold fromUrlSafe.
  unfold Base64_stringify at 1, padTo4 at 2, ofBytes, clamp, sigBytes2. cbn [bytes half].
  rewrite Z.sub_0_r. rewrite (urlsafe_roundtrip _ _ I).
  unfold padTo4. rewrite (parse_padded _ _ I). rewrite E. reflexivity.
Qed.

(** *** UTF-8 *)

Ltac decide_tests :=
  repeat match goal with
         | |- context [?a <? ?b] =>
             first [ replace (a <? b) with true
                       by (symmetry; apply Z.ltb_lt; Z.div_mod_to_equations; lia)
                   | replace (a <? b) with false
                       by (symmetry; apply Z.ltb_ge; Z.div_mod_to_equations; lia) ]
         | |- context [?a <=? ?b] =>
             first [ replace (a <=? b) with true
                       by (symmetry; apply Z.leb_le; Z.div_mod_to_equations; lia)
                   | replace (a <=? b) with false
                       by (symmetry; apply Z.leb_gt; Z.div_mod_to_equations; lia) ]
         end.

Lemma decode_1 (c : Z) (r : list Z) :
  0 <= c < 128 ->
  utf8Decode (utf8Bytes c ++ r) = option_map (cons c) (utf8Decode r) /\
  Forall isByte (utf8Bytes c).
Proof.
  intros H. unfold utf8Bytes. decide_tests.
  cbn [app utf8Decode]. decide_tests.
  split; [reflexivity|]. repeat constructor; unfold isByte; lia.
Qed.

Lemma decode_2 (c : Z) (r : list Z) :
  128 <= c < 2048 ->
  utf8Decode (utf8Bytes c ++ r) = option_map (cons c) (utf8Decode r) /\
  Forall isByte (utf8Bytes c).
Proof.
  intros H. unfold utf8Bytes. decide_tests.
  cbn [app utf8Decode]. unfold isCont. decide_tests. cbn [andb].
  split.
  - f_equal. f_equal. Z.div_mod_to_equations; lia.
  - repeat constructor; unfold isByte; Z.div_mod_to_equations; lia.
Qed.

Lemma decode_3 (c : Z) (r : list Z) :
  2048 <= c < 65536 -> ~ (55296 <= c <= 57343) ->
  utf8Decode (utf8Bytes c ++ r) = option_map (cons c) (utf8Decode r) /\
  Forall isByte (utf8Bytes c).
Proof.
  intros H S. unfold utf8Bytes. decide_tests.
  cbn [app utf8Decode]. unfold isCont. decide_tests. cbn [andb].
  replace ((224 + c / 4096 - 224) * 4096 + (128 + (c / 64) mod 64 - 128) * 64 +
           (128 + c mod 64 - 128)) with c by (Z.div_mod_to_equations; lia).
  decide_tests. cbn [andb negb].
  assert (N : (55296 <=? c) && (c <=? 57343) = false).
  { apply andb_false_iff.
    destruct (Z.leb_spec 55296 c); [|left; reflexivity].
    right. apply Z.leb_gt. lia. }
  rewrite N. cbn [negb].
  split; [reflexivity|].
  repeat constructor; unfold isByte; Z.div_mod_to_equations; lia.
Qed.

Lemma decode_4 (c d : Z) (r : list Z) :
  55296 <= c <= 56319 -> 56320 <= d <= 57343 ->
  utf8Decode (utf8Bytes (65536 + (c - 55296) * 1024 + (d - 56320)) ++ r)
  = option_map (app [c; d]) (utf8Decode r) /\
  Forall isByte (utf8Bytes (65536 + (c - 55296) * 1024 + (d - 56320))).
Proof.
  intros Hc Hd.
  set (cp := 65536 + (c - 55296) * 1024 + (d - 56320)).
  assert (R : 65536 <= cp <= 1114111) by (subst cp; lia).
  unfold utf8Bytes. decide_tests.
  cbn [app utf8Decode]. unfold isCont. decide_tests. cbn [andb].
  replace ((240 + cp / 262144 - 240) * 262144 + (128 + (cp / 4096) mod 64 - 128) * 4096 +
           (128 + (cp / 64) mod 64 - 128) * 64 + (128 + cp mod 64 - 128))
    with cp by (Z.div_mod_to_equations; lia).
  decide_tests. cbn [andb].
  assert (U : utf16Units cp = [c; d]).
  { unfold utf16Units. decide_tests. subst cp. f_equal; [|f_equal];
      Z.div_mod_to_equations; lia. }
  rewrite U.
  split; [reflexivity|].
  repeat constructor; unfold isByte; Z.div_mod_to_equations; lia.
Qed.

Lemma surrogate_tests (c : Z) :
  (isHighSurrogate c = true <-> 55296 <= c <= 56319) /\
  (isLowSurrogate c = true <-> 56320 <= c <= 57343).
Proof.
  unfold isHighSurrogate, isLowSurrogate.
  rewrite !andb_true_iff, !Z.leb_le. tauto.
Qed.

Lemma decode_bmp (c : Z) (r : list Z) :
  isUnit c -> isHighSurrogate c = false -> isLowSurrogate c = false ->
  utf8Decode (utf8Bytes c ++ r) = option_map (cons c) (utf8Decode r) /\
  Forall isByte (utf8Bytes c).
Proof.
  unfold isUnit. intros U H L.
  assert (N : ~ (55296 <= c <= 57343)).
  { intros R. destruct (surrogate_tests c) as [SH SL].
    destruct (Z.le_gt_cases c 56319).
    - assert (isHighSurrogate c = true) by (apply SH; lia). congruence.
    - assert (isLowSurrogate c = true) by (apply SL; lia). congruence. }
  destruct (Z.lt_ge_cases c 128); [apply decode_1; lia|].
  destruct (Z.lt_ge_cases c 2048); [apply decode_2; lia|].
  apply decode_3; [lia | exact N].
Qed.

Lemma utf8Encode_cons (c : Z) (s : jsstring) :
  utf8Encode (c :: s) =
  if isHighSurrogate c then
    match s with
    | d :: s'' =>
        if isLowSurrogate d then
          JS.bind (utf8Encode s'')
            (fun r => Ok (utf8Bytes (65536 + (c - 55296) * 1024 + (d - 56320)) ++ r))
        else Throw URIError
    | [] => Throw URIError
    end
  else if isLowSurrogate c then Throw URIError
  else JS.bind (utf8Encode s) (fun r => Ok (utf8Bytes c ++ r)).
Proof. reflexivity. Qed.

Lemma Ok_inj {A} (a b : A) : Ok a = Ok b -> a = b.
Proof. intros H. injection H as H. exact H. Qed.

(** [Utf8.stringify] undoes [Utf8.parse]. *)
Lemma utf8_roundtrip (s : jsstring) :
  Forall isUnit s ->
  forall bs, utf8Encode s = Ok bs ->
             utf8Decode bs = Some s /\ Forall isByte bs.
Proof.
  intros U.
  assert (Q : (forall bs, utf8Encode s = Ok bs ->
                          utf8Decode bs = Some s /\ Forall isByte bs) /\
              (forall c, isUnit c -> forall bs, utf8Encode (c :: s) = Ok bs ->
                          utf8Decode bs = Some (c :: s) /\ Forall isByte bs)).
  { induction U as [|d s Hd Hs IH].
    - split.
      + intros bs E. injection E as <-. split; [reflexivity | constructor].
      + intros c Hc bs E. rewrite utf8Encode_cons in E.
        destruct (isHighSurrogate c) eqn:H; [discriminate|].
        destruct (isLowSurrogate c) eqn:L; [discriminate|].
        apply Ok_inj in E. subst bs.
        destruct (decode_bmp c [] Hc H L) as [D B].
        rewrite D. split; [reflexivity|]. rewrite app_nil_r. exact B.
    - destruct IH as [IH1 IH2]. split; [apply IH2; exact Hd|].
      intros c Hc bs E. rewrite utf8Encode_cons in E.
      destruct (isHighSurrogate c) eqn:H.
      + destruct (isLowSurrogate d) eqn:L; [|discriminate].
        destruct (utf8Encode s) as [r|e] eqn:R; [|discriminate].
        unfold JS.bind in E. apply Ok_inj in E. subst bs.
        destruct (IH1 r eq_refl) as [Dr Br].
        apply surrogate_tests in H. apply surrogate_tests in L.
        destruct (decode_4 c d r H L) as [D B].
        rewrite D, Dr. split; [reflexivity|].
        apply Forall_app. split; assumption.
      + destruct (isLowSurrogate c) eqn:L; [discriminate|].
        destruct (utf8Encode (d :: s)) as [r|e] eqn:R; [|discriminate].
        unfold JS.bind in E. apply Ok_inj in E. subst bs.
        destruct (IH2 d Hd r R) as [Dr Br].
        destruct (decode_bmp c r Hc H L) as [D B].
        rewrite D, Dr. split; [reflexivity|].
        apply Forall_app. split; assumption. }
  apply Q.
Qed.

(* ===================================================================== *)
(** ** Round trip of encoding chains (C1) *)
(* ===================================================================== *)

Ltac names :=
  repeat match goal with
         | H : JS.eqb (toUpperCase ?e) ?x = true |- _ =>
             apply eqb_eq in H; rewrite H in *; clear H
         end;
  repeat match goal with
         | |- context [JS.eqb ?a ?b] =>
             let v := eval vm_compute in (JS.eqb a b) in
             match v with
             | true => change (JS.eqb a b) with true
             | false => change (JS.eqb a b) with false
             end
         | H : context [JS.eqb ?a ?b] |- _ =>
             let v := eval vm_compute in (JS.eqb a b) in
             match v with
             | true => change (JS.eqb a b) with true in H
             | false => change (JS.eqb a b) with false in H
             end
         end.

Lemma existsb_rev {A} (f : A -> bool) (l : list A) :
  existsb f (rev l) = existsb f l.
Proof.
  induction l as [|x l IH]; [reflexivity|].
  cbn [rev]. rewrite existsb_app, IH. cbn [existsb].
  rewrite orb_false_r. apply orb_comm.
Qed.

Lemma forallb_rev {A} (f : A -> bool) (l : list A) :
  forallb f (rev l) = forallb f l.
Proof.
  induction l as [|x l IH]; [reflexivity|].
  cbn [rev]. rewrite forallb_app, IH. cbn [forallb].
  rewrite andb_true_r. apply andb_comm.
Qed.

Lemma encodeLoop_known (L : list jsstring) (bs : list Z) :
  forallb known L = true -> Forall isByte bs ->
  encodeLoop L (ofBytes bs)
  = Ok (if existsb (named BASE64_URLSAFE) L
        then inl (toUrlSafe (Base64_stringify (ofBytes bs)))
        else inr (ofBytes bs)).
Proof.
  intros K B. induction L as [|e L IH]; [reflexivity|].
  cbn [forallb] in K. apply andb_true_iff in K as [K1 K2].
  specialize (IH K2). cbn [encodeLoop existsb].
  unfold known, bytesStep, named in K1.
  change (named BASE64_URLSAFE e) with (JS.eqb (toUpperCase e) BASE64_URLSAFE).
  destruct (JS.eqb (toUpperCase e) UTF8) eqn:E1; [names; exact IH|].
  destruct (JS.eqb (toUpperCase e) HEX) eqn:E2;
    [names; rewrite (Hex_roundtrip bs B); exact IH|].
  destruct (JS.eqb (toUpperCase e) BASE64) eqn:E3;
    [names; rewrite (Base64_roundtrip bs B); exact IH|].
  destruct (JS.eqb (toUpperCase e) BASE64_URLSAFE) eqn:E4; [reflexivity|].
  discriminate K1.
Qed.

Lemma decodeLoop_utf8 (r : list jsstring) (s : jsstring) :
  forallb (named UTF8) r = true -> decodeLoop r (VStr s) = Ok (VStr s).
Proof.
  induction r as [|e r IH]; [reflexivity|].
  cbn [forallb decodeLoop]. unfold named at 1. intros H.
  apply andb_true_iff in H as [H1 H2]. rewrite H1. apply IH. exact H2.
Qed.

Lemma decodeLoop_tail (r : list jsstring) (w : WordArray) (P : jsstring) :
  tailOk r = true -> Utf8_stringify w = Ok P ->
  exists v, decodeLoop r (VWords w) = Ok v /\ finalText v = P.
Proof.
  intros T U. induction r as [|e r IH].
  - exists (VWords w). split; [reflexivity|]. cbn [finalText]. rewrite U. reflexivity.
  - cbn [tailOk] in T. cbn [decodeLoop]. unfold named at 1, bytesStep, named in T.
    destruct (JS.eqb (toUpperCase e) UTF8) eqn:E1.
    + rewrite U. cbn [JS.bind]. rewrite (decodeLoop_utf8 r P T).
      exists (VStr P). split; reflexivity.
    + apply andb_true_iff in T as [T1 T2].
      destruct (JS.eqb (toUpperCase e) HEX) eqn:E2; [exact (IH T2)|].
      destruct (JS.eqb (toUpperCase e) BASE64) eqn:E3; [exact (IH T2)|].
      destruct (JS.eqb (toUpperCase e) BASE64_URLSAFE) eqn:E4; [exact (IH T2)|].
      discriminate T1.
Qed.

Lemma tailOk_known (r : list jsstring) : tailOk r = true -> forallb known r = true.
Proof.
  induction r as [|e r IH]; [reflexivity|].
  cbn [tailOk forallb]. change (known e) with (named UTF8 e || bytesStep e).
  destruct (named UTF8 e) eqn:E1.
  - intros H. cbn [orb andb].
    clear IH. induction r as [|x r IH]; [reflexivity|].
    cbn [forallb] in *. apply andb_true_iff in H as [H1 H2].
    change (known x) with (named UTF8 x || bytesStep x).
    rewrite H1. cbn [orb andb]. apply IH. exact H2.
  - intros H. apply andb_true_iff in H as [H1 H2].
    rewrite H1, (IH H2). reflexivity.
Qed.

Lemma chain_known (E : list jsstring) :
  roundTripChain E = true -> forallb known E = true.
Proof.
  induction E as [|e E IH]; [discriminate|].
  cbn [roundTripChain forallb].
  change (known e) with (named UTF8 e || (named HEX e || named BASE64 e || named BASE64_URLSAFE e)).
  destruct (named UTF8 e) eqn:E1; [intros H; rewrite (IH H); reflexivity|].
  destruct (named BASE64_URLSAFE e) eqn:E4.
  - intros H. rewrite (tailOk_known E H). rewrite !orb_true_r. reflexivity.
  - destruct (named BASE64 e) eqn:E3; [|discriminate].
    intros H. apply andb_true_iff in H as [H _].
    rewrite (tailOk_known E H). rewrite orb_true_r. reflexivity.
Qed.

(** What [decode] makes of the output of [encode] on a chain that round
    trips. *)
Lemma decodeLoop_chain (E : list jsstring) (bs : list Z) (P : jsstring) :
  roundTripChain E = true -> Forall isByte bs ->
  Utf8_stringify (ofBytes bs) = Ok P ->
  exists v,
    decodeLoop E (VStr (if existsb (named BASE64_URLSAFE) E
                        then toUrlSafe (Base64_stringify (ofBytes bs))
                        else Base64_stringify (ofBytes bs))) = Ok v /\
    finalText v = P.
Proof.
  intros R B U. induction E as [|e E IH]; [discriminate|].
  cbn [roundTripChain] in R. cbn [decodeLoop existsb].
  unfold named in R at 1 2 3.
  change (named BASE64_URLSAFE e) with (JS.eqb (toUpperCase e) BASE64_URLSAFE).
  destruct (JS.eqb (toUpperCase e) UTF8) eqn:E1; [names; exact (IH R)|].
  destruct (JS.eqb (toUpperCase e) HEX) eqn:E2; [names; discriminate R|].
  destruct (JS.eqb (toUpperCase e) BASE64) eqn:E3.
  - names. apply andb_true_iff in R as [T N]. apply negb_true_iff in N.
    rewrite N. cbn [orb]. rewrite (Base64_roundtrip bs B).
    exact (decodeLoop_tail E (ofBytes bs) P T U).
  - destruct (JS.eqb (toUpperCase e) BASE64_URLSAFE) eqn:E4; [|discriminate R].
    cbn [orb]. rewrite (UrlSafe_roundtrip bs B).
    exact (decodeLoop_tail E (ofBytes bs) P R U).
Qed.

Lemma wellFormed_encodes (s : jsstring) :
  wellFormed s = true -> Forall isUnit s /\ exists bs, utf8Encode s = Ok bs.
Proof.
  assert (Q : (wellFormed s = true ->
               Forall isUnit s /\ exists bs, utf8Encode s = Ok bs) /\
              (forall c, wellFormed (c :: s) = true ->
               Forall isUnit (c :: s) /\ exists bs, utf8Encode (c :: s) = Ok bs)).
  { induction s as [|d s IH].
    - split; [intros _; split; [constructor | exists []; reflexivity]|].
      intros c W. cbn [wellFormed] in W. rewrite utf8Encode_cons.
      apply andb_true_iff in W as [W1 W2]. apply andb_true_iff in W1 as [L U].
      apply Z.leb_le in L. apply Z.ltb_lt in U.
      destruct (isHighSurrogate c); [discriminate|].
      apply andb_true_iff in W2 as [W2 _]. apply negb_true_iff in W2. rewrite W2.
      split; [repeat constructor; unfold isUnit; lia | eexists; reflexivity].
    - destruct IH as [IH1 IH2]. split; [apply IH2|].
      intros c W. cbn [wellFormed] in W. rewrite utf8Encode_cons.
      apply andb_true_iff in W as [W1 W2]. apply andb_true_iff in W1 as [L U].
      apply Z.leb_le in L. apply Z.ltb_lt in U.
      assert (Hc : isUnit c) by (unfold isUnit; lia).
      destruct (isHighSurrogate c).
      + apply andb_true_iff in W2 as [W2 W3]. rewrite W2.
        destruct (IH1 W3) as [F [bs E]]. rewrite E.
        split; [|eexists; reflexivity].
        constructor; [exact Hc|]. constructor; [|exact F].
        apply surrogate_tests in W2. unfold isUnit. lia.
      + apply andb_true_iff in W2 as [W2 W3]. apply negb_true_iff in W2. rewrite W2.
        destruct (IH2 d W3) as [F [bs E]]. rewrite E.
        split; [|eexists; reflexivity].
        constructor; [exact Hc | exact F]. }
  apply Q.
Qed.

(** [encode] always ends in Base64, standard or
    URL-safe, whatever the chain names; [decode] parses the text at the
    first entry that is not [UTF8].  So the round trip holds on the chains
    whose first entry other than [UTF8] is [BASE64_URLSAFE], or is [BASE64]
    when the chain has no [BASE64_URLSAFE] entry, and in which the later
    entries are byte encodings followed by [UTF8] entries only: for every
    such chain and every well-formed text [P], [encode] returns a text from
    which [decode] returns [P]. *)
Lemma round_trip_on_base64_chains :
  forall E P,
    roundTripChain E = true -> wellFormed P = true ->
    exists text, encode (VStr P) E = Ok text /\ decode (VStr text) E = Ok P.
Proof.
  intros E P R W.
  destruct (wellFormed_encodes P W) as [U [bs Enc]].
  destruct (utf8_roundtrip P U bs Enc) as [Dec B].
  assert (S : Utf8_stringify (ofBytes bs) = Ok P).
  { unfold Utf8_stringify, ofBytes. cbn [bytes]. rewrite Dec. reflexivity. }
  destruct (decodeLoop_chain E bs P R B S) as [v [D F]].
  unfold encode, Utf8_parse. rewrite Enc. cbn [JS.bind].
  rewrite (encodeLoop_known (rev E) bs) by
    (try rewrite forallb_rev; try apply chain_known; assumption).
  rewrite existsb_rev. cbn [JS.bind].
  destruct (existsb (named BASE64_URLSAFE) E); eexists; (split; [reflexivity|]);
    unfold decode; rewrite D; cbn [JS.bind]; rewrite F; reflexivity.
Qed.

Example round_trip_through_four_entries :
  exists text,
    encode (VStr [104; 233; 8364; 55357; 56832]) [js "utf8"; BASE64; HEX; UTF8] = Ok text /\
    decode (VStr text) [js "utf8"; BASE64; HEX; UTF8] = Ok [104; 233; 8364; 55357; 56832].
Proof.
  apply (round_trip_on_base64_chains
           [js "utf8"; BASE64; HEX; UTF8] [104; 233; 8364; 55357; 56832]);
    reflexivity.
Qed.

(** C1 (the code at the failing chain).  Under the chain [HEX], [encode]
    turns the payload into hexadecimal text and parses that text back at
    once, and it ends in Base64 as under every chain: it returns the Base64
    text of the payload.  The hexadecimal text of the payload is what
    [decode] reads back under [HEX]. *)
Theorem C1_hex_entry_ends_in_base64 :
  forall P,
    wellFormed P = true ->
    exists bs,
      utf8Encode P = Ok bs /\
      encode (VStr P) [HEX] = Ok (Base64_stringify (ofBytes bs)) /\
      decode (VStr (Hex_stringify (ofBytes bs))) [HEX] = Ok P.
Proof.
  intros P W.
  destruct (wellFormed_encodes P W) as [U [bs Enc]].
  destruct (utf8_roundtrip P U bs Enc) as [Dec B].
  exists bs. split; [exact Enc|]. split.
  - unfold encode, Utf8_parse. rewrite Enc. cbn [JS.bind rev app].
    rewrite (encodeLoop_known [HEX] bs) by (reflexivity || exact B).
    reflexivity.
  - unfold decode.
    change (decodeLoop [HEX] (VStr (Hex_stringify (ofBytes bs))))
      with (Ok (A := value) (VWords (Hex_parse (Hex_stringify (ofBytes bs))))).
    rewrite (Hex_roundtrip bs B). cbn [JS.bind finalText].
    unfold Utf8_stringify, ofBytes. cbn [bytes]. rewrite Dec. reflexivity.
Qed.

(** At the text [A]: the bytes are [65], and what [encode] returns under
    [HEX] comes back from [decode] as two null characters. *)
Lemma C1_witness :
  (exists bs,
      utf8Encode (js "A") = Ok bs /\
      encode (VStr (js "A")) [HEX] = Ok (Base64_stringify (ofBytes bs)) /\
      decode (VStr (Hex_stringify (ofBytes bs))) [HEX] = Ok (js "A")) /\
  encode (VStr (js "A")) [HEX] = Ok (js "QQ==") /\
  decode (VStr (js "QQ==")) [HEX] = Ok [0; 0].
Proof.
  split; [|split; reflexivity].
  apply (C1_hex_entry_ends_in_base64 (js "A")). reflexivity.
Defined.

(** The failing input.  Under [HEX] the text [A] is encoded as [QQ==],
    which [decode] reads as two hexadecimal pairs, both invalid, and returns
    as two null characters; from the hexadecimal text [41] it returns [A].
    Under [UTF8] the text is encoded as [QQ==] too, and [decode] returns
    [QQ==] unchanged. *)
Example C1_failing_input :
  encode (VStr (js "A")) [HEX] = Ok (js "QQ==") /\
  decode (VStr (js "QQ==")) [HEX] = Ok [0; 0] /\
  Hex_stringify (ofBytes [65]) = js "41" /\
  decode (VStr (js "41")) [HEX] = Ok (js "A") /\
  encode (VStr (js "A")) [UTF8] = Ok (js "QQ==") /\
  decode (VStr (js "QQ==")) [UTF8] = Ok (js "QQ==").
Proof. repeat split; reflexivity. Qed.

(** The URL-safe form does not survive a chain that starts with [BASE64]. *)
Example urlsafe_after_base64 :
  encode (VStr (js ">>>")) [BASE64; BASE64_URLSAFE] = Ok (js "Pj4-") /\
  decode (VStr (js "Pj4-")) [BASE64; BASE64_URLSAFE] = Ok [62; 62; 0].
Proof. split; reflexivity. Qed.

(** * Further properties: encoding chains, cipher wrappers, the encode tool
      and the configuration utilities *)

(** *** Compound encodings *)

Lemma split_none (sep : Z) (s : jsstring) :
  ~ In sep s -> split sep s = [s].
Proof.
  induction s as [|c s IH]; intros H; [reflexivity|].
  cbn [split]. destruct (Z.eqb_spec c sep) as [->|N].
  - exfalso. apply H. left. reflexivity.
  - rewrite IH by (intros I; apply H; right; exact I). reflexivity.
Qed.

Lemma split_app (sep : Z) (s r : jsstring) :
  ~ In sep s -> split sep (s ++ sep :: r) = s :: split sep r.
Proof.
  induction s as [|c s IH]; intros H.
  - cbn [app split]. rewrite Z.eqb_refl. reflexivity.
  - cbn [app split]. destruct (Z.eqb_spec c sep) as [->|N].
    + exfalso. apply H. left. reflexivity.
    + rewrite IH by (intros I; apply H; right; exact I). reflexivity.
Qed.

Lemma split_joinWith (sep : Z) (E : list jsstring) :
  E <> [] -> Forall (fun e => ~ In sep e) E ->
  split sep (joinWith [sep] E) = E.
Proof.
  induction E as [|x E IH]; intros N H; [congruence|].
  inversion H as [|? ? Hx HE]; subst.
  destruct E as [|y E].
  - cbn [joinWith]. apply split_none. exact Hx.
  - change (joinWith [sep] (x :: y :: E)) with (x ++ sep :: joinWith [sep] (y :: E)).
    rewrite split_app by exact Hx. rewrite IH by (congruence || exact HE).
    reflexivity.
Qed.

(** X1. [parseCompoundEncoding] undoes [formatEncoding]: a non-empty list of
    entries that are not empty, carry no white space around them and contain
    no ['+'] is read back from its joined form. *)
Theorem X1_compound_encoding_round_trip (E : list jsstring) :
  E <> [] ->
  Forall (fun e => e <> [] /\ trim e = e /\ ~ In 43 e) E ->
  parseCompoundEncoding (Some (formatEncoding E)) = E.
Proof.
  intros N H. unfold parseCompoundEncoding.
  assert (S : split 43 (formatEncoding E) = E).
  { apply split_joinWith; [exact N|].
    eapply Forall_impl; [|exact H]. cbv beta. tauto. }
  assert (F : filter (fun enc => negb (JS.eqb enc [])) (map trim E) = E).
  { clear N S. induction H as [|e E [He [Ht _]] _ IH]; [reflexivity|].
    cbn [map filter]. rewrite Ht.
    destruct e as [|c e]; [congruence|]. cbn [JS.eqb negb]. f_equal. exact IH. }
  destruct (formatEncoding E) as [|c s] eqn:Q.
  - destruct E as [|x E]; [congruence|].
    inversion H as [|? ? [Hx _] _]; subst.
    unfold formatEncoding in Q. destruct E; cbn [joinWith] in Q.
    + congruence.
    + destruct x; [congruence | discriminate Q].
  - rewrite S. exact F.
Qed.

Lemma X1_witness :
  parseCompoundEncoding (Some (formatEncoding [HEX; BASE64])) = [HEX; BASE64].
Proof.
  apply X1_compound_encoding_round_trip; [discriminate|].
  repeat constructor; try discriminate;
    cbv; intuition discriminate.
Defined.

Lemma split_pieces (sep : Z) (s : jsstring) :
  Forall (fun e => ~ In sep e) (split sep s).
Proof.
  induction s as [|c s IH]; [repeat constructor; intros []|].
  cbn [split]. destruct (Z.eqb_spec c sep) as [->|N].
  - constructor; [intros [] | exact IH].
  - destruct (split sep s) as [|piece pieces].
    + repeat constructor. intros [E|[]]. congruence.
    + inversion IH as [|? ? Hp Hps]; subst. constructor; [|exact Hps].
      intros [E|I]; [congruence | exact (Hp I)].
Qed.

Lemma trimStart_In (c : Z) (s : jsstring) : In c (trimStart s) -> In c s.
Proof.
  induction s as [|x s IH]; [intros []|].
  cbn [trimStart]. destruct (isSpace x); [|exact (fun H => H)].
  intros H. right. exact (IH H).
Qed.

Lemma trim_In (c : Z) (s : jsstring) : In c (trim s) -> In c s.
Proof.
  unfold trim, trimEnd. intros H.
  apply trimStart_In. apply in_rev. apply trimStart_In. apply in_rev in H. exact H.
Qed.

(** X2. Whatever the argument of [parseCompoundEncoding], absent or empty
    included, every entry that it returns is not empty, has no white space
    around it and contains no ['+']. *)
Theorem X2_compound_encoding_entries (encodingString : option jsstring) :
  Forall (fun e => e <> [] /\ trim e = e /\ ~ In 43 e)
         (parseCompoundEncoding encodingString).
Proof.
  assert (U : Forall (fun e => e <> [] /\ trim e = e /\ ~ In 43 e) [UTF8]).
  { repeat constructor; [discriminate | cbv; intuition discriminate]. }
  unfold parseCompoundEncoding.
  destruct encodingString as [[|c s]|]; try exact U.
  generalize (split_pieces 43 (c :: s)).
  generalize (split 43 (c :: s)) as pieces.
  induction pieces as [|e pieces IH]; intros H; [constructor|].
  inversion H as [|? ? He Hp]; subst.
  cbn [map filter]. destruct (trim e) as [|x t] eqn:T.
  - cbn [JS.eqb negb]. apply IH. exact Hp.
  - cbn [JS.eqb negb]. constructor; [|apply IH; exact Hp].
    rewrite <- T. split; [rewrite T; discriminate|]. split; [apply trim_idem|].
    intros I. apply He. apply trim_In. exact I.
Qed.

(** encode: text of a chain of known entries *)
(** X3. On a chain of known entries, [encode] returns the Base64 text of the
    UTF-8 bytes of its argument, in its URL-safe form when the chain names
    [BASE64_URLSAFE]: [HEX] and [BASE64] entries change nothing, and the
    result is never a hexadecimal text. *)
Theorem X3_encode_is_base64_of_the_text (s : jsstring) (bs : list Z) (E : list jsstring) :
  Forall isUnit s -> utf8Encode s = Ok bs -> forallb known E = true ->
  encode (VStr s) E
  = Ok (if existsb (named BASE64_URLSAFE) E
        then toUrlSafe (Base64_stringify (ofBytes bs))
        else Base64_stringify (ofBytes bs)).
Proof.
  intros U Enc K.
  destruct (utf8_roundtrip s U bs Enc) as [_ B].
  unfold encode, Utf8_parse. rewrite Enc. cbn [JS.bind].
  rewrite (encodeLoop_known (rev E) bs) by (try rewrite forallb_rev; assumption).
  rewrite existsb_rev. cbn [JS.bind].
  destruct (existsb (named BASE64_URLSAFE) E); reflexivity.
Qed.

Lemma X3_witness :
  encode (VStr (js "hi")) [HEX]
  = Ok (if existsb (named BASE64_URLSAFE) [HEX]
        then toUrlSafe (Base64_stringify (ofBytes [104; 105]))
        else Base64_stringify (ofBytes [104; 105])).
Proof.
  apply X3_encode_is_base64_of_the_text.
  - repeat constructor; unfold isUnit; lia.
  - reflexivity.
  - reflexivity.
Defined.

(** entries before a BASE64_URLSAFE entry *)
Lemma encodeLoop_returns_early (L1 L2 : list jsstring) (u : jsstring) (bs : list Z) :
  forallb known L1 = true -> Forall isByte bs -> named BASE64_URLSAFE u = true ->
  encodeLoop (L1 ++ u :: L2) (ofBytes bs)
  = Ok (inl (toUrlSafe (Base64_stringify (ofBytes bs)))).
Proof.
  intros K B U. induction L1 as [|e L IH].
  - cbn [app encodeLoop]. unfold named in U.
    assert (N : JS.eqb (toUpperCase u) UTF8 = false /\
                JS.eqb (toUpperCase u) HEX = false /\
                JS.eqb (toUpperCase u) BASE64 = false).
    { apply eqb_eq in U. rewrite U. repeat split. }
    destruct N as [-> [-> ->]]. rewrite U. reflexivity.
  - cbn [forallb] in K. apply andb_true_iff in K as [K1 K2].
    specialize (IH K2). cbn [app encodeLoop].
    unfold known, bytesStep, named in K1.
    destruct (JS.eqb (toUpperCase e) UTF8) eqn:E1; [exact IH|].
    destruct (JS.eqb (toUpperCase e) HEX) eqn:E2;
      [rewrite (Hex_roundtrip bs B); exact IH|].
    destruct (JS.eqb (toUpperCase e) BASE64) eqn:E3;
      [rewrite (Base64_roundtrip bs B); exact IH|].
    destruct (JS.eqb (toUpperCase e) BASE64_URLSAFE) eqn:E4; [reflexivity|].
    discriminate K1.
Qed.

(** X4. [encode] never reads the entries that stand before a
    [BASE64_URLSAFE] entry followed by known entries: whatever they are, it
    returns the URL-safe Base64 text of the bytes.  [decode] reads the chain
    from its first entry and throws on an unknown one, so it refuses chains
    that [encode] accepts. *)
Theorem X4_entries_before_urlsafe_are_not_read
        (bs : list Z) (E1 E2 : list jsstring) (u : jsstring) :
  Forall isByte bs -> named BASE64_URLSAFE u = true -> forallb known E2 = true ->
  encode (VWords (ofBytes bs)) (E1 ++ u :: E2)
  = Ok (toUrlSafe (Base64_stringify (ofBytes bs))) /\
  (forall e E data,
      known e = false ->
      decode data (e :: E ++ u :: E2) = Throw (UnsupportedEncoding e)).
Proof.
  intros B U K. split.
  - unfold encode. cbn [JS.bind]. rewrite rev_app_distr. cbn [rev].
    rewrite <- app_assoc. cbn [app].
    rewrite encodeLoop_returns_early; [reflexivity | | exact B | exact U].
    rewrite forallb_rev. exact K.
  - intros e E data N. unfold known, bytesStep, named in N.
    apply orb_false_elim in N. destruct N as [K1 N].
    apply orb_false_elim in N. destruct N as [N K4].
    apply orb_false_elim in N. destruct N as [K2 K3].
    unfold decode. cbn [decodeLoop]. rewrite K1, K2, K3, K4. reflexivity.
Qed.

Lemma X4_witness :
  encode (VWords (ofBytes [1])) ([js "gbk"] ++ BASE64_URLSAFE :: [HEX])
  = Ok (toUrlSafe (Base64_stringify (ofBytes [1]))) /\
  (forall e E data,
      known e = false ->
      decode data (e :: E ++ BASE64_URLSAFE :: [HEX]) = Throw (UnsupportedEncoding e)).
Proof.
  apply X4_entries_before_urlsafe_are_not_read.
  - repeat constructor; unfold isByte; lia.
  - reflexivity.
  - reflexivity.
Defined.

(** AES: a mode outside the five *)

Lemma mode_unknown (m : jsstring) :
  AESCipher.isIn (toUpperCase m) fiveModes = false ->
  CryptoJS.mode (toUpperCase m) = None.
Proof.
  unfold AESCipher.isIn, fiveModes. cbn [existsb]. intros H.
  repeat (apply orb_false_elim in H; destruct H as [? H]).
  unfold CryptoJS.mode, CryptoJS.lookup. cbn [find fst].
  rewrite (upper_never "CTRGladman" m) by reflexivity.
  repeat match goal with
         | E : JS.eqb ?a ?b = false |- _ => rewrite E; clear E
         end.
  reflexivity.
Qed.

Lemma eqb_sym (a b : jsstring) : JS.eqb a b = JS.eqb b a.
Proof.
  revert b. induction a as [|x a IH]; intros [|y b]; try reflexivity.
  cbn [JS.eqb]. rewrite IH, Z.eqb_sym. reflexivity.
Qed.

(** X5. When the mode of the configuration is none of ECB, CBC, CFB, OFB and CTR
    (whatever the case), [AESCipher.encrypt] calls the cipher with CBC, the IV
    and Pkcs7, while [AESCipher.decrypt] calls it with CBC, no IV and
    NoPadding. *)
Theorem X5_unknown_mode_falls_back_differently
        (P : Primitives.t) (plaintext ciphertext : jsstring) (config : KeyConfig.t) :
  AESCipher.isIn
    (toUpperCase (AESCipher.orElse (KeyConfig.mode config) (js "CBC"))) fiveModes = false ->
  AESCipher.encrypt P plaintext config
  = (kv <- AESCipher.keyAndIv config ;;
     Primitives.AES_encrypt P plaintext (fst kv) (mkOptions (Some (snd kv)) CBC Pkcs7)) /\
  AESCipher.decrypt P ciphertext config
  = (kv <- AESCipher.keyAndIv config ;;
     decrypted <- Primitives.AES_decrypt P ciphertext (fst kv)
                    (mkOptions None CBC NoPadding) ;;
     Utf8_stringify decrypted).
Proof.
  intros H.
  set (m := AESCipher.orElse (KeyConfig.mode config) (js "CBC")) in *.
  pose proof (mode_unknown m H) as M.
  unfold AESCipher.isIn, fiveModes in H. cbn [existsb] in H.
  apply orb_false_elim in H. destruct H as [H1 H].
  apply orb_false_elim in H. destruct H as [H2 H].
  apply orb_false_elim in H. destruct H as [H3 H].
  apply orb_false_elim in H. destruct H as [H4 H].
  apply orb_false_elim in H. destruct H as [H5 _].
  split.
  - unfold AESCipher.encrypt. fold m.
    unfold AESCipher.encryptOptions, AESCipher.isIn. cbn [existsb].
    rewrite H1, H2, H3, H4, H5. reflexivity.
  - unfold AESCipher.decrypt. fold m.
    unfold AESCipher.decryptOptions, AESCipher.decryptedText, AESCipher.isIn.
    cbn [existsb]. rewrite (eqb_sym (toUpperCase m) (js "CTR")).
    rewrite M, H1, H2, H3, H4, H5. reflexivity.
Qed.


Lemma X5_witness :
  AESCipher.encrypt (yielding [104; 105]) (js "hi") gcmConfig
  = (kv <- AESCipher.keyAndIv gcmConfig ;;
     Primitives.AES_encrypt (yielding [104; 105]) (js "hi") (fst kv)
                            (mkOptions (Some (snd kv)) CBC Pkcs7)) /\
  AESCipher.decrypt (yielding [104; 105]) ciphertext gcmConfig
  = (kv <- AESCipher.keyAndIv gcmConfig ;;
     decrypted <- Primitives.AES_decrypt (yielding [104; 105]) ciphertext (fst kv)
                    (mkOptions None CBC NoPadding) ;;
     Utf8_stringify decrypted).
Proof.
  apply X5_unknown_mode_falls_back_differently. reflexivity.
Defined.

(** SM4 *)
Lemma pad32_length (s : jsstring) : length (SM4Cipher.pad32 s) = 32%nat.
Proof.
  unfold SM4Cipher.pad32. rewrite length_firstn, length_app, repeat_length. lia.
Qed.

Lemma hexOfText_length (s h : jsstring) :
  SM4Cipher.hexOfText s = Ok h -> length h = 32%nat.
Proof.
  unfold SM4Cipher.hexOfText, Utf8_parse.
  destruct (utf8Encode s) as [bs|e]; cbn [JS.bind]; [|discriminate].
  intros E. injection E as <-. apply pad32_length.
Qed.

(** X6. [SM4Cipher.encrypt] and [SM4Cipher.decrypt] either fail with the same
    exception before they reach the library, or call it with the same key,
    mode and IV: the key and the IV are texts of exactly 32 code units and
    the mode is [ecb] or [cbc]. *)
Theorem X6_sm4_same_parameters
        (P : Primitives.t) (E : Primitives.enc)
        (plaintext ciphertext : jsstring) (config : KeyConfig.t) :
  (exists e, SM4Cipher.encrypt E plaintext config = Throw e /\
             SM4Cipher.decrypt P ciphertext config = Throw e) \/
  (exists keyHex sm4Mode ivHex,
      SM4Cipher.encrypt E plaintext config
      = Primitives.SM4_encrypt E plaintext keyHex sm4Mode ivHex /\
      SM4Cipher.decrypt P ciphertext config
      = Primitives.SM4_decrypt P ciphertext keyHex sm4Mode ivHex /\
      length keyHex = 32%nat /\
      (sm4Mode = js "ecb" \/ sm4Mode = js "cbc") /\
      match ivHex with
      | Some h => length h = 32%nat
      | None => True
      end).
Proof.
  unfold SM4Cipher.encrypt, SM4Cipher.decrypt.
  destruct (KeyConfig.key config) as [k|]; [|left; eexists; split; reflexivity].
  destruct (AESCipher.resolve k) as [parsedKey|e]; cbn [JS.bind];
    [|left; eexists; split; reflexivity].
  destruct (match KeyConfig.iv config with
            | Some v => AESCipher.resolve v
            | None => Ok []
            end) as [parsedIv|e]; cbn [JS.bind];
    [|left; eexists; split; reflexivity].
  destruct (SM4Cipher.hexOfText parsedKey) as [keyHex|e] eqn:K; cbn [JS.bind];
    [|left; eexists; split; reflexivity].
  assert (M : forall m : jsstring,
             (if JS.eqb (toUpperCase m) (js "ECB") then js "ecb" else js "cbc") = js "ecb" \/
             (if JS.eqb (toUpperCase m) (js "ECB") then js "ecb" else js "cbc") = js "cbc").
  { intros m. destruct (JS.eqb (toUpperCase m) (js "ECB")); [left | right]; reflexivity. }
  destruct parsedIv as [|c parsedIv]; cbn [JS.bind].
  - right. eexists _, _, None. split; [reflexivity|]. split; [reflexivity|].
    split; [exact (hexOfText_length _ _ K)|]. split; [apply M | exact I].
  - destruct (SM4Cipher.hexOfText (c :: parsedIv)) as [h|e] eqn:V; cbn [JS.bind];
      [|left; eexists; split; reflexivity].
    right. eexists _, _, (Some h). split; [reflexivity|]. split; [reflexivity|].
    split; [exact (hexOfText_length _ _ K)|]. split; [apply M|].
    exact (hexOfText_length _ _ V).
Qed.

(** RSA *)
Lemma UrlSafe_text_roundtrip (bs : list Z) :
  Forall isByte bs ->
  fromUrlSafe (toUrlSafe (Base64_stringify (ofBytes bs))) = Base64_stringify (ofBytes bs).
Proof.
  intros H. destruct (body_decodes bs H) as [_ I].
  unfold fromUrlSafe.
  unfold Base64_stringify, padTo4 at 2, ofBytes, clamp, sigBytes2. cbn [bytes half].
  rewrite Z.sub_0_r. rewrite (urlsafe_roundtrip _ _ I). reflexivity.
Qed.

Lemma Base64_stringify_nonempty (bs : list Z) :
  Forall isByte bs -> bs <> [] -> Base64_stringify (ofBytes bs) <> [].
Proof.
  intros H N E. apply N.
  pose proof (Base64_roundtrip bs H) as R. rewrite E in R.
  unfold ofBytes in R. injection R as R. symmetry. exact R.
Qed.

(** X7. With both keys present and a plain encoding that needs no conversion,
    what [RSACipher.encrypt] adds to the ciphertext of the library (its
    [HEX] or URL-safe form) is undone by [RSACipher.decrypt]: if the library
    decrypts its own Base64 ciphertext, the wrapper decrypts what the
    wrapper encrypted, for every [cipherEncoding]. *)
Theorem X7_rsa_wrapper_round_trip
        (P : Primitives.t) (E : Primitives.enc) (plaintext : jsstring)
        (config : KeyConfig.t) (pub priv : KeyConfig.KeyMaterial) (bs : list Z) :
  KeyConfig.publicKey config = Some pub -> KeyConfig.value pub <> [] ->
  KeyConfig.privateKey config = Some priv -> KeyConfig.value priv <> [] ->
  notUtf8 (AESCipher.orElse (KeyConfig.plainEncoding config) [UTF8]) = false ->
  Forall isByte bs -> bs <> [] ->
  Primitives.RSA_encrypt E (KeyConfig.value pub) plaintext
    = Ok (Some (Base64_stringify (ofBytes bs))) ->
  Primitives.RSA_decrypt P (KeyConfig.value priv) (Base64_stringify (ofBytes bs))
    = Ok (Some plaintext) ->
  exists c, RSACipher.encrypt E plaintext config = Ok c /\
            RSACipher.decrypt P c config = Ok plaintext.
Proof.
  intros Hpub Npub Hpriv Npriv U B N Enc Dec.
  pose proof (Base64_stringify_nonempty bs B N) as X.
  unfold RSACipher.encrypt, RSACipher.decrypt.
  rewrite Hpub, Hpriv.
  destruct (KeyConfig.value pub) as [|p0 pv] eqn:Vpub; [congruence|].
  destruct (KeyConfig.value priv) as [|q0 qv] eqn:Vpriv; [congruence|].
  rewrite U. cbn [JS.bind]. rewrite Enc. cbn [JS.bind].
  destruct (Base64_stringify (ofBytes bs)) as [|x0 x] eqn:S; [congruence|].
  rewrite <- S in *.
  unfold processPlaintextDecoding. rewrite U.
  destruct (existsb (JS.eqb HEX)
              (AESCipher.orElse (KeyConfig.cipherEncoding config) [BASE64])).
  - eexists. split; [reflexivity|].
    rewrite Base64_roundtrip by exact B. rewrite Hex_roundtrip by exact B.
    rewrite Dec. reflexivity.
  - destruct (existsb (JS.eqb BASE64_URLSAFE)
                (AESCipher.orElse (KeyConfig.cipherEncoding config) [BASE64])).
    + eexists. split; [reflexivity|].
      rewrite UrlSafe_text_roundtrip by exact B. rewrite Dec. reflexivity.
    + eexists. split; [reflexivity|]. rewrite Dec. reflexivity.
Qed.

Lemma X7_witness :
  exists c, RSACipher.encrypt plainRSA (js "hi") rsaHexConfig = Ok c /\
            RSACipher.decrypt plainRSADecrypt c rsaHexConfig = Ok (js "hi").
Proof.
  apply (X7_rsa_wrapper_round_trip plainRSADecrypt plainRSA (js "hi") rsaHexConfig
           (KeyConfig.mkKey (js "PUBLIC") (Some [UTF8]))
           (KeyConfig.mkKey (js "PRIVATE") (Some [UTF8])) [104; 105]).
  - reflexivity.
  - discriminate.
  - reflexivity.
  - discriminate.
  - reflexivity.
  - repeat constructor; unfold isByte; lia.
  - discriminate.
  - reflexivity.
  - reflexivity.
Defined.

Lemma firstPart_split (s : jsstring) :
  CipherUtils.firstPart s = hd [] (split 47 s).
Proof.
  induction s as [|c s IH]; [reflexivity|].
  cbn [CipherUtils.firstPart split]. destruct (c =? 47); [reflexivity|].
  rewrite IH. destruct (split 47 s); reflexivity.
Qed.

Lemma bind_throws {A B} (m : JS.result A) (k : A -> JS.result B) :
  (forall a, isOk (k a) = false) -> isOk (a <- m ;; k a) = false.
Proof.
  intros H. destruct m as [a|e]; [apply H | reflexivity].
Qed.

(** X8. When the algorithm of the configuration is absent or its first part is
    none of AES, SM4 and RSA (whatever the case), neither
    [CipherUtils.encrypt] nor [CipherUtils.decrypt] returns: both throw,
    whatever the cipher libraries do. *)
Theorem X8_unsupported_algorithm_is_refused
        (P : Primitives.t) (E : Primitives.enc) (text : jsstring)
        (config : KeyConfig.t) :
  supported config = false ->
  isOk (CipherUtils.encrypt P E text config) = false /\
  isOk (CipherUtils.decrypt P text config) = false.
Proof.
  unfold supported, CipherUtils.encrypt, CipherUtils.decrypt. intros S.
  destruct (KeyConfig.algorithm config) as [a|].
  - rewrite <- firstPart_split.
    apply orb_false_elim in S. destruct S as [S R].
    apply orb_false_elim in S. destruct S as [A S].
    rewrite A, S, R. split.
    + apply bind_throws. intros p. reflexivity.
    + apply bind_throws. intros c. reflexivity.
  - split; [|reflexivity]. apply bind_throws. intros p. reflexivity.
Qed.


Lemma X8_witness :
  isOk (CipherUtils.encrypt (yielding []) plainRSA (js "hi") des) = false /\
  isOk (CipherUtils.decrypt (yielding []) (js "hi") des) = false.
Proof.
  apply X8_unsupported_algorithm_is_refused. reflexivity.
Defined.

(** Names are compared after [toUpperCase]: an encoding or an algorithm
    written with the long s (U+017F) is the one written with [S]. *)
Example names_with_long_s :
  toUpperCase Samples.base64LongS = BASE64 /\
  known Samples.base64LongS = true /\
  decode (VStr (js "QQ==")) [Samples.base64LongS] = Ok (js "A") /\
  supported Samples.aesLongS = true /\
  CipherUtils.decrypt (Samples.yielding (js "hello world")) Samples.ciphertext
                      Samples.aesLongS = Ok (js "hello world").
Proof. repeat split; vm_compute; reflexivity. Qed.

(** wrap / unwrap *)

Lemma isB64_not_dash (c : Z) : isB64 c -> c <> 45 /\ c <> 95.
Proof.
  intros [v [R ->]].
  assert (Q : forallb (fun v => negb (b64char v =? 45) && negb (b64char v =? 95))
                      (below 64) = true) by (vm_compute; reflexivity).
  pose proof (checked_below _ 64 Q v R) as H. cbv beta in H.
  apply andb_prop in H. destruct H as [H1 H2].
  apply negb_true_iff in H1, H2. apply Z.eqb_neq in H1, H2. split; assumption.
Qed.

Lemma padTo4_length (s : jsstring) : (length (padTo4 s) mod 4 = 0)%nat.
Proof.
  unfold padTo4. rewrite length_app, repeat_length.
  generalize (length s). intros n.
  pose proof (Nat.mod_upper_bound n 4) as B.
  pose proof (Nat.div_mod_eq n 4) as D.
  destruct (n mod 4)%nat as [|[|[|[|k]]]] eqn:M; try lia.
  - cbn. rewrite Nat.add_0_r. exact M.
  - change ((4 - 1) mod 4)%nat with 3%nat.
    replace (n + 3)%nat with (1 * 4 + (4 * (n / 4)))%nat by lia.
    rewrite Nat.add_comm, Nat.Div0.mod_add, Nat.mul_comm, Nat.Div0.mod_mul. reflexivity.
  - change ((4 - 2) mod 4)%nat with 2%nat.
    replace (n + 2)%nat with (1 * 4 + (4 * (n / 4)))%nat by lia.
    rewrite Nat.add_comm, Nat.Div0.mod_add, Nat.mul_comm, Nat.Div0.mod_mul. reflexivity.
  - change ((4 - 3) mod 4)%nat with 1%nat.
    replace (n + 1)%nat with (1 * 4 + (4 * (n / 4)))%nat by lia.
    rewrite Nat.add_comm, Nat.Div0.mod_add, Nat.mul_comm, Nat.Div0.mod_mul. reflexivity.
Qed.

Lemma padTo4_idem (s : jsstring) : padTo4 (padTo4 s) = padTo4 s.
Proof.
  unfold padTo4 at 1. rewrite padTo4_length. cbn [Nat.sub Nat.modulo repeat].
  change ((4 - 0) mod 4)%nat with 0%nat. cbn [repeat]. apply app_nil_r.
Qed.

Lemma replaceAll_absent (a b : Z) (s : jsstring) :
  Forall (fun c => c <> a) s -> replaceAll a b s = s.
Proof.
  unfold replaceAll. induction 1 as [|c s Hc _ IH]; [reflexivity|].
  cbn [map]. apply Z.eqb_neq in Hc. rewrite Hc, IH. reflexivity.
Qed.

Lemma fromUrlSafe_base64 (bs : list Z) :
  Forall isByte bs ->
  fromUrlSafe (Base64_stringify (ofBytes bs)) = Base64_stringify (ofBytes bs).
Proof.
  intros H. destruct (body_decodes bs H) as [_ I].
  unfold fromUrlSafe, Base64_stringify, ofBytes, clamp, sigBytes2. cbn [bytes half].
  rewrite Z.sub_0_r.
  set (body := b64groups bs (2 * Z.of_nat (length bs))) in *.
  assert (F : forall a, a = 45 \/ a = 95 -> Forall (fun c => c <> a) (padTo4 body)).
  { intros a Ha. unfold padTo4. apply Forall_app. split.
    - eapply Forall_impl; [|exact I]. intros c Hc.
      destruct (isB64_not_dash c Hc). destruct Ha; subst; assumption.
    - apply Forall_forall. intros c Hc. apply repeat_spec in Hc. subst c.
      unfold b64pad. destruct Ha; subst; discriminate. }
  rewrite (replaceAll_absent 45 43) by (apply F; left; reflexivity).
  rewrite (replaceAll_absent 95 47) by (apply F; right; reflexivity).
  apply padTo4_idem.
Qed.

Lemma wrap_utf8 (e : jsstring) (w : WordArray) :
  named UTF8 e = true ->
  EncodingUtils.encode (VWords w) [e] = Ok (Base64_stringify w).
Proof.
  unfold named. intros N. unfold encode. cbn [JS.bind rev app encodeLoop].
  rewrite N. reflexivity.
Qed.

Lemma unwrap_utf8 (e : jsstring) (r : jsstring) :
  named UTF8 e = true -> EncodingUtils.decode (VStr r) [e] = Ok r.
Proof.
  unfold named. intros N. unfold decode. cbn [decodeLoop]. rewrite N. reflexivity.
Qed.

(** The four names exclude each other. *)
Lemma named_cases (e : jsstring) :
  (named BASE64 e = true ->
   named UTF8 e = false /\ named HEX e = false /\ named BASE64_URLSAFE e = false) /\
  (named UTF8 e = true ->
   named BASE64 e = false /\ named HEX e = false /\ named BASE64_URLSAFE e = false) /\
  (named HEX e = true ->
   named BASE64 e = false /\ named UTF8 e = false /\ named BASE64_URLSAFE e = false) /\
  (named BASE64_URLSAFE e = true ->
   named BASE64 e = false /\ named UTF8 e = false /\ named HEX e = false).
Proof.
  unfold named.
  repeat split; apply eqb_eq in H; rewrite H; reflexivity.
Qed.

Ltac name_of e H :=
  let C := fresh "C" in
  pose proof (named_cases e) as C;
  destruct C as [C1 [C2 [C3 C4]]];
  first [ destruct (C1 H) as [? [? ?]] | destruct (C2 H) as [? [? ?]]
        | destruct (C3 H) as [? [? ?]] | destruct (C4 H) as [? [? ?]] ];
  clear C1 C2 C3 C4;
  unfold named in *.

Lemma wrap_step_base64 (e : jsstring) (E : list jsstring) (c : jsstring) (w : WordArray) :
  named BASE64 e = true -> CipherUtils.wrap (e :: E) c w = CipherUtils.wrap E c w.
Proof.
  intros N. cbn [CipherUtils.wrap]. unfold named in N. rewrite N. reflexivity.
Qed.

Lemma wrap_step_utf8 (e : jsstring) (E : list jsstring) (c : jsstring) (w : WordArray) :
  named UTF8 e = true ->
  CipherUtils.wrap (e :: E) c w
  = CipherUtils.wrap E (Base64_stringify w) (Base64_parse (Base64_stringify w)).
Proof.
  intros N. cbn [CipherUtils.wrap]. rewrite (wrap_utf8 e w N).
  name_of e N.
  repeat match goal with
         | Q : JS.eqb (toUpperCase e) _ = false |- _ => rewrite Q; clear Q
         end.
  reflexivity.
Qed.

Lemma wrap_step_hex (e : jsstring) (E : list jsstring) (c : jsstring) (w : WordArray) :
  named HEX e = true ->
  CipherUtils.wrap (e :: E) c w
  = CipherUtils.wrap E (Hex_stringify w) (Hex_parse (Hex_stringify w)).
Proof.
  intros N. cbn [CipherUtils.wrap]. name_of e N.
  repeat match goal with
         | Q : JS.eqb (toUpperCase e) _ = _ |- _ => rewrite Q; clear Q
         end.
  reflexivity.
Qed.

Lemma wrap_step_urlsafe (e : jsstring) (E : list jsstring) (c : jsstring) (w : WordArray) :
  named BASE64_URLSAFE e = true ->
  CipherUtils.wrap (e :: E) c w = Ok (toUrlSafe (Base64_stringify w)).
Proof.
  intros N. cbn [CipherUtils.wrap]. name_of e N.
  repeat match goal with
         | Q : JS.eqb (toUpperCase e) _ = _ |- _ => rewrite Q; clear Q
         end.
  reflexivity.
Qed.

Lemma unwrap_step_base64 (e : jsstring) (L : list jsstring) (r : jsstring) :
  named BASE64 e = true -> CipherUtils.unwrap (e :: L) r = CipherUtils.unwrap L r.
Proof.
  intros N. cbn [CipherUtils.unwrap]. unfold named in N. rewrite N. reflexivity.
Qed.

Lemma unwrap_step_utf8 (e : jsstring) (L : list jsstring) (r : jsstring) :
  named UTF8 e = true -> CipherUtils.unwrap (e :: L) r = CipherUtils.unwrap L r.
Proof.
  intros N. cbn [CipherUtils.unwrap]. rewrite (unwrap_utf8 e r N).
  name_of e N.
  repeat match goal with
         | Q : JS.eqb (toUpperCase e) _ = false |- _ => rewrite Q; clear Q
         end.
  reflexivity.
Qed.

Lemma unwrap_step_hex (e : jsstring) (L : list jsstring) (r : jsstring) :
  named HEX e = true ->
  CipherUtils.unwrap (e :: L) r
  = CipherUtils.unwrap L (Base64_stringify (Hex_parse r)).
Proof.
  intros N. cbn [CipherUtils.unwrap]. name_of e N.
  repeat match goal with
         | Q : JS.eqb (toUpperCase e) _ = _ |- _ => rewrite Q; clear Q
         end.
  reflexivity.
Qed.

Lemma unwrap_step_urlsafe (e : jsstring) (L : list jsstring) (r : jsstring) :
  named BASE64_URLSAFE e = true ->
  CipherUtils.unwrap (e :: L) r = CipherUtils.unwrap L (fromUrlSafe r).
Proof.
  intros N. cbn [CipherUtils.unwrap]. name_of e N.
  repeat match goal with
         | Q : JS.eqb (toUpperCase e) _ = _ |- _ => rewrite Q; clear Q
         end.
  reflexivity.
Qed.

Lemma unwrap_app (L1 L2 : list jsstring) (r : jsstring) :
  CipherUtils.unwrap (L1 ++ L2) r
  = (x <- CipherUtils.unwrap L1 r ;; CipherUtils.unwrap L2 x).
Proof.
  revert r. induction L1 as [|e L1 IH]; intros r; [reflexivity|].
  cbn [app CipherUtils.unwrap].
  destruct (JS.eqb (toUpperCase e) BASE64); [apply IH|].
  destruct (JS.eqb (toUpperCase e) HEX); [apply IH|].
  destruct (JS.eqb (toUpperCase e) BASE64_URLSAFE); [apply IH|].
  destruct (decode (VStr r) [e]); cbn [JS.bind]; [apply IH | reflexivity].
Qed.

Lemma urlStep_cases (e : jsstring) :
  urlStep e = true ->
  named BASE64 e = true \/ named UTF8 e = true \/ named BASE64_URLSAFE e = true.
Proof.
  unfold urlStep. intros H. apply orb_prop in H. destruct H as [H|H]; [|tauto].
  apply orb_prop in H. tauto.
Qed.

Lemma wrap_url (bs : list Z) (E : list jsstring) :
  Forall isByte bs -> forallb urlStep E = true ->
  CipherUtils.wrap E (Base64_stringify (ofBytes bs)) (ofBytes bs)
  = Ok (if existsb (named BASE64_URLSAFE) E
        then toUrlSafe (Base64_stringify (ofBytes bs))
        else Base64_stringify (ofBytes bs)).
Proof.
  intros B. induction E as [|e E IH]; intros H; [reflexivity|].
  cbn [forallb] in H. apply andb_prop in H. destruct H as [He HE].
  cbn [existsb].
  destruct (urlStep_cases e He) as [N|[N|N]].
  - rewrite wrap_step_base64 by exact N.
    destruct (proj1 (named_cases e) N) as [_ [_ ->]]. exact (IH HE).
  - rewrite wrap_step_utf8 by exact N. rewrite Base64_roundtrip by exact B.
    destruct (proj1 (proj2 (named_cases e)) N) as [_ [_ ->]]. exact (IH HE).
  - rewrite wrap_step_urlsafe by exact N. rewrite N. reflexivity.
Qed.

Lemma unwrap_url_done (bs : list Z) (L : list jsstring) :
  Forall isByte bs -> forallb urlStep L = true ->
  CipherUtils.unwrap L (Base64_stringify (ofBytes bs)) = Ok (Base64_stringify (ofBytes bs)).
Proof.
  intros B. induction L as [|e L IH]; intros H; [reflexivity|].
  cbn [forallb] in H. apply andb_prop in H. destruct H as [He HL].
  destruct (urlStep_cases e He) as [N|[N|N]].
  - rewrite unwrap_step_base64 by exact N. exact (IH HL).
  - rewrite unwrap_step_utf8 by exact N. exact (IH HL).
  - rewrite unwrap_step_urlsafe by exact N.
    rewrite fromUrlSafe_base64 by exact B. exact (IH HL).
Qed.

Lemma unwrap_url (bs : list Z) (L : list jsstring) :
  Forall isByte bs -> forallb urlStep L = true ->
  existsb (named BASE64_URLSAFE) L = true ->
  CipherUtils.unwrap L (toUrlSafe (Base64_stringify (ofBytes bs)))
  = Ok (Base64_stringify (ofBytes bs)).
Proof.
  intros B. induction L as [|e L IH]; intros H X; [discriminate X|].
  cbn [forallb] in H. apply andb_prop in H. destruct H as [He HL].
  cbn [existsb] in X.
  destruct (urlStep_cases e He) as [N|[N|N]].
  - rewrite unwrap_step_base64 by exact N.
    destruct (proj1 (named_cases e) N) as [_ [_ Q]]. rewrite Q in X. exact (IH HL X).
  - rewrite unwrap_step_utf8 by exact N.
    destruct (proj1 (proj2 (named_cases e)) N) as [_ [_ Q]]. rewrite Q in X.
    exact (IH HL X).
  - rewrite unwrap_step_urlsafe by exact N.
    rewrite UrlSafe_text_roundtrip by exact B. apply unwrap_url_done; assumption.
Qed.

Lemma wrap_base64s (E : list jsstring) (c : jsstring) (w : WordArray) :
  forallb (named BASE64) E = true -> CipherUtils.wrap E c w = Ok c.
Proof.
  induction E as [|e E IH]; intros H; [reflexivity|].
  cbn [forallb] in H. apply andb_prop in H. destruct H as [He HE].
  rewrite wrap_step_base64 by exact He. exact (IH HE).
Qed.

Lemma unwrap_base64s (L : list jsstring) (r : jsstring) :
  forallb (named BASE64) L = true -> CipherUtils.unwrap L r = Ok r.
Proof.
  induction L as [|e L IH]; intros H; [reflexivity|].
  cbn [forallb] in H. apply andb_prop in H. destruct H as [He HL].
  rewrite unwrap_step_base64 by exact He. exact (IH HL).
Qed.

Lemma wrap_hex (bs : list Z) (E : list jsstring) (c : jsstring) :
  Forall isByte bs -> hexChain E = true ->
  CipherUtils.wrap E c (ofBytes bs) = Ok (Hex_stringify (ofBytes bs)).
Proof.
  intros B. revert c. induction E as [|e E IH]; intros c H; [discriminate H|].
  cbn [hexChain] in H.
  destruct (named BASE64 e) eqn:N1; cbn [orb] in H.
  - rewrite wrap_step_base64 by exact N1. exact (IH _ H).
  - destruct (named UTF8 e) eqn:N2.
    + rewrite wrap_step_utf8 by exact N2. rewrite Base64_roundtrip by exact B.
      exact (IH _ H).
    + apply andb_prop in H. destruct H as [N3 HE].
      rewrite wrap_step_hex by exact N3. apply wrap_base64s. exact HE.
Qed.

Lemma unwrap_hex (bs : list Z) (E : list jsstring) :
  Forall isByte bs -> hexChain E = true ->
  CipherUtils.unwrap (rev E) (Hex_stringify (ofBytes bs))
  = Ok (Base64_stringify (ofBytes bs)).
Proof.
  intros B. induction E as [|e E IH]; intros H; [discriminate H|].
  cbn [hexChain] in H. cbn [rev]. rewrite unwrap_app.
  destruct (named BASE64 e) eqn:N1; cbn [orb] in H.
  - rewrite (IH H). cbn [JS.bind]. rewrite unwrap_step_base64 by exact N1. reflexivity.
  - destruct (named UTF8 e) eqn:N2.
    + rewrite (IH H). cbn [JS.bind]. rewrite unwrap_step_utf8 by exact N2. reflexivity.
    + apply andb_prop in H. destruct H as [N3 HE].
      rewrite unwrap_base64s by (rewrite forallb_rev; exact HE). cbn [JS.bind].
      rewrite unwrap_step_hex by exact N3. rewrite Hex_roundtrip by exact B.
      reflexivity.
Qed.

(** X9. The loop of [CipherUtils.decrypt] over [cipherEncoding] undoes the loop
    of [CipherUtils.encrypt] on a Base64 ciphertext, for the chains whose
    entries name [BASE64], [UTF8] and [BASE64_URLSAFE] only, and for the
    chains with one [HEX] entry, [BASE64] or [UTF8] entries before it and
    [BASE64] entries after it. *)
Theorem X9_unwrap_undoes_wrap (bs : list Z) (E : list jsstring) :
  Forall isByte bs -> wrapChain E = true ->
  exists text,
    CipherUtils.wrap E (Base64_stringify (ofBytes bs))
                     (Base64_parse (Base64_stringify (ofBytes bs))) = Ok text /\
    CipherUtils.unwrap (rev E) text = Ok (Base64_stringify (ofBytes bs)).
Proof.
  intros B H. rewrite Base64_roundtrip by exact B.
  unfold wrapChain in H. apply orb_prop in H. destruct H as [H|H].
  - rewrite (wrap_url bs E B H). eexists. split; [reflexivity|].
    destruct (existsb (named BASE64_URLSAFE) E) eqn:X.
    + apply unwrap_url; [exact B | rewrite forallb_rev; exact H
                         | rewrite existsb_rev; exact X].
    + apply unwrap_url_done; [exact B | rewrite forallb_rev; exact H].
  - rewrite (wrap_hex bs E _ B H). eexists. split; [reflexivity|].
    apply unwrap_hex; assumption.
Qed.

Lemma X9_witness :
  exists text,
    CipherUtils.wrap [HEX; BASE64] (Base64_stringify (ofBytes [250; 251; 252]))
                     (Base64_parse (Base64_stringify (ofBytes [250; 251; 252]))) = Ok text /\
    CipherUtils.unwrap (rev [HEX; BASE64]) text
    = Ok (Base64_stringify (ofBytes [250; 251; 252])).
Proof.
  apply X9_unwrap_undoes_wrap.
  - repeat constructor; unfold isByte; lia.
  - reflexivity.
Defined.

(** Hex text to bytes and back *)


Lemma lowerHex_In (c : Z) : lowerHex c = true -> In c hexChars.
Proof.
  unfold lowerHex. intros H.
  assert (R : (48 <= c <= 57) \/ (97 <= c <= 102)) by lia.
  assert (Q : forallb (fun x => negb (lowerHex x) || existsb (Z.eqb x) hexChars)
                      (below 103) = true) by (vm_compute; reflexivity).
  pose proof (checked_below _ 103 Q c ltac:(lia)) as K. cbv beta in K.
  unfold lowerHex in K. rewrite H in K. cbn [negb orb] in K.
  apply existsb_exists in K. destruct K as [x [I E]].
  apply Z.eqb_eq in E. subst x. exact I.
Qed.

Lemma hex_pair_back (c1 c2 : Z) :
  lowerHex c1 = true -> lowerHex c2 = true ->
  exists v, parseInt16 [c1; c2] = Some v /\ 0 <= v < 256 /\
            hexDigit (Z.shiftr v 4) = c1 /\ hexDigit (Z.land v 15) = c2.
Proof.
  intros H1 H2. apply lowerHex_In in H1, H2.
  assert (Q : forallb (fun a => forallb (fun b =>
                match parseInt16 [a; b] with
                | Some v => (0 <=? v) && (v <? 256) &&
                            (hexDigit (Z.shiftr v 4) =? a) &&
                            (hexDigit (Z.land v 15) =? b)
                | None => false
                end) hexChars) hexChars = true) by (vm_compute; reflexivity).
  rewrite forallb_forall in Q. specialize (Q c1 H1).
  rewrite forallb_forall in Q. specialize (Q c2 H2).
  destruct (parseInt16 [c1; c2]) as [v|]; [|discriminate Q].
  exists v. split; [reflexivity|].
  apply andb_prop in Q. destruct Q as [Q Q4].
  apply andb_prop in Q. destruct Q as [Q Q3].
  apply andb_prop in Q. destruct Q as [Q1 Q2].
  apply Z.eqb_eq in Q3, Q4. lia.
Qed.

Lemma list_ind2 {A} (P : list A -> Prop) :
  P [] -> (forall a, P [a]) -> (forall a b l, P l -> P (a :: b :: l)) ->
  forall l, P l.
Proof.
  intros H0 H1 H2. fix IH 1.
  intros [|a [|b l]]; [exact H0 | apply H1 | apply H2; apply IH].
Qed.

Lemma hexLoop_back (h : jsstring) :
  forallb lowerHex h = true -> Nat.even (length h) = true ->
  forall acc,
  exists bs, hexLoop h acc = acc ++ bs /\ Forall isByte bs /\
             flat_map (fun b => [hexDigit (Z.shiftr b 4); hexDigit (Z.land b 15)]) bs = h.
Proof.
  induction h as [| a | a b h IH] using list_ind2; intros L E acc.
  - exists []. rewrite app_nil_r. repeat split. constructor.
  - discriminate E.
  - cbn [forallb] in L. apply andb_prop in L. destruct L as [La L].
    apply andb_prop in L. destruct L as [Lb L].
    destruct (hex_pair_back a b La Lb) as [v [Pv [Rv [D1 D2]]]].
    destruct (IH L E (acc ++ [v])) as [bs [H1 [H2 H3]]].
    exists (v :: bs). split; [|split].
    + cbn [hexLoop]. rewrite Pv. unfold hexStore.
      destruct (Z.ltb_spec v 0) as [N|_]; [lia|].
      rewrite Z.mod_small by lia. rewrite H1, <- app_assoc. reflexivity.
    + constructor; [exact Rv | exact H2].
    + cbn [flat_map app]. rewrite D1, D2, H3. reflexivity.
Qed.

Lemma Hex_text_roundtrip (h : jsstring) :
  forallb lowerHex h = true -> Nat.even (length h) = true ->
  exists bs, Forall isByte bs /\ Hex_parse h = ofBytes bs /\
             Hex_stringify (ofBytes bs) = h.
Proof.
  intros L E. destruct (hexLoop_back h L E []) as [bs [H1 [H2 H3]]].
  exists bs. split; [exact H2|]. split.
  - unfold Hex_parse, ofBytes. rewrite H1. cbn [app].
    rewrite <- Nat.negb_even, E. reflexivity.
  - exact H3.
Qed.

Lemma hex_through_base64 (h : jsstring) :
  forallb lowerHex h = true -> Nat.even (length h) = true ->
  Hex_stringify (Base64_parse (Base64_stringify (Hex_parse h))) = h.
Proof.
  intros L E. destruct (Hex_text_roundtrip h L E) as [bs [B [P S]]].
  rewrite P, Base64_roundtrip by exact B. exact S.
Qed.

(** CipherUtils with one entry *)

(** X10. Under AES with a [cipherEncoding] of the one entry [HEX],
    [CipherUtils.encrypt] returns the hexadecimal text of the bytes of the
    Base64 ciphertext, and [CipherUtils.decrypt] hands its argument to
    [AESCipher.decrypt] as it is: the conversion loop runs only for chains
    of two entries or more. *)
Theorem X10_aes_single_hex_entry
        (P : Primitives.t) (E : Primitives.enc) (plaintext : jsstring)
        (config : KeyConfig.t) (a e processed c0 : jsstring) :
  KeyConfig.algorithm config = Some a ->
  JS.eqb (toUpperCase (CipherUtils.firstPart a)) (js "AES") = true ->
  KeyConfig.cipherEncoding config = Some [e] -> named HEX e = true ->
  processPlaintextEncoding plaintext
    (AESCipher.orElse (KeyConfig.plainEncoding config) [UTF8]) = Ok processed ->
  AESCipher.encrypt P processed
    (CipherUtils.algorithmConfig config
       (CipherUtils.partOr (split 47 a) 1 "CBC")
       (CipherUtils.partOr (split 47 a) 2 "PKCS5PADDING")) = Ok c0 ->
  CipherUtils.encrypt P E plaintext config = Ok (Hex_stringify (Base64_parse c0)) /\
  forall ciphertext,
    CipherUtils.decrypt P ciphertext config
    = (x <- AESCipher.decrypt P ciphertext config ;;
       processPlaintextDecoding x
         (AESCipher.orElse (KeyConfig.plainEncoding config) [UTF8])).
Proof.
  intros A M C N Pp Enc. split.
  - unfold CipherUtils.encrypt. rewrite Pp, A, C. cbn [JS.bind AESCipher.orElse].
    rewrite <- firstPart_split, M, Enc. cbn [JS.bind length Nat.ltb Nat.leb].
    rewrite wrap_step_hex by exact N. reflexivity.
  - intros ciphertext. unfold CipherUtils.decrypt.
    rewrite A, C, M. cbn [AESCipher.orElse length Nat.ltb Nat.leb JS.bind].
    reflexivity.
Qed.

Lemma X10_witness :
  CipherUtils.encrypt (sealing ciphertext) plainRSA (js "hi") (encodedAs [HEX] cbcConfig)
  = Ok (Hex_stringify (Base64_parse ciphertext)) /\
  forall c,
    CipherUtils.decrypt (sealing ciphertext) c (encodedAs [HEX] cbcConfig)
    = (x <- AESCipher.decrypt (sealing ciphertext) c (encodedAs [HEX] cbcConfig) ;;
       processPlaintextDecoding x
         (AESCipher.orElse (KeyConfig.plainEncoding (encodedAs [HEX] cbcConfig)) [UTF8])).
Proof.
  apply (X10_aes_single_hex_entry (sealing ciphertext) plainRSA (js "hi")
           (encodedAs [HEX] cbcConfig) (js "AES/CBC/PKCS5Padding") HEX (js "hi")
           ciphertext); reflexivity.
Defined.

(** X11. Under SM4 with the [cipherEncoding] [['HEX']], [CipherUtils.encrypt]
    does not return the hexadecimal text [h] of [SM4Cipher.encrypt] but the
    hexadecimal text of [h] read as Base64, and [CipherUtils.decrypt] hands
    its argument to [SM4Cipher.decrypt] as it is. *)
Theorem X11_sm4_single_hex_entry
        (P : Primitives.t) (E : Primitives.enc) (plaintext : jsstring)
        (config : KeyConfig.t) (a processed h : jsstring) :
  KeyConfig.algorithm config = Some a ->
  JS.eqb (toUpperCase (CipherUtils.firstPart a)) (js "SM4") = true ->
  KeyConfig.cipherEncoding config = Some [HEX] ->
  processPlaintextEncoding plaintext
    (AESCipher.orElse (KeyConfig.plainEncoding config) [UTF8]) = Ok processed ->
  SM4Cipher.encrypt E processed
    (CipherUtils.algorithmConfig config
       (CipherUtils.partOr (split 47 a) 1 "CBC")
       (CipherUtils.partOr (split 47 a) 2 "PKCS5PADDING")) = Ok h ->
  CipherUtils.encrypt P E plaintext config = Ok (Hex_stringify (Base64_parse h)) /\
  forall ciphertext,
    CipherUtils.decrypt P ciphertext config
    = (x <- SM4Cipher.decrypt P ciphertext config ;;
       processPlaintextDecoding x
         (AESCipher.orElse (KeyConfig.plainEncoding config) [UTF8])).
Proof.
  intros A M C Pp Enc.
  assert (M' : JS.eqb (toUpperCase (CipherUtils.firstPart a)) (js "AES") = false).
  { apply eqb_eq in M. rewrite M. reflexivity. }
  split.
  - unfold CipherUtils.encrypt. rewrite Pp, A, C. cbn [JS.bind AESCipher.orElse].
    rewrite <- firstPart_split, M, M', Enc. cbn [JS.bind length Nat.ltb Nat.leb].
    change (existsb (JS.eqb BASE64) [HEX]) with false. cbv iota. cbn [JS.bind].
    rewrite wrap_step_hex by reflexivity. reflexivity.
  - intros ciphertext. unfold CipherUtils.decrypt.
    rewrite A, C, M, M'. cbn [AESCipher.orElse length Nat.ltb Nat.leb JS.bind].
    reflexivity.
Qed.

Lemma X11_witness :
  CipherUtils.encrypt (yielding []) (sm4Yielding (js "00ff")) (js "hi")
                      (encodedAs [HEX] sm4Config)
  = Ok (Hex_stringify (Base64_parse (js "00ff"))) /\
  forall c,
    CipherUtils.decrypt (yielding []) c (encodedAs [HEX] sm4Config)
    = (x <- SM4Cipher.decrypt (yielding []) c (encodedAs [HEX] sm4Config) ;;
       processPlaintextDecoding x
         (AESCipher.orElse (KeyConfig.plainEncoding (encodedAs [HEX] sm4Config)) [UTF8])).
Proof.
  apply (X11_sm4_single_hex_entry (yielding []) (sm4Yielding (js "00ff")) (js "hi")
           (encodedAs [HEX] sm4Config) (js "SM4/CBC/PKCS5Padding") (js "hi")
           (js "00ff")); reflexivity.
Defined.

(** X12. Under SM4 with the default [cipherEncoding] [['BASE64']], when
    [SM4Cipher.encrypt] returns a lowercase hexadecimal text [h] of even
    length, [CipherUtils.encrypt] returns its Base64 form and
    [CipherUtils.decrypt] hands exactly [h] to [SM4Cipher.decrypt]. *)
Theorem X12_sm4_base64_round_trip
        (P : Primitives.t) (E : Primitives.enc) (plaintext : jsstring)
        (config : KeyConfig.t) (a processed h : jsstring) :
  KeyConfig.algorithm config = Some a ->
  JS.eqb (toUpperCase (CipherUtils.firstPart a)) (js "SM4") = true ->
  AESCipher.orElse (KeyConfig.cipherEncoding config) [BASE64] = [BASE64] ->
  processPlaintextEncoding plaintext
    (AESCipher.orElse (KeyConfig.plainEncoding config) [UTF8]) = Ok processed ->
  SM4Cipher.encrypt E processed
    (CipherUtils.algorithmConfig config
       (CipherUtils.partOr (split 47 a) 1 "CBC")
       (CipherUtils.partOr (split 47 a) 2 "PKCS5PADDING")) = Ok h ->
  forallb lowerHex h = true -> Nat.even (length h) = true ->
  exists c,
    CipherUtils.encrypt P E plaintext config = Ok c /\
    CipherUtils.decrypt P c config
    = (x <- SM4Cipher.decrypt P h config ;;
       processPlaintextDecoding x
         (AESCipher.orElse (KeyConfig.plainEncoding config) [UTF8])).
Proof.
  intros A M C Pp Enc L Ev.
  assert (M' : JS.eqb (toUpperCase (CipherUtils.firstPart a)) (js "AES") = false).
  { apply eqb_eq in M. rewrite M. reflexivity. }
  exists (Base64_stringify (Hex_parse h)). split.
  - unfold CipherUtils.encrypt. rewrite Pp, A, C. cbn [JS.bind].
    rewrite <- firstPart_split, M, M', Enc. cbn [JS.bind length Nat.ltb Nat.leb].
    change (existsb (JS.eqb BASE64) [BASE64]) with true. cbv iota. cbn [JS.bind].
    rewrite wrap_step_base64 by reflexivity. reflexivity.
  - unfold CipherUtils.decrypt.
    rewrite A, C, M, M'. cbn [length Nat.ltb Nat.leb JS.bind].
    change (existsb (JS.eqb HEX) [BASE64]) with false. cbv iota.
    rewrite hex_through_base64 by assumption. reflexivity.
Qed.

Lemma X12_witness :
  exists c,
    CipherUtils.encrypt (yielding []) (sm4Yielding (js "00ff")) (js "hi") sm4Config = Ok c /\
    CipherUtils.decrypt (yielding []) c sm4Config
    = (x <- SM4Cipher.decrypt (yielding []) (js "00ff") sm4Config ;;
       processPlaintextDecoding x
         (AESCipher.orElse (KeyConfig.plainEncoding sm4Config) [UTF8])).
Proof.
  apply (X12_sm4_base64_round_trip (yielding []) (sm4Yielding (js "00ff")) (js "hi")
           sm4Config (js "SM4/CBC/PKCS5Padding") (js "hi") (js "00ff")); reflexivity.
Defined.

(** textutils *)

Lemma filter_is_matches (text : jsstring) :
  TextUtils.filterNonPrintableCharacters text = TextUtils.printableMatches text.
Proof.
  unfold TextUtils.filterNonPrintableCharacters, TextUtils.printableMatches.
  destruct text as [|c text]; [reflexivity|].
  apply filter_ext. intros a. unfold TextUtils.nonPrintable. apply negb_involutive.
Qed.

Lemma filter_fixed {A} (f : A -> bool) (l : list A) :
  filter f (filter f l) = filter f l.
Proof.
  induction l as [|x l IH]; [reflexivity|].
  cbn [filter]. destruct (f x) eqn:E; [|exact IH].
  cbn [filter]. rewrite E, IH. reflexivity.
Qed.

Lemma analysis_counts (text : jsstring) :
  TextUtils.totalChars (TextUtils.analyzePrintableCharacters text) = JS.len text /\
  TextUtils.printableChars (TextUtils.analyzePrintableCharacters text)
  = JS.len (TextUtils.printableMatches text).
Proof.
  destruct text; split; reflexivity.
Qed.

(** X13. [filterNonPrintableCharacters] keeps exactly the characters that
    [analyzePrintableCharacters] counts as printable: the length of its
    result is [printableChars], filtering twice is filtering once, and in the
    result every character is printable. *)
Theorem X13_filter_keeps_what_the_analysis_counts (text : jsstring) :
  let kept := TextUtils.filterNonPrintableCharacters text in
  JS.len kept
  = TextUtils.printableChars (TextUtils.analyzePrintableCharacters text) /\
  TextUtils.filterNonPrintableCharacters kept = kept /\
  TextUtils.printableChars (TextUtils.analyzePrintableCharacters kept)
  = TextUtils.totalChars (TextUtils.analyzePrintableCharacters kept).
Proof.
  cbv zeta. rewrite !filter_is_matches.
  destruct (analysis_counts text) as [_ ->].
  destruct (analysis_counts (TextUtils.printableMatches text)) as [-> ->].
  unfold TextUtils.printableMatches. rewrite !filter_fixed. repeat split.
Qed.

Lemma countIn_cons (R : list (Z * Z)) (c : Z) (text : jsstring) :
  TextUtils.countIn R (c :: text)
  = (if inRanges c R then 1 else 0) + TextUtils.countIn R text.
Proof.
  unfold TextUtils.countIn, JS.len. cbn [filter].
  destruct (inRanges c R); cbn [length]; lia.
Qed.

Lemma countIn_nonneg (R : list (Z * Z)) (text : jsstring) :
  0 <= TextUtils.countIn R text.
Proof. unfold TextUtils.countIn, JS.len. lia. Qed.

Lemma inRanges_In (c a b : Z) (R : list (Z * Z)) :
  In (a, b) R -> a <= c <= b -> inRanges c R = true.
Proof.
  intros I H. unfold inRanges. apply existsb_exists. exists (a, b).
  split; [exact I|]. cbn [fst snd]. lia.
Qed.

Lemma inRanges_1 (c a b : Z) : inRanges c [(a, b)] = true -> a <= c <= b.
Proof. unfold inRanges. cbn [existsb fst snd]. lia. Qed.

Lemma inRanges_2 (c a b a' b' : Z) :
  inRanges c [(a, b); (a', b')] = true -> a <= c <= b \/ a' <= c <= b'.
Proof. unfold inRanges. cbn [existsb fst snd]. lia. Qed.

Lemma inRanges_3 (c a b a' b' a'' b'' : Z) :
  inRanges c [(a, b); (a', b'); (a'', b'')] = true ->
  a <= c <= b \/ a' <= c <= b' \/ a'' <= c <= b''.
Proof. unfold inRanges. cbn [existsb fst snd]. lia. Qed.

Lemma types_of_one (c : Z) :
  let asc := inRanges c [(0x20, 0x7E)] in
  let lat := inRanges c [(0x00A0, 0x00FF)] in
  let han := inRanges c [(0x4E00, 0x9FFF); (0x3400, 0x4DBF); (0xF900, 0xFAFF)] in
  let sym := inRanges c [(0x2000, 0x2BFF); (0x2E00, 0x2EFF)] in
  let pr := inRanges c TextUtils.EXTENDED_PRINTABLE_REGEX in
  (if asc then 1 else 0) + (if lat then 1 else 0) + (if han then 1 else 0)
  + (if sym then 1 else 0) <= 1 /\
  (if asc then 1 else 0) + (if lat then 1 else 0) + (if han then 1 else 0)
  <= (if pr then 1 else 0).
Proof.
  intros asc lat han sym pr.
  assert (A : asc = true -> 0x20 <= c <= 0x7E) by apply inRanges_1.
  assert (L : lat = true -> 0x00A0 <= c <= 0x00FF) by apply inRanges_1.
  assert (H : han = true -> 0x4E00 <= c <= 0x9FFF \/ 0x3400 <= c <= 0x4DBF \/
                            0xF900 <= c <= 0xFAFF) by apply inRanges_3.
  assert (S : sym = true -> 0x2000 <= c <= 0x2BFF \/ 0x2E00 <= c <= 0x2EFF)
    by apply inRanges_2.
  assert (PA : asc = true -> pr = true).
  { intros Q. apply (inRanges_In c 0x20 0x7E); [|exact (A Q)].
    cbn; repeat (first [left; reflexivity | right]). }
  assert (PL : lat = true -> pr = true).
  { intros Q. apply (inRanges_In c 0x00A0 0x00FF); [|exact (L Q)].
    cbn; repeat (first [left; reflexivity | right]). }
  assert (PH : han = true -> pr = true).
  { intros Q. destruct (H Q) as [R|[R|R]].
    - apply (inRanges_In c 0x4E00 0x9FFF); [|exact R]. cbn; repeat (first [left; reflexivity | right]).
    - apply (inRanges_In c 0x3400 0x4DBF); [|exact R]. cbn; repeat (first [left; reflexivity | right]).
    - apply (inRanges_In c 0xF900 0xFAFF); [|exact R]. cbn; repeat (first [left; reflexivity | right]). }
  clearbody asc lat han sym pr.
  destruct asc, lat, han, sym;
    try specialize (A eq_refl); try specialize (L eq_refl);
    try specialize (H eq_refl); try specialize (S eq_refl);
    try (rewrite PA by reflexivity); try (rewrite PL by reflexivity);
    try (rewrite PH by reflexivity);
    try (split; lia); destruct pr; split; lia.
Qed.

(** X14. In the report of [getTextAnalysisReport] the four character types count
    disjoint sets of characters: their sum is at most [totalChars]; [ascii],
    [latinExtended] and [cjk] together are at most [printableChars], which is
    at most [totalChars]; [nonPrintableChars] is never negative. *)
Theorem X14_character_types_do_not_overlap (text : jsstring) :
  let report := TextUtils.getTextAnalysisReport text in
  let types := TextUtils.characterTypes report in
  TextUtils.ascii types + TextUtils.latinExtended types + TextUtils.cjk types
  + TextUtils.symbols types <= TextUtils.totalChars (TextUtils.analysis report) /\
  TextUtils.ascii types + TextUtils.latinExtended types + TextUtils.cjk types
  <= TextUtils.printableChars (TextUtils.analysis report) /\
  TextUtils.printableChars (TextUtils.analysis report)
  <= TextUtils.totalChars (TextUtils.analysis report) /\
  0 <= TextUtils.nonPrintableChars report.
Proof.
  cbv zeta. unfold TextUtils.getTextAnalysisReport.
  cbn [TextUtils.characterTypes TextUtils.analysis TextUtils.nonPrintableChars
       TextUtils.ascii TextUtils.latinExtended TextUtils.cjk TextUtils.symbols].
  destruct (analysis_counts text) as [-> ->].
  change (JS.len (TextUtils.printableMatches text))
    with (TextUtils.countIn TextUtils.EXTENDED_PRINTABLE_REGEX text).
  induction text as [|c text IH].
  - cbn. lia.
  - rewrite !countIn_cons.
    replace (JS.len (c :: text)) with (1 + JS.len text)
      by (unfold JS.len; cbn [length]; lia).
    destruct (types_of_one c) as [T1 T2]. cbv zeta in T1, T2.
    destruct (inRanges c TextUtils.EXTENDED_PRINTABLE_REGEX); lia.
Qed.

(** *** The encode tool: Unicode escapes and character codes *)

Lemma Array_from_noPairs (s : jsstring) :
  noPairs s = true -> Platform.Array_from s = map (fun c => [c]) s.
Proof.
  induction s as [|c s IH]; [reflexivity|].
  cbn [noPairs Platform.Array_from map]. intros H.
  apply andb_prop in H. destruct H as [H1 H2]. apply negb_true_iff in H1.
  destruct (isHighSurrogate c); cbn [andb] in H1.
  - destruct s as [|d s]; [reflexivity|]. rewrite H1. rewrite (IH H2). reflexivity.
  - rewrite (IH H2). reflexivity.
Qed.

Lemma list_ind_12 {A} (P : list A -> Prop) :
  P [] -> (forall c, P [c]) ->
  (forall c d s, P s -> P (d :: s) -> P (c :: d :: s)) ->
  forall s, P s.
Proof.
  intros H0 H1 H2 s.
  assert (Q : P s /\ forall c, P (c :: s)).
  { induction s as [|d s [IH1 IH2]].
    - split; [exact H0 | exact H1].
    - split; [apply IH2 | intros c; apply H2; [exact IH1 | apply IH2]]. }
  apply Q.
Qed.

Lemma Array_from_heads (s : jsstring) :
  Forall isUnit s ->
  Forall isUnit (map Platform.charCodeAt0 (Platform.Array_from s)).
Proof.
  induction s as [|c|c d s IH1 IH2] using list_ind_12; intros H.
  - constructor.
  - inversion H as [|? ? Hc _]; subst. cbn [Platform.Array_from].
    destruct (isHighSurrogate c); cbn [map]; constructor; (exact Hc || constructor).
  - inversion H as [|? ? Hc Hs]; subst. inversion Hs as [|? ? Hd Hs']; subst.
    cbn [Platform.Array_from].
    destruct (isHighSurrogate c).
    + destruct (isLowSurrogate d); cbn [map]; constructor; try exact Hc.
      * apply IH1. exact Hs'.
      * apply IH2. exact Hs.
    + cbn [map]. constructor; [exact Hc | apply IH2; exact Hs].
Qed.

Lemma nibbles_In (c : Z) :
  0 <= c < 65536 ->
  In (c / 4096) (below 16) /\ In ((c / 256) mod 16) (below 16) /\
  In ((c / 16) mod 16) (below 16) /\ In (c mod 16) (below 16) /\
  ((c / 4096 * 16 + (c / 256) mod 16) * 16 + (c / 16) mod 16) * 16 + c mod 16 = c.
Proof.
  intros U.
  repeat split; try (apply below_In; cbn; Z.div_mod_to_equations; lia).
  Z.div_mod_to_equations; lia.
Qed.

Lemma checked_nibbles (P : Z -> bool) :
  forallb (fun a => forallb (fun b => forallb (fun d => forallb (fun e =>
     P (((a * 16 + b) * 16 + d) * 16 + e))
     (below 16)) (below 16)) (below 16)) (below 16) = true ->
  forall c, 0 <= c < 65536 -> P c = true.
Proof.
  intros Q c U. destruct (nibbles_In c U) as [I1 [I2 [I3 [I4 E]]]].
  rewrite forallb_forall in Q. specialize (Q _ I1).
  rewrite forallb_forall in Q. specialize (Q _ I2).
  rewrite forallb_forall in Q. specialize (Q _ I3).
  rewrite forallb_forall in Q. specialize (Q _ I4).
  rewrite E in Q. exact Q.
Qed.

Lemma hex4_back (c : Z) :
  isUnit c ->
  exists h1 h2 h3 h4,
    Platform.padStart 4 48 (Platform.toString 16 c) = [h1; h2; h3; h4] /\
    EncodeTool.isHexDigit h1 && EncodeTool.isHexDigit h2 &&
    EncodeTool.isHexDigit h3 && EncodeTool.isHexDigit h4 = true /\
    Platform.fromCharCode (parseInt16 [h1; h2; h3; h4]) = c.
Proof.
  intros U.
  pose proof (checked_nibbles
    (fun c => match Platform.padStart 4 48 (Platform.toString 16 c) with
              | [h1; h2; h3; h4] =>
                  EncodeTool.isHexDigit h1 && EncodeTool.isHexDigit h2 &&
                  EncodeTool.isHexDigit h3 && EncodeTool.isHexDigit h4 &&
                  (Platform.fromCharCode (parseInt16 [h1; h2; h3; h4]) =? c)
              | _ => false
              end) ltac:(vm_compute; reflexivity) c U) as K.
  cbv beta in K.
  destruct (Platform.padStart 4 48 (Platform.toString 16 c))
    as [|h1 [|h2 [|h3 [|h4 [|? ?]]]]]; try discriminate K.
  exists h1, h2, h3, h4. apply andb_prop in K. destruct K as [K1 K2].
  apply Z.eqb_eq in K2. repeat split; assumption.
Qed.

Lemma decodeUnicode_escape (h1 h2 h3 h4 : Z) (r : jsstring) :
  EncodeTool.isHexDigit h1 && EncodeTool.isHexDigit h2 &&
  EncodeTool.isHexDigit h3 && EncodeTool.isHexDigit h4 = true ->
  EncodeTool.decodeUnicode (92 :: 117 :: h1 :: h2 :: h3 :: h4 :: r)
  = Platform.fromCharCode (parseInt16 [h1; h2; h3; h4]) :: EncodeTool.decodeUnicode r.
Proof.
  intros H. cbn [EncodeTool.decodeUnicode]. rewrite !Z.eqb_refl. cbn [andb].
  rewrite <- !andb_assoc in *. rewrite H. reflexivity.
Qed.

Lemma decode_encoded_units (l : list jsstring) :
  Forall isUnit (map Platform.charCodeAt0 l) ->
  EncodeTool.decodeUnicode
    (flat_map (fun char =>
                 92 :: 117 ::
                 Platform.padStart 4 48
                   (Platform.toString 16 (Platform.charCodeAt0 char))) l)
  = map Platform.charCodeAt0 l.
Proof.
  induction l as [|x l IH]; intros H; [reflexivity|].
  cbn [map] in H. inversion H as [|? ? Hx Hl]; subst.
  cbn [flat_map map].
  destruct (hex4_back _ Hx) as [h1 [h2 [h3 [h4 [E [D V]]]]]].
  rewrite E. cbn [app]. rewrite decodeUnicode_escape by exact D.
  rewrite V, (IH Hl). reflexivity.
Qed.

(** X15. [decodeUnicode] after [encodeUnicode] returns the first code unit of
    every code point of the text: the text itself when it has no surrogate
    pair, and a text without the low surrogates otherwise. *)
Theorem X15_unicode_escapes_round_trip (s : jsstring) :
  Forall isUnit s ->
  EncodeTool.decodeUnicode (EncodeTool.encodeUnicode s)
  = map Platform.charCodeAt0 (Platform.Array_from s) /\
  (noPairs s = true ->
   EncodeTool.decodeUnicode (EncodeTool.encodeUnicode s) = s).
Proof.
  intros U.
  assert (G : EncodeTool.decodeUnicode (EncodeTool.encodeUnicode s)
              = map Platform.charCodeAt0 (Platform.Array_from s)).
  { unfold EncodeTool.encodeUnicode. apply decode_encoded_units.
    apply Array_from_heads. exact U. }
  split; [exact G|]. intros N. rewrite G, (Array_from_noPairs s N).
  rewrite map_map. cbn [Platform.charCodeAt0 hd]. apply map_id.
Qed.

Lemma X15_witness :
  EncodeTool.decodeUnicode (EncodeTool.encodeUnicode [104; 233; 8364; 56832; 55357])
  = map Platform.charCodeAt0 (Platform.Array_from [104; 233; 8364; 56832; 55357]) /\
  (noPairs [104; 233; 8364; 56832; 55357] = true ->
   EncodeTool.decodeUnicode (EncodeTool.encodeUnicode [104; 233; 8364; 56832; 55357])
   = [104; 233; 8364; 56832; 55357]).
Proof.
  apply X15_unicode_escapes_round_trip.
  repeat constructor; unfold isUnit; lia.
Defined.

Lemma decimal_back (c : Z) :
  isUnit c ->
  ~ In 44 (Platform.toString 10 c) /\
  Platform.fromCharCode (Platform.parseInt10 (Platform.toString 10 c)) = c /\
  Platform.toUint8 (Platform.parseInt10 (Platform.toString 10 c)) = c mod 256.
Proof.
  intros U.
  pose proof (checked_nibbles
    (fun c => let t := Platform.toString 10 c in
              let v := Platform.parseInt10 t in
              forallb (fun x => negb (x =? 44)) t &&
              (Platform.fromCharCode v =? c) &&
              (Platform.toUint8 v =? c mod 256))
    ltac:(vm_compute; reflexivity) c U) as K.
  cbv beta zeta in K. apply andb_prop in K. destruct K as [K K3].
  apply andb_prop in K. destruct K as [K1 K2].
  apply Z.eqb_eq in K2, K3. split; [|split; assumption].
  intros I. rewrite forallb_forall in K1. specialize (K1 44 I). discriminate K1.
Qed.

Lemma Array_from_nonempty (s : jsstring) : s <> [] -> Platform.Array_from s <> [].
Proof.
  destruct s as [|c s]; [congruence|]. intros _. cbn [Platform.Array_from].
  destruct (isHighSurrogate c); [|discriminate].
  destruct s as [|d s]; [discriminate|]. destruct (isLowSurrogate d); discriminate.
Qed.

Lemma codes_back (l : list jsstring) :
  Forall isUnit (map Platform.charCodeAt0 l) ->
  map (fun code => Platform.fromCharCode (Platform.parseInt10 code))
      (map (fun char => Platform.toString 10 (Platform.charCodeAt0 char)) l)
  = map Platform.charCodeAt0 l /\
  Forall (fun e => ~ In 44 e)
         (map (fun char => Platform.toString 10 (Platform.charCodeAt0 char)) l).
Proof.
  induction l as [|x l IH]; intros H; [split; [reflexivity | constructor]|].
  cbn [map] in *. inversion H as [|? ? Hx Hl]; subst.
  destruct (IH Hl) as [E F]. destruct (decimal_back _ Hx) as [N [V _]].
  rewrite V, E. split; [reflexivity|]. constructor; assumption.
Qed.

(** X16. [decodeAscii] after [encodeAscii] on a non-empty text returns the first
    code unit of every code point: the text itself when it has no surrogate
    pair.  On the empty text it returns one NUL character. *)
Theorem X16_character_codes_round_trip (s : jsstring) :
  Forall isUnit s -> s <> [] ->
  EncodeTool.decodeAscii (EncodeTool.encodeAscii s)
  = map Platform.charCodeAt0 (Platform.Array_from s) /\
  (noPairs s = true -> EncodeTool.decodeAscii (EncodeTool.encodeAscii s) = s) /\
  EncodeTool.decodeAscii (EncodeTool.encodeAscii []) = [0].
Proof.
  intros U N.
  assert (G : EncodeTool.decodeAscii (EncodeTool.encodeAscii s)
              = map Platform.charCodeAt0 (Platform.Array_from s)).
  { unfold EncodeTool.decodeAscii, EncodeTool.encodeAscii.
    destruct (codes_back (Platform.Array_from s) (Array_from_heads s U)) as [E F].
    rewrite split_joinWith; [exact E | | exact F].
    intros Q. apply map_eq_nil in Q. exact (Array_from_nonempty s N Q). }
  split; [exact G|]. split; [|reflexivity].
  intros P. rewrite G, (Array_from_noPairs s P).
  rewrite map_map. cbn [Platform.charCodeAt0 hd]. apply map_id.
Qed.

Lemma X16_witness :
  EncodeTool.decodeAscii (EncodeTool.encodeAscii [104; 233; 8364])
  = map Platform.charCodeAt0 (Platform.Array_from [104; 233; 8364]) /\
  (noPairs [104; 233; 8364] = true ->
   EncodeTool.decodeAscii (EncodeTool.encodeAscii [104; 233; 8364]) = [104; 233; 8364]) /\
  EncodeTool.decodeAscii (EncodeTool.encodeAscii []) = [0].
Proof.
  apply X16_character_codes_round_trip.
  - repeat constructor; unfold isUnit; lia.
  - discriminate.
Defined.

(** *** [TextDecoder] after [TextEncoder] *)

Lemma wellFormed_cons (c : Z) (s : jsstring) :
  wellFormed (c :: s) = true ->
  isUnit c /\
  ((isHighSurrogate c = true /\
    exists d s', s = d :: s' /\ isLowSurrogate d = true /\ wellFormed s' = true) \/
   (isHighSurrogate c = false /\ isLowSurrogate c = false /\ wellFormed s = true)).
Proof.
  cbn [wellFormed]. intros H.
  apply andb_prop in H. destruct H as [H R].
  apply andb_prop in H. destruct H as [H1 H2].
  split; [unfold isUnit; lia|].
  destruct (isHighSurrogate c).
  - left. split; [reflexivity|]. destruct s as [|d s']; [discriminate R|].
    apply andb_prop in R. destruct R as [R1 R2]. exists d, s'. repeat split; assumption.
  - right. apply andb_prop in R. destruct R as [R1 R2].
    apply negb_true_iff in R1. repeat split; assumption.
Qed.

Lemma encoder_wellFormed (s : jsstring) :
  wellFormed s = true -> utf8Encode s = Ok (Platform.TextEncoder_encode s).
Proof.
  induction s as [|c|c d s IH1 IH2] using list_ind_12; intros W.
  - reflexivity.
  - destruct (wellFormed_cons _ _ W) as [_ [[_ [d [s' [E _]]]]|[H [L _]]]];
      [discriminate E|].
    rewrite utf8Encode_cons. cbn [Platform.TextEncoder_encode].
    rewrite H, L. cbn [utf8Encode JS.bind]. reflexivity.
  - rewrite utf8Encode_cons. cbn [Platform.TextEncoder_encode].
    destruct (wellFormed_cons _ _ W) as [_ [[H [d' [s' [E [L W']]]]]|[H [L W']]]].
    + injection E as <- <-. rewrite H, L. rewrite (IH1 W'). reflexivity.
    + rewrite H, L. rewrite (IH2 W'). reflexivity.
Qed.

Lemma lead_bits (b : Z) :
  0 <= b < 256 ->
  Z.land b 63 = b mod 64 /\ Z.land b 31 = b mod 32 /\
  Z.land b 15 = b mod 16 /\ Z.land b 7 = b mod 8.
Proof.
  intros R.
  pose proof (checked_below
    (fun b => (Z.land b 63 =? b mod 64) && (Z.land b 31 =? b mod 32) &&
              (Z.land b 15 =? b mod 16) && (Z.land b 7 =? b mod 8))
    256 ltac:(vm_compute; reflexivity) b R) as K.
  cbv beta in K. rewrite !andb_true_iff, !Z.eqb_eq in K. tauto.
Qed.

Lemma lor6 (hi lo : Z) : 0 <= lo < 64 -> Z.lor (Z.shiftl hi 6) lo = hi * 64 + lo.
Proof. intros R. rewrite (lor_add hi lo 6) by lia. reflexivity. Qed.

Lemma decoder_scalar (cp : Z) (r : list Z) :
  isScalar cp ->
  Platform.decodeCodePoints (utf8Bytes cp ++ r) None
  = cp :: Platform.decodeCodePoints r None.
Proof.
  unfold isScalar. intros S.
  destruct (Z.lt_ge_cases cp 128) as [C1|C1].
  { unfold utf8Bytes. decide_tests.
    cbn [app Platform.decodeCodePoints]. unfold Platform.decodeLead. decide_tests.
    reflexivity. }
  destruct (Z.lt_ge_cases cp 2048) as [C2|C2].
  { unfold utf8Bytes. decide_tests.
    cbn [app Platform.decodeCodePoints]. unfold Platform.decodeLead. decide_tests.
    cbn [andb]. decide_tests. cbn [andb].
    destruct (lead_bits (192 + cp / 64)) as [_ [-> _]];
      [Z.div_mod_to_equations; lia|].
    destruct (lead_bits (128 + cp mod 64)) as [-> _];
      [Z.div_mod_to_equations; lia|].
    rewrite lor6 by (Z.div_mod_to_equations; lia).
    change (1 =? 1) with true. cbv iota.
    cbn [app]. f_equal. Z.div_mod_to_equations; lia. }
  destruct (Z.lt_ge_cases cp 65536) as [C3|C3].
  { unfold utf8Bytes. decide_tests.
    cbn [app Platform.decodeCodePoints]. unfold Platform.decodeLead. decide_tests.
    cbn [andb].
    assert (B1 : ((if 224 + cp / 4096 =? 224 then 160 else 128)
                    <=? 128 + (cp / 64) mod 64) &&
                 (128 + (cp / 64) mod 64
                    <=? (if 224 + cp / 4096 =? 237 then 159 else 191)) = true).
    { apply andb_true_intro. split; apply Z.leb_le.
      - destruct (Z.eqb_spec (224 + cp / 4096) 224); Z.div_mod_to_equations; lia.
      - destruct (Z.eqb_spec (224 + cp / 4096) 237); Z.div_mod_to_equations; lia. }
    rewrite B1.
    destruct (lead_bits (224 + cp / 4096)) as [_ [_ [-> _]]];
      [Z.div_mod_to_equations; lia|].
    destruct (lead_bits (128 + (cp / 64) mod 64)) as [-> _];
      [Z.div_mod_to_equations; lia|].
    destruct (lead_bits (128 + cp mod 64)) as [-> _];
      [Z.div_mod_to_equations; lia|].
    rewrite lor6 by (Z.div_mod_to_equations; lia).
    change (2 =? 1) with false. cbv iota.
    cbn [Platform.decodeCodePoints]. decide_tests. cbn [andb].
    change (2 - 1 =? 1) with true. cbv iota.
    rewrite lor6 by (Z.div_mod_to_equations; lia).
    cbn [app]. f_equal. Z.div_mod_to_equations; lia. }
  { unfold utf8Bytes. decide_tests.
    cbn [app Platform.decodeCodePoints]. unfold Platform.decodeLead. decide_tests.
    cbn [andb].
    assert (B1 : ((if 240 + cp / 262144 =? 240 then 144 else 128)
                    <=? 128 + (cp / 4096) mod 64) &&
                 (128 + (cp / 4096) mod 64
                    <=? (if 240 + cp / 262144 =? 244 then 143 else 191)) = true).
    { apply andb_true_intro. split; apply Z.leb_le.
      - destruct (Z.eqb_spec (240 + cp / 262144) 240); Z.div_mod_to_equations; lia.
      - destruct (Z.eqb_spec (240 + cp / 262144) 244); Z.div_mod_to_equations; lia. }
    rewrite B1.
    destruct (lead_bits (240 + cp / 262144)) as [_ [_ [_ ->]]];
      [Z.div_mod_to_equations; lia|].
    destruct (lead_bits (128 + (cp / 4096) mod 64)) as [-> _];
      [Z.div_mod_to_equations; lia|].
    destruct (lead_bits (128 + (cp / 64) mod 64)) as [-> _];
      [Z.div_mod_to_equations; lia|].
    destruct (lead_bits (128 + cp mod 64)) as [-> _];
      [Z.div_mod_to_equations; lia|].
    rewrite lor6 by (Z.div_mod_to_equations; lia).
    change (3 =? 1) with false. cbv iota.
    cbn [Platform.decodeCodePoints]. decide_tests. cbn [andb].
    change (3 - 1 =? 1) with false. cbv iota.
    rewrite lor6 by (Z.div_mod_to_equations; lia).
    cbn [Platform.decodeCodePoints]. decide_tests. cbn [andb].
    change (3 - 1 - 1 =? 1) with true. cbv iota.
    rewrite lor6 by (Z.div_mod_to_equations; lia).
    cbn [app]. f_equal. Z.div_mod_to_equations; lia. }
Qed.

Lemma pair_scalar (c d : Z) :
  isHighSurrogate c = true -> isLowSurrogate d = true ->
  isScalar (65536 + (c - 55296) * 1024 + (d - 56320)) /\
  utf16Units (65536 + (c - 55296) * 1024 + (d - 56320)) = [c; d] /\
  65536 <= 65536 + (c - 55296) * 1024 + (d - 56320).
Proof.
  intros H L. apply surrogate_tests in H. apply surrogate_tests in L.
  unfold isScalar. split; [lia|]. split; [|lia].
  unfold utf16Units. decide_tests. f_equal; [|f_equal]; Z.div_mod_to_equations; lia.
Qed.

Lemma unit_scalar (c : Z) :
  isUnit c -> isHighSurrogate c = false -> isLowSurrogate c = false ->
  isScalar c /\ utf16Units c = [c].
Proof.
  unfold isUnit, isScalar. intros U H L.
  assert (N : ~ (55296 <= c <= 57343)).
  { intros R. destruct (surrogate_tests c) as [SH SL].
    destruct (Z.le_gt_cases c 56319).
    - assert (isHighSurrogate c = true) by (apply SH; lia). congruence.
    - assert (isLowSurrogate c = true) by (apply SL; lia). congruence. }
  split; [lia|]. unfold utf16Units. decide_tests. reflexivity.
Qed.

Lemma TextEncoder_cons (c : Z) (s : jsstring) :
  Platform.TextEncoder_encode (c :: s)
  = if isHighSurrogate c then
      match s with
      | d :: s'' =>
          if isLowSurrogate d then
            utf8Bytes (65536 + (c - 55296) * 1024 + (d - 56320))
            ++ Platform.TextEncoder_encode s''
          else [239; 191; 189] ++ Platform.TextEncoder_encode s
      | [] => [239; 191; 189]
      end
    else if isLowSurrogate c then [239; 191; 189] ++ Platform.TextEncoder_encode s
    else utf8Bytes c ++ Platform.TextEncoder_encode s.
Proof. destruct s; reflexivity. Qed.

Lemma codePoints_cons (c : Z) (s : jsstring) :
  codePoints (c :: s)
  = if isHighSurrogate c then
      match s with
      | d :: s'' => (65536 + (c - 55296) * 1024 + (d - 56320)) :: codePoints s''
      | [] => [c]
      end
    else c :: codePoints s.
Proof. destruct s; reflexivity. Qed.

Lemma decoder_wellFormed (s : jsstring) :
  wellFormed s = true ->
  Platform.decodeCodePoints (Platform.TextEncoder_encode s) None = codePoints s /\
  flat_map utf16Units (codePoints s) = s.
Proof.
  induction s as [|c|c d s IH1 IH2] using list_ind_12; intros W.
  - split; reflexivity.
  - destruct (wellFormed_cons _ _ W) as [U [[_ [d [s' [E _]]]]|[H [L _]]]];
      [discriminate E|].
    destruct (unit_scalar c U H L) as [S V].
    rewrite TextEncoder_cons, codePoints_cons. rewrite H, L.
    rewrite decoder_scalar by exact S. cbn [flat_map]. rewrite V. split; reflexivity.
  - rewrite TextEncoder_cons, codePoints_cons.
    destruct (wellFormed_cons _ _ W) as [U [[H [d' [s' [E [L W']]]]]|[H [L W']]]].
    + injection E as <- <-. rewrite H, L.
      destruct (pair_scalar c d H L) as [S [V _]].
      rewrite decoder_scalar by exact S.
      destruct (IH1 W') as [-> F]. cbn [flat_map]. rewrite V, F. split; reflexivity.
    + rewrite H, L. destruct (unit_scalar c U H L) as [S V].
      rewrite decoder_scalar by exact S.
      destruct (IH2 W') as [-> F]. cbn [flat_map]. rewrite V, F. split; reflexivity.
Qed.

Lemma strip_bom (c : Z) (r : list Z) :
  match c :: r with
  | 65279 :: r' => r'
  | _ => c :: r
  end = if c =? 65279 then r else c :: r.
Proof.
  destruct (Z.eqb_spec c 65279) as [->|N]; [reflexivity|].
  destruct c as [|p|p]; try reflexivity.
  repeat (destruct p as [p|p|]; try reflexivity).
  congruence.
Qed.

Lemma TextDecoder_after_TextEncoder (s : jsstring) :
  wellFormed s = true ->
  Platform.TextDecoder_decode (Platform.TextEncoder_encode s) = withoutBOM s.
Proof.
  intros W. unfold Platform.TextDecoder_decode.
  destruct (decoder_wellFormed s W) as [-> F].
  destruct s as [|c s]; [reflexivity|].
  unfold withoutBOM. rewrite strip_bom.
  destruct (wellFormed_cons _ _ W) as [U [[H [d [s' [E [L W']]]]]|[H [L W']]]].
  - subst s. rewrite codePoints_cons in *. rewrite H in *.
    destruct (pair_scalar c d H L) as [_ [_ G]].
    rewrite strip_bom.
    apply surrogate_tests in H.
    destruct (Z.eqb_spec c 65279) as [->|_]; [lia|].
    destruct (Z.eqb_spec (65536 + (c - 55296) * 1024 + (d - 56320)) 65279) as [Q|_];
      [lia|].
    exact F.
  - rewrite codePoints_cons in *. rewrite H in *. rewrite strip_bom.
    destruct (Z.eqb_spec c 65279) as [->|_]; [|exact F].
    cbn [flat_map] in F. injection F as F. exact F.
Qed.

Lemma encoder_bytes (s : jsstring) :
  wellFormed s = true ->
  Forall isByte (Platform.TextEncoder_encode s) /\
  (s <> [] -> Platform.TextEncoder_encode s <> []).
Proof.
  intros W. destruct (wellFormed_encodes s W) as [U _].
  destruct (utf8_roundtrip s U _ (encoder_wellFormed s W)) as [D B].
  split; [exact B|]. intros N E. rewrite E in D. cbn in D. congruence.
Qed.

Lemma isByte_unit (b : Z) : isByte b -> isUnit b.
Proof. unfold isByte, isUnit. lia. Qed.

Lemma byte_numbers_back (bs : list Z) :
  Forall isByte bs ->
  map (fun b => Platform.toUint8 (Platform.parseInt10 b)) (map (Platform.toString 10) bs)
  = bs /\
  Forall (fun e => ~ In 44 e) (map (Platform.toString 10) bs).
Proof.
  induction 1 as [|b bs Hb _ [E F]]; [split; [reflexivity | constructor]|].
  cbn [map]. destruct (decimal_back b (isByte_unit b Hb)) as [N [_ V]].
  rewrite V, E. rewrite Z.mod_small by exact Hb. split; [reflexivity|].
  constructor; assumption.
Qed.

(** X17. [decodeUtf8Bytes] after [encodeUtf8Bytes] returns a non-empty
    well-formed text without its leading byte order mark, if it has one, and
    unchanged otherwise.  On the empty text it returns one NUL character. *)
Theorem X17_utf8_byte_list_round_trip (s : jsstring) :
  wellFormed s = true -> s <> [] ->
  EncodeTool.decodeUtf8Bytes (EncodeTool.encodeUtf8Bytes s) = withoutBOM s /\
  EncodeTool.decodeUtf8Bytes (EncodeTool.encodeUtf8Bytes []) = [0].
Proof.
  intros W N. split; [|reflexivity].
  unfold EncodeTool.decodeUtf8Bytes, EncodeTool.encodeUtf8Bytes.
  destruct (encoder_bytes s W) as [B NE].
  destruct (byte_numbers_back _ B) as [E F].
  rewrite split_joinWith; [| |exact F].
  - rewrite E. apply TextDecoder_after_TextEncoder. exact W.
  - intros Q. apply map_eq_nil in Q. exact (NE N Q).
Qed.

Lemma X17_witness :
  EncodeTool.decodeUtf8Bytes (EncodeTool.encodeUtf8Bytes [104; 233; 8364; 55357; 56832])
  = withoutBOM [104; 233; 8364; 55357; 56832] /\
  EncodeTool.decodeUtf8Bytes (EncodeTool.encodeUtf8Bytes []) = [0].
Proof.
  apply X17_utf8_byte_list_round_trip; [reflexivity | discriminate].
Defined.

(** hex *)
Lemma hex2_back (b : Z) :
  isByte b ->
  exists h1 h2,
    Platform.padStart 2 48 (Platform.toString 16 b) = [h1; h2] /\
    isLineTerminator h1 = false /\ isLineTerminator h2 = false /\
    Platform.toUint8 (parseInt16 [h1; h2]) = b.
Proof.
  intros R.
  pose proof (checked_below
    (fun b => match Platform.padStart 2 48 (Platform.toString 16 b) with
              | [h1; h2] =>
                  negb (isLineTerminator h1) && negb (isLineTerminator h2) &&
                  (Platform.toUint8 (parseInt16 [h1; h2]) =? b)
              | _ => false
              end) 256 ltac:(vm_compute; reflexivity) b R) as K.
  cbv beta in K.
  destruct (Platform.padStart 2 48 (Platform.toString 16 b)) as [|h1 [|h2 [|? ?]]];
    try discriminate K.
  exists h1, h2. rewrite !andb_true_iff, !negb_true_iff, Z.eqb_eq in K. tauto.
Qed.

Lemma hex_text_back (bs : list Z) :
  Forall isByte bs ->
  let hex := flat_map (fun byte => Platform.padStart 2 48 (Platform.toString 16 byte)) bs in
  length hex = (2 * length bs)%nat /\
  map (fun byte => Platform.toUint8 (parseInt16 byte)) (EncodeTool.pairs hex) = bs /\
  length (EncodeTool.pairs hex) = length bs.
Proof.
  cbv zeta. induction 1 as [|b bs Hb _ [L [E P]]]; [repeat split|].
  cbn [flat_map]. destruct (hex2_back b Hb) as [h1 [h2 [Q [T1 [T2 V]]]]].
  rewrite Q. cbn [app EncodeTool.pairs]. rewrite T1, T2. cbn [map length].
  rewrite V, E, L, P. repeat split. lia.
Qed.

(** X18. [decodeHex] after [encodeHex] on a non-empty well-formed text does not
    throw: it returns the text (without a leading byte order mark) when at
    least 70% of it is printable, and otherwise the byte-array form of its
    UTF-8 bytes with their count. *)
Theorem X18_hex_round_trip (s : jsstring) :
  wellFormed s = true -> s <> [] ->
  EncodeTool.decodeHex (EncodeTool.encodeHex s)
  = Ok (let text := withoutBOM s in
        let bytes := Platform.TextEncoder_encode s in
        if negb (Qle_bool (7 # 10)
                   (TextUtils.ratio (JS.len (EncodeTool.printableChars text))
                                    (JS.len text)))
        then EncodeTool.mkDecoded (EncodeTool.byteArrayText bytes) true
                                  (Some (JS.len bytes))
        else EncodeTool.mkDecoded text false None).
Proof.
  intros W N. destruct (encoder_bytes s W) as [B NE].
  destruct (hex_text_back _ B) as [L [E P]]. cbv zeta in L, E, P.
  unfold EncodeTool.decodeHex, EncodeTool.encodeHex.
  rewrite L.
  replace (2 * length (Platform.TextEncoder_encode s) mod 2 =? 0)%nat with true
    by (symmetry; apply Nat.eqb_eq; rewrite Nat.mul_comm; apply Nat.Div0.mod_mul).
  destruct (EncodeTool.pairs _) as [|p ps] eqn:Q.
  - exfalso. cbn [length] in P. apply NE; [exact N|].
    destruct (Platform.TextEncoder_encode s); [reflexivity | discriminate P].
  - cbv zeta. rewrite E. rewrite (TextDecoder_after_TextEncoder s W).
    unfold try_catch.
    destruct (negb _); reflexivity.
Qed.

Lemma X18_witness :
  EncodeTool.decodeHex (EncodeTool.encodeHex (js "hello"))
  = Ok (let text := withoutBOM (js "hello") in
        let bytes := Platform.TextEncoder_encode (js "hello") in
        if negb (Qle_bool (7 # 10)
                   (TextUtils.ratio (JS.len (EncodeTool.printableChars text))
                                    (JS.len text)))
        then EncodeTool.mkDecoded (EncodeTool.byteArrayText bytes) true
                                  (Some (JS.len bytes))
        else EncodeTool.mkDecoded text false None).
Proof.
  apply X18_hex_round_trip; [reflexivity | discriminate].
Defined.

(** *** [atob] after [btoa] *)

Lemma isB64_plain (c : Z) :
  isB64 c ->
  Platform.isAsciiWhitespace c = false /\ existsb (Z.eqb c) b64map = true /\ c <> 61.
Proof.
  intros [v [R ->]].
  pose proof (checked_below
    (fun v => negb (Platform.isAsciiWhitespace (b64char v)) &&
              existsb (Z.eqb (b64char v)) b64map && negb (b64char v =? 61))
    64 ltac:(vm_compute; reflexivity) v R) as K.
  cbv beta in K. rewrite !andb_true_iff, !negb_true_iff, Z.eqb_neq in K. tauto.
Qed.

Lemma not_pad_head (x : Z) (r : list Z) (C : list Z) :
  x <> 61 ->
  match x :: r with
  | 61 :: 61 :: r' => rev r'
  | 61 :: r' => rev r'
  | _ => C
  end = C.
Proof.
  intros N. destruct x as [|p|p]; try reflexivity.
  repeat (destruct p as [p|p|]; try reflexivity). congruence.
Qed.

Lemma one_pad_head (x : Z) (r : list Z) (C : list Z) :
  x <> 61 ->
  match 61 :: x :: r with
  | 61 :: 61 :: r' => rev r'
  | 61 :: r' => rev r'
  | _ => C
  end = rev (x :: r).
Proof.
  intros N. destruct x as [|p|p]; try reflexivity.
  repeat (destruct p as [p|p|]; try reflexivity). congruence.
Qed.

Lemma stripPadding_padded (body : jsstring) (k : nat) :
  Forall (fun c => c <> 61) body -> (k <= 2)%nat ->
  Platform.stripPadding (body ++ repeat 61 k) = body.
Proof.
  intros F K. unfold Platform.stripPadding.
  assert (H : forall x r, rev body = x :: r -> x <> 61).
  { intros x r E. rewrite Forall_forall in F. apply F. apply in_rev.
    rewrite E. left. reflexivity. }
  assert (R : forall l, rev body = l -> body = rev l).
  { intros l E. rewrite <- E, rev_involutive. reflexivity. }
  destruct k as [|[|[|k]]]; [| | |lia].
  - cbn [repeat]. rewrite app_nil_r.
    destruct (rev body) as [|x r] eqn:E; [reflexivity|].
    exact (not_pad_head x r body (H x r eq_refl)).
  - cbn [repeat]. rewrite rev_app_distr. cbn [rev app].
    destruct (rev body) as [|x r] eqn:E.
    + rewrite (R [] eq_refl). reflexivity.
    + transitivity (rev (x :: r)); [|symmetry; exact (R _ eq_refl)].
      exact (one_pad_head x r (body ++ [61]) (H x r eq_refl)).
  - cbn [repeat]. rewrite rev_app_distr. cbn [rev app].
    apply rev_involutive.
Qed.

Lemma body_length (bs : list Z) :
  Forall isByte bs ->
  (length (b64groups bs (2 * Z.of_nat (length bs))) mod 4 <> 1)%nat.
Proof.
  induction bs as [| a | a b | a b c l IH] using list_ind3; intros H.
  - cbn. discriminate.
  - inversion H as [|? ? Ha _]; subst.
    change (b64groups [a] (2 * Z.of_nat (length [a]))) with (b64group a 0 0 2).
    rewrite (group_1 a Ha). cbn. discriminate.
  - inversion H as [|? ? Ha H']; subst. inversion H' as [|? ? Hb _]; subst.
    change (b64groups [a; b] (2 * Z.of_nat (length [a; b]))) with (b64group a b 0 4).
    rewrite (group_2 a b Ha Hb). cbn. discriminate.
  - inversion H as [|? ? Ha H1]; subst. inversion H1 as [|? ? Hb H2]; subst.
    inversion H2 as [|? ? Hc H3]; subst.
    cbn [b64groups].
    replace (2 * Z.of_nat (length (a :: b :: c :: l)) - 6)
      with (2 * Z.of_nat (length l)) by (cbn [length]; lia).
    rewrite (group_whole a b c _ Ha Hb Hc) by (cbn [length]; lia).
    cbn [app length].
    change (S (S (S (S ?n)))) with (1 * 4 + n)%nat.
    rewrite Nat.add_comm, Nat.Div0.mod_add. exact (IH H3).
Qed.

Lemma atob_base64 (bs : list Z) :
  Forall isByte bs -> Platform.atob (Base64_stringify (ofBytes bs)) = Some bs.
Proof.
  intros B. destruct (body_decodes bs B) as [E I].
  pose proof (body_length bs B) as L.
  unfold Base64_stringify, ofBytes, clamp, sigBytes2. cbn [bytes half].
  rewrite Z.sub_0_r.
  set (body := b64groups bs (2 * Z.of_nat (length bs))) in *.
  unfold Platform.atob.
  assert (W : filter (fun c => negb (Platform.isAsciiWhitespace c)) (padTo4 body)
              = padTo4 body).
  { apply forallb_filter_id. apply forallb_forall. intros c Hc.
    unfold padTo4 in Hc. apply in_app_or in Hc. destruct Hc as [Hc|Hc].
    - rewrite Forall_forall in I. destruct (isB64_plain c (I c Hc)) as [-> _].
      reflexivity.
    - apply repeat_spec in Hc. subst c. reflexivity. }
  rewrite W. rewrite padTo4_length. cbn [Nat.eqb].
  assert (S : Platform.stripPadding (padTo4 body) = body).
  { unfold padTo4. apply stripPadding_padded.
    - eapply Forall_impl; [|exact I]. intros c Hc. apply (isB64_plain c Hc).
    - pose proof (Nat.mod_upper_bound (length body) 4 ltac:(lia)) as U.
      destruct (length body mod 4)%nat as [|[|[|[|n]]]]; cbn; lia. }
  rewrite S.
  replace (length body mod 4 =? 1)%nat with false
    by (symmetry; apply Nat.eqb_neq; exact L).
  replace (forallb (fun c => existsb (Z.eqb c) b64map) body) with true.
  - cbn [negb orb]. rewrite E. reflexivity.
  - symmetry. apply forallb_forall. intros c Hc. rewrite Forall_forall in I.
    apply (isB64_plain c (I c Hc)).
Qed.

(** X19. [encodeBase64] succeeds on every well-formed text, and [decodeBase64]
    returns that text from its result. *)
Theorem X19_base64_text_round_trip (s : jsstring) :
  wellFormed s = true ->
  exists text, EncodeTool.encodeBase64 s = Some text /\
               EncodeTool.decodeBase64 text = Some s.
Proof.
  intros W. destruct (wellFormed_encodes s W) as [U [bs Enc]].
  destruct (utf8_roundtrip s U bs Enc) as [Dec B].
  exists (Base64_stringify (ofBytes bs)). split.
  - unfold EncodeTool.encodeBase64, Platform.btoa. rewrite Enc.
    replace (forallb (fun c => (0 <=? c) && (c <=? 255)) bs) with true; [reflexivity|].
    symmetry. apply forallb_forall. intros c Hc. rewrite Forall_forall in B.
    specialize (B c Hc). unfold isByte in B. lia.
  - unfold EncodeTool.decodeBase64. rewrite atob_base64 by exact B. exact Dec.
Qed.

Lemma X19_witness :
  exists text, EncodeTool.encodeBase64 [104; 233; 8364; 55357; 56832] = Some text /\
               EncodeTool.decodeBase64 text = Some [104; 233; 8364; 55357; 56832].
Proof.
  apply X19_base64_text_round_trip. reflexivity.
Defined.

(** *** [decodeURIComponent] after [encodeURIComponent] *)

Lemma percent_token (b : Z) (r : jsstring) :
  isByte b ->
  Platform.tokens (Platform.percent b ++ r)
  = option_map (cons (Platform.Byte b)) (Platform.tokens r).
Proof.
  intros R.
  pose proof (checked_below
    (fun b => match Platform.percent b with
              | [p; h1; h2] =>
                  (p =? 37) &&
                  match hexVal h1, hexVal h2 with
                  | Some x, Some y => 16 * x + y =? b
                  | _, _ => false
                  end
              | _ => false
              end) 256 ltac:(vm_compute; reflexivity) b R) as K.
  cbv beta in K.
  destruct (Platform.percent b) as [|p [|h1 [|h2 [|? ?]]]]; try discriminate K.
  apply andb_prop in K. destruct K as [K1 K2]. apply Z.eqb_eq in K1. subst p.
  cbn [app Platform.tokens]. change (37 =? 37) with true. cbv iota.
  destruct (hexVal h1) as [x|]; [|discriminate K2].
  destruct (hexVal h2) as [y|]; [|discriminate K2].
  apply Z.eqb_eq in K2. rewrite K2. reflexivity.
Qed.

Lemma percent_tokens (bs : list Z) (r : jsstring) :
  Forall isByte bs ->
  Platform.tokens (flat_map Platform.percent bs ++ r)
  = option_map (app (map Platform.Byte bs)) (Platform.tokens r).
Proof.
  induction 1 as [|b bs Hb _ IH].
  - cbn [flat_map map app]. destruct (Platform.tokens r); reflexivity.
  - cbn [flat_map map]. rewrite <- app_assoc. rewrite percent_token by exact Hb.
    rewrite IH. destruct (Platform.tokens r); reflexivity.
Qed.

Lemma unreserved_token (c : Z) (r : jsstring) :
  Platform.uriUnreserved c = true ->
  Platform.tokens (c :: r) = option_map (cons (Platform.Lit c)) (Platform.tokens r).
Proof.
  intros H. cbn [Platform.tokens].
  destruct (Z.eqb_spec c 37) as [->|_]; [discriminate H | reflexivity].
Qed.

Lemma untoken_scalar (cp : Z) (ts : list Platform.token) :
  isScalar cp ->
  Platform.untoken (map Platform.Byte (utf8Bytes cp) ++ ts)
  = option_map (app (utf16Units cp)) (Platform.untoken ts).
Proof.
  unfold isScalar. intros S.
  destruct (Z.lt_ge_cases cp 128) as [C1|C1].
  { unfold utf8Bytes, utf16Units. decide_tests.
    cbn [map app Platform.untoken]. decide_tests.
    destruct (Platform.untoken ts); reflexivity. }
  destruct (Z.lt_ge_cases cp 2048) as [C2|C2].
  { destruct (decode_2 cp [] ltac:(lia)) as [D _]. rewrite app_nil_r in D.
    revert D. unfold utf8Bytes, utf16Units. decide_tests. intros D.
    cbn [map app Platform.untoken]. decide_tests.
    unfold Platform.decoded. rewrite D. cbn [utf8Decode option_map].
    destruct (Platform.untoken ts); reflexivity. }
  destruct (Z.lt_ge_cases cp 65536) as [C3|C3].
  { destruct (decode_3 cp [] ltac:(lia) ltac:(lia)) as [D _]. rewrite app_nil_r in D.
    revert D. unfold utf8Bytes, utf16Units. decide_tests. intros D.
    cbn [map app Platform.untoken]. decide_tests.
    unfold Platform.decoded. rewrite D. cbn [utf8Decode option_map].
    destruct (Platform.untoken ts); reflexivity. }
  { pose proof (decode_4 (55296 + (cp - 65536) / 1024) (56320 + (cp - 65536) mod 1024) [])
      as D.
    replace (65536 + (55296 + (cp - 65536) / 1024 - 55296) * 1024 +
             (56320 + (cp - 65536) mod 1024 - 56320)) with cp in D
      by (Z.div_mod_to_equations; lia).
    destruct D as [D _]; [Z.div_mod_to_equations; lia | Z.div_mod_to_equations; lia |].
    rewrite app_nil_r in D.
    revert D. unfold utf8Bytes, utf16Units. decide_tests. intros D.
    cbn [map app Platform.untoken]. decide_tests.
    unfold Platform.decoded. rewrite D. cbn [utf8Decode option_map].
    destruct (Platform.untoken ts); reflexivity. }
Qed.

Lemma scalar_bytes (cp : Z) : isScalar cp -> Forall isByte (utf8Bytes cp).
Proof.
  unfold isScalar. intros S. unfold utf8Bytes.
  destruct (cp <? 128) eqn:C1; [repeat constructor; unfold isByte; lia|].
  destruct (cp <? 2048) eqn:C2;
    [repeat constructor; unfold isByte; Z.div_mod_to_equations; lia|].
  destruct (cp <? 65536) eqn:C3;
    repeat constructor; unfold isByte; Z.div_mod_to_equations; lia.
Qed.

Lemma encodeURIComponent_cons (c : Z) (s : jsstring) :
  Platform.encodeURIComponent (c :: s)
  = if Platform.uriUnreserved c
    then r <- Platform.encodeURIComponent s ;; Ok (c :: r)
    else if isHighSurrogate c then
      match s with
      | d :: s'' =>
          if isLowSurrogate d then
            r <- Platform.encodeURIComponent s'' ;;
            Ok (flat_map Platform.percent
                  (utf8Bytes (65536 + (c - 55296) * 1024 + (d - 56320))) ++ r)
          else Throw URIError
      | [] => Throw URIError
      end
    else if isLowSurrogate c then Throw URIError
    else r <- Platform.encodeURIComponent s ;;
         Ok (flat_map Platform.percent (utf8Bytes c) ++ r).
Proof. destruct s; reflexivity. Qed.

Lemma unreserved_plain (c : Z) :
  Platform.uriUnreserved c = true ->
  isHighSurrogate c = false /\ isLowSurrogate c = false.
Proof.
  unfold Platform.uriUnreserved, isHighSurrogate, isLowSurrogate. cbn [existsb].
  intros H. split; lia.
Qed.

Lemma uri_round_trip (s : jsstring) :
  wellFormed s = true ->
  exists out ts,
    Platform.encodeURIComponent s = Ok out /\
    Platform.tokens out = Some ts /\ Platform.untoken ts = Some s.
Proof.
  induction s as [|c|c d s IH1 IH2] using list_ind_12; intros W.
  - exists [], []. repeat split.
  - destruct (wellFormed_cons _ _ W) as [U [[_ [d [s' [E _]]]]|[H [L _]]]];
      [discriminate E|].
    rewrite encodeURIComponent_cons, H, L.
    destruct (unit_scalar c U H L) as [S V].
    destruct (Platform.uriUnreserved c) eqn:R.
    + exists [c], [Platform.Lit c]. split; [reflexivity|]. split; [|reflexivity].
      rewrite unreserved_token by exact R. reflexivity.
    + cbn [Platform.encodeURIComponent JS.bind].
      exists (flat_map Platform.percent (utf8Bytes c) ++ []),
             (map Platform.Byte (utf8Bytes c) ++ []).
      split; [reflexivity|]. split.
      * rewrite percent_tokens by (apply scalar_bytes; exact S). reflexivity.
      * rewrite untoken_scalar by exact S. rewrite V. reflexivity.
  - rewrite encodeURIComponent_cons.
    destruct (wellFormed_cons _ _ W) as [U [[H [d' [s' [E [L W']]]]]|[H [L W']]]].
    + injection E as <- <-. rewrite H, L.
      replace (Platform.uriUnreserved c) with false
        by (destruct (Platform.uriUnreserved c) eqn:R; [|reflexivity];
            destruct (unreserved_plain c R); congruence).
      destruct (pair_scalar c d H L) as [S [V _]].
      destruct (IH1 W') as [out [ts [E1 [E2 E3]]]].
      rewrite E1. cbn [JS.bind].
      eexists _, (map Platform.Byte _ ++ ts). split; [reflexivity|]. split.
      * rewrite percent_tokens by (apply scalar_bytes; exact S). rewrite E2. reflexivity.
      * rewrite untoken_scalar by exact S. rewrite E3, V. reflexivity.
    + rewrite H, L. destruct (unit_scalar c U H L) as [S V].
      destruct (IH2 W') as [out [ts [E1 [E2 E3]]]].
      rewrite E1. cbn [JS.bind].
      destruct (Platform.uriUnreserved c) eqn:R.
      * exists (c :: out), (Platform.Lit c :: ts). split; [reflexivity|]. split.
        -- rewrite unreserved_token by exact R. rewrite E2. reflexivity.
        -- cbn [Platform.untoken]. rewrite E3. reflexivity.
      * eexists _, (map Platform.Byte _ ++ ts). split; [reflexivity|]. split.
        -- rewrite percent_tokens by (apply scalar_bytes; exact S). rewrite E2.
           reflexivity.
        -- rewrite untoken_scalar by exact S. rewrite E3, V. reflexivity.
Qed.

(** X20. [encodeUrl] succeeds on every well-formed text, and [decodeUrl] returns
    that text from its result. *)
Theorem X20_url_text_round_trip (s : jsstring) :
  wellFormed s = true ->
  exists text, EncodeTool.encodeUrl s = Some text /\
               EncodeTool.decodeUrl text = Some s.
Proof.
  intros W. destruct (uri_round_trip s W) as [out [ts [E1 [E2 E3]]]].
  exists out. unfold EncodeTool.encodeUrl, EncodeTool.decodeUrl,
    Platform.decodeURIComponent.
  rewrite E1, E2, E3. split; reflexivity.
Qed.

Lemma X20_witness :
  exists text, EncodeTool.encodeUrl [104; 32; 233; 8364; 55357; 56832] = Some text /\
               EncodeTool.decodeUrl text = Some [104; 32; 233; 8364; 55357; 56832].
Proof.
  apply X20_url_text_round_trip. reflexivity.
Defined.

(** *** [detectFormat] on texts of the Base64 alphabet *)

Lemma lang_leading (r : Regex.t) (v : jsstring) :
  mustStart r = true -> lang r v ->
  exists c v', v = c :: v' /\ inRanges c (leading r) = true.
Proof.
  revert v. induction r as [| | |R|r1 IH1 r2 _|r1 _ r2 _|r _]; intros v M H;
    try discriminate M.
  - inversion H; subst. eexists _, []. split; [reflexivity | assumption].
  - cbn [mustStart leading] in *.
    inversion H as [| | |? ? u w Hu Hw| | | |]; subst.
    destruct (IH1 u M Hu) as [c [u' [-> I]]].
    exists c, (u' ++ w). split; [reflexivity | exact I].
Qed.

Lemma search_leading (r : Regex.t) (t : jsstring) :
  mustStart r = true -> search r t = true ->
  exists c, In c t /\ inRanges c (leading r) = true.
Proof.
  intros M S. unfold search in S. apply matches_lang in S.
  inversion S as [| | |? ? u vw _ Hvw| | | |]; subst.
  inversion Hvw as [| | |? ? v w Hv _| | | |]; subst.
  destruct (lang_leading r v M Hv) as [c [v' [-> I]]].
  exists c. split; [|exact I].
  apply in_or_app. right. left. reflexivity.
Qed.

Lemma search_absent (r : Regex.t) (t : jsstring) :
  mustStart r = true ->
  Forall (fun c => inRanges c (leading r) = false) t ->
  search r t = false.
Proof.
  intros M F. destruct (search r t) eqn:S; [|reflexivity].
  destruct (search_leading r t M S) as [c [I R]].
  rewrite Forall_forall in F. rewrite (F c I) in R. discriminate R.
Qed.

Lemma structured_patterns_need_other_characters (p : Regex.t) (t : jsstring) :
  In p ([EncodeTool.urlPattern; EncodeTool.unicodePattern;
         EncodeTool.jsonLikePattern; EncodeTool.xmlLikePattern;
         EncodeTool.htmlLikePattern] ++ EncodeTool.nonBase64Patterns) ->
  base64Text t -> search p t = false.
Proof.
  intros I B.
  assert (Q : forallb (fun p => mustStart p &&
                         forallb (fun c => negb (inRanges c (leading p)))
                                 (b64map ++ [61]))
                ([EncodeTool.urlPattern; EncodeTool.unicodePattern;
                  EncodeTool.jsonLikePattern; EncodeTool.xmlLikePattern;
                  EncodeTool.htmlLikePattern] ++ EncodeTool.nonBase64Patterns) = true)
    by (vm_compute; reflexivity).
  rewrite forallb_forall in Q. specialize (Q p I).
  apply andb_prop in Q. destruct Q as [M F].
  apply search_absent; [exact M|].
  eapply Forall_impl; [|exact (base64Text_chars t B)].
  intros c Hc. rewrite forallb_forall in F. apply negb_true_iff. exact (F c Hc).
Qed.

Lemma atob_base64Text (t : jsstring) :
  base64Text t -> (length t mod 4 = 0)%nat -> exists bs, Platform.atob t = Some bs.
Proof.
  intros [body [k [-> [K B]]]] L.
  unfold Platform.atob.
  assert (W : filter (fun c => negb (Platform.isAsciiWhitespace c)) (body ++ repeat 61 k)
              = body ++ repeat 61 k).
  { apply forallb_filter_id. apply forallb_forall. intros c Hc.
    apply in_app_or in Hc. destruct Hc as [Hc|Hc].
    - rewrite Forall_forall in B. destruct (isB64_plain c (B c Hc)) as [-> _].
      reflexivity.
    - apply repeat_spec in Hc. subst c. reflexivity. }
  rewrite W, L. cbn [Nat.eqb].
  rewrite stripPadding_padded;
    [| eapply Forall_impl; [|exact B]; intros c Hc; apply (isB64_plain c Hc) | exact K].
  replace (forallb (fun c => existsb (Z.eqb c) b64map) body) with true.
  - rewrite length_app, repeat_length in L.
    replace (length body mod 4 =? 1)%nat with false; [eexists; reflexivity|].
    symmetry. apply Nat.eqb_neq. intros E.
    pose proof (Nat.div_mod_eq (length body) 4) as D.
    pose proof (Nat.div_mod_eq (length body + k) 4) as D'.
    rewrite L in D'. rewrite E in D. lia.
  - symmetry. apply forallb_forall. intros c Hc. rewrite Forall_forall in B.
    apply (isB64_plain c (B c Hc)).
Qed.

(** X21. On a content whose trimmed text matches the Base64 pattern,
    [detectFormat] never takes the exclusions of its Base64 branch nor the
    [catch] around [atob]: the text is a list of numbers, hexadecimal, or,
    when its length is a multiple of 4, [base64]; it is [plain] only when
    its length is not a multiple of 4. *)
Theorem X21_base64_alphabet_text_is_never_excluded (content : jsstring) :
  content <> [] ->
  matches EncodeTool.base64Pattern (trim content) = true ->
  EncodeTool.detectFormat (Some content)
  = Some (let trimmed := trim content in
          if matches EncodeTool.numberList trimmed then
            if EncodeTool.allBytes (map Platform.parseInt10 (split 44 trimmed))
            then js "utf8-bytes" else js "ascii"
          else if matches EncodeTool.hexPattern trimmed &&
                  (length trimmed mod 2 =? 0)%nat then js "hex"
          else if (length trimmed mod 4 =? 0)%nat then js "base64"
          else js "plain").
Proof.
  intros N M. pose proof M as B.
  change EncodeTool.base64Pattern with base64Pattern in B.
  apply base64Pattern_spec in B.
  assert (S : forall p,
             In p ([EncodeTool.urlPattern; EncodeTool.unicodePattern;
                    EncodeTool.jsonLikePattern; EncodeTool.xmlLikePattern;
                    EncodeTool.htmlLikePattern] ++ EncodeTool.nonBase64Patterns) ->
             search p (trim content) = false).
  { intros p I. apply structured_patterns_need_other_characters; assumption. }
  unfold EncodeTool.detectFormat. destruct content as [|c0 content]; [congruence|].
  cbv zeta. set (t := trim (c0 :: content)) in *.
  rewrite (S EncodeTool.urlPattern) by (cbn; tauto).
  rewrite (S EncodeTool.unicodePattern) by (cbn; tauto).
  cbn [andb].
  destruct (matches EncodeTool.numberList t).
  { destruct (EncodeTool.allBytes _); reflexivity. }
  destruct (matches EncodeTool.hexPattern t && (length t mod 2 =? 0)%nat);
    [reflexivity|].
  rewrite M. cbn [andb].
  destruct (Nat.eqb_spec (length t mod 4) 0) as [L|L]; [|reflexivity].
  rewrite (S EncodeTool.jsonLikePattern) by (cbn; tauto).
  rewrite (S EncodeTool.xmlLikePattern) by (cbn; tauto).
  rewrite (S EncodeTool.htmlLikePattern) by (cbn; tauto).
  replace (existsb (fun pattern => search pattern t) EncodeTool.nonBase64Patterns)
    with false.
  - cbn [orb]. destruct (atob_base64Text t B L) as [bs ->]. reflexivity.
  - symmetry. apply not_true_is_false. intros E.
    apply existsb_exists in E. destruct E as [p [I Q]].
    rewrite (S p) in Q; [discriminate Q|].
    apply in_or_app. right. exact I.
Qed.

Lemma X21_witness :
  EncodeTool.detectFormat (Some (js "aGVsbG8="))
  = Some (let trimmed := trim (js "aGVsbG8=") in
          if matches EncodeTool.numberList trimmed then
            if EncodeTool.allBytes (map Platform.parseInt10 (split 44 trimmed))
            then js "utf8-bytes" else js "ascii"
          else if matches EncodeTool.hexPattern trimmed &&
                  (length trimmed mod 2 =? 0)%nat then js "hex"
          else if (length trimmed mod 4 =? 0)%nat then js "base64"
          else js "plain").
Proof.
  apply X21_base64_alphabet_text_is_never_excluded; [discriminate | reflexivity].
Defined.

(** *** The URL tool *)

Lemma base64_text_of_bytes (bs : list Z) :
  Forall isByte bs -> base64Text (Base64_stringify (ofBytes bs)).
Proof.
  intros B. destruct (body_decodes bs B) as [_ I].
  pose proof (body_length bs B) as L.
  unfold Base64_stringify, ofBytes, clamp, sigBytes2. cbn [bytes half].
  rewrite Z.sub_0_r.
  set (body := b64groups bs (2 * Z.of_nat (length bs))) in *.
  exists body, ((4 - length body mod 4) mod 4)%nat. split; [reflexivity|].
  split; [|exact I].
  pose proof (Nat.mod_upper_bound (length body) 4 ltac:(lia)) as U.
  destruct (length body mod 4)%nat as [|[|[|[|n]]]]; cbn; lia.
Qed.

(** X22. [isBase64Encoded] accepts exactly the texts that [btoa] produces: the
    Base64 texts of byte strings, with their padding. *)
Theorem X22_isBase64Encoded_iff_canonical (str : jsstring) :
  UrlTool.isBase64Encoded str = true <->
  exists bs, Forall isByte bs /\ str = Base64_stringify (ofBytes bs).
Proof.
  unfold UrlTool.isBase64Encoded. split.
  - destruct (matches EncodeTool.base64Pattern str); cbn [negb]; [|discriminate].
    destruct (Platform.atob str) as [decoded|]; [|discriminate].
    unfold Platform.btoa.
    destruct (forallb (fun c => (0 <=? c) && (c <=? 255)) decoded) eqn:R;
      [|discriminate].
    intros E. apply eqb_eq in E. exists decoded. split; [|symmetry; exact E].
    apply Forall_forall. intros c Hc. rewrite forallb_forall in R.
    specialize (R c Hc). unfold isByte. lia.
  - intros [bs [B ->]].
    pose proof (base64_text_of_bytes bs B) as T.
    apply base64Pattern_spec in T.
    change base64Pattern with EncodeTool.base64Pattern in T. rewrite T. cbn [negb].
    rewrite atob_base64 by exact B. unfold Platform.btoa.
    replace (forallb (fun c => (0 <=? c) && (c <=? 255)) bs) with true.
    + apply eqb_refl.
    + symmetry. apply forallb_forall. intros c Hc. rewrite Forall_forall in B.
      specialize (B c Hc). unfold isByte in B. lia.
Qed.

(** *** Page numbers *)

Lemma fromTo_In (a b x : Z) : In x (KeyConfigUtils.fromTo a b) <-> a <= x <= b.
Proof.
  unfold KeyConfigUtils.fromTo. rewrite in_map_iff. split.
  - intros [i [E I]]. apply in_seq in I. lia.
  - intros H. exists (Z.to_nat (x - a)). split; [lia|]. apply in_seq. lia.
Qed.

Lemma fromTo_length (a b : Z) :
  length (KeyConfigUtils.fromTo a b) = Z.to_nat (b - a + 1).
Proof. unfold KeyConfigUtils.fromTo. rewrite length_map, length_seq. reflexivity. Qed.

Lemma NoDup_map_injective {A B} (f : A -> B) (l : list A) :
  (forall x y, f x = f y -> x = y) -> NoDup l -> NoDup (map f l).
Proof.
  intros I. induction 1 as [|x l Hx _ IH]; [constructor|].
  cbn [map]. constructor; [|exact IH].
  intros H. apply in_map_iff in H. destruct H as [y [E Hy]].
  apply I in E. subst y. exact (Hx Hy).
Qed.

Lemma fromTo_NoDup (a b : Z) : NoDup (KeyConfigUtils.fromTo a b).
Proof.
  unfold KeyConfigUtils.fromTo. apply NoDup_map_injective; [|apply seq_NoDup].
  intros i j E. lia.
Qed.

(** X23. For a current page between 1 and [totalPages],
    [PaginationHelper.generatePageNumbers] returns distinct pages between 1
    and [totalPages] with the current page among them: five of them, or all
    of them when there are at most five. *)
Theorem X23_page_numbers_show_the_current_page (currentPage totalPages : Z) :
  1 <= currentPage <= totalPages ->
  let pages := KeyConfigUtils.generatePageNumbers currentPage totalPages in
  In currentPage pages /\
  Forall (fun p => 1 <= p <= totalPages) pages /\
  NoDup pages /\
  Z.of_nat (length pages) = Z.min totalPages 5.
Proof.
  intros R. cbv zeta. unfold KeyConfigUtils.generatePageNumbers.
  destruct (Z.leb_spec totalPages 5);
    [|destruct (Z.leb_spec currentPage 3);
      [|destruct (Z.leb_spec (totalPages - 2) currentPage)]];
    (split; [apply fromTo_In; lia|]);
    (split; [apply Forall_forall; intros p Hp; apply fromTo_In in Hp; lia|]);
    (split; [apply fromTo_NoDup|]);
    rewrite fromTo_length; lia.
Qed.

Lemma X23_witness :
  let pages := KeyConfigUtils.generatePageNumbers 7 9 in
  In 7 pages /\ Forall (fun p => 1 <= p <= 9) pages /\ NoDup pages /\
  Z.of_nat (length pages) = Z.min 9 5.
Proof.
  apply X23_page_numbers_show_the_current_page. lia.
Defined.

(** X24. For a current page between 1 and [total], the list of
    [generatePageNumbers] holds the first page, the current page and the last
    page, no page outside 1 to [total], and at most nine entries. *)
Theorem X24_pagination_keeps_first_current_and_last (current total : Z) :
  1 <= current <= total ->
  let items := AutoPagination.generatePageNumbers current total in
  In (AutoPagination.Page 1) items /\
  In (AutoPagination.Page current) items /\
  In (AutoPagination.Page total) items /\
  (forall n, In (AutoPagination.Page n) items -> 1 <= n <= total) /\
  (length items <= 9)%nat.
Proof.
  intros R. cbv zeta. unfold AutoPagination.generatePageNumbers.
  destruct (Z.leb_spec total 7) as [T|T].
  - repeat split.
    + apply in_map. apply fromTo_In. lia.
    + apply in_map. apply fromTo_In. lia.
    + apply in_map. apply fromTo_In. lia.
    + apply in_map_iff in H. destruct H as [x [E I]]. injection E as <-.
      apply fromTo_In in I. lia.
    + apply in_map_iff in H. destruct H as [x [E I]]. injection E as <-.
      apply fromTo_In in I. lia.
    + rewrite length_map, fromTo_length. lia.
  - cbv zeta.
    assert (P : forall n, In (AutoPagination.Page n)
                   (map AutoPagination.Page
                      (KeyConfigUtils.fromTo (Z.max 2 (current - 2))
                                             (Z.min (total - 1) (current + 2))))
                 <-> Z.max 2 (current - 2) <= n <= Z.min (total - 1) (current + 2)).
    { intros n. rewrite in_map_iff. split.
      - intros [x [E I]]. injection E as <-. apply fromTo_In. exact I.
      - intros H. exists n. split; [reflexivity | apply fromTo_In; exact H]. }
    assert (first : forall l, In (AutoPagination.Page 1)
              ((if 2 <? current - 2
                then [AutoPagination.Page 1; AutoPagination.Dots]
                else [AutoPagination.Page 1]) ++ l)).
    { intros l. destruct (2 <? current - 2); left; reflexivity. }
    assert (last : forall l, In (AutoPagination.Page total)
              (l ++ (if current + 2 <? total - 1
                     then [AutoPagination.Dots; AutoPagination.Page total]
                     else [AutoPagination.Page total]))).
    { intros l. apply in_or_app. right.
      destruct (current + 2 <? total - 1); cbn; tauto. }
    split; [apply first|]. split; [|split; [|split]].
    + destruct (Z.eq_dec current 1) as [->|N1]; [apply first|].
      destruct (Z.eq_dec current total) as [->|N2].
      * apply in_or_app. right. apply last.
      * apply in_or_app. right. apply in_or_app. left. apply P. lia.
    + apply in_or_app. right. apply last.
    + intros n H. apply in_app_or in H. destruct H as [H|H].
      * destruct (2 <? current - 2); cbn in H;
          repeat (destruct H as [H|H]; [try discriminate H; injection H as <-; lia|]);
          contradiction.
      * apply in_app_or in H. destruct H as [H|H]; [apply P in H; lia|].
        destruct (current + 2 <? total - 1); cbn in H;
          repeat (destruct H as [H|H]; [try discriminate H; injection H as <-; lia|]);
          contradiction.
    + rewrite !length_app, length_map, fromTo_length.
      destruct (2 <? current - 2); destruct (current + 2 <? total - 1);
        cbn [length]; lia.
Qed.

Lemma X24_witness :
  let items := AutoPagination.generatePageNumbers 5 10 in
  In (AutoPagination.Page 1) items /\
  In (AutoPagination.Page 5) items /\
  In (AutoPagination.Page 10) items /\
  (forall n, In (AutoPagination.Page n) items -> 1 <= n <= 10) /\
  (length items <= 9)%nat.
Proof.
  apply X24_pagination_keeps_first_current_and_last. lia.
Defined.

(** *** Pages of items *)

(** X25. With a positive [itemsPerPage], every item index below [totalItems]
    lies between [startIndex] and [endIndex] of exactly one page, and that
    page is between 1 and [totalPages]. *)
Theorem X25_every_item_is_on_one_page (totalItems itemsPerPage i : Z) :
  0 < itemsPerPage -> 0 <= i < totalItems ->
  let page := i / itemsPerPage + 1 in
  1 <= page <= KeyConfigUtils.totalPages
                 (KeyConfigUtils.calculatePagination totalItems page itemsPerPage) /\
  forall p,
    (KeyConfigUtils.startIndex
       (KeyConfigUtils.calculatePagination totalItems p itemsPerPage) <= i
     < KeyConfigUtils.endIndex
         (KeyConfigUtils.calculatePagination totalItems p itemsPerPage))
    <-> p = page.
Proof.
  intros P R. cbv zeta. unfold KeyConfigUtils.calculatePagination.
  cbn [KeyConfigUtils.totalPages KeyConfigUtils.startIndex KeyConfigUtils.endIndex].
  unfold KeyConfigUtils.ceilDiv.
  pose proof (Z.div_mod i itemsPerPage ltac:(lia)) as D1.
  pose proof (Z.mod_pos_bound i itemsPerPage P) as B1.
  pose proof (Z.div_mod (- totalItems) itemsPerPage ltac:(lia)) as D2.
  pose proof (Z.mod_pos_bound (- totalItems) itemsPerPage P) as B2.
  set (q := i / itemsPerPage) in *. set (r := i mod itemsPerPage) in *.
  set (q' := (- totalItems) / itemsPerPage) in *.
  set (r' := (- totalItems) mod itemsPerPage) in *.
  split.
  - split; [nia|]. nia.
  - intros p. split.
    + intros [H1 H2]. nia.
    + intros ->. nia.
Qed.

Lemma X25_witness :
  let page := 12 / 5 + 1 in
  1 <= page <= KeyConfigUtils.totalPages (KeyConfigUtils.calculatePagination 13 page 5) /\
  forall p,
    (KeyConfigUtils.startIndex (KeyConfigUtils.calculatePagination 13 p 5) <= 12
     < KeyConfigUtils.endIndex (KeyConfigUtils.calculatePagination 13 p 5))
    <-> p = page.
Proof.
  apply X25_every_item_is_on_one_page; lia.
Defined.

(** *** The list of configurations *)

(** X26. [getCurrentConfig] finds nothing under a name after
    [removeConfigFromList] of that name; after [updateConfigInList] it finds
    the updated configuration under its name exactly when the list had that
    name; and [updateConfigInList] keeps the names of the list and their
    order. *)
Theorem X26_lookup_after_update_and_removal
        (configs : list KeyConfig.t) (updatedConfig : KeyConfig.t) (configName : jsstring) :
  KeyConfigUtils.getCurrentConfig
    (KeyConfigUtils.removeConfigFromList configs configName) configName = None /\
  KeyConfigUtils.getCurrentConfig
    (KeyConfigUtils.updateConfigInList configs updatedConfig)
    (KeyConfig.name updatedConfig)
  = (if existsb (fun c => JS.eqb (KeyConfig.name c) (KeyConfig.name updatedConfig)) configs
     then Some updatedConfig else None) /\
  map KeyConfig.name (KeyConfigUtils.updateConfigInList configs updatedConfig)
  = map KeyConfig.name configs.
Proof.
  unfold KeyConfigUtils.getCurrentConfig, KeyConfigUtils.removeConfigFromList,
    KeyConfigUtils.updateConfigInList.
  split; [|split].
  - induction configs as [|c configs IH]; [reflexivity|].
    cbn [filter]. destruct (JS.eqb (KeyConfig.name c) configName) eqn:E; cbn [negb].
    + exact IH.
    + cbn [find]. rewrite E. exact IH.
  - induction configs as [|c configs IH]; [reflexivity|].
    cbn [map find existsb].
    destruct (JS.eqb (KeyConfig.name c) (KeyConfig.name updatedConfig)) eqn:E.
    + rewrite eqb_refl. reflexivity.
    + rewrite E. cbn [orb]. exact IH.
  - induction configs as [|c configs IH]; [reflexivity|].
    cbn [map]. rewrite IH.
    destruct (JS.eqb (KeyConfig.name c) (KeyConfig.name updatedConfig)) eqn:E;
      [|reflexivity].
    apply eqb_eq in E. rewrite E. reflexivity.
Qed.

(** *** Lists of encodings *)

Lemma uniqueFrom_length (seen l : list jsstring) :
  (length (EncodingHandler.uniqueFrom seen l) <= length l)%nat /\
  (length (EncodingHandler.uniqueFrom seen l) = length l <->
   NoDup l /\ forall e, In e l -> ~ In e seen).
Proof.
  revert seen. induction l as [|x l IH]; intros seen.
  - cbn. split; [lia|]. split; [intros _; split; [constructor | intros e []] | reflexivity].
  - cbn [EncodingHandler.uniqueFrom length].
    destruct (existsb (JS.eqb x) seen) eqn:E.
    + destruct (IH seen) as [L _]. split; [lia|]. split; [lia|].
      intros [_ H]. exfalso. apply (H x); [left; reflexivity|].
      apply existsb_exists in E. destruct E as [y [I Q]]. apply eqb_eq in Q.
      subst y. exact I.
    + destruct (IH (x :: seen)) as [L Q]. cbn [length]. split; [lia|].
      assert (N : ~ In x seen).
      { intros I. apply not_true_iff_false in E. apply E. apply existsb_exists.
        exists x. split; [exact I | apply eqb_refl]. }
      split.
      * intros H. assert (H' : length (EncodingHandler.uniqueFrom (x :: seen) l)
                               = length l) by lia.
        apply Q in H'. destruct H' as [ND D]. split.
        -- constructor; [|exact ND]. intros I. apply (D x I). left. reflexivity.
        -- intros e [<-|I]; [exact N|]. intros S. apply (D e I). right. exact S.
      * intros [ND D]. inversion ND as [|? ? Hx ND']; subst.
        f_equal. apply Q. split; [exact ND'|].
        intros e I [<-|S]; [exact (Hx I)|]. apply (D e); [right; exact I | exact S].
Qed.

Lemma validate_iff (E : list jsstring) :
  EncodingHandler.isValid (EncodingHandler.validateEncodingCombination (Some E)) = true
  <-> E <> [] /\ NoDup E.
Proof.
  unfold EncodingHandler.validateEncodingCombination.
  destruct E as [|x E]; [cbn; split; [discriminate | intros [H _]; congruence]|].
  destruct (uniqueFrom_length [] (x :: E)) as [_ Q].
  destruct (Nat.eqb_spec (length (EncodingHandler.uniqueFrom [] (x :: E)))
                         (length (x :: E))) as [L|L]; cbn [negb EncodingHandler.isValid].
  - split; [|reflexivity]. intros _. split; [discriminate|]. apply Q. exact L.
  - split; [discriminate|]. intros [_ ND]. exfalso. apply L. apply Q.
    split; [exact ND | intros e _ []].
Qed.

Lemma NoDup_snoc (l : list jsstring) (e : jsstring) :
  NoDup l -> ~ In e l -> NoDup (l ++ [e]).
Proof.
  intros ND N. apply NoDup_app; [exact ND | repeat constructor; intros [] |].
  intros x I [<-|[]]. exact (N I).
Qed.

Lemma includes_In (e : jsstring) (l : list jsstring) :
  existsb (JS.eqb e) l = true <-> In e l.
Proof.
  rewrite existsb_exists. split.
  - intros [y [I Q]]. apply eqb_eq in Q. subst y. exact I.
  - intros I. exists e. split; [exact I | apply eqb_refl].
Qed.

(** X27. Starting from entries without repetition, [addCipherEncoding] and
    [updateCompoundEncoding] with ['add'] yield a list that
    [validateEncodingCombination] accepts, whereas the list of
    [addPlainEncoding] is accepted exactly when the encoding was not there
    yet. *)
Theorem X27_adding_an_encoding_and_validity (encoding : jsstring) (prev : KeyConfig.t) :
  NoDup (AESCipher.orElse (KeyConfig.cipherEncoding prev) []) ->
  NoDup (AESCipher.orElse (KeyConfig.plainEncoding prev) []) ->
  EncodingHandler.isValid
    (EncodingHandler.validateEncodingCombination
       (KeyConfig.cipherEncoding (EncodingHandler.addCipherEncoding encoding prev)))
  = true /\
  EncodingHandler.isValid
    (EncodingHandler.validateEncodingCombination
       (Some (KeyConfigUtils.updateCompoundEncoding
                (KeyConfig.cipherEncoding prev) encoding (js "add"))))
  = true /\
  EncodingHandler.isValid
    (EncodingHandler.validateEncodingCombination
       (KeyConfig.plainEncoding (EncodingHandler.addPlainEncoding encoding prev)))
  = negb (existsb (JS.eqb encoding)
                  (AESCipher.orElse (KeyConfig.plainEncoding prev) [])).
Proof.
  intros C P. split; [|split].
  - unfold EncodingHandler.addCipherEncoding.
    destruct (existsb (JS.eqb encoding)
                (AESCipher.orElse (KeyConfig.cipherEncoding prev) [])) eqn:E;
      cbn [negb].
    + apply includes_In in E.
      destruct (KeyConfig.cipherEncoding prev) as [l|]; cbn [AESCipher.orElse] in *;
        [|destruct E].
      apply validate_iff. split; [intros ->; destruct E | exact C].
    + cbn [EncodingHandler.withCipherEncoding KeyConfig.cipherEncoding].
      apply validate_iff. split; [intros Q; apply app_eq_nil in Q; destruct Q; discriminate|].
      apply NoDup_snoc; [exact C|]. intros I. apply includes_In in I. congruence.
  - unfold KeyConfigUtils.updateCompoundEncoding.
    change (JS.eqb (js "add") (js "add")) with true. cbv iota.
    fold (AESCipher.orElse (KeyConfig.cipherEncoding prev) []).
    destruct (existsb (JS.eqb encoding)
                (AESCipher.orElse (KeyConfig.cipherEncoding prev) [])) eqn:E;
      cbn [negb]; apply validate_iff.
    + apply includes_In in E. split; [intros Q; rewrite Q in E; destruct E | exact C].
    + split; [intros Q; apply app_eq_nil in Q; destruct Q; discriminate|].
      apply NoDup_snoc; [exact C|]. intros I. apply includes_In in I. congruence.
  - unfold EncodingHandler.addPlainEncoding.
    cbn [EncodingHandler.withPlainEncoding KeyConfig.plainEncoding].
    destruct (existsb (JS.eqb encoding)
                (AESCipher.orElse (KeyConfig.plainEncoding prev) [])) eqn:E;
      cbn [negb].
    + apply not_true_iff_false. intros V. apply validate_iff in V.
      destruct V as [_ ND]. apply includes_In in E.
      apply NoDup_remove_2 in ND. rewrite app_nil_r in ND. exact (ND E).
    + apply validate_iff. split; [intros Q; apply app_eq_nil in Q; destruct Q; discriminate|].
      apply NoDup_snoc; [exact P|]. intros I. apply includes_In in I. congruence.
Qed.

Lemma X27_witness :
  EncodingHandler.isValid
    (EncodingHandler.validateEncodingCombination
       (KeyConfig.cipherEncoding (EncodingHandler.addCipherEncoding BASE64 cbcConfig)))
  = true /\
  EncodingHandler.isValid
    (EncodingHandler.validateEncodingCombination
       (Some (KeyConfigUtils.updateCompoundEncoding
                (KeyConfig.cipherEncoding cbcConfig) BASE64 (js "add"))))
  = true /\
  EncodingHandler.isValid
    (EncodingHandler.validateEncodingCombination
       (KeyConfig.plainEncoding (EncodingHandler.addPlainEncoding BASE64 cbcConfig)))
  = negb (existsb (JS.eqb BASE64)
                  (AESCipher.orElse (KeyConfig.plainEncoding cbcConfig) [])).
Proof.
  apply X27_adding_an_encoding_and_validity; repeat constructor; intros [].
Defined.

(** *** What the display says and what the cipher does *)

(** X28. When [getConfigBasicInfo] reports [needsPadding] for a configuration
    with a non-empty mode, [AESCipher.decrypt] hands the cipher the padding
    Pkcs7 and the mode CBC or ECB for that mode. *)
Theorem X28_a_mode_shown_as_padded_is_padded
        (config : KeyConfig.t) (m padding : jsstring) (iv : WordArray) :
  KeyConfig.mode config = Some m -> m <> [] ->
  ConfigDisplayHandler.needsPadding (ConfigDisplayHandler.getConfigBasicInfo config) = true ->
  opt_padding (AESCipher.decryptOptions m padding iv) = Pkcs7 /\
  (opt_mode (AESCipher.decryptOptions m padding iv) = CBC \/
   opt_mode (AESCipher.decryptOptions m padding iv) = ECB).
Proof.
  intros M N H. unfold ConfigDisplayHandler.getConfigBasicInfo in H.
  cbn [ConfigDisplayHandler.needsPadding] in H. rewrite M in H.
  destruct m as [|c m]; [congruence|].
  cbn [ConfigDisplayHandler.orText AESCipher.orElse] in H.
  unfold ConfigDisplayHandler.NEED_PADDING_MODES in H. cbn [existsb] in H.
  rewrite orb_false_r in H. apply orb_prop in H.
  destruct H as [H|H]; apply eqb_eq in H; rewrite H; split;
    try (left; reflexivity); try (right; reflexivity);
    unfold AESCipher.decryptOptions; cbn [opt_padding];
    rewrite pad_fixed_none; try reflexivity;
    apply Forall_removeFirst; apply toUpperCase_no_lower.
Qed.

Lemma X28_witness :
  opt_padding (AESCipher.decryptOptions (js "CBC") (js "PKCS5Padding") (ofBytes [])) = Pkcs7 /\
  (opt_mode (AESCipher.decryptOptions (js "CBC") (js "PKCS5Padding") (ofBytes [])) = CBC \/
   opt_mode (AESCipher.decryptOptions (js "CBC") (js "PKCS5Padding") (ofBytes [])) = ECB).
Proof.
  apply (X28_a_mode_shown_as_padded_is_padded cbcConfig); [reflexivity | discriminate | reflexivity].
Defined.

(** *** The validators *)

Lemma trim_nonempty (s : jsstring) : trim s <> [] -> s <> [].
Proof. intros H E. subst s. apply H. reflexivity. Qed.

Lemma hasText_hasValue (m : option KeyConfig.KeyMaterial) :
  KeyConfigUtils.hasText m = true -> KeyConfigUtils.hasValue m = true.
Proof.
  unfold KeyConfigUtils.hasText, KeyConfigUtils.hasValue.
  destruct m as [k|]; [|discriminate]. intros H.
  apply negb_true_iff in H. apply eqb_neq in H. apply trim_nonempty in H.
  apply negb_true_iff. apply eqb_neq. exact H.
Qed.

(** X29. A configuration that [validateRequiredFields] accepts is accepted by
    [getConfigStatusInfo] and by [isValidConfig], and it has the keys that
    the ciphers ask for: a public and a private key with non-empty values
    when its algorithm starts with RSA, a key with a non-empty value
    otherwise. *)
Theorem X29_validated_configuration_has_its_keys (config : KeyConfig.t) :
  KeyConfigUtils.isValid (KeyConfigUtils.validateRequiredFields config) = true ->
  ConfigDisplayHandler.status_isValid
    (ConfigDisplayHandler.getConfigStatusInfo (Some config)) = true /\
  KeyConfigUtils.isValidConfig (Some config) = true /\
  if KeyConfigUtils.algorithmIsRSA config
  then exists pub priv,
         KeyConfig.publicKey config = Some pub /\ KeyConfig.value pub <> [] /\
         KeyConfig.privateKey config = Some priv /\ KeyConfig.value priv <> []
  else exists k, KeyConfig.key config = Some k /\ KeyConfig.value k <> [].
Proof.
  unfold KeyConfigUtils.validateRequiredFields, ConfigDisplayHandler.getConfigStatusInfo,
    KeyConfigUtils.isValidConfig.
  assert (V : forall m, KeyConfigUtils.hasValue m = true ->
                        exists k, m = Some k /\ KeyConfig.value k <> []).
  { intros [k|]; [|discriminate]. unfold KeyConfigUtils.hasValue. intros H.
    apply negb_true_iff in H. apply eqb_neq in H. exists k. split; [reflexivity | exact H]. }
  destruct (JS.eqb (trim (KeyConfig.name config)) []) eqn:N; [discriminate|].
  apply eqb_neq in N. apply trim_nonempty in N. apply eqb_neq in N. rewrite N.
  destruct (KeyConfigUtils.algorithmIsRSA config).
  - destruct (KeyConfigUtils.hasText (KeyConfig.publicKey config)) eqn:A;
      destruct (KeyConfigUtils.hasText (KeyConfig.privateKey config)) eqn:B;
      cbn [negb orb]; try discriminate.
    intros _. apply hasText_hasValue in A, B. rewrite A, B.
    split; [reflexivity|]. split; [reflexivity|].
    destruct (V _ A) as [pub [-> Hp]]. destruct (V _ B) as [priv [-> Hq]].
    exists pub, priv. repeat split; assumption.
  - destruct (KeyConfigUtils.hasText (KeyConfig.key config)) eqn:A;
      cbn [negb]; try discriminate.
    intros _. apply hasText_hasValue in A. rewrite A.
    split; [reflexivity|]. split; [reflexivity|]. exact (V _ A).
Qed.

Lemma X29_witness :
  ConfigDisplayHandler.status_isValid
    (ConfigDisplayHandler.getConfigStatusInfo (Some rsaHexConfig)) = true /\
  KeyConfigUtils.isValidConfig (Some rsaHexConfig) = true /\
  if KeyConfigUtils.algorithmIsRSA rsaHexConfig
  then exists pub priv,
         KeyConfig.publicKey rsaHexConfig = Some pub /\ KeyConfig.value pub <> [] /\
         KeyConfig.privateKey rsaHexConfig = Some priv /\ KeyConfig.value priv <> []
  else exists k, KeyConfig.key rsaHexConfig = Some k /\ KeyConfig.value k <> [].
Proof.
  apply X29_validated_configuration_has_its_keys. reflexivity.
Defined.
